(** * Copy-on-write buffers and container layers

    A shallow embedding of [memory_benchmark.c] (the reference-counted
    [cow_array]) and of [containerStorage.c] (the layer-sharing storage
    calculation), with the properties of the copy-on-write contract that
    the code does, or does not, satisfy.

    The C heap is a finite map from block identifiers to blocks; a block
    records its size in bytes and the [int] cells that have been written.
    Handles ([cow_array] values) live in variables of the caller; a
    [cow_array*] argument is the name of such a variable.  Every C
    statement is a computation in a state monad whose result is either a
    normal return, undefined behaviour, or a call of [exit].  malloc fails
    when an oracle in the state says so, and rand() returns the values of a
    given sequence.

    [benchmark_traditional], the sibling of [benchmark_cow] that copies
    every array at once, runs in the same monad; its local pointers are
    values of the embedding.  [benchmark_rounds] is the loop of main that
    runs the two in turn.  The functions of [containerStorage.c] appear
    twice: by value, for the storage calculation, and in the module [Mem]
    with the objects they allocate and free, for the life cycle of
    containers and layers.

    Output, timing and the disk monitor of [readWriteCompare.c] are not
    modelled: they neither read nor change the state described here. *)

From Stdlib Require Import ZArith Lia.
From stdpp Require Import base option list gmap strings pretty.

#[local] Set Warnings "-clear-no-such-hyp".
Local Open Scope Z_scope.

(** ** Machine integers *)

Definition INT_MAX : Z := 2147483647.
Definition INT_MIN : Z := -2147483648.

(** [size_t] is the 64-bit unsigned type of the Windows x64 target. *)
Definition SIZE_MODULUS : Z := 2 ^ 64.
Definition sizeof_int : Z := 4.

Definition to_size_t (z : Z) : Z := z mod SIZE_MODULUS.
Definition size_t_add (a b : Z) : Z := (a + b) mod SIZE_MODULUS.
Definition size_t_mul (a b : Z) : Z := (a * b) mod SIZE_MODULUS.

Definition in_int_range (z : Z) : bool := (INT_MIN <=? z) && (z <=? INT_MAX).

(** ** Constants of memory_benchmark.c *)

Definition ARRAY_SIZE : Z := 120000000.
Definition NUM_COPIES : Z := 50.
Definition NUM_MODIFICATIONS : Z := 2400.

(** ** Pointers, blocks and handles *)

Inductive ptr : Type :=
| NULL
| Addr (b : positive).

Global Instance ptr_eq_dec : EqDecision ptr.
Proof. solve_decision. Defined.

(** A heap block: its size in bytes and the [int] cells written so far,
    by element index.  A cell that was never written is indeterminate. *)
Record block : Type := Block {
  blk_bytes : Z;
  blk_cells : gmap Z Z
}.

(** typedef struct { int* data; int* ref_count; } cow_array; *)
Record cow_array : Type := CowArray {
  data : ptr;
  ref_count : ptr
}.

Global Instance cow_array_eq_dec : EqDecision cow_array.
Proof. solve_decision. Defined.

(** Ghost record of what the allocator and the copy routine were asked to
    do, newest event first.  [EWrite] is logged by a store through a handle
    and carries the value the handle's counter had at that moment. *)
Inductive event : Type :=
| EMalloc (b : positive) (nbytes : Z)
| EMallocFail (nbytes : Z)
| EMemcpy (dst src : positive) (nbytes : Z)
| EFree (b : positive)
| EWrite (b : ptr) (index : Z) (sharers : option Z).

Global Instance event_eq_dec : EqDecision event.
Proof. solve_decision. Defined.

Record world : Type := World {
  vars : gmap nat cow_array;   (* handle variables of the caller *)
  heap : gmap positive block;  (* allocated blocks *)
  next_block : positive;       (* identifier of the next allocation *)
  oracle : list bool;          (* outcome of the coming calls of malloc *)
  rand_calls : nat;            (* number of calls of rand so far *)
  events : list event
}.

Definition set_vars (f : gmap nat cow_array → gmap nat cow_array) (w : world) : world :=
  World (f (vars w)) (heap w) (next_block w) (oracle w) (rand_calls w) (events w).
Definition set_heap (f : gmap positive block → gmap positive block) (w : world) : world :=
  World (vars w) (f (heap w)) (next_block w) (oracle w) (rand_calls w) (events w).
Definition log_event (e : event) (w : world) : world :=
  World (vars w) (heap w) (next_block w) (oracle w) (rand_calls w) (e :: events w).

(** ** The monad of C statements *)

Inductive result (A : Type) : Type :=
| Done (a : A) (w : world)     (* the statement completed *)
| Fault (w : world)            (* undefined behaviour, in the state it arose *)
| Exit (code : Z) (w : world). (* the program called exit *)
Arguments Done {A} a w.
Arguments Fault {A} w.
Arguments Exit {A} code w.

Definition M (A : Type) : Type := world → result A.

Global Instance M_ret : MRet M := λ A a w, Done a w.
Global Instance M_bind : MBind M := λ A B k m w,
  match m w with
  | Done a w' => k a w'
  | Fault w' => Fault w'
  | Exit c w' => Exit c w'
  end.

Definition exit {A : Type} (code : Z) : M A := λ w, Exit code w.

Definition final_world {A : Type} (r : result A) : world :=
  match r with
  | Done _ w => w
  | Fault w => w
  | Exit _ w => w
  end.

(** ** Variables holding handles *)

Definition get_var (x : nat) : M cow_array := λ w,
  match vars w !! x with
  | Some h => Done h w
  | None => Fault w
  end.

Definition set_var (x : nat) (h : cow_array) : M unit := λ w,
  Done tt (set_vars (insert x h) w).

(** ** The C library *)

(** The world after a successful, and after a failed, call of malloc. *)
Definition alloc (nbytes : Z) (w : world) : world :=
  World (vars w) (<[next_block w := Block nbytes ∅]> (heap w))
        (Pos.succ (next_block w)) (tail (oracle w)) (rand_calls w)
        (EMalloc (next_block w) nbytes :: events w).

Definition alloc_fail (nbytes : Z) (w : world) : world :=
  World (vars w) (heap w) (next_block w) (tail (oracle w)) (rand_calls w)
        (EMallocFail nbytes :: events w).

(** malloc: fails (returns NULL) when the oracle says so, and otherwise
    returns a block that was never handed out before. *)
Definition malloc (nbytes : Z) : M ptr := λ w,
  match oracle w with
  | false :: _ => Done NULL (alloc_fail nbytes w)
  | _ => Done (Addr (next_block w)) (alloc nbytes w)
  end.

(** free: NULL is ignored; freeing anything that is not an allocated block
    is undefined. *)
Definition free (p : ptr) : M unit := λ w,
  match p with
  | NULL => Done tt w
  | Addr b =>
      match heap w !! b with
      | Some _ => Done tt (log_event (EFree b) (set_heap (delete b) w))
      | None => Fault w
      end
  end.

Definition in_bounds (blk : block) (i : Z) : bool :=
  (0 <=? i) && (sizeof_int * (i + 1) <=? blk_bytes blk).

(** p[i] as an rvalue; reading a cell that was never written is treated
    as undefined. *)
Definition load_int (p : ptr) (i : Z) : M Z := λ w,
  match p with
  | NULL => Fault w
  | Addr b =>
      match heap w !! b with
      | Some blk =>
          if in_bounds blk i then
            match blk_cells blk !! i with
            | Some v => Done v w
            | None => Fault w
            end
          else Fault w
      | None => Fault w
      end
  end.

(** The heap after cell [i] of block [b] is set to [v]. *)
Definition poke (b : positive) (i v : Z) (hp : gmap positive block) : gmap positive block :=
  match hp !! b with
  | Some blk => <[b := Block (blk_bytes blk) (<[i := v]> (blk_cells blk))]> hp
  | None => hp
  end.

(** p[i] = v *)
Definition store_int (p : ptr) (i : Z) (v : Z) : M unit := λ w,
  match p with
  | NULL => Fault w
  | Addr b =>
      match heap w !! b with
      | Some blk => if in_bounds blk i then Done tt (set_heap (poke b i v) w) else Fault w
      | None => Fault w
      end
  end.

(** The cells of [dst] after copying the first [n] elements of [src]. *)
Definition copy_cells (n : Z) (src dst : gmap Z Z) : gmap Z Z :=
  filter (λ kv, kv.1 < n) src ∪ filter (λ kv, n ≤ kv.1) dst.

(** The heap after the first [nbytes] bytes of block [s] are copied to
    block [d]. *)
Definition blit (d s : positive) (nbytes : Z) (hp : gmap positive block) : gmap positive block :=
  match hp !! d, hp !! s with
  | Some bd, Some bs =>
      <[d := Block (blk_bytes bd)
                   (copy_cells (nbytes `div` sizeof_int) (blk_cells bs) (blk_cells bd))]> hp
  | _, _ => hp
  end.

(** memcpy(dst, src, nbytes) for a whole number of [int]s; the two areas
    must lie inside allocated blocks and must not overlap. *)
Definition memcpy (dst src : ptr) (nbytes : Z) : M unit := λ w,
  match dst, src with
  | Addr d, Addr s =>
      match heap w !! d, heap w !! s with
      | Some bd, Some bs =>
          if (0 <=? nbytes) && (nbytes <=? blk_bytes bd) && (nbytes <=? blk_bytes bs)
             && negb (bool_decide (d = s))
          then Done tt (log_event (EMemcpy d s nbytes) (set_heap (blit d s nbytes) w))
          else Fault w
      | _, _ => Fault w
      end
  | _, _ => Fault w
  end.

(** [int] increment and decrement; signed overflow is undefined. *)
Definition int_incr (c : Z) : M Z := λ w,
  if in_int_range (c + 1) then Done (c + 1) w else Fault w.
Definition int_decr (c : Z) : M Z := λ w,
  if in_int_range (c - 1) then Done (c - 1) w else Fault w.

(** ** The copy-on-write array *)

(** cow_array cow_create(int size) *)
Definition cow_create (size : Z) : M cow_array :=
  d ← malloc (size_t_mul (to_size_t size) sizeof_int);
  r ← malloc sizeof_int;
  store_int r 0 1;;
  mret (CowArray d r).

(** cow_array cow_copy(cow_array src) *)
Definition cow_copy (src : cow_array) : M cow_array :=
  let dest := src in
  c ← load_int (ref_count dest) 0;
  c' ← int_incr c;
  store_int (ref_count dest) 0 c';;
  mret dest.

(** void cow_ensure_unique(cow_array* arr) *)
Definition cow_ensure_unique (arr : nat) : M unit :=
  h ← get_var arr;
  c ← load_int (ref_count h) 0;
  if 1 <? c then
    let old_data := data h in
    d ← malloc (size_t_mul ARRAY_SIZE sizeof_int);
    set_var arr (CowArray d (ref_count h));;
    memcpy d old_data (size_t_mul ARRAY_SIZE sizeof_int);;
    c1 ← load_int (ref_count h) 0;
    c2 ← int_decr c1;
    store_int (ref_count h) 0 c2;;
    r ← malloc sizeof_int;
    set_var arr (CowArray d r);;
    store_int r 0 1
  else mret tt.

(** void cow_free(cow_array* arr) *)
Definition cow_free (arr : nat) : M unit :=
  h ← get_var arr;
  c ← load_int (ref_count h) 0;
  c' ← int_decr c;
  store_int (ref_count h) 0 c';;
  c0 ← load_int (ref_count h) 0;
  if c0 =? 0 then
    free (data h);;
    free (ref_count h)
  else mret tt.

(** ** Access through a handle *)

(** The [int] in cell [i] of the block [p] points at, if the block is
    allocated, the cell lies inside it and was written. *)
Definition cell (w : world) (p : ptr) (i : Z) : option Z :=
  match p with
  | NULL => None
  | Addr b => blk ← heap w !! b; if in_bounds blk i then blk_cells blk !! i else None
  end.

(** The value of the counter a handle points at, if it can be read. *)
Definition sharers (w : world) (h : cow_array) : option Z := cell w (ref_count h) 0.

(** x.data[index] = v, the store the benchmark performs on a handle
    variable.  The store itself is all the C code does; the event is
    ghost. *)
Definition write_elem (x : nat) (index v : Z) : M unit :=
  h ← get_var x;
  (λ w, Done tt (log_event (EWrite (data h) index (sharers w h)) w));;
  store_int (data h) index v.

(** x.data[index] as an rvalue.  The code has no function that reads an
    element; this is the expression a client evaluates. *)
Definition read_elem (x : nat) (index : Z) : M Z :=
  h ← get_var x;
  load_int (data h) index.

(** ** rand *)

Section Rand.
(** The sequence of values rand() returns. *)
Variable rnd : nat → Z.

Definition rand : M Z := λ w,
  Done (rnd (rand_calls w))
       (World (vars w) (heap w) (next_block w) (oracle w) (S (rand_calls w)) (events w)).

(** ** benchmark_cow *)

(** for (int i = start; i < start + count; i++) body(i) *)
Fixpoint for_loop (start count : nat) (body : nat → M unit) : M unit :=
  match count with
  | O => mret tt
  | S k => body start;; for_loop (S start) k body
  end.

(** The variables of benchmark_cow: original, and copies[i]. *)
Definition original : nat := 0%nat.
Definition copies (i : nat) : nat := S i.

(** The inner loop of benchmark_cow over j, with its flag made_unique. *)
Fixpoint modify_loop (x : nat) (count : nat) (made_unique : bool) : M unit :=
  match count with
  | O => mret tt
  | S k =>
      r ← rand;
      let index := Z.rem r ARRAY_SIZE in
      (if made_unique then mret tt else cow_ensure_unique x);;
      v ← rand;
      write_elem x index v;;
      modify_loop x k true
  end.

Definition benchmark_cow : M unit :=
  o ← cow_create ARRAY_SIZE;
  set_var original o;;
  (if bool_decide (data o = NULL) then exit 1 else mret tt);;
  for_loop 0 (Z.to_nat ARRAY_SIZE)
    (λ i, v ← rand; write_elem original (Z.of_nat i) v);;
  for_loop 0 (Z.to_nat NUM_COPIES)
    (λ i, o ← get_var original; c ← cow_copy o; set_var (copies i) c);;
  for_loop 0 (Z.to_nat NUM_COPIES)
    (λ i, modify_loop (copies i) (Z.to_nat NUM_MODIFICATIONS) false);;
  cow_free original;;
  for_loop 0 (Z.to_nat NUM_COPIES) (λ i, cow_free (copies i)).
End Rand.

(** ** Clients of the interface, as sequences of operations *)

Inductive op : Type :=
| OpShare (src dst : nat)            (* dst = cow_copy(src) *)
| OpRelease (x : nat)                (* cow_free(&x) *)
| OpEnsure (x : nat)                 (* cow_ensure_unique(&x) *)
| OpWrite (x : nat) (index v : Z).   (* x.data[index] = v *)

Definition step (o : op) : M unit :=
  match o with
  | OpShare src dst => h ← get_var src; c ← cow_copy h; set_var dst c
  | OpRelease x => cow_free x
  | OpEnsure x => cow_ensure_unique x
  | OpWrite x index v => write_elem x index v
  end.

Fixpoint run (ops : list op) : M unit :=
  match ops with
  | [] => mret tt
  | o :: rest => step o;; run rest
  end.

(** The handle variables that are live after a sequence of share and
    release operations, or [None] when the sequence uses a variable that
    holds no live handle, or overwrites one that does. *)
Fixpoint track (ops : list op) (live : gset nat) : option (gset nat) :=
  match ops with
  | [] => Some live
  | OpShare src dst :: rest =>
      if bool_decide (src ∈ live) && bool_decide (dst ∉ live)
      then track rest ({[dst]} ∪ live) else None
  | OpRelease x :: rest =>
      if bool_decide (x ∈ live) then track rest (live ∖ {[x]}) else None
  | _ :: _ => None
  end.

(** How often a block was passed to free. *)
Definition frees_of (b : positive) (evs : list event) : nat :=
  length (filter (λ e, e = EFree b) evs).

(** How often memcpy ran. *)
Definition is_memcpy (e : event) : bool :=
  match e with EMemcpy _ _ _ => true | _ => false end.
Definition copies_made (evs : list event) : nat :=
  length (filter (λ e, is_memcpy e = true) evs).

(** A world without blocks or variables, whose allocations follow [o]. *)
Definition init_world (o : list bool) : world := World ∅ ∅ 1%positive o 0 [].

(** Blocks are numbered below [next_block], so malloc returns a block that
    is not allocated and that no earlier event names. *)
Definition wf (w : world) : Prop :=
  (∀ b, is_Some (heap w !! b) → (b < next_block w)%positive) ∧
  (∀ b, EFree b ∈ events w → (b < next_block w)%positive).

(** [wf] as a check that can be run. *)
Definition wfb (w : world) : bool :=
  bool_decide (map_Forall (λ b _, (b < next_block w)%positive) (heap w)) &&
  forallb (λ e, match e with EFree b => bool_decide (b < next_block w)%positive | _ => true end)
          (events w).

(** [n] coming calls of malloc succeed. *)
Definition allocs_ok (n : nat) (w : world) : bool :=
  forallb (λ b : bool, b) (take n (oracle w)).

(** The payload of a handle holds at least [n] elements. *)
Definition payload_holds (w : world) (h : cow_array) (n : Z) : Prop :=
  ∃ d blk, data h = Addr d ∧ heap w !! d = Some blk ∧ sizeof_int * n ≤ blk_bytes blk.

(** What holds of a world in which exactly the variables in [live] hold
    handles on the payload [d] with counter [r] that were not yet released:
    the counter is the number of these handles and the payload was never
    freed, until no handle is left, when both blocks are gone and the
    payload was freed once. *)
Definition accounted (d r : positive) (live : gset nat) (w : world) : Prop :=
  let h := CowArray (Addr d) (Addr r) in
  (∀ x, x ∈ live → vars w !! x = Some h) ∧
  (live ≠ ∅ →
     sharers w h = Some (Z.of_nat (size live)) ∧
     is_Some (heap w !! d) ∧ frees_of d (events w) = 0%nat) ∧
  (live = ∅ →
     heap w !! d = None ∧ heap w !! r = None ∧ frees_of d (events w) = 1%nat).

(** A handle that cow_ensure_unique can fork: it is shared, and its
    payload is large enough for the copy. *)
Record forkable (w : world) (x : nat) (d r : positive) (k : Z) : Prop := {
  fk_wf : wf w;
  fk_var : vars w !! x = Some (CowArray (Addr d) (Addr r));
  fk_ne : d ≠ r;
  fk_count : cell w (Addr r) 0 = Some k;
  fk_shared : 2 ≤ k ≤ INT_MAX;
  fk_payload : payload_holds w (CowArray (Addr d) (Addr r)) ARRAY_SIZE
}.

(** The world after cow_ensure_unique has forked the handle in variable
    [x], whose payload is block [d] and whose counter, in block [r], was
    [k]. *)
Definition forked (x : nat) (d r : positive) (k : Z) (w : world) : world :=
  let nbytes := size_t_mul ARRAY_SIZE sizeof_int in
  let d' := next_block w in
  let w1 := set_vars (insert x (CowArray (Addr d') (Addr r))) (alloc nbytes w) in
  let w2 := log_event (EMemcpy d' d nbytes) (set_heap (blit d' d nbytes) w1) in
  let w3 := set_heap (poke r 0 (k - 1)) w2 in
  let r' := next_block w3 in
  let w4 := set_vars (insert x (CowArray (Addr d') (Addr r'))) (alloc sizeof_int w3) in
  set_heap (poke r' 0 1) w4.

(** ** containerStorage.c *)

(** typedef struct { char id[64]; size_t size_mb; char content_hash[64]; } Layer;
    Layers are never modified once created, so a [Layer*] is modelled by
    the layer it points at. *)
Record Layer : Type := MkLayer {
  id : string;
  size_mb : Z;
  content_hash : string
}.

(** typedef struct { char id[64]; Layer** layers; int layer_count; } Container; *)
Record Container : Type := MkContainer {
  container_id : string;
  layers : list Layer;
  layer_count : Z
}.

Definition create_ubuntu_layer : Layer :=
  MkLayer "ubuntu:latest" 120 "sha256:ubuntu-base-layer".

Definition create_container_layer (container_id : Z) : Layer :=
  MkLayer ("container-" +:+ pretty container_id +:+ "-layer") 3
          ("sha256:container-" +:+ pretty container_id +:+ "-unique").

(** The containers written to containers[0 .. count-1]. *)
Definition create_containers_no_cow (count : Z) : list Container :=
  (λ i, MkContainer ("container-" +:+ pretty (i + 1)) [create_ubuntu_layer] 1)
    <$> seqZ 0 count.

Definition create_containers_cow (count : Z) (shared_ubuntu : Layer) : list Container :=
  (λ i, MkContainer ("container-" +:+ pretty (i + 1))
                    [shared_ubuntu; create_container_layer (i + 1)] 2)
    <$> seqZ 0 count.

(** for (int j = from; j < c->layer_count; j++) total += c->layers[j]->size_mb;
    [None] when the loop reads past the array of layers. *)
Definition add_layers (from : Z) (c : Container) (total : Z) : option Z :=
  foldl (λ acc j, t ← acc; l ← layers c !! Z.to_nat j; Some (size_t_add t (size_mb l)))
        (Some total) (seqZ from (layer_count c - from)).

(** The loop over i of both calculations, whose inner loop starts at layer
    [from]; [None] when it reads past the array of containers. *)
Definition add_containers (from : Z) (containers : list Container) (count : Z)
    (total : Z) : option Z :=
  foldl (λ acc i, t ← acc; c ← containers !! Z.to_nat i; add_layers from c t)
        (Some total) (seqZ 0 count).

(** size_t calculate_storage_no_cow(Container** containers, int count) *)
Definition calculate_storage_no_cow (containers : list Container) (count : Z) : option Z :=
  add_containers 0 containers count 0.

(** size_t calculate_storage_cow(Container** containers, int count, Layer* shared_ubuntu) *)
Definition calculate_storage_cow (containers : list Container) (count : Z)
    (shared_ubuntu : Layer) : option Z :=
  add_containers 1 containers count (size_mb shared_ubuntu).

(** The two totals main prints. *)
Definition CONTAINER_COUNT : Z := 10.

Definition storage_no_cow : option Z :=
  calculate_storage_no_cow (create_containers_no_cow CONTAINER_COUNT) CONTAINER_COUNT.

Definition storage_cow : option Z :=
  let shared_ubuntu := create_ubuntu_layer in
  calculate_storage_cow (create_containers_cow CONTAINER_COUNT shared_ubuntu)
                        CONTAINER_COUNT shared_ubuntu.

(** A container made of the shared base layer and one layer of its own,
    of size [L]. *)
Definition layered (base : Layer) (L : Z) (c : Container) : Prop :=
  layer_count c = 2 ∧ ∃ l, layers c = [base; l] ∧ size_mb l = L.

(** ** Exclusive writes *)

(** A store through a handle is exclusive when the counter of the handle
    was 1. *)
Definition exclusive_write (e : event) : Prop :=
  match e with
  | EWrite _ _ s => s = Some 1
  | _ => True
  end.

(** Every store through a handle so far was exclusive. *)
Definition writes_exclusive (w : world) : Prop := Forall exclusive_write (events w).

(** [m] keeps [P], however it ends. *)
Definition keeps {A : Type} (P : world → Prop) (m : M A) : Prop :=
  ∀ w, P w → P (final_world (m w)).

(** If [m] starts in [P] and returns, [Q] holds of the result; if it ends
    in undefined behaviour or in exit, every store it made through a handle
    was still exclusive. *)
Definition hoare {A : Type} (P : world → Prop) (m : M A) (Q : A → world → Prop) : Prop :=
  ∀ w, P w →
    match m w with
    | Done a w' => Q a w'
    | Fault w' => writes_exclusive w'
    | Exit _ w' => writes_exclusive w'
    end.

(** Properties of worlds that no call of the C library can break. *)
Class Stable (P : world → Prop) : Prop := {
  stable_vars : ∀ f w, P w → P (set_vars f w);
  stable_poke : ∀ b i v w, P w → P (set_heap (poke b i v) w);
  stable_alloc : ∀ n w, P w → P (alloc n w);
  stable_alloc_fail : ∀ n w, P w → P (alloc_fail n w);
  stable_blit : ∀ d s n w, P w → P (log_event (EMemcpy d s n) (set_heap (blit d s n) w));
  stable_free : ∀ b w, is_Some (heap w !! b) → P w →
                       P (log_event (EFree b) (set_heap (delete b) w));
  stable_rand : ∀ w, P w →
                     P (World (vars w) (heap w) (next_block w) (oracle w)
                              (S (rand_calls w)) (events w))
}.

(** The state of benchmark_cow while the original, with payload [d] and
    counter [r], is held by [c] handles. *)
Definition shared_by (d r : positive) (c : Z) (w : world) : Prop :=
  wf w ∧ writes_exclusive w ∧ d ≠ r ∧
  cell w (Addr r) 0 = Some c ∧
  payload_holds w (CowArray (Addr d) (Addr r)) ARRAY_SIZE.

(** A variable that holds the only handle on its payload. *)
Definition sole_owner (x : nat) (d r : positive) (w : world) : Prop :=
  vars w !! x = Some (CowArray (Addr d) (Addr r)) ∧ d ≠ r ∧
  cell w (Addr r) 0 = Some 1 ∧ is_Some (heap w !! d).

(** ** Complete runs of benchmark_cow *)

Definition is_write (e : event) : bool :=
  match e with EWrite _ _ _ => true | _ => false end.

(** How many stores were made through handles. *)
Definition stores_made (evs : list event) : nat :=
  length (filter (λ e, is_write e = true) evs).

(** If [m] starts in [P] it returns, and [Q] holds of the result. *)
Definition total {A : Type} (P : world → Prop) (m : M A) (Q : A → world → Prop) : Prop :=
  ∀ w, P w → ∃ a w', m w = Done a w' ∧ Q a w'.

(** The blocks of benchmark_cow are allocated in order: the payload [d] of
    the original, its counter, and then for copy [j] a payload and, right
    after it, a counter. *)
Definition copy_data (d : positive) (j : nat) : positive :=
  (d + Pos.of_succ_nat (2 * j + 1))%positive.

Definition copy_handle (d : positive) (j : nat) : cow_array :=
  CowArray (Addr (copy_data d j)) (Addr (Pos.succ (copy_data d j))).

(** The state of benchmark_cow when [N] copies exist, the first [i] of
    them have been forked, and [s] stores have been made; [H0] is the heap
    benchmark_cow was started in. *)
Definition bench_state (d : positive) (H0 : gmap positive block) (N i s : nat)
    (w : world) : Prop :=
  let h0 := CowArray (Addr d) (Addr (Pos.succ d)) in
  wf w ∧ oracle w = [] ∧ next_block w = copy_data d i ∧
  cell w (Addr (Pos.succ d)) 0 = Some (1 + Z.of_nat N - Z.of_nat i) ∧
  payload_holds w h0 ARRAY_SIZE ∧
  vars w !! original = Some h0 ∧
  (∀ j, (i ≤ j < N)%nat → vars w !! copies j = Some h0) ∧
  (∀ j, (j < i)%nat →
     sole_owner (copies j) (copy_data d j) (Pos.succ (copy_data d j)) w ∧
     payload_holds w (copy_handle d j) ARRAY_SIZE) ∧
  (∀ b, (b < d)%positive → heap w !! b = H0 !! b) ∧
  stores_made (events w) = s.

(** The world after cow_free has released the last handle on payload [d]
    with counter [r]. *)
Definition released (d r : positive) (w : world) : world :=
  log_event (EFree r) (set_heap (delete r)
    (log_event (EFree d) (set_heap (delete d) (set_heap (poke r 0 0) w)))).

(** The state of benchmark_cow when the original and the first [i] of the
    [N] copies have been released. *)
Definition freeing (d : positive) (H0 : gmap positive block) (N i s : nat)
    (w : world) : Prop :=
  wf w ∧
  (∀ j, (i ≤ j < N)%nat →
     sole_owner (copies j) (copy_data d j) (Pos.succ (copy_data d j)) w) ∧
  (∀ b, (b < d)%positive → heap w !! b = H0 !! b) ∧
  (∀ b, (d ≤ b)%positive → is_Some (heap w !! b) →
     ∃ j, (i ≤ j < N)%nat ∧ (b = copy_data d j ∨ b = Pos.succ (copy_data d j))) ∧
  stores_made (events w) = s.

(** ** Concrete clients *)

(** A buffer that starts 0, 1, 2, 3 and is held by three handles, in the
    variables 0, 1 and 2. *)
Definition three_handles : M unit :=
  o ← cow_create ARRAY_SIZE;
  set_var 0 o;;
  write_elem 0 0 0;; write_elem 0 1 1;; write_elem 0 2 2;; write_elem 0 3 3;;
  run [OpShare 0 1; OpShare 0 2].

(** The world in which the three handles exist and the coming allocations
    follow [o]. *)
Definition scenario (o : list bool) : world :=
  final_world (three_handles (init_world (true :: true :: o))).

(** The same three handles on a buffer of four elements, the size the
    scenario of the specification gives it; every allocation to come
    succeeds. *)
Definition four_elements : M unit :=
  o ← cow_create 4;
  set_var 0 o;;
  write_elem 0 0 0;; write_elem 0 1 1;; write_elem 0 2 2;; write_elem 0 3 3;;
  run [OpShare 0 1; OpShare 0 2].

Definition small_scenario : world :=
  final_world (four_elements (init_world [])).

(** A buffer of [sz] elements that is shared once and then forked. *)
Definition fork_of_size (sz : Z) : M unit :=
  o ← cow_create sz;
  set_var 0 o;;
  c ← cow_copy o;
  set_var 1 c;;
  cow_ensure_unique 1.

(** ** Calls of the allocator and of memcpy, counted *)

Definition is_malloc (e : event) : bool :=
  match e with EMalloc _ _ => true | _ => false end.
Definition is_malloc_fail (e : event) : bool :=
  match e with EMallocFail _ => true | _ => false end.
Definition is_free (e : event) : bool :=
  match e with EFree _ => true | _ => false end.

(** How many blocks malloc handed out, and how many were passed to free. *)
Definition allocations (evs : list event) : nat :=
  length (filter (λ e, is_malloc e = true) evs).
Definition frees (evs : list event) : nat :=
  length (filter (λ e, is_free e = true) evs).

(** The world has seen [c] calls of memcpy, [a] successful allocations and
    [f] calls of free on a block. *)
Definition tally (c a f : nat) (w : world) : Prop :=
  copies_made (events w) = c ∧ allocations (events w) = a ∧ frees (events w) = f.

(** However [m] ends, the events it has added all satisfy [ok]. *)
Definition emits {A : Type} (ok : event → bool) (m : M A) : Prop :=
  ∀ w, ∃ l, events (final_world (m w)) = l ++ events w ∧ forallb ok l = true.

Definition no_event (e : event) : bool := false.
Definition is_request (e : event) : bool := is_malloc e || is_malloc_fail e.

(** The world in which variable 0 holds the only handle on a fresh buffer. *)
Definition sole_handle : world :=
  final_world ((o ← cow_create ARRAY_SIZE; set_var 0 o) (init_world [])).

(** ** benchmark_traditional *)

Definition undefined {A : Type} : M A := λ w, Fault w.

(** A local array of pointers, such as [int* copies[NUM_COPIES]]: an entry
    is [None] until it is assigned. *)
Abbreviation ptr_array := (list (option ptr)).

(** a[i] as an rvalue: undefined outside the array and for an entry that
    was never assigned. *)
Definition array_get (a : ptr_array) (i : nat) : M ptr :=
  match a !! i with
  | Some (Some p) => mret p
  | _ => undefined
  end.

(** The loop of benchmark_traditional that makes the copies, from
    iteration [i] on; it returns the array copies. *)
Fixpoint make_copies (original : ptr) (i count : nat) (copies : ptr_array) : M ptr_array :=
  match count with
  | O => mret copies
  | S k =>
      p ← malloc (size_t_mul ARRAY_SIZE sizeof_int);
      (if bool_decide (i < length copies)%nat then mret tt else undefined);;
      let copies := <[i := Some p]> copies in
      if bool_decide (p = NULL) then
        free original;;
        for_loop 0 i (λ j, q ← array_get copies j; free q);;
        exit 1
      else
        memcpy p original (size_t_mul ARRAY_SIZE sizeof_int);;
        make_copies original (S i) k copies
  end.

(** double benchmark_traditional(), without its output and its timer. *)
Definition benchmark_traditional (rnd : nat → Z) : M unit :=
  original ← malloc (size_t_mul ARRAY_SIZE sizeof_int);
  (if bool_decide (original = NULL) then exit 1 else mret tt);;
  for_loop 0 (Z.to_nat ARRAY_SIZE)
    (λ i, v ← rand rnd; store_int original (Z.of_nat i) v);;
  copies ← make_copies original 0 (Z.to_nat NUM_COPIES)
             (replicate (Z.to_nat NUM_COPIES) None);
  for_loop 0 (Z.to_nat NUM_COPIES)
    (λ i, for_loop 0 (Z.to_nat NUM_MODIFICATIONS)
       (λ j, r ← rand rnd;
             let index := Z.rem r ARRAY_SIZE in
             v ← rand rnd;
             p ← array_get copies i;
             store_int p index v));;
  free original;;
  for_loop 0 (Z.to_nat NUM_COPIES) (λ i, p ← array_get copies i; free p).

(** If [m] starts in [P] it has no undefined behaviour: it returns with
    [Q], or it calls exit with [E]. *)
Definition safe {A : Type} (P : world → Prop) (m : M A) (Q : A → world → Prop)
    (E : Z → world → Prop) : Prop :=
  ∀ w, P w →
    match m w with
    | Done a w' => Q a w'
    | Fault _ => False
    | Exit c w' => E c w'
    end.

(** The blocks of benchmark_traditional are allocated in order: the
    original [d], then copies[0], copies[1], ... *)
Definition trad_block (d : positive) (j : nat) : positive :=
  (d + Pos.of_succ_nat j)%positive.

(** The state of benchmark_traditional, started in [w0], when the original
    and the first [i] copies exist; [n] is the length of the array
    copies. *)
Definition trad_state (w0 : world) (n i : nat) (copies : ptr_array) (w : world) : Prop :=
  let d := next_block w0 in
  wf w ∧ next_block w = trad_block d i ∧
  oracle w = drop (S i) (oracle w0) ∧ allocs_ok (S i) w0 = true ∧
  (∀ b, (b < d)%positive → heap w !! b = heap w0 !! b) ∧
  (∀ b, (d ≤ b)%positive → (b < trad_block d i)%positive →
        ∃ blk, heap w !! b = Some blk ∧ blk_bytes blk = sizeof_int * ARRAY_SIZE) ∧
  length copies = n ∧
  (∀ j, (j < i)%nat → copies !! j = Some (Some (Addr (trad_block d j)))) ∧
  tally (copies_made (events w0) + i) (allocations (events w0) + S i)
        (frees (events w0)) w.

(** The state of benchmark_traditional while it frees its blocks: the
    original and the first [j] of the [i] copies are gone. *)
Definition trad_cleanup (w0 : world) (i j : nat) (copies : ptr_array) (c a : nat)
    (w : world) : Prop :=
  let d := next_block w0 in
  (∀ b, (b < d)%positive → heap w !! b = heap w0 !! b) ∧
  (∀ b, (d ≤ b)%positive → is_Some (heap w !! b) ↔
        ∃ k, (j ≤ k < i)%nat ∧ b = trad_block d k) ∧
  (∀ k, (k < i)%nat → copies !! k = Some (Some (Addr (trad_block d k)))) ∧
  tally c a (frees (events w0) + S j) w.

(** ** The two halves of benchmark_cow *)

(** benchmark_cow up to its timed section's end: the original is created
    and filled, the copies are made and modified. *)
Definition benchmark_cow_work (rnd : nat → Z) : M unit :=
  o ← cow_create ARRAY_SIZE;
  set_var original o;;
  (if bool_decide (data o = NULL) then exit 1 else mret tt);;
  for_loop 0 (Z.to_nat ARRAY_SIZE)
    (λ i, v ← rand rnd; write_elem original (Z.of_nat i) v);;
  for_loop 0 (Z.to_nat NUM_COPIES)
    (λ i, o ← get_var original; c ← cow_copy o; set_var (copies i) c);;
  for_loop 0 (Z.to_nat NUM_COPIES)
    (λ i, modify_loop rnd (copies i) (Z.to_nat NUM_MODIFICATIONS) false).

(** The rest of benchmark_cow: the handles are released. *)
Definition benchmark_cow_cleanup : M unit :=
  cow_free original;;
  for_loop 0 (Z.to_nat NUM_COPIES) (λ i, cow_free (copies i)).

(** ** main of memory_benchmark.c *)

Definition NUM_ITERATIONS : Z := 10.

(** The loop of main: each iteration runs benchmark_cow and then
    benchmark_traditional.  The times they return only go to the output. *)
Definition benchmark_rounds (rnd : nat → Z) : M unit :=
  for_loop 0 (Z.to_nat NUM_ITERATIONS) (λ _,
    benchmark_cow rnd;;
    benchmark_traditional rnd).

(** A world in which a benchmark can start: its blocks are numbered below
    [next_block], and every coming call of malloc succeeds. *)
Definition ready (w : world) : Prop := wf w ∧ oracle w = [].

(** ** containerStorage.c with its pointers *)

(** The functions of containerStorage.c once more, now with the objects
    they allocate and free.  A store maps a block to the object malloc put
    there: a Layer, a Container, or an array of pointers.  A field or an
    array entry is [None] until it is written, and a computation is [None]
    when its behaviour is undefined.  malloc returns NULL when the oracle
    says so; the code never checks for it. *)
Module Mem.

Record container_obj : Type := ContainerObj {
  co_id : option string;
  co_layers : option ptr;
  co_layer_count : option Z
}.

Inductive object : Type :=
| OLayer (l : option Layer)        (* a Layer; its fields are written together *)
| OContainer (c : container_obj)
| OPtrs (a : list (option ptr)).   (* Layer*[n] or Container*[n] *)

Record store : Type := Store {
  objects : gmap positive object;
  next_object : positive;
  plan : list bool                 (* outcome of the coming calls of malloc *)
}.

Definition St (A : Type) : Type := store → option (A * store).

Global Instance St_ret : MRet St := λ A a s, Some (a, s).
Global Instance St_bind : MBind St := λ A B k m s,
  match m s with
  | Some (a, s') => k a s'
  | None => None
  end.

Definition undefined {A : Type} : St A := λ _, None.

(** malloc of an object that starts as [o] *)
Definition malloc (o : object) : St ptr := λ s,
  match plan s with
  | false :: rest => Some (NULL, Store (objects s) (next_object s) rest)
  | _ => Some (Addr (next_object s),
               Store (<[next_object s := o]> (objects s)) (Pos.succ (next_object s))
                     (tail (plan s)))
  end.

Definition free (p : ptr) : St unit := λ s,
  match p with
  | NULL => Some (tt, s)
  | Addr b =>
      match objects s !! b with
      | Some _ => Some (tt, Store (delete b (objects s)) (next_object s) (plan s))
      | None => None
      end
  end.

Definition load (p : ptr) : St object := λ s,
  match p with
  | NULL => None
  | Addr b => o ← objects s !! b; Some (o, s)
  end.

Definition store_obj (p : ptr) (o : object) : St unit := λ s,
  match p with
  | NULL => None
  | Addr b =>
      match objects s !! b with
      | Some _ => Some (tt, Store (<[b := o]> (objects s)) (next_object s) (plan s))
      | None => None
      end
  end.

(** a[i] as an rvalue *)
Definition entry (a : ptr) (i : Z) : St ptr :=
  o ← load a;
  match o with
  | OPtrs l =>
      if 0 <=? i then
        match l !! Z.to_nat i with
        | Some (Some p) => mret p
        | _ => undefined
        end
      else undefined
  | _ => undefined
  end.

(** a[i] = p *)
Definition set_entry (a : ptr) (i : Z) (p : ptr) : St unit :=
  o ← load a;
  match o with
  | OPtrs l =>
      if (0 <=? i) && bool_decide (Z.to_nat i < length l)%nat
      then store_obj a (OPtrs (<[Z.to_nat i := Some p]> l))
      else undefined
  | _ => undefined
  end.

Definition get_container (c : ptr) : St container_obj :=
  o ← load c;
  match o with
  | OContainer co => mret co
  | _ => undefined
  end.

(** c->layer_count and c->layers as rvalues *)
Definition get_layer_count (c : ptr) : St Z :=
  co ← get_container c;
  match co_layer_count co with Some n => mret n | None => undefined end.

Definition get_layers (c : ptr) : St ptr :=
  co ← get_container c;
  match co_layers co with Some a => mret a | None => undefined end.

(** sprintf(c->id, ...), c->layer_count = n and c->layers = a *)
Definition set_id (c : ptr) (s : string) : St unit :=
  co ← get_container c;
  store_obj c (OContainer (ContainerObj (Some s) (co_layers co) (co_layer_count co))).

Definition set_layer_count (c : ptr) (n : Z) : St unit :=
  co ← get_container c;
  store_obj c (OContainer (ContainerObj (co_id co) (co_layers co) (Some n))).

Definition set_layers (c : ptr) (a : ptr) : St unit :=
  co ← get_container c;
  store_obj c (OContainer (ContainerObj (co_id co) (Some a) (co_layer_count co))).

(** l->size_mb as an rvalue *)
Definition get_size_mb (l : ptr) : St Z :=
  o ← load l;
  match o with
  | OLayer (Some ly) => mret (size_mb ly)
  | _ => undefined
  end.

(** for (int i = start; i < start + count; i++) body(i) *)
Fixpoint for_loop (start count : nat) (body : nat → St unit) : St unit :=
  match count with
  | O => mret tt
  | S k => body start;; for_loop (S start) k body
  end.

(** Layer* create_ubuntu_layer() *)
Definition create_ubuntu_layer : St ptr :=
  layer ← malloc (OLayer None);
  store_obj layer (OLayer (Some (MkLayer "ubuntu:latest" 120 "sha256:ubuntu-base-layer")));;
  mret layer.

(** Layer* create_container_layer(int container_id) *)
Definition create_container_layer (container_id : Z) : St ptr :=
  layer ← malloc (OLayer None);
  store_obj layer
    (OLayer (Some (MkLayer ("container-" +:+ pretty container_id +:+ "-layer") 3
                           ("sha256:container-" +:+ pretty container_id +:+ "-unique"))));;
  mret layer.

(** The array of [n] pointers malloc returns: no entry is written yet. *)
Definition pointers (n : Z) : object := OPtrs (replicate (Z.to_nat n) None).

(** void create_containers_no_cow(Container** containers, int count) *)
Definition create_containers_no_cow (containers : ptr) (count : Z) : St unit :=
  for_loop 0 (Z.to_nat count) (λ k,
    let i := Z.of_nat k in
    c ← malloc (OContainer (ContainerObj None None None));
    set_entry containers i c;;
    c ← entry containers i;
    set_id c ("container-" +:+ pretty (i + 1));;
    c ← entry containers i;
    set_layer_count c 1;;
    c ← entry containers i;
    n ← get_layer_count c;
    a ← malloc (pointers n);
    c ← entry containers i;
    set_layers c a;;
    l ← create_ubuntu_layer;
    c ← entry containers i;
    a ← get_layers c;
    set_entry a 0 l).

(** void create_containers_cow(Container** containers, int count, Layer* shared_ubuntu) *)
Definition create_containers_cow (containers : ptr) (count : Z) (shared_ubuntu : ptr)
    : St unit :=
  for_loop 0 (Z.to_nat count) (λ k,
    let i := Z.of_nat k in
    c ← malloc (OContainer (ContainerObj None None None));
    set_entry containers i c;;
    c ← entry containers i;
    set_id c ("container-" +:+ pretty (i + 1));;
    c ← entry containers i;
    set_layer_count c 2;;
    c ← entry containers i;
    n ← get_layer_count c;
    a ← malloc (pointers n);
    c ← entry containers i;
    set_layers c a;;
    c ← entry containers i;
    a ← get_layers c;
    set_entry a 0 shared_ubuntu;;
    l ← create_container_layer (i + 1);
    c ← entry containers i;
    a ← get_layers c;
    set_entry a 1 l).

(** The inner loop of the two calculations, from layer [j] on for [count]
    iterations: total += containers[i]->layers[j]->size_mb.  The total is
    a size_t. *)
Fixpoint sum_layers (containers : ptr) (i : Z) (j count : nat) (total : Z) : St Z :=
  match count with
  | O => mret total
  | S k =>
      c ← entry containers i;
      a ← get_layers c;
      l ← entry a (Z.of_nat j);
      sz ← get_size_mb l;
      sum_layers containers i (S j) k (size_t_add total sz)
  end.

(** The outer loop, from container [i] on for [count] iterations; the
    inner loop starts at layer [from].  Nothing is written, so the bound
    containers[i]->layer_count is read once. *)
Fixpoint sum_containers (from : nat) (containers : ptr) (i count : nat) (total : Z) : St Z :=
  match count with
  | O => mret total
  | S k =>
      c ← entry containers (Z.of_nat i);
      n ← get_layer_count c;
      total ← sum_layers containers (Z.of_nat i) from (Z.to_nat (n - Z.of_nat from)) total;
      sum_containers from containers (S i) k total
  end.

(** size_t calculate_storage_no_cow(Container** containers, int count) *)
Definition calculate_storage_no_cow (containers : ptr) (count : Z) : St Z :=
  sum_containers 0 containers 0 (Z.to_nat count) 0.

(** size_t calculate_storage_cow(Container** containers, int count, Layer* shared_ubuntu) *)
Definition calculate_storage_cow (containers : ptr) (count : Z) (shared_ubuntu : ptr)
    : St Z :=
  total ← get_size_mb shared_ubuntu;
  sum_containers 1 containers 0 (Z.to_nat count) total.

(** The loops of the two cleanup functions; the inner one starts at layer
    [from].  Its bound c->layer_count is read once: the body only frees,
    so the bound cannot change, and where a later read of it would be
    undefined the read of c->layers that follows is undefined as well. *)
Definition cleanup_containers (from : nat) (containers : ptr) (count : Z) : St unit :=
  for_loop 0 (Z.to_nat count) (λ k,
    let i := Z.of_nat k in
    c ← entry containers i;
    n ← get_layer_count c;
    for_loop from (Z.to_nat (n - Z.of_nat from)) (λ j,
      c ← entry containers i;
      a ← get_layers c;
      l ← entry a (Z.of_nat j);
      free l);;
    c ← entry containers i;
    a ← get_layers c;
    free a;;
    c ← entry containers i;
    free c).

(** void cleanup_containers_no_cow(Container** containers, int count) *)
Definition cleanup_containers_no_cow (containers : ptr) (count : Z) : St unit :=
  cleanup_containers 0 containers count.

(** void cleanup_containers_cow(Container** containers, int count) *)
Definition cleanup_containers_cow (containers : ptr) (count : Z) : St unit :=
  cleanup_containers 1 containers count.

(** a / b on size_t *)
Definition size_t_div (a b : Z) : St Z :=
  if b =? 0 then undefined else mret (a / b).

(** main for [count] containers: it returns the two totals it prints.  Of
    the arguments of printf only storage_no_cow / CONTAINER_COUNT is kept,
    a division on size_t that is undefined when there is no container;
    the others are defined whatever the totals are. *)
Definition main_for (count : Z) : St (Z * Z) :=
  containers_no_cow ← malloc (pointers count);
  create_containers_no_cow containers_no_cow count;;
  storage_no_cow ← calculate_storage_no_cow containers_no_cow count;
  shared_ubuntu ← create_ubuntu_layer;
  containers_cow ← malloc (pointers count);
  create_containers_cow containers_cow count shared_ubuntu;;
  storage_cow ← calculate_storage_cow containers_cow count shared_ubuntu;
  size_t_div storage_no_cow (to_size_t count);;
  cleanup_containers_no_cow containers_no_cow count;;
  cleanup_containers_cow containers_cow count;;
  free shared_ubuntu;;
  free containers_no_cow;;
  free containers_cow;;
  mret (storage_no_cow, storage_cow).

Definition main : St (Z * Z) := main_for CONTAINER_COUNT.

End Mem.

(** If [m] starts in [P] it returns, and [Q] holds of the result. *)
Definition st_total {A : Type} (P : Mem.store → Prop) (m : Mem.St A)
    (Q : A → Mem.store → Prop) : Prop :=
  ∀ s, P s → ∃ a s', m s = Some (a, s') ∧ Q a s'.

(** Objects are numbered below [next_object], and every coming call of
    malloc succeeds. *)
Definition store_ok (s : Mem.store) : Prop :=
  (∀ b, is_Some (Mem.objects s !! b) → (b < Mem.next_object s)%positive) ∧
  Mem.plan s = [].

(** Block [k] of container [i] when the containers are allocated from
    block [b0] on: the Container is block 0, its array of layers block 1
    and the Layer it allocates block 2. *)
Definition slot (b0 : positive) (i k : nat) : positive :=
  Pos.of_nat (Pos.to_nat b0 + 3 * i + k).

(** The containers [lo], ..., [hi - 1] of the [n] that are allocated from
    block [b0] on exist in the store: the array at [arr] holds [l] and
    points at them, the array of layers of each is [shared] followed by
    a pointer to the layer [own i] it allocated, and no other block from
    [b0] up to the last of container [n - 1] is allocated. *)
Definition containers_at (arr b0 : positive) (l : list (option ptr))
    (shared : list (option ptr)) (own : nat → Layer) (n lo hi : nat) (s : Mem.store) : Prop :=
  Mem.objects s !! arr = Some (Mem.OPtrs l) ∧
  (∀ i, (lo ≤ i < hi)%nat →
     l !! i = Some (Some (Addr (slot b0 i 0))) ∧
     Mem.objects s !! slot b0 i 0 =
       Some (Mem.OContainer
               (Mem.ContainerObj (Some ("container-" +:+ pretty (Z.of_nat i + 1)))
                                 (Some (Addr (slot b0 i 1)))
                                 (Some (Z.of_nat (S (length shared)))))) ∧
     Mem.objects s !! slot b0 i 1 = Some (Mem.OPtrs (shared ++ [Some (Addr (slot b0 i 2))])) ∧
     Mem.objects s !! slot b0 i 2 = Some (Mem.OLayer (Some (own i)))) ∧
  (∀ b, (b0 ≤ b)%positive → (b < slot b0 n 0)%positive →
        is_Some (Mem.objects s !! b) →
        ∃ i k, (lo ≤ i < hi)%nat ∧ (k < 3)%nat ∧ b = slot b0 i k).

(** The layer create_container_layer allocates for container [i]. *)
Definition own_layer (i : nat) : Layer := create_container_layer (Z.of_nat i + 1).

(** A store that holds an array for three containers, in block 1, and the
    shared layer, in block 2. *)
Definition shared_store : Mem.store :=
  Mem.Store (<[2%positive := Mem.OLayer (Some create_ubuntu_layer)]>
               {[1%positive := Mem.OPtrs (replicate 3 None)]}) 3 [].

(** Lookups in a store that was built by a sequence of writes and calls
    of free. *)
Ltac lk :=
  simpl Mem.objects;
  repeat first [rewrite lookup_insert_eq | rewrite lookup_insert_ne by lia];
  first [reflexivity | eassumption].

Ltac lkd :=
  simpl Mem.objects;
  repeat first [rewrite lookup_insert_eq | rewrite lookup_insert_ne by lia
               | rewrite lookup_delete_ne by lia];
  first [reflexivity | eassumption].

(** * Properties *)

(** ** The monad and the C library *)

Lemma bind_unfold {A B : Type} (m : M A) (k : A → M B) (w : world) :
  (m ≫= k) w =
  match m w with
  | Done a w' => k a w'
  | Fault w' => Fault w'
  | Exit c w' => Exit c w'
  end.
Proof. reflexivity. Qed.

Lemma bind_done {A B : Type} (m : M A) (k : A → M B) (w w' : world) (a : A) :
  m w = Done a w' → (m ≫= k) w = k a w'.
Proof. intros H. by rewrite bind_unfold, H. Qed.

Lemma bind_fault {A B : Type} (m : M A) (k : A → M B) (w w' : world) :
  m w = Fault w' → (m ≫= k) w = Fault w'.
Proof. intros H. by rewrite bind_unfold, H. Qed.

Lemma ret_unfold {A : Type} (a : A) (w : world) : mret (M := M) a w = Done a w.
Proof. reflexivity. Qed.

Lemma get_var_some (x : nat) (h : cow_array) (w : world) :
  vars w !! x = Some h → get_var x w = Done h w.
Proof. unfold get_var. by intros ->. Qed.

Lemma cell_addr (w : world) (b : positive) (i v : Z) :
  cell w (Addr b) i = Some v ↔
  ∃ blk, heap w !! b = Some blk ∧ in_bounds blk i = true ∧ blk_cells blk !! i = Some v.
Proof.
  unfold cell. destruct (heap w !! b) as [blk|]; simpl.
  - destruct (in_bounds blk i) eqn:Hb.
    + split.
      * intros Hc. exists blk. done.
      * intros (blk' & Heq & _ & Hv). by injection Heq as <-.
    + split; [done|]. intros (blk' & Heq & Hin & _). injection Heq as <-. congruence.
  - split; [done|]. intros (blk' & Heq & _). done.
Qed.

Lemma cell_some_addr (w : world) (p : ptr) (i v : Z) :
  cell w p i = Some v → ∃ b, p = Addr b.
Proof. destruct p as [|b]; [done | by exists b]. Qed.

Lemma load_int_cell (w : world) (p : ptr) (i v : Z) :
  cell w p i = Some v → load_int p i w = Done v w.
Proof.
  intros Hc. destruct (cell_some_addr _ _ _ _ Hc) as [b ->].
  apply cell_addr in Hc as (blk & Hb & Hin & Hv).
  unfold load_int. by rewrite Hb, Hin, Hv.
Qed.

Lemma load_int_done (w w' : world) (p : ptr) (i v : Z) :
  load_int p i w = Done v w' → w' = w ∧ cell w p i = Some v.
Proof.
  unfold load_int, cell. destruct p as [|b]; [done|].
  destruct (heap w !! b) as [blk|]; simpl; [|done].
  destruct (in_bounds blk i); [|done].
  destruct (blk_cells blk !! i); [|done]. by intros [= -> ->].
Qed.

Lemma store_int_ok (w : world) (b : positive) (blk : block) (i v : Z) :
  heap w !! b = Some blk → in_bounds blk i = true →
  store_int (Addr b) i v w = Done tt (set_heap (poke b i v) w).
Proof. intros Hb Hin. unfold store_int. by rewrite Hb, Hin. Qed.

Lemma store_int_written (w : world) (p : ptr) (i v0 v : Z) :
  cell w p i = Some v0 →
  ∃ b, p = Addr b ∧ store_int p i v w = Done tt (set_heap (poke b i v) w).
Proof.
  intros Hc. destruct (cell_some_addr _ _ _ _ Hc) as [b ->].
  apply cell_addr in Hc as (blk & Hb & Hin & _).
  exists b. split; [done|]. by eapply store_int_ok.
Qed.

Lemma poke_lookup_eq (b : positive) (i v : Z) (hp : gmap positive block) (blk : block) :
  hp !! b = Some blk →
  poke b i v hp !! b = Some (Block (blk_bytes blk) (<[i := v]> (blk_cells blk))).
Proof. intros Hb. unfold poke. rewrite Hb. apply lookup_insert_eq. Qed.

Lemma poke_lookup_ne (b b' : positive) (i v : Z) (hp : gmap positive block) :
  b ≠ b' → poke b i v hp !! b' = hp !! b'.
Proof.
  intros Hne. unfold poke. destruct (hp !! b); [|done]. by apply lookup_insert_ne.
Qed.

Lemma poke_is_Some (b b' : positive) (i v : Z) (hp : gmap positive block) :
  is_Some (poke b i v hp !! b') ↔ is_Some (hp !! b').
Proof.
  destruct (decide (b = b')) as [<-|Hne]; [|by rewrite poke_lookup_ne].
  destruct (hp !! b) as [blk|] eqn:Hb.
  - rewrite (poke_lookup_eq _ _ _ _ _ Hb). split; eauto.
  - unfold poke. rewrite Hb. by rewrite Hb.
Qed.

Lemma cell_poke_eq (w : world) (b : positive) (i v v0 : Z) :
  cell w (Addr b) i = Some v0 →
  cell (set_heap (poke b i v) w) (Addr b) i = Some v.
Proof.
  intros (blk & Hb & Hin & _)%cell_addr. apply cell_addr.
  eexists. split; [by apply poke_lookup_eq|]. split; [done|]. simpl. apply lookup_insert_eq.
Qed.

Lemma cell_poke_block_ne (w : world) (b : positive) (i v : Z) (p : ptr) (j : Z) :
  p ≠ Addr b → cell (set_heap (poke b i v) w) p j = cell w p j.
Proof.
  intros Hne. destruct p as [|b']; [done|]. unfold cell. simpl.
  rewrite poke_lookup_ne; [done | congruence].
Qed.

Lemma cell_poke_index_ne (w : world) (b : positive) (i v j : Z) :
  i ≠ j → cell (set_heap (poke b i v) w) (Addr b) j = cell w (Addr b) j.
Proof.
  intros Hne. unfold cell. simpl. destruct (heap w !! b) as [blk|] eqn:Hb.
  - rewrite (poke_lookup_eq _ _ _ _ _ Hb). simpl. unfold in_bounds. simpl.
    by rewrite lookup_insert_ne.
  - unfold poke. by rewrite Hb, Hb.
Qed.

Lemma int_incr_ok (c : Z) (w : world) :
  INT_MIN ≤ c + 1 ≤ INT_MAX → int_incr c w = Done (c + 1) w.
Proof.
  intros H. unfold int_incr, in_int_range.
  by rewrite (proj2 (Z.leb_le _ _) (proj1 H)), (proj2 (Z.leb_le _ _) (proj2 H)).
Qed.

Lemma int_decr_ok (c : Z) (w : world) :
  INT_MIN ≤ c - 1 ≤ INT_MAX → int_decr c w = Done (c - 1) w.
Proof.
  intros H. unfold int_decr, in_int_range.
  by rewrite (proj2 (Z.leb_le _ _) (proj1 H)), (proj2 (Z.leb_le _ _) (proj2 H)).
Qed.

Lemma free_ok (w : world) (b : positive) (blk : block) :
  heap w !! b = Some blk →
  free (Addr b) w = Done tt (log_event (EFree b) (set_heap (delete b) w)).
Proof. intros Hb. unfold free. by rewrite Hb. Qed.

(** ** cow_copy *)

Lemma cow_copy_ok (src : cow_array) (w : world) (c : Z) :
  sharers w src = Some c → INT_MIN ≤ c + 1 ≤ INT_MAX →
  ∃ r, ref_count src = Addr r ∧
       cow_copy src w = Done src (set_heap (poke r 0 (c + 1)) w).
Proof.
  intros Hc Hrange. unfold sharers in Hc.
  destruct (store_int_written w _ _ _ (c + 1) Hc) as (r & Hr & Hst).
  exists r. split; [done|]. unfold cow_copy.
  rewrite (bind_done _ _ _ _ _ (load_int_cell _ _ _ _ Hc)).
  rewrite (bind_done _ _ _ _ _ (int_incr_ok _ _ Hrange)).
  by rewrite (bind_done _ _ _ _ _ Hst).
Qed.

Lemma dom_poke (b : positive) (i v : Z) (hp : gmap positive block) :
  dom (poke b i v hp) = dom hp.
Proof.
  apply set_eq. intros b'. rewrite !elem_of_dom. apply poke_is_Some.
Qed.

(** C3: cow_copy allocates nothing and copies nothing, adds exactly one to
    the shared counter, returns a handle with the same payload and counter
    pointers, and afterwards every index reads the same through the new
    handle as through the old one (and as it did before the call). *)
Theorem cow_copy_shares_payload (src : cow_array) (w : world) (c : Z) :
  sharers w src = Some c → INT_MIN ≤ c < INT_MAX → ref_count src ≠ data src →
  ∃ dest w',
    cow_copy src w = Done dest w' ∧
    data dest = data src ∧ ref_count dest = ref_count src ∧
    events w' = events w ∧ next_block w' = next_block w ∧
    dom (heap w') = dom (heap w) ∧
    sharers w' dest = Some (c + 1) ∧
    (∀ p i, p ≠ ref_count src → cell w' p i = cell w p i) ∧
    (∀ i, load_int (data dest) i w' = load_int (data src) i w') ∧
    (∀ i, cell w' (data dest) i = cell w (data src) i).
Proof.
  intros Hc Hrange Hne.
  destruct (cow_copy_ok src w c Hc) as (r & Hr & Hrun); [lia|].
  exists src, (set_heap (poke r 0 (c + 1)) w).
  split; [done|]. do 4 (split; [done|]).
  split; [apply dom_poke|].
  split.
  { unfold sharers in *. rewrite Hr in *. by eapply cell_poke_eq. }
  split.
  { intros p i Hp. apply cell_poke_block_ne. congruence. }
  split; [done|].
  intros i. apply cell_poke_block_ne. congruence.
Qed.

(** ** Reference accounting for share and release *)

Lemma frees_of_cons (b : positive) (e : event) (evs : list event) :
  frees_of b (e :: evs) =
  (if decide (e = EFree b) then S (frees_of b evs) else frees_of b evs).
Proof.
  unfold frees_of. rewrite filter_cons. by destruct (decide (e = EFree b)).
Qed.

Section Accounting.
(** The payload block, the counter block, and the handle made of them. *)
Variables d r : positive.
Hypothesis d_ne_r : d ≠ r.
Local Abbreviation h := (CowArray (Addr d) (Addr r)).

Lemma share_accounted (src dst : nat) (live : gset nat) (w : world) :
  accounted d r live w → src ∈ live → dst ∉ live →
  Z.of_nat (size live) < INT_MAX →
  ∃ w', step (OpShare src dst) w = Done tt w' ∧ accounted d r ({[dst]} ∪ live) w'.
Proof.
  intros (Hvars & Hlive & _) Hsrc Hdst Hbound.
  assert (live ≠ ∅) as Hne by (clear -Hsrc; set_solver).
  destruct (Hlive Hne) as (Hc & Hd & Hfrees).
  destruct (cow_copy_ok h w _ Hc) as (r' & Hr' & Hrun).
  { unfold INT_MIN. lia. }
  injection Hr' as <-.
  eexists. split.
  { unfold step. rewrite (bind_done _ _ _ _ _ (get_var_some _ _ _ (Hvars _ Hsrc))).
    rewrite (bind_done _ _ _ _ _ Hrun). reflexivity. }
  split; [|split].
  - intros x [->%elem_of_singleton|Hx]%elem_of_union; simpl.
    + apply lookup_insert_eq.
    + rewrite lookup_insert_ne; [by apply Hvars | clear -Hx Hdst; set_solver].
  - intros _. split; [|split].
    + rewrite size_union, size_singleton by (clear -Hdst; set_solver).
      replace (Z.of_nat (1 + size live)) with (Z.of_nat (size live) + 1) by lia.
      unfold sharers in *. simpl ref_count in *. by eapply cell_poke_eq.
    + simpl. by apply poke_is_Some.
    + done.
  - intros Hempty. clear -Hempty. set_solver.
Qed.

Lemma release_accounted (x : nat) (live : gset nat) (w : world) :
  accounted d r live w → x ∈ live → Z.of_nat (size live) ≤ INT_MAX →
  ∃ w', step (OpRelease x) w = Done tt w' ∧ accounted d r (live ∖ {[x]}) w'.
Proof.
  intros (Hvars & Hlive & _) Hx Hbound.
  assert (live ≠ ∅) as Hne by (clear -Hx; set_solver).
  destruct (Hlive Hne) as (Hc & Hd & Hfrees).
  assert (size live = S (size (live ∖ {[x]}))) as Hsize.
  { assert (live = {[x]} ∪ live ∖ {[x]}) as Hsplit.
    { clear -Hx. apply set_eq. intros y. destruct (decide (y = x)); set_solver. }
    rewrite Hsplit at 1. rewrite size_union by (clear; set_solver).
    by rewrite size_singleton. }
  set (c := Z.of_nat (size live)) in *.
  unfold sharers in Hc. simpl ref_count in Hc.
  assert (store_int (Addr r) 0 (c - 1) w = Done tt (set_heap (poke r 0 (c - 1)) w)) as Hst.
  { destruct (store_int_written w _ _ _ (c - 1) Hc) as (r' & [= <-] & Hst). done. }
  pose proof (cell_poke_eq w r 0 (c - 1) c Hc) as Hc'.
  set (w1 := set_heap (poke r 0 (c - 1)) w) in *.
  assert (cow_free x w =
          (if c - 1 =? 0 then free (data h);; free (ref_count h) else mret tt) w1) as Hrun.
  { unfold cow_free.
    rewrite (bind_done _ _ _ _ _ (get_var_some _ _ _ (Hvars _ Hx))).
    rewrite (bind_done _ _ _ _ _ (load_int_cell _ _ _ _ Hc)).
    rewrite (bind_done _ _ _ _ _ (int_decr_ok c w ltac:(unfold INT_MIN; lia))).
    rewrite (bind_done _ _ _ _ _ Hst).
    by rewrite (bind_done _ _ _ _ _ (load_int_cell _ _ _ _ Hc')). }
  assert (is_Some (heap w !! r)) as Hr.
  { apply cell_addr in Hc as (blk & Hblk & _). eauto. }
  destruct (decide (size (live ∖ {[x]}) = 0%nat)) as [Hz|Hnz].
  - (* the last handle: the payload and the counter are freed *)
    assert (c - 1 = 0) as Hc0 by lia.
    rewrite Hc0 in Hrun. simpl in Hrun.
    assert (is_Some (heap w1 !! d)) as [bd Hbd] by (by apply poke_is_Some).
    assert (is_Some (heap w1 !! r)) as [br Hbr] by (by apply poke_is_Some).
    eexists. split.
    { simpl step. rewrite Hrun. simpl data. simpl ref_count.
      rewrite (bind_done _ _ _ _ _ (free_ok _ _ _ Hbd)).
      apply free_ok with br. simpl. by rewrite lookup_delete_ne. }
    apply size_empty_inv in Hz. apply leibniz_equiv in Hz.
    split; [|split].
    + intros y Hy. rewrite Hz in Hy. clear -Hy. set_solver.
    + intros Hcontra. done.
    + intros _. simpl. split; [|split].
      * rewrite lookup_delete_ne by done. apply lookup_delete_eq.
      * apply lookup_delete_eq.
      * rewrite !frees_of_cons.
        rewrite decide_False by congruence. rewrite decide_True by done.
        simpl events. by rewrite Hfrees.
  - (* other handles remain: only the counter changes *)
    assert (c - 1 ≠ 0) as Hc0 by lia.
    apply Z.eqb_neq in Hc0. rewrite Hc0 in Hrun.
    exists w1. split; [done|].
    split; [|split].
    + intros y Hy. simpl. apply Hvars. clear -Hy. set_solver.
    + intros _. split; [|split].
      * unfold sharers. simpl ref_count.
        replace (Z.of_nat (size (live ∖ {[x]}))) with (c - 1) by lia. done.
      * by apply poke_is_Some.
      * done.
    + intros Hempty. rewrite Hempty, size_empty in Hnz. done.
Qed.

Lemma run_accounted (ops : list op) (live live' : gset nat) (w : world) :
  accounted d r live w → track ops live = Some live' →
  Z.of_nat (size live) + Z.of_nat (length ops) ≤ INT_MAX →
  ∃ w', run ops w = Done tt w' ∧ accounted d r live' w'.
Proof.
  revert live w. induction ops as [|o ops IH]; intros live w Hacc Htrack Hbound.
  - injection Htrack as <-. by exists w.
  - destruct o as [src dst|x|x|x i v]; simpl in Htrack; try done.
    + destruct (bool_decide (src ∈ live)) eqn:Hsrc; [|done].
      destruct (bool_decide (dst ∉ live)) eqn:Hdst; [|done].
      apply bool_decide_eq_true in Hsrc, Hdst. simpl in Htrack.
      destruct (share_accounted src dst live w Hacc Hsrc Hdst) as (w1 & Hstep & Hacc1).
      { simpl length in Hbound. lia. }
      destruct (IH _ w1 Hacc1 Htrack) as (w2 & Hrun & Hacc2).
      { rewrite size_union, size_singleton by (clear -Hdst; set_solver).
        simpl length in Hbound. lia. }
      exists w2. split; [|done].
      change (run (OpShare src dst :: ops)) with (step (OpShare src dst) ≫= λ _, run ops).
      by rewrite (bind_done _ _ _ _ _ Hstep).
    + destruct (bool_decide (x ∈ live)) eqn:Hx; [|done].
      apply bool_decide_eq_true in Hx.
      destruct (release_accounted x live w Hacc Hx) as (w1 & Hstep & Hacc1).
      { simpl length in Hbound. lia. }
      destruct (IH _ w1 Hacc1 Htrack) as (w2 & Hrun & Hacc2).
      { assert (size (live ∖ {[x]}) ≤ size live)%nat
          by (apply subseteq_size; clear; set_solver).
        simpl length in Hbound. lia. }
      exists w2. split; [|done].
      change (run (OpRelease x :: ops)) with (step (OpRelease x) ≫= λ _, run ops).
      by rewrite (bind_done _ _ _ _ _ Hstep).
Qed.
End Accounting.

(** ** malloc and cow_create *)

Lemma malloc_ok (nbytes : Z) (w : world) :
  allocs_ok 1 w = true → malloc nbytes w = Done (Addr (next_block w)) (alloc nbytes w).
Proof.
  unfold allocs_ok, malloc. destruct (oracle w) as [|[] o]; simpl; done.
Qed.

Lemma malloc_fails (nbytes : Z) (w : world) (o : list bool) :
  oracle w = false :: o → malloc nbytes w = Done NULL (alloc_fail nbytes w).
Proof. unfold malloc. by intros ->. Qed.

Lemma allocs_ok_S (n : nat) (w : world) (nbytes : Z) :
  allocs_ok (S n) w = true → allocs_ok 1 w = true ∧ allocs_ok n (alloc nbytes w) = true.
Proof.
  unfold allocs_ok. simpl. destruct (oracle w) as [|[] o]; simpl; try done.
  by destruct n.
Qed.

Lemma wf_fresh (w : world) : wf w → heap w !! next_block w = None.
Proof.
  intros [Hwf _]. destruct (heap w !! next_block w) eqn:Hb; [|done].
  specialize (Hwf (next_block w)). rewrite Hb in Hwf.
  pose proof (Hwf (mk_is_Some _ _ eq_refl)). lia.
Qed.

Lemma wf_alloc (nbytes : Z) (w : world) : wf w → wf (alloc nbytes w).
Proof.
  intros [Hheap Hev]. split; simpl.
  - intros b [blk Hb]. destruct (decide (next_block w = b)) as [<-|Hne]; [lia|].
    rewrite lookup_insert_ne in Hb by done. specialize (Hheap b (mk_is_Some _ _ Hb)). lia.
  - intros b [Heq|Hin]%elem_of_cons; [done|]. specialize (Hev b Hin). lia.
Qed.

Lemma wf_alloc_fail (nbytes : Z) (w : world) : wf w → wf (alloc_fail nbytes w).
Proof.
  intros [Hheap Hev]. split; simpl; [done|].
  intros b [Heq|Hin]%elem_of_cons; [done | by apply Hev].
Qed.

Lemma wf_poke (b : positive) (i v : Z) (w : world) : wf w → wf (set_heap (poke b i v) w).
Proof.
  intros [Hheap Hev]. split; simpl; [|done].
  intros b' Hb'. apply Hheap. by apply poke_is_Some in Hb'.
Qed.

Lemma wf_set_vars (f : gmap nat cow_array → gmap nat cow_array) (w : world) :
  wf w → wf (set_vars f w).
Proof. by intros [Hheap Hev]. Qed.

Lemma frees_of_fresh (w : world) : wf w → frees_of (next_block w) (events w) = 0%nat.
Proof.
  intros [_ Hev]. generalize dependent (next_block w). intros n Hev.
  induction (events w) as [|e evs IH]; [done|].
  rewrite frees_of_cons. destruct (decide (e = EFree n)) as [->|Hne].
  - specialize (Hev n (list_elem_of_here _ _)). lia.
  - apply IH. intros b Hb. apply Hev. by apply list_elem_of_further.
Qed.

(** What cow_create returns when both allocations succeed. *)
Lemma cow_create_ok (size : Z) (w : world) :
  allocs_ok 2 w = true →
  let d := next_block w in
  let r := Pos.succ d in
  cow_create size w =
  Done (CowArray (Addr d) (Addr r))
       (set_heap (poke r 0 1)
          (alloc sizeof_int (alloc (size_t_mul (to_size_t size) sizeof_int) w))).
Proof.
  intros Hok d r.
  destruct (allocs_ok_S 1 w (size_t_mul (to_size_t size) sizeof_int) Hok) as [Hok1 Hok2].
  unfold cow_create.
  rewrite (bind_done _ _ _ _ _ (malloc_ok _ _ Hok1)).
  rewrite (bind_done _ _ _ _ _ (malloc_ok _ _ Hok2)).
  erewrite bind_done; [reflexivity|].
  eapply store_int_ok; [apply lookup_insert_eq | done].
Qed.

(** cow_create returns a handle with a payload only if both allocations
    succeeded. *)
Lemma cow_create_done (size : Z) (w w' : world) (h : cow_array) :
  cow_create size w = Done h w' → data h ≠ NULL → allocs_ok 2 w = true.
Proof.
  unfold cow_create, allocs_ok.
  destruct (oracle w) as [|[] [|[] o]] eqn:Ho; try done.
  - (* the counter cannot be allocated: the store faults *)
    rewrite (bind_done _ _ _ _ _ (malloc_ok _ _ ltac:(unfold allocs_ok; by rewrite Ho))).
    erewrite bind_done; [|eapply malloc_fails; simpl; by rewrite Ho]. done.
  - (* the payload cannot be allocated *)
    erewrite bind_done; [|by eapply malloc_fails].
    rewrite bind_unfold. destruct (malloc _ _) as [r w1| |]; [|done..].
    rewrite bind_unfold. destruct (store_int _ _ _ _); [|done..].
    by intros [= <- _].
  - erewrite bind_done; [|by eapply malloc_fails].
    rewrite bind_unfold. destruct (malloc _ _) as [r w1| |]; [|done..].
    rewrite bind_unfold. destruct (store_int _ _ _ _); [|done..].
    by intros [= <- _].
  - erewrite bind_done; [|by eapply malloc_fails].
    rewrite bind_unfold. destruct (malloc _ _) as [r w1| |]; [|done..].
    rewrite bind_unfold. destruct (store_int _ _ _ _); [|done..].
    by intros [= <- _].
Qed.

(** After a successful cow_create and a sequence of cow_copy and cow_free
    calls on live handles. *)
Lemma accounting_after_run
    (sz : Z) (x0 : nat) (ops : list op) (live : gset nat)
    (w0 w1 : world) (h : cow_array) :
  wf w0 →
  cow_create sz w0 = Done h w1 → data h ≠ NULL →
  track ops {[x0]} = Some live →
  Z.of_nat (length ops) < INT_MAX →
  ∃ d r w2,
    h = CowArray (Addr d) (Addr r) ∧
    (set_var x0 h;; run ops) w1 = Done tt w2 ∧
    frees_of d (events w2) = (if decide (live = ∅) then 1 else 0)%nat ∧
    (live ≠ ∅ →
       sharers w2 h = Some (Z.of_nat (size live)) ∧ 1 ≤ Z.of_nat (size live) ∧
       is_Some (heap w2 !! d) ∧ is_Some (heap w2 !! r)) ∧
    (live = ∅ → heap w2 !! d = None ∧ heap w2 !! r = None).
Proof.
  intros Hwf Hcreate Hdata Htrack Hlen.
  pose proof (cow_create_done _ _ _ _ Hcreate Hdata) as Hok.
  rewrite (cow_create_ok sz w0 Hok) in Hcreate. injection Hcreate as <- <-.
  set (d := next_block w0). set (r := Pos.succ d).
  set (w1 := set_heap (poke r 0 1) _).
  assert (d ≠ r) as Hdr by (unfold r; lia).
  assert (accounted d r {[x0]} (set_vars (insert x0 (CowArray (Addr d) (Addr r))) w1)) as Hacc.
  { split; [|split].
    - intros x ->%elem_of_singleton. simpl. apply lookup_insert_eq.
    - intros _. rewrite size_singleton. split; [|split].
      + apply cell_addr. eexists. split; [|split].
        * simpl. apply poke_lookup_eq. apply lookup_insert_eq.
        * done.
        * simpl. apply lookup_insert_eq.
      + simpl. apply poke_is_Some. rewrite lookup_insert_ne by (simpl; lia).
        rewrite lookup_insert_eq. eauto.
      + simpl. rewrite !frees_of_cons. rewrite !decide_False by done.
        by apply frees_of_fresh.
    - intros Hempty. exfalso.
      assert (x0 ∈ (∅ : gset nat)) as Hin by (rewrite <- Hempty; by apply elem_of_singleton).
      by apply not_elem_of_empty in Hin. }
  destruct (run_accounted d r Hdr ops _ _ _ Hacc Htrack) as (w2 & Hrun & Hacc2).
  { rewrite size_singleton. lia. }
  exists d, r, w2. split; [done|]. split; [done|].
  destruct Hacc2 as (Hvars & Hlive & Hdead).
  split; [|split].
  - destruct (decide (live = ∅)) as [He|Hne].
    + by destruct (Hdead He) as (_ & _ & ?).
    + by destruct (Hlive Hne) as (_ & _ & ?).
  - intros Hne. destruct (Hlive Hne) as (Hc & Hd & _).
    split; [done|]. split; [|split; [done|]].
    + destruct (decide (size live = 0%nat)) as [Hz|Hnz]; [|lia].
      apply size_empty_inv, leibniz_equiv in Hz. done.
    + apply cell_addr in Hc as (blk & Hblk & _). eauto.
  - intros He. by destruct (Hdead He) as (? & ? & _).
Qed.

Lemma track_take (ops : list op) (live live' : gset nat) (n : nat) :
  track ops live = Some live' → ∃ liven, track (take n ops) live = Some liven.
Proof.
  revert live n. induction ops as [|o ops IH]; intros live n Htrack.
  - rewrite take_nil. by exists live.
  - destruct n as [|n]; [by exists live|].
    destruct o as [src dst|x|x|x i v]; simpl in *; try done.
    + destruct (_ && _); [by apply IH | done].
    + destruct (bool_decide _); [by apply IH | done].
Qed.

(** C1: starting from one successful cow_create, at every point of every
    sequence of cow_copy and cow_free calls on live handles the payload has
    been freed once if no handle is left and not at all otherwise, so it is
    freed by the release of the last handle and by no other call; while a
    handle is left the counter is the number of live handles, hence at
    least 1, and the payload and the counter are allocated. *)
Theorem payload_freed_with_last_handle
    (sz : Z) (x0 : nat) (ops : list op) (live : gset nat)
    (w0 w1 : world) (h : cow_array) :
  wf w0 →
  cow_create sz w0 = Done h w1 → data h ≠ NULL →
  track ops {[x0]} = Some live →
  Z.of_nat (length ops) < INT_MAX →
  ∃ d r,
    h = CowArray (Addr d) (Addr r) ∧
    ∀ n, ∃ wn liven,
      track (take n ops) {[x0]} = Some liven ∧
      (set_var x0 h;; run (take n ops)) w1 = Done tt wn ∧
      frees_of d (events wn) = (if decide (liven = ∅) then 1 else 0)%nat ∧
      (liven ≠ ∅ →
         sharers wn h = Some (Z.of_nat (size liven)) ∧ 1 ≤ Z.of_nat (size liven) ∧
         is_Some (heap wn !! d) ∧ is_Some (heap wn !! r)) ∧
      (liven = ∅ → heap wn !! d = None ∧ heap wn !! r = None).
Proof.
  intros Hwf Hcreate Hdata Htrack Hlen.
  destruct (accounting_after_run sz x0 [] {[x0]} w0 w1 h Hwf Hcreate Hdata eq_refl)
    as (d & r & _ & -> & _).
  { unfold INT_MAX. simpl. lia. }
  exists d, r. split; [done|]. intros n.
  destruct (track_take ops _ _ n Htrack) as [liven Hn].
  destruct (accounting_after_run sz x0 (take n ops) liven w0 w1 _ Hwf Hcreate Hdata Hn)
    as (d' & r' & wn & [= <- <-] & Hrun & Hrest).
  { rewrite length_take. lia. }
  by exists wn, liven.
Qed.

(** ** cow_ensure_unique *)

Lemma copy_bytes : size_t_mul ARRAY_SIZE sizeof_int = 480000000.
Proof. reflexivity. Qed.

Lemma memcpy_ok (w : world) (d s : positive) (bd bs : block) (nbytes : Z) :
  heap w !! d = Some bd → heap w !! s = Some bs → d ≠ s →
  0 ≤ nbytes → nbytes ≤ blk_bytes bd → nbytes ≤ blk_bytes bs →
  memcpy (Addr d) (Addr s) nbytes w =
  Done tt (log_event (EMemcpy d s nbytes) (set_heap (blit d s nbytes) w)).
Proof.
  intros Hd Hs Hne H0 H1 H2. unfold memcpy. rewrite Hd, Hs.
  rewrite (proj2 (Z.leb_le _ _) H0), (proj2 (Z.leb_le _ _) H1), (proj2 (Z.leb_le _ _) H2).
  by rewrite bool_decide_eq_false_2.
Qed.

Lemma set_var_unfold (x : nat) (h : cow_array) (w : world) :
  set_var x h w = Done tt (set_vars (insert x h) w).
Proof. reflexivity. Qed.

Lemma cow_ensure_unique_shared (w : world) (x : nat) (d r : positive) (k : Z) :
  forkable w x d r k → allocs_ok 2 w = true →
  cow_ensure_unique x w = Done tt (forked x d r k w).
Proof.
  intros [Hwf Hvar Hne Hk Hshared (d0 & bd & [= <-] & Hbd & Hsize)] Hok.
  pose proof (wf_fresh w Hwf) as Hfresh.
  destruct (allocs_ok_S 1 w (size_t_mul ARRAY_SIZE sizeof_int) Hok) as [Hok1 Hok2].
  assert (next_block w ≠ d) as Hd' by (intros Heq; rewrite Heq in Hfresh; congruence).
  assert (next_block w ≠ r) as Hr'.
  { intros Heq. rewrite Heq in Hfresh. apply cell_addr in Hk as (? & ? & _). congruence. }
  unfold cow_ensure_unique.
  rewrite (bind_done _ _ _ _ _ (get_var_some _ _ _ Hvar)). simpl data. simpl ref_count.
  rewrite (bind_done _ _ _ _ _ (load_int_cell _ _ _ _ Hk)).
  replace (1 <? k) with true by (symmetry; apply Z.ltb_lt; lia).
  rewrite (bind_done _ _ _ _ _ (malloc_ok _ _ Hok1)).
  rewrite (bind_done _ _ _ _ _ (set_var_unfold _ _ _)).
  erewrite bind_done; cycle 1.
  { eapply memcpy_ok; simpl.
    - apply lookup_insert_eq.
    - by rewrite lookup_insert_ne.
    - done.
    - done.
    - done.
    - rewrite copy_bytes. unfold sizeof_int, ARRAY_SIZE in Hsize. lia. }
  set (w2 := log_event _ _).
  assert (cell w2 (Addr r) 0 = Some k) as Hk2.
  { unfold w2, cell. simpl. unfold blit. rewrite lookup_insert_eq.
    rewrite lookup_insert_ne by done. rewrite Hbd.
    rewrite lookup_insert_ne by done. rewrite lookup_insert_ne by done. exact Hk. }
  rewrite (bind_done _ _ _ _ _ (load_int_cell _ _ _ _ Hk2)).
  rewrite (bind_done _ _ _ _ _ (int_decr_ok k w2 ltac:(unfold INT_MIN, INT_MAX in *; lia))).
  destruct (store_int_written w2 _ _ _ (k - 1) Hk2) as (r0 & [= <-] & Hst).
  rewrite (bind_done _ _ _ _ _ Hst).
  assert (allocs_ok 1 (set_heap (poke r 0 (k - 1)) w2) = true) as Hok3 by exact Hok2.
  rewrite (bind_done _ _ _ _ _ (malloc_ok _ _ Hok3)).
  rewrite (bind_done _ _ _ _ _ (set_var_unfold _ _ _)).
  eapply store_int_ok; simpl; [apply lookup_insert_eq | done].
Qed.

Lemma copy_cells_lookup_lt (n i : Z) (src dst : gmap Z Z) :
  i < n → copy_cells n src dst !! i = src !! i.
Proof.
  intros Hlt. unfold copy_cells. destruct (src !! i) as [v|] eqn:Hsrc.
  - apply lookup_union_Some_l. by apply map_lookup_filter_Some.
  - apply lookup_union_None. split.
    + apply map_lookup_filter_None. left. done.
    + apply map_lookup_filter_None. right. intros v _. simpl. lia.
Qed.

(** The blocks of the heap after a fork: the fresh counter, the old
    counter, the fresh payload, and every other block as it was. *)
Lemma forked_heap (w : world) (x : nat) (d r : positive) (k : Z) (bd br : block) (b : positive) :
  forkable w x d r k → heap w !! d = Some bd → heap w !! r = Some br →
  heap (forked x d r k w) !! b =
  if decide (b = Pos.succ (next_block w)) then Some (Block sizeof_int {[0 := 1]})
  else if decide (b = r) then Some (Block (blk_bytes br) (<[0 := k - 1]> (blk_cells br)))
  else if decide (b = next_block w) then
    Some (Block (size_t_mul ARRAY_SIZE sizeof_int) (copy_cells ARRAY_SIZE (blk_cells bd) ∅))
  else heap w !! b.
Proof.
  intros [Hwf Hvar Hne Hk Hshared _] Hbd Hbr.
  pose proof (wf_fresh w Hwf) as Hfresh.
  assert (next_block w ≠ d) as Hd' by (intros Heq; rewrite Heq in Hfresh; congruence).
  assert (next_block w ≠ r) as Hr' by (intros Heq; rewrite Heq in Hfresh; congruence).
  assert (Pos.succ (next_block w) ≠ next_block w) as Hsucc by lia.
  assert (Pos.succ (next_block w) ≠ r) as Hr''.
  { intros Heq. destruct Hwf as [Hheap _].
    specialize (Hheap r (mk_is_Some _ _ Hbr)). lia. }
  unfold forked. simpl.
  set (A := size_t_mul ARRAY_SIZE sizeof_int).
  set (H1 := <[next_block w := Block A ∅]> (heap w)).
  assert (blit (next_block w) d A H1 =
          <[next_block w := Block A (copy_cells ARRAY_SIZE (blk_cells bd) ∅)]> H1) as ->.
  { unfold blit, H1. rewrite lookup_insert_eq. rewrite lookup_insert_ne by done.
    rewrite Hbd. done. }
  set (H2 := <[next_block w := _]> H1).
  assert (poke r 0 (k - 1) H2 =
          <[r := Block (blk_bytes br) (<[0 := k - 1]> (blk_cells br))]> H2) as ->.
  { unfold poke, H2, H1. rewrite !lookup_insert_ne by done. by rewrite Hbr. }
  set (H3 := <[r := _]> H2).
  unfold poke. rewrite lookup_insert_eq. simpl.
  destruct (decide (b = Pos.succ (next_block w))) as [->|Hb1].
  { rewrite lookup_insert_eq. done. }
  rewrite !lookup_insert_ne by done.
  unfold H3. destruct (decide (b = r)) as [->|Hb2].
  { by rewrite lookup_insert_eq. }
  rewrite lookup_insert_ne by done.
  unfold H2. destruct (decide (b = next_block w)) as [->|Hb3].
  { by rewrite lookup_insert_eq. }
  rewrite lookup_insert_ne by done.
  unfold H1. by rewrite lookup_insert_ne.
Qed.

Lemma forked_var (w : world) (x : nat) (d r : positive) (k : Z) (y : nat) :
  vars (forked x d r k w) !! y =
  if decide (y = x) then Some (CowArray (Addr (next_block w)) (Addr (Pos.succ (next_block w))))
  else vars w !! y.
Proof.
  unfold forked. simpl. destruct (decide (y = x)) as [->|Hne].
  - apply lookup_insert_eq.
  - by rewrite !lookup_insert_ne.
Qed.

Lemma forked_events (w : world) (x : nat) (d r : positive) (k : Z) :
  events (forked x d r k w) =
  EMalloc (Pos.succ (next_block w)) sizeof_int
    :: EMemcpy (next_block w) d (size_t_mul ARRAY_SIZE sizeof_int)
    :: EMalloc (next_block w) (size_t_mul ARRAY_SIZE sizeof_int) :: events w.
Proof. reflexivity. Qed.

Lemma forked_wf (w : world) (x : nat) (d r : positive) (k : Z) :
  wf w → wf (forked x d r k w).
Proof.
  intros Hwf. unfold forked.
  apply wf_poke, wf_set_vars, wf_alloc, wf_poke.
  assert (∀ e f w', wf w' → (∀ b, e ≠ EFree b) → wf (log_event e (set_heap (blit f d (size_t_mul ARRAY_SIZE sizeof_int)) w'))) as Hblit.
  { intros e f w' [Hheap Hev] He. split; simpl.
    - intros b Hb. apply Hheap. unfold blit in Hb.
      destruct (heap w' !! f) eqn:Hf; [|done]. destruct (heap w' !! d); [|done].
      destruct (decide (f = b)) as [<-|Hfb]; [eauto|]. by rewrite lookup_insert_ne in Hb.
    - intros b [Heq|Hin]%elem_of_cons; [by destruct (He b) | by apply Hev]. }
  apply Hblit; [|done]. by apply wf_set_vars, wf_alloc.
Qed.

(** A fork leaves every cell of every block that was allocated before it
    as it was, except the old counter. *)
Lemma forked_cell_old (w : world) (x : nat) (d r : positive) (k : Z) (b : positive) (i : Z) :
  forkable w x d r k → is_Some (heap w !! b) → b ≠ r →
  cell (forked x d r k w) (Addr b) i = cell w (Addr b) i.
Proof.
  intros Hfk Hb Hbr.
  destruct (fk_payload _ _ _ _ _ Hfk) as (d0 & bd & [= <-] & Hbd & _).
  pose proof (fk_count _ _ _ _ _ Hfk) as (br & Hr & _)%cell_addr.
  destruct (fk_wf _ _ _ _ _ Hfk) as [Hheap _]. specialize (Hheap b Hb).
  unfold cell. rewrite (forked_heap w x d r k bd br b Hfk Hbd Hr).
  rewrite decide_False by lia. rewrite decide_False by done.
  by rewrite decide_False by lia.
Qed.

Lemma forked_count_old (w : world) (x : nat) (d r : positive) (k : Z) :
  forkable w x d r k → cell (forked x d r k w) (Addr r) 0 = Some (k - 1).
Proof.
  intros Hfk.
  destruct (fk_payload _ _ _ _ _ Hfk) as (d0 & bd & [= <-] & Hbd & _).
  pose proof (fk_count _ _ _ _ _ Hfk) as (br & Hr & Hin & _)%cell_addr.
  destruct (fk_wf _ _ _ _ _ Hfk) as [Hheap _]. specialize (Hheap r (mk_is_Some _ _ Hr)).
  apply cell_addr. eexists. split; [|split].
  - rewrite (forked_heap w x d r k bd br r Hfk Hbd Hr).
    rewrite decide_False by lia. by rewrite decide_True.
  - done.
  - simpl. apply lookup_insert_eq.
Qed.

Lemma forked_count_new (w : world) (x : nat) (d r : positive) (k : Z) :
  forkable w x d r k → cell (forked x d r k w) (Addr (Pos.succ (next_block w))) 0 = Some 1.
Proof.
  intros Hfk.
  destruct (fk_payload _ _ _ _ _ Hfk) as (d0 & bd & [= <-] & Hbd & _).
  pose proof (fk_count _ _ _ _ _ Hfk) as (br & Hr & Hin & _)%cell_addr.
  apply cell_addr. eexists. split; [|split].
  - rewrite (forked_heap w x d r k bd br _ Hfk Hbd Hr). by rewrite decide_True.
  - done.
  - simpl. apply lookup_insert_eq.
Qed.

(** The fresh payload holds the first ARRAY_SIZE elements of the old one. *)
Lemma forked_cell_new (w : world) (x : nat) (d r : positive) (k : Z) (i : Z) :
  forkable w x d r k → 0 ≤ i < ARRAY_SIZE →
  cell (forked x d r k w) (Addr (next_block w)) i = cell w (Addr d) i.
Proof.
  intros Hfk Hi.
  destruct (fk_payload _ _ _ _ _ Hfk) as (d0 & bd & [= <-] & Hbd & Hsize).
  pose proof (fk_count _ _ _ _ _ Hfk) as (br & Hr & _)%cell_addr.
  pose proof (wf_fresh w (fk_wf _ _ _ _ _ Hfk)) as Hfresh.
  unfold cell. rewrite (forked_heap w x d r k bd br _ Hfk Hbd Hr).
  rewrite decide_False by lia. rewrite decide_False by (intros Heq; congruence).
  rewrite decide_True by done. rewrite Hbd. simpl.
  assert (in_bounds (Block (size_t_mul ARRAY_SIZE sizeof_int)
                       (copy_cells ARRAY_SIZE (blk_cells bd) ∅)) i = true) as ->.
  { unfold in_bounds. simpl. rewrite copy_bytes. unfold sizeof_int, ARRAY_SIZE in *.
    apply andb_true_intro. split; [apply Z.leb_le | apply Z.leb_le]; lia. }
  assert (in_bounds bd i = true) as ->.
  { unfold in_bounds. unfold sizeof_int, ARRAY_SIZE in *.
    apply andb_true_intro. split; [apply Z.leb_le | apply Z.leb_le]; lia. }
  apply copy_cells_lookup_lt. lia.
Qed.

(** ** Stores and loads through a handle *)

Lemma write_elem_ok (w : world) (x : nat) (h : cow_array) (b : positive) (blk : block)
    (index v : Z) :
  vars w !! x = Some h → data h = Addr b → heap w !! b = Some blk →
  in_bounds blk index = true →
  write_elem x index v w =
  Done tt (set_heap (poke b index v) (log_event (EWrite (Addr b) index (sharers w h)) w)).
Proof.
  intros Hx Hd Hb Hin. unfold write_elem.
  rewrite (bind_done _ _ _ _ _ (get_var_some _ _ _ Hx)).
  rewrite bind_unfold. rewrite Hd. by eapply store_int_ok.
Qed.

Lemma in_bounds_iff (blk : block) (i : Z) :
  in_bounds blk i = true ↔ 0 ≤ i ∧ sizeof_int * (i + 1) ≤ blk_bytes blk.
Proof. unfold in_bounds. rewrite andb_true_iff, !Z.leb_le. done. Qed.

Lemma cell_log_event (e : event) (w : world) (p : ptr) (i : Z) :
  cell (log_event e w) p i = cell w p i.
Proof. reflexivity. Qed.

Lemma cell_poke_written (w : world) (b : positive) (blk : block) (i v : Z) :
  heap w !! b = Some blk → in_bounds blk i = true →
  cell (set_heap (poke b i v) w) (Addr b) i = Some v.
Proof.
  intros Hb Hin. apply cell_addr. eexists. split; [by apply poke_lookup_eq|].
  split; [done|]. simpl. apply lookup_insert_eq.
Qed.

(** C2, for a payload of at least ARRAY_SIZE elements: when a handle
    whose counter is k >= 2 and whose payload holds ARRAY_SIZE elements is
    forked by cow_ensure_unique, both allocations succeeding, and then
    written through at an index below ARRAY_SIZE, the variable holds a
    fresh payload and a fresh counter equal to 1, the write lands in the
    fresh payload, every cell of every block allocated before the call
    other than the old counter is unchanged (so every other handle still
    holds the same pointers and reads the same values), and the old
    counter is k - 1. *)
Theorem fork_isolates_writer (w : world) (x : nat) (d r : positive) (k index v : Z) :
  forkable w x d r k → allocs_ok 2 w = true → 0 ≤ index < ARRAY_SIZE →
  ∃ w' d' r',
    (cow_ensure_unique x;; write_elem x index v) w = Done tt w' ∧
    vars w' !! x = Some (CowArray (Addr d') (Addr r')) ∧
    heap w !! d' = None ∧ heap w !! r' = None ∧ d' ≠ r' ∧
    sharers w' (CowArray (Addr d') (Addr r')) = Some 1 ∧
    cell w' (Addr d') index = Some v ∧
    (∀ i, 0 ≤ i < ARRAY_SIZE → i ≠ index → cell w' (Addr d') i = cell w (Addr d) i) ∧
    (∀ y, y ≠ x → vars w' !! y = vars w !! y) ∧
    (∀ b i, is_Some (heap w !! b) → b ≠ r → cell w' (Addr b) i = cell w (Addr b) i) ∧
    (∀ i, cell w' (Addr d) i = cell w (Addr d) i) ∧
    sharers w' (CowArray (Addr d) (Addr r)) = Some (k - 1).
Proof.
  intros Hfk Hok Hindex.
  pose proof (cow_ensure_unique_shared w x d r k Hfk Hok) as Hfork.
  destruct (fk_payload _ _ _ _ _ Hfk) as (d0 & bd & [= <-] & Hbd & Hsize).
  pose proof (fk_count _ _ _ _ _ Hfk) as Hk.
  pose proof Hk as (br & Hr & _)%cell_addr.
  pose proof (fk_wf _ _ _ _ _ Hfk) as Hwf.
  pose proof (wf_fresh w Hwf) as Hfresh.
  set (d' := next_block w) in *. set (r' := Pos.succ d').
  set (w1 := forked x d r k w) in *.
  assert (heap w !! r' = None) as Hfresh'.
  { destruct (heap w !! r') eqn:Hb; [|done]. destruct Hwf as [Hheap _].
    specialize (Hheap r' (mk_is_Some _ _ Hb)). unfold r', d' in Hheap. lia. }
  assert (vars w1 !! x = Some (CowArray (Addr d') (Addr r'))) as Hx1.
  { unfold w1. rewrite forked_var. by rewrite decide_True. }
  assert (heap w1 !! d' = Some (Block (size_t_mul ARRAY_SIZE sizeof_int)
                                  (copy_cells ARRAY_SIZE (blk_cells bd) ∅))) as Hd1.
  { unfold w1. rewrite (forked_heap w x d r k bd br d' Hfk Hbd Hr).
    rewrite decide_False by (unfold d'; lia).
    rewrite decide_False by (intros Heq; unfold d' in *; congruence).
    by rewrite decide_True. }
  assert (in_bounds (Block (size_t_mul ARRAY_SIZE sizeof_int)
                       (copy_cells ARRAY_SIZE (blk_cells bd) ∅)) index = true) as Hin.
  { apply in_bounds_iff. simpl. rewrite copy_bytes. unfold sizeof_int, ARRAY_SIZE in *. lia. }
  pose proof (write_elem_ok w1 x _ d' _ index v Hx1 eq_refl Hd1 Hin) as Hwrite.
  assert (d' ≠ r') as Hdr' by (unfold r'; lia).
  eexists _, d', r'. split.
  { rewrite (bind_done _ _ _ _ _ Hfork). exact Hwrite. }
  split; [exact Hx1|]. do 3 (split; [done|]).
  split.
  { unfold sharers. simpl ref_count. rewrite cell_poke_block_ne by congruence.
    rewrite cell_log_event. by apply forked_count_new. }
  split.
  { by eapply cell_poke_written. }
  split.
  { intros i Hi Hne. rewrite cell_poke_index_ne by done. rewrite cell_log_event.
    by apply forked_cell_new. }
  split.
  { intros y Hy. change (vars w1 !! y = vars w !! y).
    unfold w1. rewrite forked_var. by rewrite decide_False. }
  assert (∀ b i, is_Some (heap w !! b) → b ≠ r →
                 cell (set_heap (poke d' index v)
                         (log_event (EWrite (Addr d') index
                                       (sharers w1 (CowArray (Addr d') (Addr r')))) w1))
                      (Addr b) i = cell w (Addr b) i) as Hold.
  { intros b i Hb Hbr. rewrite cell_poke_block_ne.
    - rewrite cell_log_event. by apply forked_cell_old.
    - intros [= ->]. rewrite Hfresh in Hb. by destruct Hb. }
  split; [exact Hold|].
  split.
  { intros i. apply Hold; [eauto | apply (fk_ne _ _ _ _ _ Hfk)]. }
  unfold sharers. simpl ref_count. rewrite cell_poke_block_ne.
  - rewrite cell_log_event. by apply forked_count_old.
  - intros [= ->]. rewrite Hfresh in Hr. done.
Qed.

(** The claim C2 fails on the code for a payload of fewer than ARRAY_SIZE
    elements.  In the scenario of the specification three handles share
    the buffer 0, 1, 2, 3 of four elements, the counter is 3 and every
    allocation succeeds; cow_ensure_unique on the second handle then
    assigns the fresh block to its data field and calls memcpy for
    ARRAY_SIZE elements, which reads past the four of the old payload:
    undefined behaviour.  The write of 99 is never reached, and the
    counter of the shared payload is still 3. *)
Lemma fork_of_four_elements_is_undefined :
  vars small_scenario !! 1%nat = Some (CowArray (Addr 1) (Addr 2)) ∧
  sharers small_scenario (CowArray (Addr 1) (Addr 2)) = Some 3 ∧
  heap small_scenario !! 1%positive =
    Some (Block (sizeof_int * 4) {[0 := 0; 1 := 1; 2 := 2; 3 := 3]}) ∧
  oracle small_scenario = [] ∧
  ¬ payload_holds small_scenario (CowArray (Addr 1) (Addr 2)) ARRAY_SIZE ∧
  ∃ w',
    cow_ensure_unique 1 small_scenario = Fault w' ∧
    (cow_ensure_unique 1;; write_elem 1 0 99) small_scenario = Fault w' ∧
    vars w' !! 1%nat = Some (CowArray (Addr 3) (Addr 2)) ∧
    head (events w') = Some (EMalloc 3 (sizeof_int * ARRAY_SIZE)) ∧
    sharers w' (CowArray (Addr 1) (Addr 2)) = Some 3.
Proof.
  split; [vm_compute; reflexivity|]. split; [vm_compute; reflexivity|].
  split; [vm_compute; reflexivity|]. split; [vm_compute; reflexivity|].
  split.
  - intros (d & blk & [= <-] & Hblk & Hsize).
    assert (blk_bytes blk = 16) as Hbytes.
    { vm_compute in Hblk. by injection Hblk as <-. }
    rewrite Hbytes in Hsize. unfold sizeof_int, ARRAY_SIZE in Hsize. lia.
  - eexists. split; [vm_compute; reflexivity|]. split; [vm_compute; reflexivity|].
    split; [vm_compute; reflexivity|]. split; vm_compute; reflexivity.
Qed.

(** ** What a completed call must have done *)

Lemma bind_done_inv {A B : Type} (m : M A) (k : A → M B) (w w' : world) (b : B) :
  (m ≫= k) w = Done b w' → ∃ a w1, m w = Done a w1 ∧ k a w1 = Done b w'.
Proof.
  rewrite bind_unfold. destruct (m w) as [a w1| |]; [|done..]. intros Hk. by exists a, w1.
Qed.

Lemma get_var_done (x : nat) (h : cow_array) (w w' : world) :
  get_var x w = Done h w' → w' = w ∧ vars w !! x = Some h.
Proof. unfold get_var. destruct (vars w !! x); [|done]. by intros [= -> ->]. Qed.

Lemma malloc_done (nbytes : Z) (p : ptr) (w w' : world) :
  malloc nbytes w = Done p w' →
  (p = NULL ∧ w' = alloc_fail nbytes w) ∨
  (p = Addr (next_block w) ∧ w' = alloc nbytes w ∧ allocs_ok 1 w = true).
Proof.
  unfold malloc, allocs_ok. destruct (oracle w) as [|[] o]; simpl; intros [= <- <-]; auto.
Qed.

Lemma store_int_done (p : ptr) (i v : Z) (w w' : world) :
  store_int p i v w = Done tt w' →
  ∃ b blk, p = Addr b ∧ heap w !! b = Some blk ∧ in_bounds blk i = true ∧
           w' = set_heap (poke b i v) w.
Proof.
  unfold store_int. destruct p as [|b]; [done|].
  destruct (heap w !! b) as [blk|] eqn:Hb; [|done].
  destruct (in_bounds blk i) eqn:Hin; [|done]. intros [= <-]. by exists b, blk.
Qed.

Lemma memcpy_done (dst src : ptr) (nbytes : Z) (w w' : world) :
  memcpy dst src nbytes w = Done tt w' →
  ∃ d s bd bs, dst = Addr d ∧ src = Addr s ∧
    heap w !! d = Some bd ∧ heap w !! s = Some bs ∧ d ≠ s ∧
    nbytes ≤ blk_bytes bd ∧ nbytes ≤ blk_bytes bs ∧
    w' = log_event (EMemcpy d s nbytes) (set_heap (blit d s nbytes) w).
Proof.
  unfold memcpy. destruct dst as [|d]; [done|]. destruct src as [|s]; [done|].
  destruct (heap w !! d) as [bd|] eqn:Hd; [|done].
  destruct (heap w !! s) as [bs|] eqn:Hs; [|done].
  destruct (_ && _) eqn:Hcond; [|done]. intros [= <-].
  apply andb_true_iff in Hcond as [Hcond Hne].
  apply andb_true_iff in Hcond as [Hcond H2].
  apply andb_true_iff in Hcond as [H0 H1].
  apply Z.leb_le in H1, H2. apply negb_true_iff, bool_decide_eq_false in Hne.
  by exists d, s, bd, bs.
Qed.

Lemma int_decr_done (c c' : Z) (w w' : world) :
  int_decr c w = Done c' w' → w' = w ∧ c' = c - 1.
Proof. unfold int_decr. destruct (in_int_range _); [|done]. by intros [= <- <-]. Qed.

Lemma int_incr_done (c c' : Z) (w w' : world) :
  int_incr c w = Done c' w' → w' = w ∧ c' = c + 1.
Proof. unfold int_incr. destruct (in_int_range _); [|done]. by intros [= <- <-]. Qed.

(** A call of cow_ensure_unique on a shared handle that returns has made
    both allocations and one copy, and leaves the variable with a counter
    equal to 1. *)
Lemma cow_ensure_unique_done_shared (w w1 : world) (x : nat) (h : cow_array) (c : Z) :
  vars w !! x = Some h → sharers w h = Some c → 1 < c →
  cow_ensure_unique x w = Done tt w1 →
  ∃ d s r',
    allocs_ok 2 w = true ∧ data h = Addr s ∧
    events w1 = EMalloc r' sizeof_int
                  :: EMemcpy d s (size_t_mul ARRAY_SIZE sizeof_int)
                  :: EMalloc d (size_t_mul ARRAY_SIZE sizeof_int) :: events w ∧
    vars w1 !! x = Some (CowArray (Addr d) (Addr r')) ∧
    cell w1 (Addr r') 0 = Some 1.
Proof.
  intros Hx Hc Hlt. unfold cow_ensure_unique.
  rewrite (bind_done _ _ _ _ _ (get_var_some _ _ _ Hx)).
  rewrite (bind_done _ _ _ _ _ (load_int_cell _ _ _ _ Hc)).
  replace (1 <? c) with true by (symmetry; by apply Z.ltb_lt).
  intros (p & wa & Hmalloc & Hrest)%bind_done_inv.
  apply bind_done_inv in Hrest as ([] & wb & Hset & Hrest).
  injection Hset as <-.
  apply bind_done_inv in Hrest as ([] & wc & Hcpy & Hrest).
  apply malloc_done in Hmalloc as [[-> _]|(-> & -> & Hok1)]; [done|].
  apply memcpy_done in Hcpy as (d & s & bd & bs & [= <-] & Hs & _ & _ & _ & _ & _ & ->).
  apply bind_done_inv in Hrest as (c1 & wd & Hload & Hrest).
  apply load_int_done in Hload as [-> _].
  apply bind_done_inv in Hrest as (c2 & wd & Hdecr & Hrest).
  apply int_decr_done in Hdecr as [-> _].
  apply bind_done_inv in Hrest as ([] & wd & Hstore & Hrest).
  apply store_int_done in Hstore as (b & blk & Hb & _ & _ & ->).
  apply bind_done_inv in Hrest as (q & we & Hmalloc & Hrest).
  apply bind_done_inv in Hrest as ([] & wf' & Hset & Hrest).
  injection Hset as <-.
  apply malloc_done in Hmalloc as [[-> _]|(-> & -> & Hok2)]; [done|].
  apply store_int_done in Hrest as (r' & blk' & [= <-] & Hblk' & Hin & ->).
  eexists (next_block w), s, _. split; [|split; [done|split; [reflexivity|split]]].
  - unfold allocs_ok in *. simpl in Hok2.
    destruct (oracle w) as [|[] [|[] o]]; done.
  - simpl. apply lookup_insert_eq.
  - by eapply cell_poke_written.
Qed.

Lemma copies_made_cons (e : event) (evs : list event) :
  copies_made (e :: evs) = if is_memcpy e then S (copies_made evs) else copies_made evs.
Proof.
  unfold copies_made. rewrite filter_cons. destruct (is_memcpy e); simpl; done.
Qed.

(** C5: on a handle whose counter is at most 1 cow_ensure_unique returns
    the world it was given: no allocation, no copy, no change.  Whenever a
    call returns, calling it again at once changes nothing, and the two
    calls together have run memcpy once if the handle was shared and not at
    all otherwise.  On a forkable handle with two successful allocations
    the first call does return. *)
Theorem fork_idempotent (w : world) (x : nat) (h : cow_array) (c : Z) :
  vars w !! x = Some h → sharers w h = Some c →
  (c ≤ 1 → cow_ensure_unique x w = Done tt w) ∧
  (∀ w1, cow_ensure_unique x w = Done tt w1 →
     cow_ensure_unique x w1 = Done tt w1 ∧
     (cow_ensure_unique x;; cow_ensure_unique x) w = Done tt w1 ∧
     copies_made (events w1) =
       (if 1 <? c then S (copies_made (events w)) else copies_made (events w))) ∧
  (∀ d r, forkable w x d r c → allocs_ok 2 w = true →
     ∃ w1, cow_ensure_unique x w = Done tt w1).
Proof.
  intros Hx Hc.
  assert (c ≤ 1 → cow_ensure_unique x w = Done tt w) as Hnoop.
  { intros Hle. unfold cow_ensure_unique.
    rewrite (bind_done _ _ _ _ _ (get_var_some _ _ _ Hx)).
    rewrite (bind_done _ _ _ _ _ (load_int_cell _ _ _ _ Hc)).
    by replace (1 <? c) with false by (symmetry; apply Z.ltb_ge; lia). }
  split; [exact Hnoop|]. split.
  - intros w1 Hrun. destruct (Z.ltb_spec 1 c) as [Hlt|Hle].
    + destruct (cow_ensure_unique_done_shared w w1 x h c Hx Hc Hlt Hrun)
        as (d' & s & r' & _ & _ & Hev & Hx1 & Hc1).
      assert (cow_ensure_unique x w1 = Done tt w1) as Hagain.
      { unfold cow_ensure_unique.
        rewrite (bind_done _ _ _ _ _ (get_var_some _ _ _ Hx1)).
        by rewrite (bind_done _ _ _ _ _ (load_int_cell _ _ _ _ Hc1)). }
      split; [exact Hagain|]. split.
      * by rewrite (bind_done _ _ _ _ _ Hrun).
      * rewrite Hev. by rewrite !copies_made_cons.
    + rewrite (Hnoop Hle) in Hrun. injection Hrun as <-.
      split; [by apply Hnoop|]. split; [|done].
      rewrite (bind_done _ _ _ _ _ (Hnoop Hle)). by apply Hnoop.
  - intros d r Hfk Hok. eexists. by apply cow_ensure_unique_shared.
Qed.

(** ** cow_create *)

Lemma int_size_bytes (sz : Z) :
  0 ≤ sz ≤ INT_MAX → size_t_mul (to_size_t sz) sizeof_int = sizeof_int * sz.
Proof.
  intros H. unfold size_t_mul, to_size_t, SIZE_MODULUS, sizeof_int, INT_MAX in *.
  rewrite (Z.mod_small sz) by lia. rewrite Z.mod_small by lia. lia.
Qed.

(** What cow_create returns when the payload cannot be allocated and the
    counter can. *)
Lemma cow_create_no_payload (sz : Z) (w : world) (o : list bool) :
  oracle w = false :: o → allocs_ok 1 (alloc_fail (size_t_mul (to_size_t sz) sizeof_int) w) = true →
  cow_create sz w =
  Done (CowArray NULL (Addr (next_block w)))
       (set_heap (poke (next_block w) 0 1)
          (alloc sizeof_int (alloc_fail (size_t_mul (to_size_t sz) sizeof_int) w))).
Proof.
  intros Ho Hok. unfold cow_create.
  rewrite (bind_done _ _ _ _ _ (malloc_fails _ _ _ Ho)).
  rewrite (bind_done _ _ _ _ _ (malloc_ok _ _ Hok)).
  erewrite bind_done; [reflexivity|].
  eapply store_int_ok; [apply lookup_insert_eq | done].
Qed.

(** The claim C7 fails on the code: when the payload cannot be allocated,
    cow_create returns, as if it had succeeded, a handle without payload
    whose counter is 1. *)
Lemma cow_create_returns_partial_handle :
  ∃ h w', cow_create 4 (init_world [false]) = Done h w' ∧
          data h = NULL ∧ sharers w' h = Some 1.
Proof.
  eexists _, _. split; [|split].
  - by eapply cow_create_no_payload.
  - done.
  - by vm_compute.
Qed.

(** C7, as the code has it: cow_create has no initializer and no error
    result.  When both allocations succeed it returns two fresh blocks, a
    payload of exactly [sz] elements, none of them written, and a counter
    equal to 1.  When the payload cannot be allocated it returns a handle
    whose data is NULL and whose counter is 1; benchmark_cow tests the data
    pointer and calls exit(1). *)
Theorem cow_create_result (sz : Z) (w : world) :
  wf w → 0 ≤ sz ≤ INT_MAX →
  (allocs_ok 2 w = true →
     ∃ d r blk w',
       cow_create sz w = Done (CowArray (Addr d) (Addr r)) w' ∧
       heap w !! d = None ∧ heap w !! r = None ∧ d ≠ r ∧
       heap w' !! d = Some blk ∧ blk_bytes blk = sizeof_int * sz ∧ blk_cells blk = ∅ ∧
       (∀ i, in_bounds blk i = true ↔ 0 ≤ i < sz) ∧
       sharers w' (CowArray (Addr d) (Addr r)) = Some 1) ∧
  (∀ o, oracle w = false :: o → hd true o = true →
     ∃ r w',
       cow_create sz w = Done (CowArray NULL (Addr r)) w' ∧
       sharers w' (CowArray NULL (Addr r)) = Some 1 ∧
       (sz = ARRAY_SIZE → ∀ rnd,
          benchmark_cow rnd w = Exit 1 (set_vars (insert original (CowArray NULL (Addr r))) w'))).
Proof.
  intros Hwf Hsz. split.
  - intros Hok. pose proof (wf_fresh w Hwf) as Hfresh.
    set (d := next_block w). set (r := Pos.succ d).
    exists d, r, (Block (sizeof_int * sz) ∅). eexists.
    split; [|split; [|split; [|split; [|split; [|split; [|split; [|split]]]]]]].
    + apply (cow_create_ok sz w Hok).
    + done.
    + destruct (heap w !! r) eqn:Hb; [|done]. destruct Hwf as [Hheap _].
      specialize (Hheap r (mk_is_Some _ _ Hb)). unfold r, d in Hheap. lia.
    + unfold r. lia.
    + simpl. rewrite poke_lookup_ne by (unfold r; lia).
      rewrite lookup_insert_ne by (unfold r, d; simpl; lia).
      rewrite lookup_insert_eq. by rewrite int_size_bytes.
    + done.
    + done.
    + intros i. rewrite in_bounds_iff. simpl. unfold sizeof_int. lia.
    + apply cell_poke_written with (Block sizeof_int ∅); [|done].
      simpl. apply lookup_insert_eq.
  - intros o Ho Hhd.
    assert (allocs_ok 1 (alloc_fail (size_t_mul (to_size_t sz) sizeof_int) w) = true) as Hok.
    { unfold allocs_ok. simpl. rewrite Ho. simpl. destruct o as [|b o']; [done|].
      simpl in *. by rewrite Hhd. }
    pose proof (cow_create_no_payload sz w o Ho Hok) as Hcreate.
    eexists _, _. split; [exact Hcreate|]. split.
    + apply cell_poke_written with (Block sizeof_int ∅); [|done].
      simpl. apply lookup_insert_eq.
    + intros -> rnd. unfold benchmark_cow.
      rewrite (bind_done _ _ _ _ _ Hcreate).
      rewrite (bind_done _ _ _ _ _ (set_var_unfold _ _ _)). reflexivity.
Qed.

(** ** Failure inside cow_ensure_unique *)

(** When the payload of the copy cannot be allocated, cow_ensure_unique has
    already overwritten the data pointer of the handle with NULL when
    memcpy is called on it. *)
Lemma fork_without_memory (w : world) (x : nat) (h : cow_array) (c : Z) (o : list bool) :
  vars w !! x = Some h → sharers w h = Some c → 1 < c → oracle w = false :: o →
  cow_ensure_unique x w =
  Fault (set_vars (insert x (CowArray NULL (ref_count h)))
           (alloc_fail (size_t_mul ARRAY_SIZE sizeof_int) w)).
Proof.
  intros Hx Hc Hlt Ho. unfold cow_ensure_unique.
  rewrite (bind_done _ _ _ _ _ (get_var_some _ _ _ Hx)).
  rewrite (bind_done _ _ _ _ _ (load_int_cell _ _ _ _ Hc)).
  replace (1 <? c) with true by (symmetry; by apply Z.ltb_lt).
  rewrite (bind_done _ _ _ _ _ (malloc_fails _ _ _ Ho)).
  rewrite (bind_done _ _ _ _ _ (set_var_unfold _ _ _)).
  reflexivity.
Qed.

(** C8 fails on the code.  Variable 1 holds one of three handles on a
    payload; the allocation inside cow_ensure_unique fails.  The call has
    undefined behaviour (memcpy to NULL), and when it arises the variable
    no longer holds its payload pointer: the handle was not left as it
    was. *)
Theorem failed_fork_loses_payload_pointer :
  vars (scenario [false]) !! 1%nat = Some (CowArray (Addr 1) (Addr 2)) ∧
  sharers (scenario [false]) (CowArray (Addr 1) (Addr 2)) = Some 3 ∧
  ∃ w', cow_ensure_unique 1 (scenario [false]) = Fault w' ∧
        vars w' !! 1%nat = Some (CowArray NULL (Addr 2)).
Proof.
  assert (vars (scenario [false]) !! 1%nat = Some (CowArray (Addr 1) (Addr 2))) as Hx
    by (vm_compute; reflexivity).
  assert (sharers (scenario [false]) (CowArray (Addr 1) (Addr 2)) = Some 3) as Hc
    by (vm_compute; reflexivity).
  split; [exact Hx|]. split; [exact Hc|].
  eexists. split.
  - eapply (fork_without_memory _ _ _ 3 []);
      [exact Hx | exact Hc | lia | vm_compute; reflexivity].
  - exact (lookup_insert_eq _ _ _).
Qed.

(** The same when the second allocation, of the fresh counter, fails: the
    payload was replaced and the old counter decremented before the store
    through NULL. *)
Lemma failed_counter_allocation :
  ∃ w', cow_ensure_unique 1 (scenario [true; false]) = Fault w' ∧
        vars w' !! 1%nat = Some (CowArray (Addr 3) NULL) ∧
        sharers w' (CowArray (Addr 1) (Addr 2)) = Some 2.
Proof. eexists. split; [vm_compute; reflexivity|]. split; vm_compute; reflexivity. Qed.

(** ** Instances on concrete worlds *)

Lemma wfb_wf (w : world) : wfb w = true → wf w.
Proof.
  unfold wfb. intros [Hheap Hev]%andb_true_iff.
  apply bool_decide_eq_true in Hheap. split.
  - intros b [blk Hb]. exact (Hheap b blk Hb).
  - intros b Hin. rewrite forallb_forall in Hev.
    apply list_elem_of_In in Hin. specialize (Hev _ Hin).
    by apply bool_decide_eq_true in Hev.
Qed.

Lemma wf_init (o : list bool) : wf (init_world o).
Proof. by apply wfb_wf. Qed.

Lemma scenario_forkable (o : list bool) : forkable (scenario o) 1 1 2 3.
Proof.
  split.
  - apply wfb_wf. vm_compute. reflexivity.
  - vm_compute. reflexivity.
  - discriminate.
  - vm_compute. reflexivity.
  - unfold INT_MAX. lia.
  - exists 1%positive. eexists. split; [reflexivity|]. split.
    + vm_compute. reflexivity.
    + vm_compute. discriminate.
Defined.

Lemma cow_copy_shares_payload_witness :
  sharers (scenario []) (CowArray (Addr 1) (Addr 2)) = Some 3 ∧
  ∃ dest w',
    cow_copy (CowArray (Addr 1) (Addr 2)) (scenario []) = Done dest w' ∧
    data dest = Addr 1 ∧ sharers w' dest = Some 4 ∧ events w' = events (scenario []).
Proof.
  assert (sharers (scenario []) (CowArray (Addr 1) (Addr 2)) = Some 3) as Hc
    by (vm_compute; reflexivity).
  split; [exact Hc|].
  destruct (cow_copy_shares_payload (CowArray (Addr 1) (Addr 2)) (scenario []) 3 Hc)
    as (dest & w' & Hrun & Hd & _ & Hev & _ & _ & Hc' & _).
  - unfold INT_MIN, INT_MAX. lia.
  - discriminate.
  - exists dest, w'. split; [exact Hrun|]. split; [exact Hd|]. split; [exact Hc'|exact Hev].
Defined.

Lemma payload_freed_with_last_handle_witness :
  wf (init_world []) ∧
  track [OpShare 0 1; OpRelease 0; OpRelease 1] {[0%nat]} = Some ∅ ∧
  ∃ d r h w1 w2 w3,
    cow_create ARRAY_SIZE (init_world []) = Done h w1 ∧ h = CowArray (Addr d) (Addr r) ∧
    (set_var 0 h;; run [OpShare 0 1; OpRelease 0]) w1 = Done tt w2 ∧
    frees_of d (events w2) = 0%nat ∧ sharers w2 h = Some 1 ∧
    (set_var 0 h;; run [OpShare 0 1; OpRelease 0; OpRelease 1]) w1 = Done tt w3 ∧
    frees_of d (events w3) = 1%nat ∧ heap w3 !! d = None ∧ heap w3 !! r = None.
Proof.
  assert (track [OpShare 0 1; OpRelease 0; OpRelease 1] {[0%nat]} = Some ∅) as Htrack
    by (vm_compute; reflexivity).
  split; [apply wf_init|]. split; [exact Htrack|].
  destruct (payload_freed_with_last_handle ARRAY_SIZE 0
              [OpShare 0 1; OpRelease 0; OpRelease 1] ∅ (init_world []) _ _
              (wf_init []) (cow_create_ok ARRAY_SIZE (init_world []) eq_refl))
    as (d & r & Hh & Hevery).
  - discriminate.
  - exact Htrack.
  - unfold INT_MAX. simpl. lia.
  - destruct (Hevery 2%nat) as (w2 & live2 & Htrack2 & Hrun2 & Hfrees2 & Hlive2 & _).
    destruct (Hevery 3%nat) as (w3 & live3 & Htrack3 & Hrun3 & Hfrees3 & _ & Hgone3).
    assert (live2 = {[1%nat]}) as ->.
    { assert (track (take 2 [OpShare 0 1; OpRelease 0; OpRelease 1]) {[0%nat]}
              = Some {[1%nat]}) as Heq by (vm_compute; reflexivity).
      rewrite Heq in Htrack2. by injection Htrack2. }
    assert (live3 = ∅) as ->.
    { simpl take in Htrack3. rewrite Htrack in Htrack3. by injection Htrack3. }
    assert (({[1%nat]} : gset nat) ≠ ∅) as Hne.
    { intros Heq. apply (not_elem_of_empty (C := gset nat) 1%nat).
      rewrite <- Heq. by apply elem_of_singleton. }
    destruct (Hlive2 Hne) as (Hc2 & _).
    eexists d, r, _, _, w2, w3. split; [reflexivity|]. split; [exact Hh|].
    split; [exact Hrun2|]. split; [by rewrite Hfrees2, decide_False|].
    split; [by rewrite size_singleton in Hc2|].
    split; [exact Hrun3|]. split; [by rewrite Hfrees3, decide_True|].
    by apply Hgone3.
Defined.

(** The scenario of three handles on the buffer 0, 1, 2, 3: after the
    second handle is forked and its element 0 set to 99, the first and the
    third handle still read 0, the second reads 99, and the counter of the
    original payload is 2. *)
Lemma fork_isolates_writer_witness :
  forkable (scenario []) 1 1 2 3 ∧ allocs_ok 2 (scenario []) = true ∧
  ∃ w',
    (cow_ensure_unique 1;; write_elem 1 0 99) (scenario []) = Done tt w' ∧
    (∃ w'', read_elem 0 0 w' = Done 0 w'') ∧
    (∃ w'', read_elem 1 0 w' = Done 99 w'') ∧
    (∃ w'', read_elem 2 0 w' = Done 0 w'') ∧
    sharers w' (CowArray (Addr 1) (Addr 2)) = Some 2.
Proof.
  split; [apply scenario_forkable|]. split; [reflexivity|].
  destruct (fork_isolates_writer (scenario []) 1 1 2 3 0 99 (scenario_forkable []) eq_refl)
    as (w' & d' & r' & Hrun & Hx & _ & _ & _ & _ & Hnew & _ & Hvars & _ & Hold & Hcount).
  { unfold ARRAY_SIZE. lia. }
  assert (cell (scenario []) (Addr 1) 0 = Some 0) as Hzero by (vm_compute; reflexivity).
  assert (∀ y, y ≠ 1%nat → vars (scenario []) !! y = Some (CowArray (Addr 1) (Addr 2)) →
               read_elem y 0 w' = Done 0 w') as Hread.
  { intros y Hy Hvar. unfold read_elem.
    rewrite (bind_done _ _ _ _ _ (get_var_some y _ w' ltac:(by rewrite Hvars))).
    apply load_int_cell. simpl data. by rewrite Hold. }
  exists w'. split; [exact Hrun|]. split; [|split; [|split]].
  - exists w'. apply Hread; [discriminate | vm_compute; reflexivity].
  - exists w'. unfold read_elem. rewrite (bind_done _ _ _ _ _ (get_var_some _ _ _ Hx)).
    by apply load_int_cell.
  - exists w'. apply Hread; [discriminate | vm_compute; reflexivity].
  - exact Hcount.
Defined.

Lemma fork_idempotent_witness :
  vars (scenario []) !! 1%nat = Some (CowArray (Addr 1) (Addr 2)) ∧
  sharers (scenario []) (CowArray (Addr 1) (Addr 2)) = Some 3 ∧
  ∃ w1, cow_ensure_unique 1 (scenario []) = Done tt w1 ∧
        cow_ensure_unique 1 w1 = Done tt w1 ∧
        copies_made (events w1) = S (copies_made (events (scenario []))).
Proof.
  assert (vars (scenario []) !! 1%nat = Some (CowArray (Addr 1) (Addr 2))) as Hx
    by (vm_compute; reflexivity).
  assert (sharers (scenario []) (CowArray (Addr 1) (Addr 2)) = Some 3) as Hc
    by (vm_compute; reflexivity).
  split; [exact Hx|]. split; [exact Hc|].
  destruct (fork_idempotent (scenario []) 1 _ 3 Hx Hc) as (_ & Htwice & Hreturns).
  destruct (Hreturns 1%positive 2%positive (scenario_forkable []) eq_refl) as [w1 Hrun].
  destruct (Htwice w1 Hrun) as (Hagain & _ & Hcopies).
  exists w1. split; [exact Hrun|]. split; [exact Hagain|exact Hcopies].
Defined.

(** ** Indices *)

Lemma scenario_payload_block (o : list bool) :
  ∃ cells, heap (scenario o) !! 1%positive = Some (Block 480000000 cells).
Proof. eexists. vm_compute. reflexivity. Qed.

Lemma scenario_payload (o : list bool) :
  payload_holds (scenario o) (CowArray (Addr 1) (Addr 2)) ARRAY_SIZE.
Proof.
  destruct (scenario_payload_block o) as [cells Hblk].
  exists 1%positive. eexists. split; [reflexivity|]. split; [exact Hblk|].
  simpl. unfold sizeof_int, ARRAY_SIZE. lia.
Qed.

(** The claim C9 fails on the code: no access is checked.  On a payload
    of exactly ARRAY_SIZE elements, a store or a load at index ARRAY_SIZE,
    or a store at index -1, is undefined behaviour; nothing is reported to
    the caller. *)
Lemma out_of_range_access_is_undefined :
  payload_holds (scenario []) (CowArray (Addr 1) (Addr 2)) ARRAY_SIZE ∧
  ¬ payload_holds (scenario []) (CowArray (Addr 1) (Addr 2)) (ARRAY_SIZE + 1) ∧
  ∃ w1 w2 w3,
    write_elem 0 ARRAY_SIZE 7 (scenario []) = Fault w1 ∧
    write_elem 0 (-1) 7 (scenario []) = Fault w2 ∧
    read_elem 0 ARRAY_SIZE (scenario []) = Fault w3.
Proof.
  split; [apply scenario_payload|]. split.
  - destruct (scenario_payload_block []) as [cells Hblk].
    intros (d & blk & [= <-] & Hd & Hsize). rewrite Hblk in Hd. injection Hd as <-.
    simpl in Hsize. unfold sizeof_int, ARRAY_SIZE in Hsize. lia.
  - eexists _, _, _. split; [|split]; vm_compute; reflexivity.
Qed.

(** C9, as the code has it: the index of every store in the benchmark is
    rand() % ARRAY_SIZE; rand() is not negative, so the index lies in
    [0, ARRAY_SIZE), and the store through a handle whose payload holds
    ARRAY_SIZE elements completes, sets that element, and changes no other
    cell of the heap, in particular no counter. *)
Theorem benchmark_store_in_range (w : world) (x : nat) (h : cow_array) (r v : Z) :
  0 ≤ r → vars w !! x = Some h → payload_holds w h ARRAY_SIZE →
  0 ≤ Z.rem r ARRAY_SIZE < ARRAY_SIZE ∧
  ∃ w',
    write_elem x (Z.rem r ARRAY_SIZE) v w = Done tt w' ∧
    cell w' (data h) (Z.rem r ARRAY_SIZE) = Some v ∧
    (∀ p i, p ≠ data h ∨ i ≠ Z.rem r ARRAY_SIZE → cell w' p i = cell w p i) ∧
    vars w' = vars w.
Proof.
  intros Hr Hx (d & blk & Hd & Hblk & Hsize).
  assert (0 ≤ Z.rem r ARRAY_SIZE < ARRAY_SIZE) as Hindex.
  { split; [apply Z.rem_nonneg; [done | unfold ARRAY_SIZE; lia]|].
    apply Z.rem_bound_pos; [done | unfold ARRAY_SIZE; lia]. }
  split; [exact Hindex|].
  set (index := Z.rem r ARRAY_SIZE) in *.
  assert (in_bounds blk index = true) as Hin.
  { apply in_bounds_iff. unfold sizeof_int in *. lia. }
  eexists. split; [by eapply write_elem_ok|]. rewrite Hd. split; [|split].
  - by eapply cell_poke_written.
  - intros p i [Hp|Hi].
    + by rewrite cell_poke_block_ne.
    + destruct (decide (p = Addr d)) as [->|Hp]; [|by rewrite cell_poke_block_ne].
      by rewrite cell_poke_index_ne.
  - done.
Qed.

Lemma benchmark_store_in_range_witness :
  0 ≤ 32767 ∧ vars (scenario []) !! 0%nat = Some (CowArray (Addr 1) (Addr 2)) ∧
  ∃ w', write_elem 0 32767 5 (scenario []) = Done tt w' ∧
        cell w' (Addr 1) 32767 = Some 5 ∧
        sharers w' (CowArray (Addr 1) (Addr 2)) = Some 3.
Proof.
  assert (vars (scenario []) !! 0%nat = Some (CowArray (Addr 1) (Addr 2))) as Hx
    by (vm_compute; reflexivity).
  split; [lia|]. split; [exact Hx|].
  destruct (benchmark_store_in_range (scenario []) 0 _ 32767 5 ltac:(lia) Hx
              (scenario_payload []))
    as (_ & w' & Hrun & Hcell & Hother & _).
  exists w'. split; [exact Hrun|]. split; [exact Hcell|].
  unfold sharers. simpl ref_count. rewrite Hother; [vm_compute; reflexivity|].
  left. discriminate.
Defined.

(** ** The size of the copy *)

Lemma memcpy_short_source (w : world) (d s : positive) (bs : block) (nbytes : Z) :
  heap w !! s = Some bs → blk_bytes bs < nbytes →
  memcpy (Addr d) (Addr s) nbytes w = Fault w.
Proof.
  intros Hs Hlt. unfold memcpy. rewrite Hs. destruct (heap w !! d) as [bd|]; [|done].
  replace (nbytes <=? blk_bytes bs) with false by (symmetry; apply Z.leb_gt; lia).
  by rewrite andb_false_r.
Qed.

(** The claim C10 fails on the code in one direction: a buffer created
    with ARRAY_SIZE + 1 elements, which is not ARRAY_SIZE, is forked
    within bounds. *)
Lemma larger_buffer_forks_in_bounds :
  ARRAY_SIZE + 1 ≠ ARRAY_SIZE ∧
  ∃ w', fork_of_size (ARRAY_SIZE + 1) (init_world []) = Done tt w'.
Proof. split; [lia|]. eexists. vm_compute. reflexivity. Qed.

(** A buffer of four elements, as in the scenario of the specification,
    cannot be forked: memcpy reads ARRAY_SIZE elements from it. *)
Lemma small_buffer_fork_faults :
  ∃ w', fork_of_size 4 (init_world []) = Fault w'.
Proof. eexists. vm_compute. reflexivity. Qed.

(** C10, as the code has it: the handle records no size, and
    cow_ensure_unique on a shared handle allocates and copies ARRAY_SIZE
    elements whatever the size [sz] of the payload is.  The copy is within
    bounds exactly when ARRAY_SIZE <= sz; the fresh payload always has
    ARRAY_SIZE elements, so it has the size of the old one only when
    sz = ARRAY_SIZE. *)
Theorem fork_copies_array_size (sz : Z) (w : world) (x : nat) (d r : positive) (k : Z)
    (bd : block) :
  wf w → vars w !! x = Some (CowArray (Addr d) (Addr r)) → d ≠ r →
  cell w (Addr r) 0 = Some k → 2 ≤ k ≤ INT_MAX →
  heap w !! d = Some bd → blk_bytes bd = sizeof_int * sz →
  allocs_ok 2 w = true →
  (ARRAY_SIZE ≤ sz →
     ∃ w' d' r' blk',
       cow_ensure_unique x w = Done tt w' ∧
       vars w' !! x = Some (CowArray (Addr d') (Addr r')) ∧
       heap w' !! d' = Some blk' ∧ blk_bytes blk' = sizeof_int * ARRAY_SIZE ∧
       (blk_bytes blk' = blk_bytes bd ↔ sz = ARRAY_SIZE) ∧
       events w' = EMalloc r' sizeof_int
                     :: EMemcpy d' d (sizeof_int * ARRAY_SIZE)
                     :: EMalloc d' (sizeof_int * ARRAY_SIZE) :: events w) ∧
  (sz < ARRAY_SIZE → ∃ w', cow_ensure_unique x w = Fault w').
Proof.
  intros Hwf Hx Hne Hk Hshared Hbd Hbytes Hok. split.
  - intros Hsz.
    assert (forkable w x d r k) as Hfk.
    { split; try done. exists d, bd. split; [done|]. split; [done|].
      rewrite Hbytes. unfold sizeof_int. lia. }
    pose proof Hk as (br & Hr & _)%cell_addr.
    exists (forked x d r k w), (next_block w), (Pos.succ (next_block w)). eexists.
    split; [by apply cow_ensure_unique_shared|].
    split; [rewrite forked_var; by rewrite decide_True|].
    split.
    { rewrite (forked_heap w x d r k bd br _ Hfk Hbd Hr).
      rewrite decide_False by lia.
      rewrite decide_False.
      - by rewrite decide_True.
      - intros Heq. pose proof (wf_fresh w Hwf) as Hfresh. rewrite Heq in Hfresh. congruence. }
    split; [done|]. split; [|done].
    simpl. rewrite copy_bytes, Hbytes. unfold sizeof_int, ARRAY_SIZE. lia.
  - intros Hsz.
    destruct (allocs_ok_S 1 w (size_t_mul ARRAY_SIZE sizeof_int) Hok) as [Hok1 _].
    eexists. unfold cow_ensure_unique.
    rewrite (bind_done _ _ _ _ _ (get_var_some _ _ _ Hx)). simpl data. simpl ref_count.
    rewrite (bind_done _ _ _ _ _ (load_int_cell _ _ _ _ Hk)).
    replace (1 <? k) with true by (symmetry; apply Z.ltb_lt; lia).
    rewrite (bind_done _ _ _ _ _ (malloc_ok _ _ Hok1)).
    rewrite (bind_done _ _ _ _ _ (set_var_unfold _ _ _)).
    erewrite bind_fault; [reflexivity|].
    apply memcpy_short_source with bd.
    + simpl. rewrite lookup_insert_ne; [done|].
      intros Heq. pose proof (wf_fresh w Hwf) as Hfresh. rewrite Heq in Hfresh. congruence.
    + rewrite copy_bytes, Hbytes. unfold sizeof_int, ARRAY_SIZE in *. lia.
Qed.

Lemma fork_copies_array_size_witness :
  wf (scenario []) ∧ allocs_ok 2 (scenario []) = true ∧
  ∃ w' d' r' blk',
    cow_ensure_unique 1 (scenario []) = Done tt w' ∧
    vars w' !! 1%nat = Some (CowArray (Addr d') (Addr r')) ∧
    heap w' !! d' = Some blk' ∧ blk_bytes blk' = sizeof_int * ARRAY_SIZE.
Proof.
  destruct (scenario_payload_block []) as [cells Hblk].
  assert (wf (scenario [])) as Hwf by (apply wfb_wf; vm_compute; reflexivity).
  split; [exact Hwf|]. split; [reflexivity|].
  destruct (fork_copies_array_size ARRAY_SIZE (scenario []) 1 1 2 3 (Block 480000000 cells) Hwf)
    as [Hfits _];
    [vm_compute; reflexivity | discriminate | vm_compute; reflexivity
    | unfold INT_MAX; lia | exact Hblk | reflexivity | reflexivity |].
  destruct (Hfits ltac:(lia)) as (w' & d' & r' & blk' & Hrun & Hx & Hd & Hsize & _).
  exists w', d', r', blk'. split; [exact Hrun|]. split; [exact Hx|]. split; [exact Hd|exact Hsize].
Defined.

(** ** Storage of layered containers *)

Lemma add_containers_take (from : Z) (cs : list Container) (k : nat) (total : Z) :
  (k ≤ length cs)%nat →
  add_containers from cs (Z.of_nat k) total =
  foldl (λ acc c, t ← acc; add_layers from c t) (Some total) (take k cs).
Proof.
  unfold add_containers. induction k as [|k IH]; intros Hk.
  - by rewrite take_0.
  - destruct (lookup_lt_is_Some_2 cs k ltac:(lia)) as [c Hc].
    rewrite seqZ_S, foldl_app, IH by lia.
    rewrite (take_S_r _ _ _ Hc), foldl_app. simpl.
    destruct (foldl _ _ (take k cs)) as [t|]; [|done]. simpl.
    rewrite Z.add_0_l, Nat2Z.id. by rewrite Hc.
Qed.

Lemma size_t_add_mod (t b : Z) :
  size_t_add (t mod SIZE_MODULUS) b = (t + b) mod SIZE_MODULUS.
Proof. unfold size_t_add. by rewrite Zplus_mod_idemp_l. Qed.

Lemma add_layers_all (base : Layer) (L : Z) (c : Container) (t : Z) :
  layered base L c →
  add_layers 0 c (t mod SIZE_MODULUS) = Some ((t + (size_mb base + L)) mod SIZE_MODULUS).
Proof.
  intros (Hcount & l & Hlayers & <-). unfold add_layers. rewrite Hcount, Hlayers. simpl.
  rewrite size_t_add_mod. unfold size_t_add. rewrite Zplus_mod_idemp_l.
  do 2 f_equal. lia.
Qed.

Lemma add_layers_own (base : Layer) (L : Z) (c : Container) (t : Z) :
  layered base L c →
  add_layers 1 c (t mod SIZE_MODULUS) = Some ((t + L) mod SIZE_MODULUS).
Proof.
  intros (Hcount & l & Hlayers & <-). unfold add_layers. rewrite Hcount, Hlayers. simpl.
  by rewrite size_t_add_mod.
Qed.

Lemma fold_layers_all (base : Layer) (L : Z) (cs : list Container) (t : Z) :
  Forall (layered base L) cs →
  foldl (λ acc c, t ← acc; add_layers 0 c t) (Some (t mod SIZE_MODULUS)) cs =
  Some ((t + Z.of_nat (length cs) * (size_mb base + L)) mod SIZE_MODULUS).
Proof.
  intros Hcs. revert t. induction Hcs as [|c cs Hc _ IH]; intros t.
  - simpl. do 2 f_equal. lia.
  - simpl foldl. rewrite (add_layers_all base L c t Hc). rewrite IH.
    do 2 f_equal. rewrite length_cons. lia.
Qed.

Lemma fold_layers_own (base : Layer) (L : Z) (cs : list Container) (t : Z) :
  Forall (layered base L) cs →
  foldl (λ acc c, t ← acc; add_layers 1 c t) (Some (t mod SIZE_MODULUS)) cs =
  Some ((t + Z.of_nat (length cs) * L) mod SIZE_MODULUS).
Proof.
  intros Hcs. revert t. induction Hcs as [|c cs Hc _ IH]; intros t.
  - simpl. do 2 f_equal. lia.
  - simpl foldl. rewrite (add_layers_own base L c t Hc). rewrite IH.
    do 2 f_equal. rewrite length_cons. lia.
Qed.

Lemma create_containers_cow_layered (count : Z) (shared_ubuntu : Layer) :
  Forall (layered shared_ubuntu 3) (create_containers_cow count shared_ubuntu) ∧
  length (create_containers_cow count shared_ubuntu) = Z.to_nat count.
Proof.
  unfold create_containers_cow. split.
  - apply Forall_fmap, Forall_forall. intros i _. split; [done|]. by eexists.
  - by rewrite length_fmap, length_seqZ.
Qed.

(** What main prints: its containers without copy-on-write hold the base
    layer only, so their total is 10 * 120. *)
Lemma storage_printed_by_main : storage_no_cow = Some 1200 ∧ storage_cow = Some 150.
Proof. split; vm_compute; reflexivity. Qed.

(** C6: for N containers that share a base layer of size B and have one
    layer of size L each, calculate_storage_cow returns B + N*L and
    calculate_storage_no_cow, which adds every layer of every container,
    returns N*(B+L), as long as the sums fit size_t. *)
Theorem aggregate_accounting (cs : list Container) (base : Layer) (L : Z) :
  Forall (layered base L) cs →
  0 ≤ size_mb base < SIZE_MODULUS → 0 ≤ L →
  Z.of_nat (length cs) * (size_mb base + L) < SIZE_MODULUS →
  calculate_storage_cow cs (Z.of_nat (length cs)) base =
    Some (size_mb base + Z.of_nat (length cs) * L) ∧
  calculate_storage_no_cow cs (Z.of_nat (length cs)) =
    Some (Z.of_nat (length cs) * (size_mb base + L)).
Proof.
  intros Hcs HB HL Hfits.
  unfold calculate_storage_cow, calculate_storage_no_cow.
  rewrite !add_containers_take by done. rewrite firstn_all.
  set (N := Z.of_nat (length cs)) in *.
  assert (0 ≤ N * L) as HNL by (apply Z.mul_nonneg_nonneg; lia).
  assert (0 ≤ N * size_mb base) as HNB by (apply Z.mul_nonneg_nonneg; lia).
  assert (size_mb base + N * L < SIZE_MODULUS) as Hcow.
  { destruct (decide (N = 0)) as [->|HN]; [lia|].
    assert (1 * size_mb base ≤ N * size_mb base) by (apply Z.mul_le_mono_nonneg_r; lia).
    lia. }
  split.
  - rewrite <- (Z.mod_small (size_mb base) SIZE_MODULUS) at 1 by done.
    rewrite (fold_layers_own base L cs _ Hcs). f_equal. apply Z.mod_small. lia.
  - change (Some 0) with (Some (0 mod SIZE_MODULUS)).
    rewrite (fold_layers_all base L cs _ Hcs). f_equal. apply Z.mod_small. lia.
Qed.

Lemma aggregate_accounting_witness :
  Forall (layered create_ubuntu_layer 3) (create_containers_cow 10 create_ubuntu_layer) ∧
  calculate_storage_cow (create_containers_cow 10 create_ubuntu_layer) 10 create_ubuntu_layer
    = Some 150 ∧
  calculate_storage_no_cow (create_containers_cow 10 create_ubuntu_layer) 10 = Some 1230.
Proof.
  destruct (create_containers_cow_layered 10 create_ubuntu_layer) as [Hshape Hlen].
  split; [exact Hshape|].
  destruct (aggregate_accounting (create_containers_cow 10 create_ubuntu_layer)
              create_ubuntu_layer 3 Hshape) as [Hcow Hnaive].
  - change (0 ≤ 120 < 18446744073709551616). lia.
  - lia.
  - rewrite Hlen. change (10 * (120 + 3) < 18446744073709551616). lia.
  - rewrite Hlen in Hcow, Hnaive. split; [exact Hcow | exact Hnaive].
Defined.

(** ** What every call keeps *)

Global Instance wf_stable : Stable wf.
Proof.
  split.
  - intros f w. apply wf_set_vars.
  - intros b i v w. apply wf_poke.
  - intros n w. apply wf_alloc.
  - intros n w. apply wf_alloc_fail.
  - intros d s n w [Hheap Hev]. split; simpl.
    + intros b Hb. apply Hheap. unfold blit in Hb.
      destruct (heap w !! d) eqn:Hd; [|done]. destruct (heap w !! s); [|done].
      destruct (decide (d = b)) as [<-|Hne]; [eauto|]. by rewrite lookup_insert_ne in Hb.
    + intros b [Heq|Hin]%elem_of_cons; [done | by apply Hev].
  - intros b w Hb [Hheap Hev]. split; simpl.
    + intros b' Hb'. apply Hheap. destruct (decide (b = b')) as [<-|Hne]; [done|].
      by rewrite lookup_delete_ne in Hb'.
    + intros b' [[= ->]|Hin]%elem_of_cons; [by apply Hheap | by apply Hev].
  - by intros w [Hheap Hev].
Qed.

Global Instance writes_exclusive_stable : Stable writes_exclusive.
Proof.
  split; unfold writes_exclusive; simpl; try done.
  - intros n w Hw. by apply Forall_cons.
  - intros n w Hw. by apply Forall_cons.
  - intros d s n w Hw. by apply Forall_cons.
  - intros b w _ Hw. by apply Forall_cons.
Qed.

Lemma keeps_bind {A B : Type} (P : world → Prop) (m : M A) (k : A → M B) :
  keeps P m → (∀ a, keeps P (k a)) → keeps P (m ≫= k).
Proof.
  intros Hm Hk w HP. specialize (Hm w HP). rewrite bind_unfold.
  destruct (m w) as [a w1|w1|c w1]; simpl in *; [by apply Hk | done | done].
Qed.

Lemma keeps_ret {A : Type} (P : world → Prop) (a : A) : keeps P (mret a).
Proof. by intros w HP. Qed.

Lemma keeps_exit {A : Type} (P : world → Prop) (c : Z) : keeps P (exit (A := A) c).
Proof. by intros w HP. Qed.

Section Keeps.
Context (P : world → Prop) `{!Stable P}.

Lemma keeps_get_var (x : nat) : keeps P (get_var x).
Proof. intros w HP. unfold get_var. by destruct (vars w !! x). Qed.

Lemma keeps_set_var (x : nat) (h : cow_array) : keeps P (set_var x h).
Proof. intros w HP. by apply stable_vars. Qed.

Lemma keeps_malloc (nbytes : Z) : keeps P (malloc nbytes).
Proof.
  intros w HP. unfold malloc.
  destruct (oracle w) as [|[] o]; simpl;
    [by apply stable_alloc | by apply stable_alloc | by apply stable_alloc_fail].
Qed.

Lemma keeps_free (p : ptr) : keeps P (free p).
Proof.
  intros w HP. unfold free. destruct p as [|b]; [done|].
  destruct (heap w !! b) eqn:Hb; [|done]. simpl. apply stable_free; [eauto | done].
Qed.

Lemma keeps_load_int (p : ptr) (i : Z) : keeps P (load_int p i).
Proof.
  intros w HP. unfold load_int. destruct p as [|b]; [done|].
  destruct (heap w !! b) as [blk|]; [|done]. destruct (in_bounds blk i); [|done].
  by destruct (blk_cells blk !! i).
Qed.

Lemma keeps_store_int (p : ptr) (i v : Z) : keeps P (store_int p i v).
Proof.
  intros w HP. unfold store_int. destruct p as [|b]; [done|].
  destruct (heap w !! b) as [blk|]; [|done]. destruct (in_bounds blk i); [|done].
  simpl. by apply stable_poke.
Qed.

Lemma keeps_memcpy (dst src : ptr) (nbytes : Z) : keeps P (memcpy dst src nbytes).
Proof.
  intros w HP. unfold memcpy. destruct dst as [|d]; [done|]. destruct src as [|s]; [done|].
  destruct (heap w !! d); [|done]. destruct (heap w !! s); [|done].
  destruct (_ && _); [|done]. simpl. by apply stable_blit.
Qed.

Lemma keeps_int_incr (c : Z) : keeps P (int_incr c).
Proof. intros w HP. unfold int_incr. by destruct (in_int_range _). Qed.

Lemma keeps_int_decr (c : Z) : keeps P (int_decr c).
Proof. intros w HP. unfold int_decr. by destruct (in_int_range _). Qed.

Lemma keeps_rand (rnd : nat → Z) : keeps P (rand rnd).
Proof. intros w HP. by apply stable_rand. Qed.

Lemma keeps_cow_create (sz : Z) : keeps P (cow_create sz).
Proof.
  unfold cow_create.
  apply keeps_bind; [apply keeps_malloc|]. intros d.
  apply keeps_bind; [apply keeps_malloc|]. intros r.
  apply keeps_bind; [apply keeps_store_int|]. intros _. apply keeps_ret.
Qed.

Lemma keeps_cow_copy (src : cow_array) : keeps P (cow_copy src).
Proof.
  unfold cow_copy.
  apply keeps_bind; [apply keeps_load_int|]. intros c.
  apply keeps_bind; [apply keeps_int_incr|]. intros c'.
  apply keeps_bind; [apply keeps_store_int|]. intros _. apply keeps_ret.
Qed.

Lemma keeps_cow_ensure_unique (x : nat) : keeps P (cow_ensure_unique x).
Proof.
  unfold cow_ensure_unique.
  apply keeps_bind; [apply keeps_get_var|]. intros h.
  apply keeps_bind; [apply keeps_load_int|]. intros c.
  destruct (1 <? c); [|apply keeps_ret].
  apply keeps_bind; [apply keeps_malloc|]. intros d.
  apply keeps_bind; [apply keeps_set_var|]. intros _.
  apply keeps_bind; [apply keeps_memcpy|]. intros _.
  apply keeps_bind; [apply keeps_load_int|]. intros c1.
  apply keeps_bind; [apply keeps_int_decr|]. intros c2.
  apply keeps_bind; [apply keeps_store_int|]. intros _.
  apply keeps_bind; [apply keeps_malloc|]. intros r.
  apply keeps_bind; [apply keeps_set_var|]. intros _.
  apply keeps_store_int.
Qed.

Lemma keeps_cow_free (x : nat) : keeps P (cow_free x).
Proof.
  unfold cow_free.
  apply keeps_bind; [apply keeps_get_var|]. intros h.
  apply keeps_bind; [apply keeps_load_int|]. intros c.
  apply keeps_bind; [apply keeps_int_decr|]. intros c'.
  apply keeps_bind; [apply keeps_store_int|]. intros _.
  apply keeps_bind; [apply keeps_load_int|]. intros c0.
  destruct (c0 =? 0); [|apply keeps_ret].
  apply keeps_bind; [apply keeps_free|]. intros _. apply keeps_free.
Qed.

Lemma keeps_for_loop (start count : nat) (body : nat → M unit) :
  (∀ i, keeps P (body i)) → keeps P (for_loop start count body).
Proof.
  intros Hbody. revert start. induction count as [|k IH]; intros start.
  - apply keeps_ret.
  - simpl. apply keeps_bind; [apply Hbody|]. intros _. apply IH.
Qed.
End Keeps.

(** ** Rules for [hoare] *)

Lemma hoare_bind {A B : Type} (P : world → Prop) (m : M A) (Q : A → world → Prop)
    (k : A → M B) (R : B → world → Prop) :
  hoare P m Q → (∀ a, hoare (Q a) (k a) R) → hoare P (m ≫= k) R.
Proof.
  intros Hm Hk w HP. specialize (Hm w HP). rewrite bind_unfold.
  destruct (m w) as [a w1|w1|c w1]; [by apply Hk | done | done].
Qed.

Lemma hoare_conseq {A : Type} (P P' : world → Prop) (m : M A) (Q Q' : A → world → Prop) :
  hoare P m Q → (∀ w, P' w → P w) → (∀ a w, Q a w → Q' a w) → hoare P' m Q'.
Proof.
  intros Hm Hpre Hpost w HP. specialize (Hm w (Hpre w HP)).
  destruct (m w) as [a w1|w1|c w1]; [by apply Hpost | done | done].
Qed.

Lemma hoare_ret {A : Type} (P : world → Prop) (a : A) : hoare P (mret a) (λ _, P).
Proof. by intros w HP. Qed.

(** A call that keeps [writes_exclusive] and every conjunct of [P]. *)
Lemma hoare_keeps {A : Type} (P : world → Prop) (m : M A) :
  (∀ w, P w → writes_exclusive w) → keeps P m → hoare P m (λ _, P).
Proof.
  intros HP Hm w Hw. specialize (Hm w Hw).
  destruct (m w) as [a w1|w1|c w1]; simpl in *; [done | by apply HP | by apply HP].
Qed.

Lemma hoare_for_loop (I : nat → world → Prop) (start count : nat) (body : nat → M unit) :
  (∀ i, (start ≤ i < start + count)%nat → hoare (I i) (body i) (λ _, I (S i))) →
  hoare (I start) (for_loop start count body) (λ _, I (start + count)%nat).
Proof.
  revert start. induction count as [|k IH]; intros start Hbody.
  - rewrite Nat.add_0_r. apply hoare_ret.
  - simpl for_loop. eapply hoare_bind; [apply Hbody; lia|]. intros [].
    rewrite <- Nat.add_succ_comm. apply IH. intros i Hi. apply Hbody. lia.
Qed.

(** ** The state of benchmark_cow under stores and counter updates *)

Lemma payload_holds_poke (w : world) (h : cow_array) (n : Z) (b : positive) (i v : Z) :
  payload_holds w h n → payload_holds (set_heap (poke b i v) w) h n.
Proof.
  intros (d & blk & Hd & Hblk & Hsize).
  destruct (decide (b = d)) as [->|Hne].
  - exists d. eexists. split; [done|]. split; [by apply poke_lookup_eq | done].
  - exists d, blk. split; [done|]. split; [|done]. simpl. by rewrite poke_lookup_ne.
Qed.

Lemma writes_exclusive_log (e : event) (w : world) :
  exclusive_write e → writes_exclusive w → writes_exclusive (log_event e w).
Proof. intros He Hw. by apply Forall_cons. Qed.

Lemma wf_log_write (p : ptr) (i : Z) (s : option Z) (w : world) :
  wf w → wf (log_event (EWrite p i s) w).
Proof.
  intros [Hheap Hev]. split; [done|]. simpl.
  intros b [Heq|Hin]%elem_of_cons; [done | by apply Hev].
Qed.

(** A store into a block other than the counter, logged as exclusive. *)
Lemma shared_by_store (d r : positive) (c : Z) (w : world) (b : positive) (i v : Z) :
  shared_by d r c w → b ≠ r →
  shared_by d r c (set_heap (poke b i v) (log_event (EWrite (Addr b) i (Some 1)) w)).
Proof.
  intros (Hwf & Hwe & Hne & Hc & Hpay) Hb. split; [|split; [|split; [|split]]].
  - by apply wf_poke, wf_log_write.
  - by apply (stable_poke b i v), writes_exclusive_log.
  - done.
  - rewrite cell_poke_block_ne by congruence. done.
  - by apply payload_holds_poke.
Qed.

Lemma shared_by_count (d r : positive) (c c' : Z) (w : world) :
  shared_by d r c w → shared_by d r c' (set_heap (poke r 0 c') w).
Proof.
  intros (Hwf & Hwe & Hne & Hc & Hpay). split; [|split; [|split; [|split]]].
  - by apply wf_poke.
  - done.
  - done.
  - by eapply cell_poke_eq.
  - by apply payload_holds_poke.
Qed.

Lemma shared_by_set_vars (d r : positive) (c : Z) (w : world)
    (f : gmap nat cow_array → gmap nat cow_array) :
  shared_by d r c w → shared_by d r c (set_vars f w).
Proof. by intros (Hwf & Hwe & Hne & Hc & Hpay). Qed.

Lemma shared_by_rand (d r : positive) (c : Z) (w : world) :
  shared_by d r c w →
  shared_by d r c (World (vars w) (heap w) (next_block w) (oracle w)
                         (S (rand_calls w)) (events w)).
Proof. by intros ([Hheap Hev] & Hwe & Hne & Hc & Hpay). Qed.

(** A store through a variable that is the sole owner of its payload is
    logged as exclusive, whether the index is in range or not. *)
Lemma write_elem_sole (x : nat) (d r : positive) (i v : Z) (w : world) :
  sole_owner x d r w →
  let w1 := log_event (EWrite (Addr d) i (Some 1)) w in
  write_elem x i v w = Done tt (set_heap (poke d i v) w1) ∨ write_elem x i v w = Fault w1.
Proof.
  intros (Hx & Hne & Hc & [blk Hblk]) w1. unfold write_elem.
  rewrite (bind_done _ _ _ _ _ (get_var_some _ _ _ Hx)).
  rewrite bind_unfold. unfold sharers. simpl ref_count. simpl data. rewrite Hc.
  unfold store_int. simpl heap. rewrite Hblk. destruct (in_bounds blk i); auto.
Qed.

Lemma sole_owner_store (x : nat) (d r : positive) (i v : Z) (e : event) (w : world) :
  sole_owner x d r w → sole_owner x d r (set_heap (poke d i v) (log_event e w)).
Proof.
  intros (Hx & Hne & Hc & Hblk). split; [done|]. split; [done|]. split.
  - rewrite cell_poke_block_ne by congruence. done.
  - simpl. by apply poke_is_Some.
Qed.

(** ** The stores of benchmark_cow *)

Lemma hoare_pick_vars {A : Type} (P : world → Prop) (m : M A) (Q : A → world → Prop) :
  (∀ V, hoare (λ w, P w ∧ vars w = V) m Q) → hoare P m Q.
Proof. intros H w HP. by apply (H (vars w) w). Qed.

Lemma forked_shared_by (w : world) (x : nat) (d r : positive) (c : Z) :
  forkable w x d r c → writes_exclusive w →
  shared_by d r (c - 1) (forked x d r c w) ∧
  sole_owner x (next_block w) (Pos.succ (next_block w)) (forked x d r c w) ∧
  next_block w ≠ r ∧ next_block w ≠ d ∧
  vars (forked x d r c w) =
    <[x := CowArray (Addr (next_block w)) (Addr (Pos.succ (next_block w)))]> (vars w).
Proof.
  intros Hfk Hwe.
  destruct (fk_payload _ _ _ _ _ Hfk) as (d0 & bd & [= <-] & Hbd & Hsize).
  pose proof (fk_count _ _ _ _ _ Hfk) as (br & Hr & _)%cell_addr.
  pose proof (fk_wf _ _ _ _ _ Hfk) as Hwf.
  pose proof (wf_fresh w Hwf) as Hfresh.
  assert (next_block w ≠ r) as Hnr by (intros Heq; rewrite Heq in Hfresh; congruence).
  assert (next_block w ≠ d) as Hnd by (intros Heq; rewrite Heq in Hfresh; congruence).
  assert (d ≠ Pos.succ (next_block w)) as Hds.
  { intros Heq. destruct Hwf as [Hheap _]. specialize (Hheap d (mk_is_Some _ _ Hbd)). lia. }
  split; [|split; [|split; [done|split; [done|]]]].
  - split; [|split; [|split; [|split]]].
    + by apply forked_wf.
    + unfold writes_exclusive. rewrite forked_events.
      do 3 (apply Forall_cons; split; [exact I|]). exact Hwe.
    + apply (fk_ne _ _ _ _ _ Hfk).
    + by apply forked_count_old.
    + exists d, bd. split; [done|]. split; [|done].
      rewrite (forked_heap w x d r c bd br d Hfk Hbd Hr).
      rewrite decide_False by done.
      rewrite decide_False by apply (fk_ne _ _ _ _ _ Hfk).
      by rewrite decide_False.
  - split; [|split; [|split]].
    + rewrite forked_var. by rewrite decide_True.
    + lia.
    + by apply forked_count_new.
    + rewrite (forked_heap w x d r c bd br _ Hfk Hbd Hr).
      rewrite decide_False by lia. rewrite decide_False by done.
      rewrite decide_True by done. eauto.
  - unfold forked. simpl. apply insert_insert_eq.
Qed.

Section Benchmark.
Variable rnd : nat → Z.
Variables d r : positive.

(** The loop that fills the original: it is the only handle. *)
Lemma init_loop_exclusive (start count : nat) :
  hoare (λ w, shared_by d r 1 w ∧ vars w !! original = Some (CowArray (Addr d) (Addr r)))
        (for_loop start count (λ i, v ← rand rnd; write_elem original (Z.of_nat i) v))
        (λ _ w, shared_by d r 1 w ∧ vars w !! original = Some (CowArray (Addr d) (Addr r))).
Proof.
  apply (hoare_for_loop
           (λ _ w, shared_by d r 1 w ∧ vars w !! original = Some (CowArray (Addr d) (Addr r)))).
  intros i _ w [Hs Hx]. rewrite bind_unfold. unfold rand at 1.
  apply shared_by_rand in Hs. set (w1 := World _ _ _ _ _ _) in *.
  assert (sole_owner original d r w1) as Hsole.
  { destruct Hs as (_ & _ & Hne & Hc & (d0 & blk & [= <-] & Hblk & _)). by eauto. }
  destruct (write_elem_sole original d r (Z.of_nat i) (rnd (rand_calls w)) w1 Hsole)
    as [-> | ->].
  - split; [|done]. apply shared_by_store; [done|]. by destruct Hs as (_ & _ & ? & _).
  - apply writes_exclusive_log; [done|]. by destruct Hs as (_ & ? & _).
Qed.

(** The loop that makes the copies: the counter grows, nothing is stored. *)
Lemma copy_loop_shares (start count : nat) :
  Z.of_nat (start + count) < INT_MAX →
  hoare (λ w, shared_by d r (1 + Z.of_nat start) w ∧
              vars w !! original = Some (CowArray (Addr d) (Addr r)) ∧
              ∀ i, (i < start)%nat → vars w !! copies i = Some (CowArray (Addr d) (Addr r)))
        (for_loop start count
           (λ i, o ← get_var original; c ← cow_copy o; set_var (copies i) c))
        (λ _ w, shared_by d r (1 + Z.of_nat (start + count)) w ∧
                vars w !! original = Some (CowArray (Addr d) (Addr r)) ∧
                ∀ i, (i < start + count)%nat →
                     vars w !! copies i = Some (CowArray (Addr d) (Addr r))).
Proof.
  intros Hbound.
  apply (hoare_for_loop
           (λ j w, shared_by d r (1 + Z.of_nat j) w ∧
                   vars w !! original = Some (CowArray (Addr d) (Addr r)) ∧
                   ∀ i, (i < j)%nat → vars w !! copies i = Some (CowArray (Addr d) (Addr r)))).
  intros j Hj w (Hs & Hx & Hcopies).
  rewrite (bind_done _ _ _ _ _ (get_var_some _ _ _ Hx)).
  assert (sharers w (CowArray (Addr d) (Addr r)) = Some (1 + Z.of_nat j)) as Hc
    by (by destruct Hs as (_ & _ & _ & ? & _)).
  destruct (cow_copy_ok _ w _ Hc) as (r' & [= <-] & Hcopy).
  { unfold INT_MIN, INT_MAX in *. lia. }
  rewrite (bind_done _ _ _ _ _ Hcopy). rewrite set_var_unfold.
  split; [|split].
  - apply shared_by_set_vars. replace (1 + Z.of_nat (S j)) with (1 + Z.of_nat j + 1) by lia.
    eapply shared_by_count. exact Hs.
  - simpl. by rewrite lookup_insert_ne.
  - intros i Hi. simpl. destruct (decide (i = j)) as [->|Hne].
    + apply lookup_insert_eq.
    + rewrite lookup_insert_ne by (unfold copies; lia). apply Hcopies. lia.
Qed.

(** The stores into a copy that has been made unique. *)
Lemma modify_tail_exclusive (x : nat) (d' r' : positive) (c : Z) (V : gmap nat cow_array)
    (count : nat) (index : Z) :
  d' ≠ r →
  hoare (λ w, shared_by d r c w ∧ sole_owner x d' r' w ∧ vars w = V)
        (v ← rand rnd; write_elem x index v;; modify_loop rnd x count true)
        (λ _ w, shared_by d r c w ∧ sole_owner x d' r' w ∧ vars w = V).
Proof.
  intros Hne. revert index. induction count as [|k IH]; intros index w (Hs & Hsole & HV).
  - rewrite bind_unfold. unfold rand at 1.
    apply shared_by_rand in Hs. set (w1 := World _ _ _ _ _ _) in *.
    assert (sole_owner x d' r' w1) as Hsole1 by exact Hsole.
    destruct (write_elem_sole x d' r' index (rnd (rand_calls w)) w1 Hsole1) as [Hw | Hw].
    + rewrite (bind_done _ _ _ _ _ Hw). simpl.
      split; [by apply shared_by_store|]. split; [by apply sole_owner_store | done].
    + rewrite (bind_fault _ _ _ _ Hw).
      apply writes_exclusive_log; [done|]. by destruct Hs as (_ & ? & _).
  - rewrite bind_unfold. unfold rand at 1.
    apply shared_by_rand in Hs. set (w1 := World _ _ _ _ _ _) in *.
    assert (sole_owner x d' r' w1) as Hsole1 by exact Hsole.
    destruct (write_elem_sole x d' r' index (rnd (rand_calls w)) w1 Hsole1) as [Hw | Hw].
    + rewrite (bind_done _ _ _ _ _ Hw). simpl modify_loop.
      rewrite bind_unfold. unfold rand at 1. rewrite bind_unfold, ret_unfold.
      apply IH. split; [|split; [|done]].
      * by apply shared_by_rand, shared_by_store.
      * by apply (sole_owner_store x d' r' index _ _ w1).
    + rewrite (bind_fault _ _ _ _ Hw).
      apply writes_exclusive_log; [done|]. by destruct Hs as (_ & ? & _).
Qed.

(** The inner loop on a copy that is still shared: it is forked before
    the first store. *)
Lemma modify_loop_forks (x : nat) (c : Z) (V : gmap nat cow_array) (count : nat) :
  2 ≤ c ≤ INT_MAX → V !! x = Some (CowArray (Addr d) (Addr r)) →
  hoare (λ w, shared_by d r c w ∧ vars w = V)
        (modify_loop rnd x (S count) false)
        (λ _ w, shared_by d r (c - 1) w ∧ ∃ h', vars w = <[x := h']> V).
Proof.
  intros Hc Hx w (Hs & HV). simpl modify_loop.
  rewrite bind_unfold. unfold rand at 1.
  apply shared_by_rand in Hs. set (w1 := World _ _ _ _ _ _) in *.
  assert (vars w1 = V) as HV1 by exact HV.
  destruct Hs as (Hwf & Hwe & Hne & Hcount & Hpay).
  assert (forkable w1 x d r c) as Hfk.
  { split; try done. by rewrite HV1. }
  rewrite bind_unfold.
  pose proof (keeps_cow_ensure_unique writes_exclusive x w1 Hwe) as Hkeeps.
  destruct (cow_ensure_unique x w1) as [[] w2|w2|e w2] eqn:Hrun; [|done|done].
  destruct (cow_ensure_unique_done_shared w1 w2 x _ c (fk_var _ _ _ _ _ Hfk) Hcount
              ltac:(lia) Hrun) as (_ & _ & _ & Hok & _).
  rewrite (cow_ensure_unique_shared w1 x d r c Hfk Hok) in Hrun. injection Hrun as <-.
  destruct (forked_shared_by w1 x d r c Hfk Hwe) as (Hs2 & Hsole2 & Hnr & Hnd & Hvars2).
  pose proof (modify_tail_exclusive x _ _ (c - 1) _ count
                (Z.rem (rnd (rand_calls w)) ARRAY_SIZE) Hnr
                (forked x d r c w1) (conj Hs2 (conj Hsole2 Hvars2))) as Htail.
  destruct (_ ≫= _) as [[] w3|w3|e w3]; [|done|done].
  destruct Htail as (Hs3 & _ & Hvars3). split; [done|].
  eexists. rewrite Hvars3. by rewrite HV1.
Qed.
End Benchmark.

(** The loop over the copies: each is forked once, which takes one from
    the counter of the original, and is then stored into. *)
Lemma modify_copies_exclusive (rnd : nat → Z) (d r : positive) (N m start count : nat) :
  (start + count ≤ N)%nat → Z.of_nat N < INT_MAX →
  hoare (λ w, shared_by d r (1 + Z.of_nat N - Z.of_nat start) w ∧
              ∀ j, (start ≤ j < N)%nat →
                   vars w !! copies j = Some (CowArray (Addr d) (Addr r)))
        (for_loop start count (λ i, modify_loop rnd (copies i) (S m) false))
        (λ _ w, shared_by d r (1 + Z.of_nat N - Z.of_nat (start + count)) w ∧
                ∀ j, (start + count ≤ j < N)%nat →
                     vars w !! copies j = Some (CowArray (Addr d) (Addr r))).
Proof.
  intros Hle HN.
  apply (hoare_for_loop
           (λ i w, shared_by d r (1 + Z.of_nat N - Z.of_nat i) w ∧
                   ∀ j, (i ≤ j < N)%nat →
                        vars w !! copies j = Some (CowArray (Addr d) (Addr r)))).
  intros i Hi w (Hs & Hcopies).
  pose proof (modify_loop_forks rnd d r (copies i) (1 + Z.of_nat N - Z.of_nat i) (vars w) m
                ltac:(lia) (Hcopies i ltac:(lia)) w (conj Hs eq_refl)) as Hbody.
  destruct (modify_loop _ _ _ _ _) as [[] w'|w'|e w']; [|done|done].
  destruct Hbody as (Hs' & h' & Hvars). split.
  - replace (1 + Z.of_nat N - Z.of_nat (S i)) with (1 + Z.of_nat N - Z.of_nat i - 1) by lia.
    done.
  - intros j Hj. rewrite Hvars. rewrite lookup_insert_ne by (unfold copies; lia).
    apply Hcopies. lia.
Qed.

(** benchmark_cow from the point where the original exists. *)
Lemma benchmark_loops_exclusive (rnd : nat → Z) (d r : positive) :
  hoare (λ w, shared_by d r 1 w ∧ vars w !! original = Some (CowArray (Addr d) (Addr r)))
        (for_loop 0 (Z.to_nat ARRAY_SIZE)
           (λ i, v ← rand rnd; write_elem original (Z.of_nat i) v);;
         for_loop 0 (Z.to_nat NUM_COPIES)
           (λ i, o ← get_var original; c ← cow_copy o; set_var (copies i) c);;
         for_loop 0 (Z.to_nat NUM_COPIES)
           (λ i, modify_loop rnd (copies i) (Z.to_nat NUM_MODIFICATIONS) false);;
         cow_free original;;
         for_loop 0 (Z.to_nat NUM_COPIES) (λ i, cow_free (copies i)))
        (λ _ w, writes_exclusive w).
Proof.
  eapply hoare_bind; [apply init_loop_exclusive|]. intros [].
  eapply hoare_bind.
  { eapply hoare_conseq; [apply (copy_loop_shares d r 0 (Z.to_nat NUM_COPIES))|..].
    - unfold NUM_COPIES, INT_MAX. lia.
    - intros w [Hs Hx]. split; [exact Hs|]. split; [exact Hx|]. intros i Hi. lia.
    - intros a w H. exact H. }
  intros [].
  replace (Z.to_nat NUM_MODIFICATIONS) with (S (Z.to_nat (NUM_MODIFICATIONS - 1)))
    by (unfold NUM_MODIFICATIONS; lia).
  eapply hoare_bind.
  { eapply hoare_conseq;
      [apply (modify_copies_exclusive rnd d r (Z.to_nat NUM_COPIES)
                (Z.to_nat (NUM_MODIFICATIONS - 1)) 0 (Z.to_nat NUM_COPIES))|..].
    - lia.
    - unfold NUM_COPIES, INT_MAX. lia.
    - intros w (Hs & _ & Hcopies). split.
      + replace (1 + Z.of_nat (Z.to_nat NUM_COPIES) - Z.of_nat 0)
          with (1 + Z.of_nat (0 + Z.to_nat NUM_COPIES)) by lia.
        exact Hs.
      + intros j Hj. apply Hcopies. lia.
    - intros a w [Hs _]. destruct Hs as (_ & Hwe & _). exact Hwe. }
  intros [].
  apply hoare_keeps; [done|].
  apply keeps_bind; [apply keeps_cow_free, _|]. intros _.
  apply keeps_for_loop. intros i. apply keeps_cow_free, _.
Qed.

Lemma benchmark_cow_hoare (rnd : nat → Z) :
  hoare (λ w, wf w ∧ writes_exclusive w) (benchmark_cow rnd) (λ _ w, writes_exclusive w).
Proof.
  intros w [Hwf Hwe]. unfold benchmark_cow. rewrite bind_unfold.
  pose proof (keeps_cow_create writes_exclusive ARRAY_SIZE w Hwe) as Hkeeps.
  destruct (cow_create ARRAY_SIZE w) as [o w1|w1|e w1] eqn:Hcreate; [|done|done].
  simpl in Hkeeps. rewrite bind_unfold, set_var_unfold. rewrite bind_unfold.
  destruct (decide (data o = NULL)) as [Hnull|Hdata].
  - rewrite bool_decide_eq_true_2 by done. exact Hkeeps.
  - rewrite bool_decide_eq_false_2 by done. rewrite ret_unfold.
    pose proof (cow_create_done _ _ _ _ Hcreate Hdata) as Hok.
    rewrite (cow_create_ok ARRAY_SIZE w Hok) in Hcreate. injection Hcreate as <- <-.
    apply (benchmark_loops_exclusive rnd (next_block w) (Pos.succ (next_block w))).
    split; [|apply lookup_insert_eq].
    apply shared_by_set_vars. split; [|split; [|split; [|split]]].
    + by apply wf_poke, wf_alloc, wf_alloc.
    + exact Hkeeps.
    + lia.
    + apply cell_poke_written with (Block sizeof_int ∅); [|done].
      simpl. apply lookup_insert_eq.
    + exists (next_block w). eexists. split; [done|]. split.
      * simpl. rewrite poke_lookup_ne by lia.
        rewrite lookup_insert_ne by (simpl; lia). apply lookup_insert_eq.
      * done.
Qed.

(** ** Complete runs *)

Lemma total_bind {A B : Type} (P : world → Prop) (m : M A) (Q : A → world → Prop)
    (k : A → M B) (R : B → world → Prop) :
  total P m Q → (∀ a, total (Q a) (k a) R) → total P (m ≫= k) R.
Proof.
  intros Hm Hk w HP. destruct (Hm w HP) as (a & w1 & Hrun & HQ).
  destruct (Hk a w1 HQ) as (b & w2 & Hrun2 & HR).
  exists b, w2. split; [|done]. by rewrite (bind_done _ _ _ _ _ Hrun).
Qed.

Lemma total_conseq {A : Type} (P P' : world → Prop) (m : M A) (Q Q' : A → world → Prop) :
  total P m Q → (∀ w, P' w → P w) → (∀ a w, Q a w → Q' a w) → total P' m Q'.
Proof.
  intros Hm Hpre Hpost w HP. destruct (Hm w (Hpre w HP)) as (a & w1 & Hrun & HQ).
  exists a, w1. split; [done | by apply Hpost].
Qed.

Lemma total_ret {A : Type} (P : world → Prop) (a : A) : total P (mret a) (λ _, P).
Proof. intros w HP. by exists a, w. Qed.

Lemma total_for_loop (Inv : nat → world → Prop) (start count : nat) (body : nat → M unit) :
  (∀ i, (start ≤ i < start + count)%nat → total (Inv i) (body i) (λ _, Inv (S i))) →
  total (Inv start) (for_loop start count body) (λ _, Inv (start + count)%nat).
Proof.
  revert start. induction count as [|k IH]; intros start Hbody.
  - rewrite Nat.add_0_r. apply total_ret.
  - simpl for_loop. eapply total_bind; [apply Hbody; lia|]. intros [].
    rewrite <- Nat.add_succ_comm. apply IH. intros i Hi. apply Hbody. lia.
Qed.

Lemma stores_made_cons (e : event) (evs : list event) :
  stores_made (e :: evs) = if is_write e then S (stores_made evs) else stores_made evs.
Proof. unfold stores_made. rewrite filter_cons. by destruct (is_write e). Qed.

Lemma sole_owner_poke (x : nat) (d r b : positive) (i v : Z) (e : event) (w : world) :
  sole_owner x d r w → b ≠ r → sole_owner x d r (set_heap (poke b i v) (log_event e w)).
Proof.
  intros (Hx & Hne & Hc & Hblk) Hb. split; [done|]. split; [done|]. split.
  - rewrite cell_poke_block_ne by congruence. done.
  - simpl. by apply poke_is_Some.
Qed.

Section Complete.
Variable rnd : nat → Z.
Hypothesis rnd_nonneg : ∀ n, 0 ≤ rnd n.
Variable d : positive.
Variable H0 : gmap positive block.

Lemma bench_state_rand (N i s : nat) (w : world) :
  bench_state d H0 N i s w →
  bench_state d H0 N i s (World (vars w) (heap w) (next_block w) (oracle w)
                                (S (rand_calls w)) (events w)).
Proof. by intros ([Hheap Hev] & Ho & Hn & Hc & Hp & Hx & Hsh & Hown & Hold & Hs). Qed.

(** A store into the payload of the original or of a forked copy. *)
Lemma bench_state_store (N i s : nat) (w : world) (b : positive) (p : ptr) (k v : Z)
    (sh : option Z) :
  bench_state d H0 N i s w →
  b = d ∨ (∃ j, (j < i)%nat ∧ b = copy_data d j) →
  bench_state d H0 N i (S s) (set_heap (poke b k v) (log_event (EWrite p k sh) w)).
Proof.
  intros (Hwf & Ho & Hn & Hc & Hp & Hx & Hsh & Hown & Hold & Hs) Hb.
  assert (b ≠ Pos.succ d) as Hbr by (unfold copy_data in Hb; destruct Hb as [->|(j & _ & ->)]; lia).
  assert ((d ≤ b)%positive) as Hbd by (unfold copy_data in Hb; destruct Hb as [->|(j & _ & ->)]; lia).
  split; [by apply wf_poke, wf_log_write|]. split; [done|]. split; [done|].
  split; [by rewrite cell_poke_block_ne by congruence|].
  split; [by apply payload_holds_poke|]. split; [done|]. split; [done|].
  split; [|split].
  - intros j Hj. destruct (Hown j Hj) as [Hsole Hpay]. split.
    + apply sole_owner_poke; [done|].
      unfold copy_data in *. destruct Hb as [->|(j' & _ & ->)]; lia.
    + by apply payload_holds_poke.
  - intros b' Hb'. simpl. rewrite poke_lookup_ne by lia. by apply Hold.
  - simpl events. rewrite stores_made_cons. simpl. by rewrite Hs.
Qed.

(** A store in range through a variable of benchmark_cow returns. *)
Lemma write_elem_bench (N i s : nat) (w : world) (x : nat) (hx : cow_array) (b : positive)
    (k v : Z) :
  bench_state d H0 N i s w →
  vars w !! x = Some hx → data hx = Addr b → payload_holds w hx ARRAY_SIZE →
  b = d ∨ (∃ j, (j < i)%nat ∧ b = copy_data d j) →
  0 ≤ k < ARRAY_SIZE →
  ∃ w', write_elem x k v w = Done tt w' ∧ bench_state d H0 N i (S s) w'.
Proof.
  intros Hst Hx Hd (b' & blk & Hb' & Hblk & Hsize) Hb Hk.
  rewrite Hd in Hb'. injection Hb' as <-.
  assert (in_bounds blk k = true) as Hin.
  { apply in_bounds_iff. unfold sizeof_int in *. lia. }
  eexists. split; [by eapply write_elem_ok|]. by apply bench_state_store.
Qed.

(** The loop that fills the original. *)
Lemma init_loop_total (s0 start count : nat) :
  (start + count ≤ Z.to_nat ARRAY_SIZE)%nat →
  total (bench_state d H0 0 0 (s0 + start))
        (for_loop start count (λ i, v ← rand rnd; write_elem original (Z.of_nat i) v))
        (λ _, bench_state d H0 0 0 (s0 + (start + count))).
Proof.
  intros Hbound.
  apply (total_for_loop (λ k, bench_state d H0 0 0 (s0 + k))).
  intros k Hk w Hst. rewrite bind_unfold. unfold rand at 1.
  apply bench_state_rand in Hst. set (w1 := World _ _ _ _ _ _) in *.
  pose proof Hst as (_ & _ & _ & _ & Hp & Hx & _).
  destruct (write_elem_bench 0 0 (s0 + k) w1 original _ d (Z.of_nat k)
              (rnd (rand_calls w)) Hst Hx eq_refl Hp) as (w' & Hrun & Hst').
  - by left.
  - lia.
  - exists tt, w'. split; [done|]. by rewrite <- Nat.add_succ_r in Hst'.
Qed.
End Complete.

Section CompleteCopies.
Variable rnd : nat → Z.
Hypothesis rnd_nonneg : ∀ n, 0 ≤ rnd n.
Variable d : positive.
Variable H0 : gmap positive block.

(** The loop that makes the copies. *)
Lemma copy_loop_total (s start count : nat) :
  Z.of_nat (start + count) < INT_MAX →
  total (bench_state d H0 start 0 s)
        (for_loop start count
           (λ i, o ← get_var original; c ← cow_copy o; set_var (copies i) c))
        (λ _, bench_state d H0 (start + count) 0 s).
Proof.
  intros Hbound. apply (total_for_loop (λ j, bench_state d H0 j 0 s)).
  intros j Hj w (Hwf & Ho & Hn & Hc & Hp & Hx & Hsh & Hown & Hold & Hs).
  rewrite (bind_done _ _ _ _ _ (get_var_some _ _ _ Hx)).
  destruct (cow_copy_ok (CowArray (Addr d) (Addr (Pos.succ d))) w _ Hc)
    as (r' & [= <-] & Hcopy).
  { unfold INT_MIN, INT_MAX in *. lia. }
  rewrite (bind_done _ _ _ _ _ Hcopy). rewrite set_var_unfold.
  eexists tt, _. split; [reflexivity|].
  split; [by apply wf_set_vars, wf_poke|]. split; [done|]. split; [done|].
  split.
  { replace (1 + Z.of_nat (S j) - Z.of_nat 0) with (1 + Z.of_nat j - Z.of_nat 0 + 1) by lia.
    by eapply cell_poke_eq. }
  split; [by apply payload_holds_poke|].
  split; [simpl; by rewrite lookup_insert_ne|].
  split; [|split; [|split]].
  - intros i Hi. simpl. destruct (decide (i = j)) as [->|Hne].
    + apply lookup_insert_eq.
    + rewrite lookup_insert_ne by (unfold copies; lia). apply Hsh. lia.
  - intros i Hi. lia.
  - intros b Hb. simpl. rewrite poke_lookup_ne by lia. by apply Hold.
  - done.
Qed.

(** A fork of the next copy. *)
Lemma bench_state_fork (N i s : nat) (w : world) :
  bench_state d H0 N i s w → (i < N)%nat → Z.of_nat N < INT_MAX →
  cow_ensure_unique (copies i) w =
    Done tt (forked (copies i) d (Pos.succ d) (1 + Z.of_nat N - Z.of_nat i) w) ∧
  bench_state d H0 N (S i) s
    (forked (copies i) d (Pos.succ d) (1 + Z.of_nat N - Z.of_nat i) w).
Proof.
  intros (Hwf & Ho & Hn & Hc & Hp & Hx & Hsh & Hown & Hold & Hs) Hi HN.
  set (c := 1 + Z.of_nat N - Z.of_nat i) in *.
  assert (forkable w (copies i) d (Pos.succ d) c) as Hfk.
  { split; try done; [apply Hsh; lia | lia | unfold c; lia]. }
  assert (allocs_ok 2 w = true) as Hok by (unfold allocs_ok; by rewrite Ho).
  split; [by apply cow_ensure_unique_shared|].
  destruct Hp as (d0 & bd & [= <-] & Hbd & Hsize).
  pose proof Hc as (br & Hr & _)%cell_addr.
  assert (∀ b, (b < next_block w)%positive → b ≠ Pos.succ d →
               heap (forked (copies i) d (Pos.succ d) c w) !! b = heap w !! b) as Hkeep.
  { intros b Hb Hbr. rewrite (forked_heap w _ d _ c bd br b Hfk Hbd Hr).
    rewrite decide_False by lia. rewrite decide_False by done.
    by rewrite decide_False by lia. }
  assert (∀ y, y ≠ copies i →
               vars (forked (copies i) d (Pos.succ d) c w) !! y = vars w !! y) as Hvars.
  { intros y Hy. rewrite forked_var. by rewrite decide_False. }
  split; [by apply forked_wf|]. split; [unfold forked; simpl; by rewrite Ho|].
  split; [unfold forked; simpl; rewrite Hn; unfold copy_data; lia|].
  split.
  { replace (1 + Z.of_nat N - Z.of_nat (S i)) with (c - 1) by (unfold c; lia).
    by apply forked_count_old. }
  split.
  { exists d, bd. split; [done|]. split; [|done].
    rewrite Hkeep; [done | rewrite Hn; unfold copy_data; lia | lia]. }
  split; [rewrite Hvars; [done | done]|].
  split; [|split; [|split]].
  - intros j Hj. rewrite Hvars by (unfold copies; lia). apply Hsh. lia.
  - intros j Hj. destruct (decide (j = i)) as [->|Hne].
    + split.
      * rewrite <- Hn. split; [|split; [|split]].
        -- rewrite forked_var. by rewrite decide_True.
        -- lia.
        -- by apply forked_count_new.
        -- rewrite (forked_heap w _ d _ c bd br _ Hfk Hbd Hr).
           rewrite decide_False by lia.
           rewrite decide_False by (rewrite Hn; unfold copy_data; lia).
           rewrite decide_True by done. eauto.
      * exists (copy_data d i). eexists. split; [done|]. rewrite <- Hn. split.
        -- rewrite (forked_heap w _ d _ c bd br _ Hfk Hbd Hr).
           rewrite decide_False by lia.
           rewrite decide_False by (rewrite Hn; unfold copy_data; lia).
           by rewrite decide_True.
        -- simpl. rewrite copy_bytes. unfold sizeof_int, ARRAY_SIZE. lia.
    + destruct (Hown j ltac:(lia)) as [(Hxj & Hnej & Hcj & Hblkj) Hpayj]. split.
      * split; [|split; [done|split]].
        -- rewrite Hvars by (unfold copies; lia). done.
        -- rewrite forked_cell_old; [done | done | | unfold copy_data; lia].
           apply cell_addr in Hcj as (blk & Hblk & _). eauto.
        -- rewrite Hkeep; [done | rewrite Hn; unfold copy_data; lia | unfold copy_data; lia].
      * destruct Hpayj as (dj & blkj & [= <-] & Hblkj' & Hsizej).
        exists (copy_data d j), blkj. split; [done|]. split; [|done].
        rewrite Hkeep; [done | rewrite Hn; unfold copy_data; lia | unfold copy_data; lia].
  - intros b Hb. rewrite Hkeep; [by apply Hold | rewrite Hn; unfold copy_data; lia | lia].
  - rewrite forked_events. rewrite !stores_made_cons. simpl. done.
Qed.

(** The stores into the copy that was forked last. *)
Lemma modify_tail_total (N i s : nat) (count : nat) (index : Z) :
  0 ≤ index < ARRAY_SIZE →
  total (bench_state d H0 N (S i) s)
        (v ← rand rnd; write_elem (copies i) index v;; modify_loop rnd (copies i) count true)
        (λ _, bench_state d H0 N (S i) (s + S count)).
Proof.
  revert index s. induction count as [|k IH]; intros index s Hindex w Hst.
  - rewrite bind_unfold. unfold rand at 1.
    apply bench_state_rand in Hst. set (w1 := World _ _ _ _ _ _) in *.
    pose proof Hst as (_ & _ & _ & _ & _ & _ & _ & Hown & _).
    destruct (Hown i ltac:(lia)) as [(Hx & _) Hpay].
    destruct (write_elem_bench d H0 N (S i) s w1 (copies i) _ (copy_data d i) index
                (rnd (rand_calls w)) Hst Hx eq_refl Hpay) as (w' & Hrun & Hst').
    { right. exists i. split; [lia | done]. }
    { done. }
    exists tt, w'. split; [by rewrite (bind_done _ _ _ _ _ Hrun)|].
    by rewrite Nat.add_1_r.
  - rewrite bind_unfold. unfold rand at 1.
    apply bench_state_rand in Hst. set (w1 := World _ _ _ _ _ _) in *.
    pose proof Hst as (_ & _ & _ & _ & _ & _ & _ & Hown & _).
    destruct (Hown i ltac:(lia)) as [(Hx & _) Hpay].
    destruct (write_elem_bench d H0 N (S i) s w1 (copies i) _ (copy_data d i) index
                (rnd (rand_calls w)) Hst Hx eq_refl Hpay) as (w' & Hrun & Hst').
    { right. exists i. split; [lia | done]. }
    { done. }
    rewrite (bind_done _ _ _ _ _ Hrun). simpl modify_loop.
    rewrite bind_unfold. unfold rand at 1. rewrite bind_unfold, ret_unfold.
    apply bench_state_rand in Hst'.
    destruct (IH (Z.rem (rnd (rand_calls w')) ARRAY_SIZE) (S s)) with (w := World (vars w') (heap w') (next_block w') (oracle w') (S (rand_calls w')) (events w'))
      as (a & w'' & Hrun' & Hst'').
    { split; [apply Z.rem_nonneg; [unfold ARRAY_SIZE; lia | apply rnd_nonneg]|].
      apply Z.rem_bound_pos; [apply rnd_nonneg | unfold ARRAY_SIZE; lia]. }
    { exact Hst'. }
    exists a, w''. split; [exact Hrun'|].
    replace (s + S (S k))%nat with (S s + S k)%nat by lia. exact Hst''.
Qed.

(** The inner loop on copy [i]: one fork, then [S count] stores. *)
Lemma modify_loop_total (N i s count : nat) :
  (i < N)%nat → Z.of_nat N < INT_MAX →
  total (bench_state d H0 N i s)
        (modify_loop rnd (copies i) (S count) false)
        (λ _, bench_state d H0 N (S i) (s + S count)).
Proof.
  intros Hi HN w Hst. simpl modify_loop.
  rewrite bind_unfold. unfold rand at 1.
  apply bench_state_rand in Hst. set (w1 := World _ _ _ _ _ _) in *.
  destruct (bench_state_fork N i s w1 Hst Hi HN) as [Hfork Hst'].
  rewrite (bind_done _ _ _ _ _ Hfork).
  apply (modify_tail_total N i s count); [|exact Hst'].
  split; [apply Z.rem_nonneg; [unfold ARRAY_SIZE; lia | apply rnd_nonneg]|].
  apply Z.rem_bound_pos; [apply rnd_nonneg | unfold ARRAY_SIZE; lia].
Qed.

(** The loop over the copies. *)
Lemma modify_copies_total (N m s start count : nat) :
  (start + count ≤ N)%nat → Z.of_nat N < INT_MAX →
  total (bench_state d H0 N start (s + start * S m))
        (for_loop start count (λ i, modify_loop rnd (copies i) (S m) false))
        (λ _, bench_state d H0 N (start + count) (s + (start + count) * S m)).
Proof.
  intros Hle HN.
  apply (total_for_loop (λ i, bench_state d H0 N i (s + i * S m))).
  intros i Hi. eapply total_conseq; [apply (modify_loop_total N i (s + i * S m) m); lia|..].
  - done.
  - intros [] w Hst. replace (s + S i * S m)%nat with (s + i * S m + S m)%nat by lia. done.
Qed.
End CompleteCopies.

(** ** Releasing the handles of benchmark_cow *)

Lemma cow_free_sole (x : nat) (d r : positive) (w : world) :
  sole_owner x d r w → cow_free x w = Done tt (released d r w).
Proof.
  intros (Hx & Hne & Hc & [bd Hbd]).
  pose proof Hc as (br & Hr & _)%cell_addr.
  destruct (store_int_written w _ _ _ 0 Hc) as (r' & [= <-] & Hst).
  pose proof (cell_poke_eq w r 0 0 1 Hc) as Hc'.
  unfold cow_free.
  rewrite (bind_done _ _ _ _ _ (get_var_some _ _ _ Hx)). simpl data. simpl ref_count.
  rewrite (bind_done _ _ _ _ _ (load_int_cell _ _ _ _ Hc)).
  rewrite (bind_done _ _ _ _ _ (int_decr_ok 1 w ltac:(unfold INT_MIN, INT_MAX; lia))).
  change (1 - 1) with 0. rewrite (bind_done _ _ _ _ _ Hst).
  rewrite (bind_done _ _ _ _ _ (load_int_cell _ _ _ _ Hc')).
  change (0 =? 0) with true. cbv iota.
  assert (is_Some (heap (set_heap (poke r 0 0) w) !! d)) as [bd' Hbd'].
  { simpl. apply poke_is_Some. eauto. }
  rewrite (bind_done _ _ _ _ _ (free_ok _ _ _ Hbd')).
  assert (is_Some (heap (log_event (EFree d) (set_heap (delete d) (set_heap (poke r 0 0) w)))
                     !! r)) as [br' Hbr'].
  { simpl. rewrite lookup_delete_ne by done. apply poke_is_Some. eauto. }
  by rewrite (free_ok _ _ _ Hbr').
Qed.

Lemma released_lookup (d r b : positive) (w : world) :
  heap (released d r w) !! b =
  if decide (b = r) then None else if decide (b = d) then None else heap w !! b.
Proof.
  unfold released. simpl. destruct (decide (b = r)) as [->|Hr]; [apply lookup_delete_eq|].
  rewrite lookup_delete_ne by done.
  destruct (decide (b = d)) as [->|Hd]; [apply lookup_delete_eq|].
  rewrite lookup_delete_ne by done. by apply poke_lookup_ne.
Qed.

Lemma released_wf (d r : positive) (w : world) :
  wf w → is_Some (heap w !! d) → is_Some (heap w !! r) → d ≠ r → wf (released d r w).
Proof.
  intros Hwf Hd Hr Hne. unfold released.
  apply (stable_free r).
  - simpl. rewrite lookup_delete_ne by done. by apply poke_is_Some.
  - apply (stable_free d); [simpl; by apply poke_is_Some|]. by apply wf_poke.
Qed.

Lemma released_stores (d r : positive) (w : world) :
  stores_made (events (released d r w)) = stores_made (events w).
Proof. unfold released. simpl. by rewrite !stores_made_cons. Qed.

Lemma sole_owner_released (x : nat) (dx rx d r : positive) (w : world) :
  sole_owner x dx rx w → dx ≠ d → dx ≠ r → rx ≠ d → rx ≠ r →
  sole_owner x dx rx (released d r w).
Proof.
  intros (Hx & Hne & Hc & Hblk) H1 H2 H3 H4. split; [done|]. split; [done|]. split.
  - unfold cell in *. rewrite released_lookup.
    rewrite decide_False by done. by rewrite decide_False.
  - rewrite released_lookup. rewrite decide_False by done. by rewrite decide_False.
Qed.

(** Every block from [d] up to the next allocation is the payload or the
    counter of the original or of a copy. *)
Lemma block_numbering (d b : positive) (N : nat) :
  (d ≤ b)%positive → (b < copy_data d N)%positive →
  b = d ∨ b = Pos.succ d ∨
  ∃ j, (j < N)%nat ∧ (b = copy_data d j ∨ b = Pos.succ (copy_data d j)).
Proof.
  unfold copy_data. intros Hle Hlt.
  destruct (decide (b = d)) as [|Hd]; [by left|].
  destruct (decide (b = Pos.succ d)) as [|Hr]; [right; by left|].
  right. right. exists (Nat.div2 (Pos.to_nat b - Pos.to_nat d - 2)).
  pose proof (Nat.div2_odd (Pos.to_nat b - Pos.to_nat d - 2)) as Hodd.
  destruct (Nat.odd _); simpl in Hodd; lia.
Qed.

Section CompleteFrees.
Variable d : positive.
Variable H0 : gmap positive block.

Lemma free_original_total (N s : nat) :
  total (bench_state d H0 N N s) (cow_free original) (λ _, freeing d H0 N 0 s).
Proof.
  intros w (Hwf & Ho & Hn & Hc & Hp & Hx & Hsh & Hown & Hold & Hs).
  replace (1 + Z.of_nat N - Z.of_nat N) with 1 in Hc by lia.
  destruct Hp as (d0 & bd & [= <-] & Hbd & Hsize).
  pose proof Hc as (br & Hr & _)%cell_addr.
  assert (sole_owner original d (Pos.succ d) w) as Hsole.
  { split; [done|]. split; [lia|]. split; [done | eauto]. }
  exists tt, (released d (Pos.succ d) w). split; [by apply cow_free_sole|].
  split; [apply released_wf; eauto; lia|]. split; [|split; [|split]].
  - intros j Hj. destruct (Hown j ltac:(lia)) as [Hsolej _].
    apply sole_owner_released; [done|unfold copy_data; lia..].
  - intros b Hb. rewrite released_lookup. rewrite decide_False by lia.
    rewrite decide_False by lia. by apply Hold.
  - intros b Hb Hsome. rewrite released_lookup in Hsome.
    destruct (decide (b = Pos.succ d)) as [|Hbr]; [by destruct Hsome|].
    destruct (decide (b = d)) as [|Hbd']; [by destruct Hsome|].
    destruct Hwf as [Hheap _]. specialize (Hheap b Hsome). rewrite Hn in Hheap.
    destruct (block_numbering d b N Hb Hheap) as [|[|(j & Hj & Hbj)]]; [done|done|].
    exists j. split; [lia | done].
  - by rewrite released_stores.
Qed.

Lemma free_copies_total (N s start count : nat) :
  (start + count ≤ N)%nat →
  total (freeing d H0 N start s)
        (for_loop start count (λ i, cow_free (copies i)))
        (λ _, freeing d H0 N (start + count) s).
Proof.
  intros Hle. apply (total_for_loop (λ i, freeing d H0 N i s)).
  intros i Hi w (Hwf & Hown & Hold & Halloc & Hs).
  pose proof (Hown i ltac:(lia)) as Hsole.
  pose proof Hsole as (Hx & Hne & Hc & Hblk).
  pose proof Hc as (br & Hr & _)%cell_addr.
  exists tt, (released (copy_data d i) (Pos.succ (copy_data d i)) w).
  split; [by apply cow_free_sole|].
  split; [apply released_wf; eauto|]. split; [|split; [|split]].
  - intros j Hj. apply sole_owner_released; [apply Hown; lia|unfold copy_data; lia..].
  - intros b Hb. rewrite released_lookup.
    rewrite decide_False by (unfold copy_data; lia).
    rewrite decide_False by (unfold copy_data; lia). by apply Hold.
  - intros b Hb Hsome. rewrite released_lookup in Hsome.
    destruct (decide (b = Pos.succ (copy_data d i))) as [|Hbr]; [by destruct Hsome|].
    destruct (decide (b = copy_data d i)) as [|Hbd]; [by destruct Hsome|].
    destruct (Halloc b Hb Hsome) as (j & Hj & Hbj). exists j. split; [|done].
    destruct (decide (j = i)) as [->|]; [|lia]. by destruct Hbj.
  - by rewrite released_stores.
Qed.

Lemma freeing_done (N s : nat) (w : world) :
  freeing d H0 N N s w → (∀ b, (d ≤ b)%positive → H0 !! b = None) → heap w = H0.
Proof.
  intros (_ & _ & Hold & Halloc & _) Hfresh. apply map_eq. intros b.
  destruct (decide (b < d)%positive) as [Hlt|Hge]; [by apply Hold|].
  rewrite Hfresh by lia. destruct (heap w !! b) eqn:Hb; [|done].
  destruct (Halloc b ltac:(lia) (mk_is_Some _ _ Hb)) as (j & Hj & _). lia.
Qed.
End CompleteFrees.

(** With every allocation succeeding and rand not negative, benchmark_cow
    returns; it has made one store per element of the original and
    NUM_MODIFICATIONS stores per copy, and it has freed every block it
    allocated. *)
Lemma benchmark_cow_total (rnd : nat → Z) (w : world) :
  wf w → oracle w = [] → (∀ n, 0 ≤ rnd n) →
  ∃ w', benchmark_cow rnd w = Done tt w' ∧
        heap w' = heap w ∧
        stores_made (events w') =
          (stores_made (events w) +
           (Z.to_nat ARRAY_SIZE + Z.to_nat NUM_COPIES * Z.to_nat NUM_MODIFICATIONS))%nat.
Proof.
  intros Hwf Ho Hrnd.
  set (d := next_block w). set (s0 := stores_made (events w)).
  set (N := Z.to_nat NUM_COPIES).
  assert (allocs_ok 2 w = true) as Hok by (unfold allocs_ok; by rewrite Ho).
  unfold benchmark_cow.
  rewrite (bind_done _ _ _ _ _ (cow_create_ok ARRAY_SIZE w Hok)).
  rewrite (bind_done _ _ _ _ _ (set_var_unfold _ _ _)).
  rewrite bool_decide_eq_false_2 by done. rewrite bind_unfold, ret_unfold. cbv iota.
  set (w1 := set_vars _ _).
  assert (bench_state d (heap w) 0 0 (s0 + 0) w1) as Hst.
  { split; [by apply wf_set_vars, wf_poke, wf_alloc, wf_alloc|].
    split; [unfold w1; simpl; by rewrite Ho|].
    split; [unfold w1, copy_data; simpl; fold d; lia|].
    split.
    { unfold w1. apply cell_poke_written with (Block sizeof_int ∅); [|done].
      simpl. apply lookup_insert_eq. }
    split.
    { exists d, (Block (size_t_mul (to_size_t ARRAY_SIZE) sizeof_int) ∅).
      split; [done|]. split; [|done].
      unfold w1. simpl. rewrite poke_lookup_ne by lia.
      rewrite lookup_insert_ne by (simpl; lia). apply lookup_insert_eq. }
    split; [apply lookup_insert_eq|].
    split; [intros j Hj; lia|]. split; [intros j Hj; lia|].
    split.
    { intros b Hb. unfold w1. simpl. rewrite poke_lookup_ne by (fold d; lia).
      rewrite lookup_insert_ne by (simpl; fold d; lia).
      by rewrite lookup_insert_ne by (fold d; lia). }
    unfold w1. simpl. rewrite !stores_made_cons. simpl. unfold s0. lia. }
  assert (total (bench_state d (heap w) 0 0 (s0 + 0))
            (for_loop 0 (Z.to_nat ARRAY_SIZE)
               (λ i, v ← rand rnd; write_elem original (Z.of_nat i) v);;
             for_loop 0 (Z.to_nat NUM_COPIES)
               (λ i, o ← get_var original; c ← cow_copy o; set_var (copies i) c);;
             for_loop 0 (Z.to_nat NUM_COPIES)
               (λ i, modify_loop rnd (copies i) (Z.to_nat NUM_MODIFICATIONS) false);;
             cow_free original;;
             for_loop 0 (Z.to_nat NUM_COPIES) (λ i, cow_free (copies i)))
            (λ _, freeing d (heap w) N (0 + N)
                    (s0 + (0 + Z.to_nat ARRAY_SIZE)
                     + (0 + N) * S (Z.to_nat (NUM_MODIFICATIONS - 1))))) as Hrun.
  { eapply total_bind; [apply (init_loop_total rnd d (heap w) s0 0 (Z.to_nat ARRAY_SIZE)); lia|].
    intros [].
    eapply total_bind.
    { apply (copy_loop_total d (heap w) (s0 + (0 + Z.to_nat ARRAY_SIZE)) 0 N).
      unfold N, NUM_COPIES, INT_MAX. lia. }
    intros [].
    replace (Z.to_nat NUM_MODIFICATIONS) with (S (Z.to_nat (NUM_MODIFICATIONS - 1)))
      by (unfold NUM_MODIFICATIONS; lia).
    eapply total_bind.
    { eapply total_conseq;
        [apply (modify_copies_total rnd Hrnd d (heap w) (0 + N)
                  (Z.to_nat (NUM_MODIFICATIONS - 1)) (s0 + (0 + Z.to_nat ARRAY_SIZE)) 0 N)|..].
      - lia.
      - unfold N, NUM_COPIES, INT_MAX. lia.
      - intros w' Hw'. by rewrite Nat.mul_0_l, Nat.add_0_r.
      - intros a w' Hw'. exact Hw'. }
    intros [].
    eapply total_bind; [apply free_original_total|]. intros [].
    apply (free_copies_total d (heap w)). lia. }
  destruct (Hrun w1 Hst) as ([] & w' & Hdone & Hfree).
  exists w'. split; [exact Hdone|]. split.
  - apply (freeing_done d (heap w) _ _ w' Hfree). intros b Hb.
    destruct (heap w !! b) eqn:Hlookup; [|done].
    destruct Hwf as [Hheap _]. specialize (Hheap b (mk_is_Some _ _ Hlookup)). unfold d in Hb. lia.
  - destruct Hfree as (_ & _ & _ & _ & Hs). rewrite Hs.
    replace (S (Z.to_nat (NUM_MODIFICATIONS - 1))) with (Z.to_nat NUM_MODIFICATIONS)
      by (unfold NUM_MODIFICATIONS; lia).
    unfold s0, N. lia.
Qed.

(** The claim C4 fails on the code: the store does not force anything.  A
    client that stores through the second of three handles without calling
    cow_ensure_unique writes the payload while its counter is 3, and the
    first handle reads the new value. *)
Lemma shared_payload_written_without_fork :
  sharers (scenario []) (CowArray (Addr 1) (Addr 2)) = Some 3 ∧
  (∃ w, read_elem 0 0 (scenario []) = Done 0 w) ∧
  ∃ w',
    run [OpWrite 1 0 99] (scenario []) = Done tt w' ∧
    head (events w') = Some (EWrite (Addr 1) 0 (Some 3)) ∧
    ¬ writes_exclusive w' ∧
    ∃ w'', read_elem 0 0 w' = Done 99 w''.
Proof.
  split; [vm_compute; reflexivity|]. split; [eexists; vm_compute; reflexivity|].
  eexists. split; [vm_compute; reflexivity|]. split; [reflexivity|]. split.
  - intros Hwe. apply Forall_cons in Hwe as [Hhead _]. simpl in Hhead. discriminate.
  - eexists. vm_compute. reflexivity.
Qed.

(** The inner loop of benchmark_cow on the second of three handles, for
    two modifications: one fork, then two stores, both logged with a
    counter of 1. *)
Lemma modify_loop_on_shared_handle :
  ∃ w', modify_loop (λ _, 7) 1 2 false (scenario []) = Done tt w' ∧
        events w' =
          [EWrite (Addr 3) 7 (Some 1); EWrite (Addr 3) 7 (Some 1);
           EMalloc 4 4; EMemcpy 3 1 480000000; EMalloc 3 480000000]
          ++ events (scenario []) ∧
        sharers w' (CowArray (Addr 1) (Addr 2)) = Some 2.
Proof. eexists. split; [|split]; vm_compute; reflexivity. Qed.

(** C4, as the code has it: in benchmark_cow, whatever rand returns,
    whichever allocations fail and however the run ends, every store made
    through a handle was made while the counter of that handle was 1.  The
    original is filled before it is shared, and the inner loop calls
    cow_ensure_unique on a copy before its first store.  When every
    allocation succeeds and rand is not negative the run returns, having
    made ARRAY_SIZE + NUM_COPIES * NUM_MODIFICATIONS such stores and freed
    every block it allocated. *)
Theorem benchmark_writes_are_exclusive (rnd : nat → Z) (w : world) :
  wf w → writes_exclusive w →
  writes_exclusive (final_world (benchmark_cow rnd w)) ∧
  (oracle w = [] → (∀ n, 0 ≤ rnd n) →
     ∃ w', benchmark_cow rnd w = Done tt w' ∧
           writes_exclusive w' ∧
           stores_made (events w') =
             (stores_made (events w) +
              (Z.to_nat ARRAY_SIZE + Z.to_nat NUM_COPIES * Z.to_nat NUM_MODIFICATIONS))%nat ∧
           heap w' = heap w).
Proof.
  intros Hwf Hwe.
  assert (writes_exclusive (final_world (benchmark_cow rnd w))) as Hsafe.
  { pose proof (benchmark_cow_hoare rnd w (conj Hwf Hwe)) as H.
    by destruct (benchmark_cow rnd w). }
  split; [exact Hsafe|]. intros Ho Hrnd.
  destruct (benchmark_cow_total rnd w Hwf Ho Hrnd) as (w' & Hrun & Hheap & Hstores).
  exists w'. rewrite Hrun in Hsafe. done.
Qed.

Lemma benchmark_writes_are_exclusive_witness :
  wf (init_world []) ∧ writes_exclusive (init_world []) ∧
  writes_exclusive (final_world (benchmark_cow (λ _, 0) (init_world []))) ∧
  ∃ w', benchmark_cow (λ _, 0) (init_world []) = Done tt w' ∧ heap w' = ∅.
Proof.
  assert (writes_exclusive (init_world [])) as Hwe by apply Forall_nil_2.
  split; [apply wf_init|]. split; [exact Hwe|].
  destruct (benchmark_writes_are_exclusive (λ _, 0) (init_world []) (wf_init []) Hwe)
    as [Hsafe Htotal].
  split; [exact Hsafe|].
  destruct (Htotal eq_refl (λ _, Z.le_refl 0)) as (w' & Hrun & _ & _ & Hheap).
  exists w'. split; [exact Hrun | exact Hheap].
Defined.

Lemma cow_create_result_witness :
  wf (init_world [false]) ∧ 0 ≤ ARRAY_SIZE ≤ INT_MAX ∧
  (∃ d r blk w',
     cow_create ARRAY_SIZE (init_world []) = Done (CowArray (Addr d) (Addr r)) w' ∧
     heap w' !! d = Some blk ∧ blk_bytes blk = sizeof_int * ARRAY_SIZE ∧
     sharers w' (CowArray (Addr d) (Addr r)) = Some 1) ∧
  (∃ r w',
     cow_create ARRAY_SIZE (init_world [false]) = Done (CowArray NULL (Addr r)) w' ∧
     benchmark_cow (λ _, 0) (init_world [false]) =
       Exit 1 (set_vars (insert original (CowArray NULL (Addr r))) w')).
Proof.
  assert (0 ≤ ARRAY_SIZE ≤ INT_MAX) as Hsz by (unfold ARRAY_SIZE, INT_MAX; lia).
  split; [apply wf_init|]. split; [exact Hsz|]. split.
  - destruct (cow_create_result ARRAY_SIZE (init_world []) (wf_init []) Hsz) as [Hok _].
    destruct (Hok eq_refl) as (d & r & blk & w' & Hrun & _ & _ & _ & Hblk & Hbytes & _ & _ & Hc).
    exists d, r, blk, w'. split; [exact Hrun|]. split; [exact Hblk|]. split; [exact Hbytes|exact Hc].
  - destruct (cow_create_result ARRAY_SIZE (init_world [false]) (wf_init [false]) Hsz)
      as [_ Hfail].
    destruct (Hfail [] eq_refl eq_refl) as (r & w' & Hrun & _ & Hexit).
    exists r, w'. split; [exact Hrun|]. exact (Hexit eq_refl (λ _, 0)).
Defined.

Lemma poke_poke_id (r : positive) (c c' : Z) (w : world) :
  cell w (Addr r) 0 = Some c → poke r 0 c (poke r 0 c' (heap w)) = heap w.
Proof.
  intros (blk & Hr & _ & Hc)%cell_addr.
  unfold poke at 2. rewrite Hr. unfold poke. rewrite lookup_insert_eq. simpl.
  rewrite insert_insert_eq. rewrite insert_insert_eq. rewrite (insert_id _ _ _ Hc).
  apply insert_id. by destruct blk.
Qed.

Lemma cow_free_shared (x : nat) (h : cow_array) (c : Z) (w : world) :
  vars w !! x = Some h → sharers w h = Some c → c ≠ 1 → INT_MIN < c ≤ INT_MAX →
  ∃ r, ref_count h = Addr r ∧
       cow_free x w = Done tt (set_heap (poke r 0 (c - 1)) w).
Proof.
  intros Hx Hc Hne Hrange. unfold sharers in Hc.
  destruct (store_int_written w _ _ _ (c - 1) Hc) as (r & Hr & Hst).
  exists r. split; [done|]. unfold cow_free.
  rewrite (bind_done _ _ _ _ _ (get_var_some _ _ _ Hx)).
  rewrite (bind_done _ _ _ _ _ (load_int_cell _ _ _ _ Hc)).
  rewrite (bind_done _ _ _ _ _ (int_decr_ok c w ltac:(lia))).
  rewrite (bind_done _ _ _ _ _ Hst).
  rewrite Hr in Hc |- *.
  rewrite (bind_done _ _ _ _ _ (load_int_cell _ _ _ _ (cell_poke_eq w r 0 (c - 1) c Hc))).
  destruct (Z.eqb_spec (c - 1) 0) as [|_]; [lia|]. done.
Qed.

(** X1: sharing a handle and then releasing the copy undoes itself.  When
    the handle in [x] is live, with a counter from 1 up to INT_MAX - 1,
    cow_copy into [y] followed by cow_free of [y] returns, and the world it
    leaves differs from the one it started in only in the variable [y]:
    the counter is back at its value and no block was allocated, copied or
    freed. *)
Theorem share_then_release_is_identity (w : world) (x y : nat) (h : cow_array) (c : Z) :
  vars w !! x = Some h → sharers w h = Some c → 1 ≤ c < INT_MAX →
  (o ← get_var x; s ← cow_copy o; set_var y s;; cow_free y) w =
    Done tt (set_vars (insert y h) w).
Proof.
  intros Hx Hc Hrange.
  assert (INT_MIN ≤ c + 1 ≤ INT_MAX) as Hr1 by (unfold INT_MIN, INT_MAX in *; lia).
  destruct (cow_copy_ok h w c Hc Hr1) as (r & Hr & Hcopy).
  rewrite (bind_done _ _ _ _ _ (get_var_some _ _ _ Hx)).
  rewrite (bind_done _ _ _ _ _ Hcopy).
  rewrite (bind_done _ _ _ _ _ (set_var_unfold _ _ _)).
  unfold sharers in Hc. rewrite Hr in Hc.
  set (w1 := set_vars (insert y h) (set_heap (poke r 0 (c + 1)) w)).
  destruct (cow_free_shared y h (c + 1) w1) as (r' & Hr' & Hfree).
  - apply lookup_insert_eq.
  - unfold sharers. rewrite Hr. exact (cell_poke_eq w r 0 (c + 1) c Hc).
  - lia.
  - unfold INT_MIN, INT_MAX in *. lia.
  - rewrite Hfree. rewrite Hr in Hr'. injection Hr' as <-.
    replace (c + 1 - 1) with c by lia.
    unfold w1, set_heap, set_vars. simpl. rewrite (poke_poke_id r c (c + 1) w Hc).
    done.
Qed.

Lemma share_then_release_is_identity_witness :
  vars (scenario []) !! 0%nat = Some (CowArray (Addr 1) (Addr 2)) ∧
  sharers (scenario []) (CowArray (Addr 1) (Addr 2)) = Some 3 ∧
  (o ← get_var 0; s ← cow_copy o; set_var 3 s;; cow_free 3) (scenario []) =
    Done tt (set_vars (insert 3%nat (CowArray (Addr 1) (Addr 2))) (scenario [])).
Proof.
  assert (vars (scenario []) !! 0%nat = Some (CowArray (Addr 1) (Addr 2))) as Hx
    by (vm_compute; reflexivity).
  assert (sharers (scenario []) (CowArray (Addr 1) (Addr 2)) = Some 3) as Hc
    by (vm_compute; reflexivity).
  split; [exact Hx|]. split; [exact Hc|].
  apply (share_then_release_is_identity (scenario []) 0 3 _ 3 Hx Hc).
  unfold INT_MAX. lia.
Defined.

Lemma load_int_freed (b : positive) (i : Z) (w : world) :
  heap w !! b = None → load_int (Addr b) i w = Fault w.
Proof. intros Hb. unfold load_int. by rewrite Hb. Qed.

Lemma sole_handle_owner : sole_owner 0 1 2 sole_handle.
Proof.
  split; [vm_compute; reflexivity|]. split; [discriminate|].
  split; [vm_compute; reflexivity|]. eexists. vm_compute. reflexivity.
Qed.

(** X2: cow_free leaves the handle as it is.  After the only handle on a
    payload is released, the variable still holds the two pointers, both
    blocks are gone, and every later use of the handle is undefined
    behaviour: a second cow_free, cow_ensure_unique, cow_copy, a read and a
    store of an element.  Nothing in the code detects it. *)
Theorem use_after_release_is_undefined (x : nat) (d r : positive) (w : world) :
  sole_owner x d r w →
  ∃ w',
    cow_free x w = Done tt w' ∧
    vars w' !! x = Some (CowArray (Addr d) (Addr r)) ∧
    heap w' !! d = None ∧ heap w' !! r = None ∧
    cow_free x w' = Fault w' ∧
    cow_ensure_unique x w' = Fault w' ∧
    cow_copy (CowArray (Addr d) (Addr r)) w' = Fault w' ∧
    (∀ i, read_elem x i w' = Fault w') ∧
    (∀ i v, write_elem x i v w' = Fault (log_event (EWrite (Addr d) i None) w')).
Proof.
  intros Hsole. pose proof Hsole as (Hx & Hne & Hc & Hblk).
  exists (released d r w). split; [by apply cow_free_sole|].
  assert (heap (released d r w) !! d = None) as Hd.
  { rewrite released_lookup. rewrite decide_False by done. by rewrite decide_True. }
  assert (heap (released d r w) !! r = None) as Hr.
  { rewrite released_lookup. by rewrite decide_True. }
  assert (vars (released d r w) !! x = Some (CowArray (Addr d) (Addr r))) as Hx' by exact Hx.
  set (w' := released d r w) in *. clearbody w'.
  assert (sharers w' (CowArray (Addr d) (Addr r)) = None) as Hsh.
  { unfold sharers, cell. simpl. by rewrite Hr. }
  split; [exact Hx'|]. split; [exact Hd|]. split; [exact Hr|].
  split; [|split; [|split; [|split]]].
  - unfold cow_free. rewrite (bind_done _ _ _ _ _ (get_var_some _ _ _ Hx')).
    by rewrite (bind_fault _ _ _ _ (load_int_freed r 0 _ Hr)).
  - unfold cow_ensure_unique. rewrite (bind_done _ _ _ _ _ (get_var_some _ _ _ Hx')).
    by rewrite (bind_fault _ _ _ _ (load_int_freed r 0 _ Hr)).
  - unfold cow_copy. simpl ref_count.
    by rewrite (bind_fault _ _ _ _ (load_int_freed r 0 _ Hr)).
  - intros i. unfold read_elem. rewrite (bind_done _ _ _ _ _ (get_var_some _ _ _ Hx')).
    by apply load_int_freed.
  - intros i v. unfold write_elem.
    rewrite (bind_done _ _ _ _ _ (get_var_some _ _ _ Hx')).
    rewrite bind_unfold. rewrite Hsh. simpl data. unfold store_int. simpl heap.
    rewrite Hd. done.
Qed.

Lemma use_after_release_is_undefined_witness :
  sole_owner 0 1 2 sole_handle ∧
  ∃ w', cow_free 0 sole_handle = Done tt w' ∧
        vars w' !! 0%nat = Some (CowArray (Addr 1) (Addr 2)) ∧
        cow_free 0 w' = Fault w' ∧ read_elem 0 0 w' = Fault w'.
Proof.
  split; [exact sole_handle_owner|].
  destruct (use_after_release_is_undefined 0 1 2 sole_handle sole_handle_owner)
    as (w' & Hrun & Hx & _ & _ & Hfree & _ & _ & Hread & _).
  exists w'. split; [exact Hrun|]. split; [exact Hx|]. split; [exact Hfree | exact (Hread 0)].
Defined.

Lemma wf_unallocated (w : world) (b : positive) :
  wf w → (next_block w ≤ b)%positive → heap w !! b = None.
Proof.
  intros [Hheap _] Hb. destruct (heap w !! b) eqn:Hlookup; [|done].
  specialize (Hheap b (mk_is_Some _ _ Hlookup)). lia.
Qed.

(** X3: forking a shared handle and then releasing it leaves the heap as
    releasing it at once does.  Both leave the old payload in place with
    its counter lowered by one; the fork allocates a payload and a counter,
    copies the payload, and the release frees exactly these two blocks
    again. *)
Theorem fork_then_release_is_release (w : world) (x : nat) (d r : positive) (k : Z) :
  forkable w x d r k → allocs_ok 2 w = true →
  ∃ w1 w2,
    (cow_ensure_unique x;; cow_free x) w = Done tt w1 ∧
    cow_free x w = Done tt w2 ∧
    heap w1 = heap w2 ∧
    sharers w1 (CowArray (Addr d) (Addr r)) = Some (k - 1) ∧
    events w2 = events w ∧
    events w1 =
      EFree (Pos.succ (next_block w)) :: EFree (next_block w)
        :: EMalloc (Pos.succ (next_block w)) sizeof_int
        :: EMemcpy (next_block w) d (size_t_mul ARRAY_SIZE sizeof_int)
        :: EMalloc (next_block w) (size_t_mul ARRAY_SIZE sizeof_int) :: events w.
Proof.
  intros Hfk Hok. pose proof Hfk as [Hwf Hx Hne Hc [Hk1 Hk2] (d0 & bd & [= <-] & Hbd & Hsize)].
  pose proof Hc as (br & Hr & _)%cell_addr.
  set (d' := next_block w). set (r' := Pos.succ d').
  set (w1 := forked x d r k w).
  assert (d < d' ∧ r < d')%positive as [Hdlt Hrlt].
  { destruct Hwf as [Hheap _]. split; apply Hheap; eauto. }
  assert (∀ b, heap w1 !! b =
               if decide (b = r') then Some (Block sizeof_int {[0 := 1]})
               else if decide (b = r) then Some (Block (blk_bytes br) (<[0 := k - 1]> (blk_cells br)))
               else if decide (b = d') then
                 Some (Block (size_t_mul ARRAY_SIZE sizeof_int)
                             (copy_cells ARRAY_SIZE (blk_cells bd) ∅))
               else heap w !! b) as Hheap1.
  { intros b. exact (forked_heap w x d r k bd br b Hfk Hbd Hr). }
  assert (sole_owner x d' r' w1) as Hsole.
  { split; [|split; [|split]].
    - unfold w1. rewrite forked_var. by rewrite decide_True.
    - unfold r'. lia.
    - by apply forked_count_new.
    - rewrite Hheap1. rewrite decide_False by (unfold r'; lia).
      rewrite decide_False by lia. rewrite decide_True by done. eauto. }
  destruct (cow_free_shared x _ k w Hx Hc) as (r0 & [= <-] & Hfree).
  { lia. }
  { unfold INT_MIN. lia. }
  exists (released d' r' w1), (set_heap (poke r 0 (k - 1)) w).
  split.
  { rewrite (bind_done _ _ _ _ _ (cow_ensure_unique_shared w x d r k Hfk Hok)).
    by apply cow_free_sole. }
  split; [exact Hfree|]. split; [|split; [|split]].
  - apply map_eq. intros b. rewrite released_lookup. simpl heap.
    destruct (decide (b = r')) as [->|Hbr'].
    { rewrite poke_lookup_ne by lia. symmetry. apply wf_unallocated; [done|]. unfold r', d'. lia. }
    destruct (decide (b = d')) as [->|Hbd'].
    { rewrite poke_lookup_ne by lia. symmetry. apply wf_unallocated; [done|]. unfold d'. lia. }
    rewrite Hheap1. rewrite decide_False by done.
    destruct (decide (b = r)) as [->|Hbr].
    + symmetry. by apply poke_lookup_eq.
    + rewrite decide_False by done. by rewrite poke_lookup_ne.
  - unfold sharers. simpl ref_count. unfold cell. rewrite released_lookup.
    rewrite decide_False by lia. rewrite decide_False by lia.
    pose proof (forked_count_old w x d r k Hfk) as Hold. exact Hold.
  - done.
  - change (events (released d' r' w1)) with (EFree r' :: EFree d' :: events w1).
    unfold w1. by rewrite forked_events.
Qed.

(** X4: the handle cow_create returns when the allocation of the payload
    fails can be released.  Its data pointer is NULL and its counter is 1;
    cow_free on it returns, free(NULL) does nothing, the counter block is
    freed, and the heap is as it was before cow_create. *)
Theorem failed_cow_create_can_be_released (sz : Z) (x : nat) (w : world) (o : list bool) :
  wf w → oracle w = false :: o → hd true o = true →
  ∃ r w1 w',
    cow_create sz w = Done (CowArray NULL (Addr r)) w1 ∧
    (set_var x (CowArray NULL (Addr r));; cow_free x) w1 = Done tt w' ∧
    heap w' = heap w ∧
    events w' = EFree r :: events w1.
Proof.
  intros Hwf Ho Hhd.
  assert (allocs_ok 1 (alloc_fail (size_t_mul (to_size_t sz) sizeof_int) w) = true) as Hok.
  { unfold allocs_ok. simpl. rewrite Ho. simpl. destruct o as [|[] ?]; done. }
  pose proof (cow_create_no_payload sz w o Ho Hok) as Hcreate.
  set (r := next_block w) in *.
  set (w1 := set_heap _ _) in Hcreate.
  assert (heap w !! r = None) as Hfresh by by apply wf_fresh.
  assert (heap w1 !! r = Some (Block sizeof_int {[0 := 1]})) as Hr1.
  { unfold w1. simpl. erewrite poke_lookup_eq; [|apply lookup_insert_eq]. done. }
  assert (sharers (set_vars (insert x (CowArray NULL (Addr r))) w1) (CowArray NULL (Addr r))
          = Some 1) as Hc.
  { unfold sharers. apply cell_addr. eexists. split; [exact Hr1|]. split; [done|].
    simpl. apply lookup_insert_eq. }
  exists r, w1. eexists. split; [exact Hcreate|].
  rewrite (bind_done _ _ _ _ _ (set_var_unfold _ _ _)).
  set (w2 := set_vars _ w1) in *.
  unfold cow_free.
  rewrite (bind_done _ _ _ _ _ (get_var_some x (CowArray NULL (Addr r)) w2 (lookup_insert_eq _ _ _))).
  rewrite (bind_done _ _ _ _ _ (load_int_cell _ _ _ _ Hc)).
  rewrite (bind_done _ _ _ _ _ (int_decr_ok 1 w2 ltac:(unfold INT_MIN, INT_MAX; lia))).
  destruct (store_int_written w2 _ _ _ (1 - 1) Hc) as (r0 & [= <-] & Hst).
  rewrite (bind_done _ _ _ _ _ Hst).
  rewrite (bind_done _ _ _ _ _ (load_int_cell _ _ _ _ (cell_poke_eq w2 r 0 (1 - 1) 1 Hc))).
  change (1 - 1 =? 0) with true. cbv iota. simpl data. simpl ref_count.
  rewrite bind_unfold. unfold free at 1.
  assert (is_Some (heap (set_heap (poke r 0 (1 - 1)) w2) !! r)) as [blk Hblk].
  { simpl. apply poke_is_Some. unfold w2. simpl. eauto. }
  rewrite (free_ok _ _ _ Hblk). split; [reflexivity|]. split; [|reflexivity].
  simpl. apply map_eq. intros b. destruct (decide (b = r)) as [->|Hb].
  - by rewrite lookup_delete_eq.
  - rewrite lookup_delete_ne by done. rewrite !poke_lookup_ne by done.
    by rewrite lookup_insert_ne.
Qed.

Lemma failed_cow_create_can_be_released_witness :
  wf (init_world [false]) ∧
  ∃ r w1 w',
    cow_create ARRAY_SIZE (init_world [false]) = Done (CowArray NULL (Addr r)) w1 ∧
    (set_var 0 (CowArray NULL (Addr r));; cow_free 0) w1 = Done tt w' ∧
    heap w' = ∅.
Proof.
  split; [apply wf_init|].
  destruct (failed_cow_create_can_be_released ARRAY_SIZE 0 (init_world [false]) []
              (wf_init [false]) eq_refl eq_refl) as (r & w1 & w' & Hcreate & Hrun & Hheap & _).
  exists r, w1, w'. split; [exact Hcreate|]. split; [exact Hrun | exact Hheap].
Defined.

(** X5: cow_create writes the counter without checking the pointer malloc
    returned.  When the payload is allocated and the allocation of the
    counter fails, the store through the NULL counter is undefined
    behaviour, and the payload block stays allocated with no variable
    holding it. *)
Theorem cow_create_counter_unchecked (sz : Z) (w : world) (o : list bool) :
  wf w → oracle w = true :: false :: o →
  cow_create sz w =
    Fault (alloc_fail sizeof_int (alloc (size_t_mul (to_size_t sz) sizeof_int) w)) ∧
  let w' := final_world (cow_create sz w) in
  heap w !! next_block w = None ∧
  is_Some (heap w' !! next_block w) ∧
  vars w' = vars w.
Proof.
  intros Hwf Ho. assert (allocs_ok 1 w = true) as Hok by (unfold allocs_ok; by rewrite Ho).
  assert (cow_create sz w =
          Fault (alloc_fail sizeof_int (alloc (size_t_mul (to_size_t sz) sizeof_int) w))) as Hrun.
  { unfold cow_create. rewrite (bind_done _ _ _ _ _ (malloc_ok _ w Hok)).
    rewrite (bind_done _ _ _ _ _ (malloc_fails sizeof_int (alloc _ w) o
                                    ltac:(simpl; by rewrite Ho))).
    done. }
  split; [exact Hrun|]. rewrite Hrun. simpl.
  split; [by apply wf_fresh|]. split; [|done]. rewrite lookup_insert_eq. eauto.
Qed.

Lemma cow_create_counter_unchecked_witness :
  wf (init_world [true; false]) ∧
  (∃ w', cow_create ARRAY_SIZE (init_world [true; false]) = Fault w') ∧
  is_Some (heap (final_world (cow_create ARRAY_SIZE (init_world [true; false]))) !! 1%positive).
Proof.
  split; [apply wf_init|].
  destruct (cow_create_counter_unchecked ARRAY_SIZE (init_world [true; false]) []
              (wf_init _) eq_refl) as (Hrun & _ & Hblk & _).
  split; [eexists; exact Hrun | exact Hblk].
Defined.

Lemma fork_then_release_is_release_witness :
  forkable (scenario []) 1 1 2 3 ∧ allocs_ok 2 (scenario []) = true ∧
  ∃ w1 w2,
    (cow_ensure_unique 1;; cow_free 1) (scenario []) = Done tt w1 ∧
    cow_free 1 (scenario []) = Done tt w2 ∧
    heap w1 = heap w2 ∧
    sharers w1 (CowArray (Addr 1) (Addr 2)) = Some 2.
Proof.
  split; [apply scenario_forkable|]. split; [reflexivity|].
  destruct (fork_then_release_is_release (scenario []) 1 1 2 3 (scenario_forkable []) eq_refl)
    as (w1 & w2 & Hrun1 & Hrun2 & Hheap & Hc & _).
  exists w1, w2. split; [exact Hrun1|]. split; [exact Hrun2|]. split; [exact Hheap | exact Hc].
Defined.

(** ** Rules for [safe] *)

Lemma safe_bind {A B : Type} (P : world → Prop) (m : M A) (Q : A → world → Prop)
    (k : A → M B) (R : B → world → Prop) (E : Z → world → Prop) :
  safe P m Q E → (∀ a, safe (Q a) (k a) R E) → safe P (m ≫= k) R E.
Proof.
  intros Hm Hk w HP. rewrite bind_unfold. specialize (Hm w HP).
  destruct (m w) as [a w1|w1|c w1]; [by apply Hk | done | done].
Qed.

Lemma safe_conseq {A : Type} (P P' : world → Prop) (m : M A) (Q Q' : A → world → Prop)
    (E E' : Z → world → Prop) :
  safe P m Q E → (∀ w, P' w → P w) → (∀ a w, Q a w → Q' a w) →
  (∀ c w, E c w → E' c w) → safe P' m Q' E'.
Proof.
  intros Hm Hpre Hpost Hexit w HP. specialize (Hm w (Hpre w HP)).
  destruct (m w) as [a w1|w1|c w1]; [by apply Hpost | done | by apply Hexit].
Qed.

Lemma safe_ret {A : Type} (P : world → Prop) (a : A) (E : Z → world → Prop) :
  safe P (mret a) (λ _, P) E.
Proof. by intros w HP. Qed.

Lemma safe_for_loop (Inv : nat → world → Prop) (E : Z → world → Prop)
    (start count : nat) (body : nat → M unit) :
  (∀ i, (start ≤ i < start + count)%nat → safe (Inv i) (body i) (λ _, Inv (S i)) E) →
  safe (Inv start) (for_loop start count body) (λ _, Inv (start + count)%nat) E.
Proof.
  revert start. induction count as [|k IH]; intros start Hbody.
  - rewrite Nat.add_0_r. apply safe_ret.
  - simpl for_loop. eapply safe_bind; [apply Hbody; lia|]. intros [].
    rewrite <- Nat.add_succ_comm. apply IH. intros i Hi. apply Hbody. lia.
Qed.

(** ** Counting events *)

Lemma allocations_cons (e : event) (evs : list event) :
  allocations (e :: evs) = if is_malloc e then S (allocations evs) else allocations evs.
Proof. unfold allocations. rewrite filter_cons. by destruct (is_malloc e). Qed.

Lemma frees_cons (e : event) (evs : list event) :
  frees (e :: evs) = if is_free e then S (frees evs) else frees evs.
Proof. unfold frees. rewrite filter_cons. by destruct (is_free e). Qed.

Lemma tally_cons (e : event) (c a f : nat) (w : world) :
  tally c a f w →
  tally (if is_memcpy e then S c else c) (if is_malloc e then S a else a)
        (if is_free e then S f else f) (log_event e w).
Proof.
  intros (Hc & Ha & Hf). unfold tally. simpl events.
  rewrite copies_made_cons, allocations_cons, frees_cons.
  destruct e; simpl; by rewrite ?Hc, ?Ha, ?Hf.
Qed.

(** ** The allocation oracle *)

Lemma malloc_cases (nbytes : Z) (w : world) :
  (∃ o, oracle w = false :: o ∧ malloc nbytes w = Done NULL (alloc_fail nbytes w)) ∨
  (hd true (oracle w) = true ∧
   malloc nbytes w = Done (Addr (next_block w)) (alloc nbytes w)).
Proof.
  unfold malloc. destruct (oracle w) as [|[] o]; [by right | by right | left; by exists o].
Qed.

Lemma tail_drop {A : Type} (n : nat) (l : list A) : tail (drop n l) = drop (S n) l.
Proof.
  revert l. induction n as [|n IH]; intros [|a l]; try done. simpl. by rewrite IH.
Qed.

Lemma allocs_ok_next (n : nat) (w : world) :
  allocs_ok n w = true → hd true (drop n (oracle w)) = true → allocs_ok (S n) w = true.
Proof.
  unfold allocs_ok. generalize (oracle w). clear w. induction n as [|n IH]; intros [|b o]; try done.
  - simpl. intros _ ->. done.
  - simpl. intros [-> Hrest]%andb_prop Hhd. simpl. by apply IH.
Qed.

Lemma allocs_ok_failed (n m : nat) (w : world) (o : list bool) :
  drop n (oracle w) = false :: o → (n < m)%nat → allocs_ok m w = false.
Proof.
  unfold allocs_ok. generalize (oracle w). clear w. revert m.
  induction n as [|n IH]; intros m [|b l] Hdrop Hlt; try done.
  - simpl in Hdrop. injection Hdrop as -> ->. destruct m; [lia|]. done.
  - destruct m as [|m]; [lia|]. simpl in *. rewrite (IH m l Hdrop) by lia.
    by rewrite andb_false_r.
Qed.

(** ** Blocks under memcpy *)

Lemma blit_lookup_ne (d s b : positive) (n : Z) (hp : gmap positive block) :
  b ≠ d → blit d s n hp !! b = hp !! b.
Proof.
  intros Hne. unfold blit. destruct (hp !! d), (hp !! s); try done.
  by rewrite lookup_insert_ne.
Qed.

Lemma blit_lookup_bytes (d s b : positive) (n : Z) (hp : gmap positive block) (blk : block) :
  hp !! b = Some blk →
  ∃ blk', blit d s n hp !! b = Some blk' ∧ blk_bytes blk' = blk_bytes blk.
Proof.
  intros Hb. destruct (decide (b = d)) as [->|Hne].
  - unfold blit. rewrite Hb. destruct (hp !! s); [|eauto].
    rewrite lookup_insert_eq. eauto.
  - rewrite blit_lookup_ne by done. eauto.
Qed.

Lemma poke_lookup_bytes (b b' : positive) (i v : Z) (hp : gmap positive block) (blk : block) :
  hp !! b' = Some blk →
  ∃ blk', poke b i v hp !! b' = Some blk' ∧ blk_bytes blk' = blk_bytes blk.
Proof.
  intros Hb. destruct (decide (b' = b)) as [->|Hne].
  - rewrite (poke_lookup_eq _ _ _ _ _ Hb). eauto.
  - rewrite poke_lookup_ne by done. eauto.
Qed.

(** ** benchmark_traditional *)

Section Traditional.
Variable rnd : nat → Z.
Hypothesis rnd_nonneg : ∀ n, 0 ≤ rnd n.
Variable w0 : world.
Hypothesis wf_w0 : wf w0.

Local Abbreviation d := (next_block w0).

Lemma trad_state_rand (n i : nat) (cs : ptr_array) (w : world) :
  trad_state w0 n i cs w →
  trad_state w0 n i cs (World (vars w) (heap w) (next_block w) (oracle w)
                              (S (rand_calls w)) (events w)).
Proof. by intros ([Hheap Hev] & Hn & Ho & Hok & Hold & Hblk & Hlen & Hcs & Ht). Qed.

(** A store into the original or into one of the copies made so far. *)
Lemma trad_state_store (n i : nat) (cs : ptr_array) (w : world) (b : positive) (k v : Z) :
  trad_state w0 n i cs w →
  (d ≤ b)%positive → (b < trad_block d i)%positive → 0 ≤ k < ARRAY_SIZE →
  store_int (Addr b) k v w = Done tt (set_heap (poke b k v) w) ∧
  trad_state w0 n i cs (set_heap (poke b k v) w).
Proof.
  intros (Hwf & Hn & Ho & Hok & Hold & Hblk & Hlen & Hcs & Ht) Hb1 Hb2 Hk.
  destruct (Hblk b Hb1 Hb2) as (blk & Hb & Hbytes). split.
  - apply store_int_ok with blk; [done|]. apply in_bounds_iff. rewrite Hbytes.
    unfold sizeof_int. lia.
  - split; [by apply wf_poke|]. do 3 (split; [done|]).
    split; [intros b' Hb'; simpl; rewrite poke_lookup_ne by lia; by apply Hold|].
    split; [|done].
    intros b' Hb1' Hb2'. destruct (Hblk b' Hb1' Hb2') as (blk' & Hblk' & Hbytes').
    destruct (poke_lookup_bytes b b' k v (heap w) blk' Hblk') as (blk'' & Hl & Hby).
    exists blk''. split; [exact Hl | congruence].
Qed.

(** The loop that fills the original. *)
Lemma trad_init_safe (n : nat) (cs : ptr_array) (E : Z → world → Prop) (start count : nat) :
  (start + count ≤ Z.to_nat ARRAY_SIZE)%nat →
  safe (trad_state w0 n 0 cs)
       (for_loop start count (λ i, v ← rand rnd; store_int (Addr d) (Z.of_nat i) v))
       (λ _, trad_state w0 n 0 cs) E.
Proof.
  intros Hbound. apply (safe_for_loop (λ _, trad_state w0 n 0 cs)).
  intros i Hi w Hst. rewrite bind_unfold. unfold rand at 1.
  apply trad_state_rand in Hst.
  destruct (trad_state_store n 0 cs _ d (Z.of_nat i) (rnd (rand_calls w)) Hst) as [-> Hst'];
    [lia | unfold trad_block; lia | lia | done].
Qed.

(** The stores into the copies. *)
Lemma trad_modify_safe (n m : nat) (cs : ptr_array) (E : Z → world → Prop)
    (start count : nat) :
  (start + count ≤ n)%nat →
  safe (trad_state w0 n n cs)
       (for_loop start count
          (λ i, for_loop 0 m
             (λ j, r ← rand rnd;
                   let index := Z.rem r ARRAY_SIZE in
                   v ← rand rnd;
                   p ← array_get cs i;
                   store_int p index v)))
       (λ _, trad_state w0 n n cs) E.
Proof.
  intros Hbound. apply (safe_for_loop (λ _, trad_state w0 n n cs)).
  intros i Hi. apply (safe_for_loop (λ _, trad_state w0 n n cs)).
  intros j Hj w Hst. rewrite bind_unfold. unfold rand at 1. cbv zeta.
  apply trad_state_rand in Hst. rewrite bind_unfold. unfold rand at 1.
  apply trad_state_rand in Hst. simpl rand_calls in *.
  pose proof Hst as (_ & _ & _ & _ & _ & _ & _ & Hcs & _).
  unfold array_get. rewrite (Hcs i) by lia. rewrite bind_unfold, ret_unfold.
  set (w2 := World _ _ _ _ _ _) in *.
  destruct (trad_state_store n n cs w2 (trad_block d i)
              (Z.rem (rnd (rand_calls w)) ARRAY_SIZE) (rnd (S (rand_calls w))) Hst)
    as [-> Hst']; [unfold trad_block; lia | unfold trad_block; lia | | done].
  split; [apply Z.rem_nonneg; [unfold ARRAY_SIZE; lia | apply rnd_nonneg]|].
  apply Z.rem_bound_pos; [apply rnd_nonneg | unfold ARRAY_SIZE; lia].
Qed.

(** After free(original). *)
Lemma trad_cleanup_start (n i : nat) (cs cs1 : ptr_array) (w w1 : world) :
  trad_state w0 n i cs w →
  heap w1 = heap w →
  tally (copies_made (events w)) (allocations (events w)) (frees (events w)) w1 →
  (∀ k, (k < i)%nat → cs1 !! k = cs !! k) →
  free (Addr d) w1 = Done tt (log_event (EFree d) (set_heap (delete d) w1)) ∧
  trad_cleanup w0 i 0 cs1 (copies_made (events w0) + i) (allocations (events w0) + S i)
               (log_event (EFree d) (set_heap (delete d) w1)).
Proof.
  intros (Hwf & Hn & Ho & Hok & Hold & Hblk & Hlen & Hcs & Hc & Ha & Hf) Hheap Ht Hsame.
  destruct (Hblk d ltac:(lia) ltac:(unfold trad_block; lia)) as (blk & Hd & _).
  split; [apply free_ok with blk; by rewrite Hheap|].
  split; [|split; [|split]].
  - intros b Hb. simpl. rewrite lookup_delete_ne by lia. rewrite Hheap. by apply Hold.
  - intros b Hb. simpl. rewrite Hheap. split.
    + intros Hsome. destruct (decide (b = d)) as [->|Hne].
      { rewrite lookup_delete_eq in Hsome. by destruct Hsome. }
      rewrite lookup_delete_ne in Hsome by done.
      destruct Hwf as [Hlt _]. specialize (Hlt b Hsome). rewrite Hn in Hlt.
      exists (Pos.to_nat b - Pos.to_nat d - 1)%nat. unfold trad_block in *. lia.
    + intros (k & Hk & ->). rewrite lookup_delete_ne by (unfold trad_block; lia).
      destruct (Hblk (trad_block d k)) as (blk' & Hblk' & _); [unfold trad_block; lia..|].
      eauto.
  - intros k Hk. rewrite Hsame by done. by apply Hcs.
  - apply (tally_cons (EFree d)) in Ht. simpl in Ht. rewrite Hc, Ha, Hf in Ht.
    by rewrite Nat.add_1_r.
Qed.

(** The loop that frees the copies. *)
Lemma trad_cleanup_safe (i : nat) (cs : ptr_array) (c a : nat) (start count : nat) :
  (start + count ≤ i)%nat →
  safe (trad_cleanup w0 i start cs c a)
       (for_loop start count (λ j, q ← array_get cs j; free q))
       (λ _, trad_cleanup w0 i (start + count) cs c a) (λ _ _, False).
Proof.
  intros Hbound. apply (safe_for_loop (λ j, trad_cleanup w0 i j cs c a)).
  intros j Hj w (Hold & Hlive & Hcs & Ht).
  unfold array_get. rewrite (Hcs j) by lia. rewrite bind_unfold, ret_unfold.
  assert (is_Some (heap w !! trad_block d j)) as [blk Hblk].
  { apply Hlive; [unfold trad_block; lia|]. exists j. split; [lia | done]. }
  rewrite (free_ok _ _ _ Hblk).
  split; [|split; [|split]].
  - intros b Hb. simpl. rewrite lookup_delete_ne by (unfold trad_block; lia). by apply Hold.
  - intros b Hb. simpl. split.
    + intros Hsome. destruct (decide (b = trad_block d j)) as [->|Hne].
      { rewrite lookup_delete_eq in Hsome. by destruct Hsome. }
      rewrite lookup_delete_ne in Hsome by done.
      apply Hlive in Hsome as (k & Hk & ->); [|done].
      exists k. split; [|done]. destruct (decide (k = j)) as [->|]; [done | lia].
    + intros (k & Hk & ->). rewrite lookup_delete_ne by (unfold trad_block; lia).
      apply Hlive; [unfold trad_block; lia|]. exists k. split; [lia | done].
  - done.
  - apply (tally_cons (EFree (trad_block d j))) in Ht. simpl in Ht.
    by rewrite <- Nat.add_succ_r in Ht.
Qed.

Lemma trad_cleanup_done (i : nat) (cs : ptr_array) (c a : nat) (w : world) :
  trad_cleanup w0 i i cs c a w → heap w = heap w0.
Proof.
  intros (Hold & Hlive & _ & _). apply map_eq. intros b.
  destruct (decide (b < d)%positive) as [Hlt|Hge]; [by apply Hold|].
  rewrite (wf_unallocated w0 b wf_w0) by lia.
  destruct (heap w !! b) eqn:Hb; [|done].
  destruct (proj1 (Hlive b ltac:(lia)) (mk_is_Some _ _ Hb)) as (k & Hk & _). lia.
Qed.
End Traditional.

Section TraditionalCopies.
Variable w0 : world.
Hypothesis wf_w0 : wf w0.

Local Abbreviation d := (next_block w0).

(** How benchmark_traditional may call exit: with code 1, with the heap it
    was started in, after an allocation has failed, and with as many blocks
    freed as were allocated. *)
Local Abbreviation trad_exit n := (λ (c : Z) (w : world),
  c = 1 ∧ heap w = heap w0 ∧ allocs_ok (S n) w0 = false ∧
  (allocations (events w) + frees (events w0) =
   allocations (events w0) + frees (events w))%nat).

(** The state after copy [i] has been made: malloc, then memcpy. *)
Lemma trad_state_copy (n i : nat) (cs : ptr_array) (w : world) :
  trad_state w0 n i cs w → (i < n)%nat → hd true (oracle w) = true →
  let nbytes := size_t_mul ARRAY_SIZE sizeof_int in
  let p := next_block w in
  let w2 := log_event (EMemcpy p d nbytes) (set_heap (blit p d nbytes) (alloc nbytes w)) in
  memcpy (Addr p) (Addr d) nbytes (alloc nbytes w) = Done tt w2 ∧
  trad_state w0 n (S i) (<[i := Some (Addr p)]> cs) w2.
Proof.
  intros (Hwf & Hn & Ho & Hok & Hold & Hblk & Hlen & Hcs & Hc & Ha & Hf) Hi Hhd.
  intros nbytes p w2.
  assert (nbytes = sizeof_int * ARRAY_SIZE) as Hnb by (unfold nbytes; by rewrite copy_bytes).
  destruct (Hblk d ltac:(lia) ltac:(unfold trad_block; lia)) as (bd & Hd & Hbd).
  assert (p = trad_block d i) as Hp by exact Hn.
  assert (heap (alloc nbytes w) !! p = Some (Block nbytes ∅)) as Hpnew
    by apply lookup_insert_eq.
  assert (heap (alloc nbytes w) !! d = Some bd) as Hdnew.
  { simpl. rewrite lookup_insert_ne; [done|]. fold p. rewrite Hp. unfold trad_block. lia. }
  split.
  { apply memcpy_ok with (Block nbytes ∅) bd.
    - exact Hpnew.
    - exact Hdnew.
    - rewrite Hp. unfold trad_block. lia.
    - rewrite Hnb. unfold sizeof_int, ARRAY_SIZE. lia.
    - simpl blk_bytes. lia.
    - rewrite Hbd, Hnb. lia. }
  split; [apply stable_blit; by apply wf_alloc|].
  split; [simpl; rewrite Hn; unfold trad_block; lia|].
  split; [simpl; rewrite Ho; apply tail_drop|].
  split; [apply allocs_ok_next; [done | by rewrite <- Ho]|].
  split.
  { intros b Hb. simpl. rewrite blit_lookup_ne by (fold p; rewrite Hp; unfold trad_block; lia).
    rewrite lookup_insert_ne by (fold p; rewrite Hp; unfold trad_block; lia). by apply Hold. }
  split.
  { intros b Hb1 Hb2.
    assert (∃ blk, heap (alloc nbytes w) !! b = Some blk ∧ blk_bytes blk = sizeof_int * ARRAY_SIZE)
      as (blk & Hb & Hbytes).
    { destruct (decide (b = p)) as [->|Hne]; [by eexists|].
      simpl. rewrite lookup_insert_ne by done. apply Hblk; [done|].
      rewrite Hp in Hne. unfold trad_block in *. lia. }
    destruct (blit_lookup_bytes p d b nbytes _ blk Hb) as (blk' & Hl & Hby).
    exists blk'. split; [exact Hl | congruence]. }
  split; [by rewrite length_insert|].
  split.
  { intros j Hj. destruct (decide (j = i)) as [->|Hne].
    - rewrite list_lookup_insert_eq by lia. by rewrite Hp.
    - rewrite list_lookup_insert_ne by done. apply Hcs. lia. }
  unfold w2, tally. simpl events.
  rewrite !copies_made_cons, !allocations_cons, !frees_cons. simpl.
  rewrite Hc, Ha, Hf. lia.
Qed.

(** The loop that makes the copies, from copy [i] on. *)
Lemma make_copies_safe (n count : nat) : ∀ (i : nat) (cs : ptr_array),
  (i + count ≤ n)%nat →
  safe (trad_state w0 n i cs)
       (make_copies (Addr d) i count cs)
       (λ cs', trad_state w0 n (i + count) cs')
       (trad_exit n).
Proof.
  induction count as [|k IH]; intros i cs Hbound w Hst.
  - rewrite Nat.add_0_r. exact Hst.
  - simpl make_copies. rewrite bind_unfold.
    pose proof Hst as (Hwf & Hn & Ho & Hok & Hold & Hblk & Hlen & Hcs & Hc & Ha & Hf).
    destruct (malloc_cases (size_t_mul ARRAY_SIZE sizeof_int) w)
      as [(o & Hfail & ->) | (Hhd & ->)];
      rewrite (bool_decide_eq_true_2 (i < length cs)%nat) by lia;
      rewrite bind_unfold, ret_unfold; cbv zeta.
    + rewrite bool_decide_eq_true_2 by done.
      set (w1 := alloc_fail _ w). set (cs1 := <[i := Some NULL]> cs).
      destruct (trad_cleanup_start w0 n i cs cs1 w w1 Hst eq_refl) as [Hfree Hcl].
      { unfold w1, tally. simpl events.
        by rewrite copies_made_cons, allocations_cons, frees_cons. }
      { intros j Hj. unfold cs1. by rewrite list_lookup_insert_ne by lia. }
      rewrite bind_unfold, Hfree. rewrite bind_unfold.
      pose proof (trad_cleanup_safe w0 i cs1 (copies_made (events w0) + i)
                    (allocations (events w0) + S i) 0 i (le_n i) _ Hcl) as Hloop.
      destruct (for_loop 0 i _ _) as [[] w3|w3|c3 w3]; [|done|done].
      change (0 + i)%nat with i in Hloop.
      unfold exit. split; [done|].
      split; [exact (trad_cleanup_done w0 wf_w0 i cs1 _ _ w3 Hloop)|].
      split; [apply (allocs_ok_failed (S i) (S n) w0 o); [by rewrite <- Ho | lia]|].
      destruct Hloop as (_ & _ & _ & _ & Ha3 & Hf3). rewrite Ha3, Hf3. lia.
    + rewrite bool_decide_eq_false_2 by done.
      destruct (trad_state_copy n i cs w Hst ltac:(lia) Hhd) as [Hcopy Hst'].
      rewrite bind_unfold, Hcopy. rewrite <- Nat.add_succ_comm.
      apply IH; [lia | exact Hst'].
Qed.
End TraditionalCopies.

(** benchmark_traditional has no undefined behaviour, whichever allocations
    fail: it returns exactly when its NUM_COPIES + 1 allocations succeed,
    and calls exit(1) otherwise; either way it leaves the heap as it found
    it.  When it returns it has run memcpy NUM_COPIES times. *)
Lemma benchmark_traditional_outcome (rnd : nat → Z) (w : world) :
  wf w → (∀ n, 0 ≤ rnd n) →
  let N := Z.to_nat NUM_COPIES in
  match benchmark_traditional rnd w with
  | Done _ w' =>
      allocs_ok (S N) w = true ∧ heap w' = heap w ∧
      tally (copies_made (events w) + N) (allocations (events w) + S N)
            (frees (events w) + S N) w'
  | Fault _ => False
  | Exit c w' =>
      c = 1 ∧ heap w' = heap w ∧ allocs_ok (S N) w = false ∧
      (allocations (events w') + frees (events w) =
       allocations (events w) + frees (events w'))%nat
  end.
Proof.
  intros Hwf Hrnd N. unfold benchmark_traditional. fold N. rewrite bind_unfold.
  set (nbytes := size_t_mul ARRAY_SIZE sizeof_int).
  destruct (malloc_cases nbytes w) as [(o & Hfail & ->) | (Hhd & ->)].
  { rewrite bool_decide_eq_true_2 by done. rewrite bind_unfold. unfold exit.
    split; [done|]. split; [done|]. split.
    - apply (allocs_ok_failed 0 (S N) w o); [done | lia].
    - simpl events. by rewrite allocations_cons, frees_cons. }
  rewrite bool_decide_eq_false_2 by done. rewrite bind_unfold, ret_unfold.
  set (cs0 := replicate N None : ptr_array).
  assert (trad_state w N 0 cs0 (alloc nbytes w)) as Hst.
  { split; [by apply wf_alloc|]. split; [simpl; unfold trad_block; lia|].
    split; [simpl; by destruct (oracle w)|].
    split; [by apply (allocs_ok_next 0 w)|].
    split; [intros b Hb; simpl; by rewrite lookup_insert_ne by lia|].
    split.
    { intros b Hb1 Hb2. assert (b = next_block w) as -> by (unfold trad_block in *; lia).
      eexists. split; [apply lookup_insert_eq|]. simpl. unfold nbytes.
      by rewrite copy_bytes. }
    split; [apply length_replicate|]. split; [intros j Hj; lia|].
    unfold tally. simpl events. rewrite copies_made_cons, allocations_cons, frees_cons.
    simpl. lia. }
  set (Ex := λ (c : Z) (w' : world),
        c = 1 ∧ heap w' = heap w ∧ allocs_ok (S N) w = false ∧
        (allocations (events w') + frees (events w) =
         allocations (events w) + frees (events w'))%nat).
  set (prog := (_ ≫= _)).
  assert (safe (trad_state w N 0 cs0) prog
               (λ _ w', heap w' = heap w ∧
                        tally (copies_made (events w) + N) (allocations (events w) + S N)
                              (frees (events w) + S N) w' ∧
                        allocs_ok (S N) w = true) Ex) as Hsafe.
  { unfold prog.
    eapply safe_bind; [apply (trad_init_safe rnd w N cs0 Ex 0); lia|]. intros [].
    eapply safe_bind.
    { apply (make_copies_safe w Hwf N N 0 cs0). lia. }
    intros cs. simpl plus.
    eapply safe_bind.
    { apply (trad_modify_safe rnd Hrnd w N (Z.to_nat NUM_MODIFICATIONS) cs Ex 0 N). lia. }
    intros [] w1 Hst1.
    pose proof Hst1 as (_ & _ & _ & Hok & _ & _ & _ & _ & Hc & Ha & Hf).
    destruct (trad_cleanup_start w N N cs cs w1 w1 Hst1 eq_refl) as [Hfree Hcl]; [done..|].
    rewrite bind_unfold, Hfree.
    pose proof (trad_cleanup_safe w N cs (copies_made (events w) + N)
                  (allocations (events w) + S N) 0 N (le_n N) _ Hcl) as Hloop.
    destruct (for_loop 0 N _ _) as [[] w3|w3|c3 w3]; [|done|done].
    change (0 + N)%nat with N in Hloop.
    split; [exact (trad_cleanup_done w Hwf N cs _ _ w3 Hloop)|].
    split; [|exact Hok].
    destruct Hloop as (_ & _ & _ & Ht). exact Ht. }
  specialize (Hsafe _ Hst).
  destruct (prog (alloc nbytes w)) as [[] w'|w'|c w']; [|done|exact Hsafe].
  destruct Hsafe as (Hheap & Ht & Hok). done.
Qed.

(** ** What a call adds to the record of events *)

Lemma emits_ret {A : Type} (ok : event → bool) (a : A) : emits ok (mret a).
Proof. intros w. by exists []. Qed.

Lemma emits_silent {A : Type} (ok : event → bool) (m : M A) :
  (∀ w, events (final_world (m w)) = events w) → emits ok m.
Proof. intros Hm w. exists []. by rewrite Hm. Qed.

Lemma emits_one {A : Type} (ok : event → bool) (m : M A) :
  (∀ w, events (final_world (m w)) = events w ∨
        ∃ e, ok e = true ∧ events (final_world (m w)) = e :: events w) →
  emits ok m.
Proof.
  intros Hm w. destruct (Hm w) as [Heq | (e & Hok & Heq)].
  - exists []. by rewrite Heq.
  - exists [e]. rewrite Heq. split; [done|]. simpl. by rewrite Hok.
Qed.

Lemma emits_bind {A B : Type} (ok : event → bool) (m : M A) (k : A → M B) :
  emits ok m → (∀ a, emits ok (k a)) → emits ok (m ≫= k).
Proof.
  intros Hm Hk w. rewrite bind_unfold. destruct (Hm w) as (l & Hl & Hok).
  destruct (m w) as [a w1|w1|c w1]; simpl in Hl; [|by exists l..].
  destruct (Hk a w1) as (l' & Hl' & Hok'). exists (l' ++ l).
  rewrite Hl', Hl, app_assoc. split; [done|]. rewrite forallb_app. by rewrite Hok, Hok'.
Qed.

Lemma emits_weaken {A : Type} (ok ok' : event → bool) (m : M A) :
  (∀ e, ok e = true → ok' e = true) → emits ok m → emits ok' m.
Proof.
  intros Hsub Hm w. destruct (Hm w) as (l & Hl & Hok). exists l. split; [done|].
  apply forallb_forall. intros e He. apply Hsub.
  by apply (proj1 (forallb_forall ok l) Hok).
Qed.

Lemma emits_for_loop (ok : event → bool) (start count : nat) (body : nat → M unit) :
  (∀ i, emits ok (body i)) → emits ok (for_loop start count body).
Proof.
  intros Hbody. revert start. induction count as [|k IH]; intros start.
  - apply emits_ret.
  - simpl. apply emits_bind; [apply Hbody | intros _; apply IH].
Qed.

Lemma emits_get_var (ok : event → bool) (x : nat) : emits ok (get_var x).
Proof. apply emits_silent. intros w. unfold get_var. by destruct (vars w !! x). Qed.

Lemma emits_set_var (ok : event → bool) (x : nat) (h : cow_array) : emits ok (set_var x h).
Proof. by apply emits_silent. Qed.

Lemma emits_load_int (ok : event → bool) (p : ptr) (i : Z) : emits ok (load_int p i).
Proof.
  apply emits_silent. intros w. unfold load_int. destruct p as [|b]; [done|].
  destruct (heap w !! b) as [blk|]; [|done]. destruct (in_bounds blk i); [|done].
  by destruct (blk_cells blk !! i).
Qed.

Lemma emits_store_int (ok : event → bool) (p : ptr) (i v : Z) : emits ok (store_int p i v).
Proof.
  apply emits_silent. intros w. unfold store_int. destruct p as [|b]; [done|].
  destruct (heap w !! b) as [blk|]; [|done]. by destruct (in_bounds blk i).
Qed.

Lemma emits_int_incr (ok : event → bool) (c : Z) : emits ok (int_incr c).
Proof. apply emits_silent. intros w. unfold int_incr. by destruct (in_int_range (c + 1)). Qed.

Lemma emits_int_decr (ok : event → bool) (c : Z) : emits ok (int_decr c).
Proof. apply emits_silent. intros w. unfold int_decr. by destruct (in_int_range (c - 1)). Qed.

Lemma emits_rand (ok : event → bool) (rnd : nat → Z) : emits ok (rand rnd).
Proof. by apply emits_silent. Qed.

Lemma emits_malloc (nbytes : Z) : emits is_request (malloc nbytes).
Proof.
  apply emits_one. intros w. right. unfold malloc.
  destruct (oracle w) as [|[] o]; eexists; (split; [|reflexivity]); done.
Qed.

Lemma emits_free (p : ptr) : emits is_free (free p).
Proof.
  apply emits_one. intros w. unfold free. destruct p as [|b]; [by left|].
  destruct (heap w !! b); [right; by exists (EFree b) | by left].
Qed.

Lemma emits_memcpy (dst src : ptr) (nbytes : Z) : emits is_memcpy (memcpy dst src nbytes).
Proof.
  apply emits_one. intros w. unfold memcpy.
  destruct dst as [|d]; [by left|]. destruct src as [|s]; [by left|].
  destruct (heap w !! d) as [bd|]; [|by left]. destruct (heap w !! s) as [bs|]; [|by left].
  destruct (_ && _); [|by left].
  right. eexists. split; [|reflexivity]. done.
Qed.

(** cow_copy adds no event: it neither allocates, nor copies, nor frees. *)
Lemma emits_cow_copy (ok : event → bool) (src : cow_array) : emits ok (cow_copy src).
Proof.
  unfold cow_copy. apply emits_bind; [apply emits_load_int|]. intros c.
  apply emits_bind; [apply emits_int_incr|]. intros c'.
  apply emits_bind; [apply emits_store_int|]. intros _. apply emits_ret.
Qed.

(** cow_free only calls free. *)
Lemma emits_cow_free (x : nat) : emits is_free (cow_free x).
Proof.
  unfold cow_free. apply emits_bind; [apply emits_get_var|]. intros h.
  apply emits_bind; [apply emits_load_int|]. intros c.
  apply emits_bind; [apply emits_int_decr|]. intros c'.
  apply emits_bind; [apply emits_store_int|]. intros _.
  apply emits_bind; [apply emits_load_int|]. intros c0.
  destruct (c0 =? 0); [|apply emits_ret].
  apply emits_bind; [apply emits_free|]. intros _. apply emits_free.
Qed.

(** cow_create only calls malloc. *)
Lemma emits_cow_create (sz : Z) : emits is_request (cow_create sz).
Proof.
  unfold cow_create. apply emits_bind; [apply emits_malloc|]. intros d.
  apply emits_bind; [apply emits_malloc|]. intros r.
  apply emits_bind; [apply emits_store_int|]. intros _. apply emits_ret.
Qed.

(** cow_ensure_unique only calls malloc and memcpy: it frees nothing. *)
Lemma emits_cow_ensure_unique (x : nat) :
  emits (λ e, is_request e || is_memcpy e) (cow_ensure_unique x).
Proof.
  set (ok := λ e, is_request e || is_memcpy e).
  assert (∀ n, emits ok (malloc n)) as Hmalloc.
  { intros n. apply (emits_weaken is_request); [|apply emits_malloc].
    intros e He. unfold ok. by rewrite He. }
  unfold cow_ensure_unique. apply emits_bind; [apply emits_get_var|]. intros h.
  apply emits_bind; [apply emits_load_int|]. intros c.
  destruct (1 <? c); [|apply emits_ret]. cbv zeta.
  apply emits_bind; [apply Hmalloc|]. intros d.
  apply emits_bind; [apply emits_set_var|]. intros _.
  apply emits_bind.
  { apply (emits_weaken is_memcpy); [|apply emits_memcpy].
    intros e He. unfold ok. rewrite He. apply orb_true_r. }
  intros _. apply emits_bind; [apply emits_load_int|]. intros c1.
  apply emits_bind; [apply emits_int_decr|]. intros c2.
  apply emits_bind; [apply emits_store_int|]. intros _.
  apply emits_bind; [apply Hmalloc|]. intros r.
  apply emits_bind; [apply emits_set_var|]. intros _. apply emits_store_int.
Qed.

(** A store through a handle only logs the store. *)
Lemma emits_write_elem (x : nat) (index v : Z) : emits is_write (write_elem x index v).
Proof.
  unfold write_elem. apply emits_bind; [apply emits_get_var|]. intros h.
  apply emits_bind; [|intros _; apply emits_store_int].
  apply emits_one. intros w. right. eexists. split; [|reflexivity]. done.
Qed.

(** Events that are neither a memcpy, nor an allocation, nor a free leave
    the tally as it is. *)
Lemma tally_emitted (ok : event → bool) (l : list event) (c a f : nat) (w w' : world) :
  (∀ e, ok e = true → is_memcpy e = false ∧ is_malloc e = false ∧ is_free e = false) →
  events w' = l ++ events w → forallb ok l = true →
  tally c a f w → tally c a f w'.
Proof.
  intros Hq Hev Hok (Hc & Ha & Hf). unfold tally. rewrite Hev. clear Hev.
  induction l as [|e l IH]; [done|]. simpl in Hok. apply andb_prop in Hok as [He Hl].
  destruct (Hq e He) as (H1 & H2 & H3). simpl.
  rewrite copies_made_cons, allocations_cons, frees_cons, H1, H2, H3. by apply IH.
Qed.

Lemma total_quiet {A : Type} (ok : event → bool) (P : world → Prop) (m : M A)
    (Q : A → world → Prop) (c a f : nat) :
  (∀ e, ok e = true → is_memcpy e = false ∧ is_malloc e = false ∧ is_free e = false) →
  emits ok m → total P m Q →
  total (λ w, P w ∧ tally c a f w) m (λ x w, Q x w ∧ tally c a f w).
Proof.
  intros Hq Hem Hm w [HP Ht]. destruct (Hm w HP) as (x & w' & Hrun & HQ).
  exists x, w'. split; [done|]. split; [done|].
  destruct (Hem w) as (l & Hl & Hok). rewrite Hrun in Hl. simpl in Hl.
  by apply (tally_emitted ok l c a f w w').
Qed.

Lemma is_write_quiet (e : event) :
  is_write e = true → is_memcpy e = false ∧ is_malloc e = false ∧ is_free e = false.
Proof. by destruct e. Qed.

(** ** The allocations and copies of benchmark_cow *)

Lemma emits_modify_loop_unique (rnd : nat → Z) (x : nat) (count : nat) :
  emits is_write (modify_loop rnd x count true).
Proof.
  induction count as [|k IH]; [apply emits_ret|]. simpl modify_loop.
  apply emits_bind; [apply emits_rand|]. intros r. cbv zeta.
  apply emits_bind; [apply emits_ret|]. intros _.
  apply emits_bind; [apply emits_rand|]. intros v.
  apply emits_bind; [apply emits_write_elem|]. intros _. exact IH.
Qed.

Lemma tally_released (d r : positive) (c a f : nat) (w : world) :
  tally c a f w → tally c a (f + 2) (released d r w).
Proof.
  intros (Hc & Ha & Hf). unfold tally, released. simpl events.
  rewrite !copies_made_cons, !allocations_cons, !frees_cons. simpl.
  rewrite Hc, Ha, Hf. lia.
Qed.

Section CowTally.
Variable rnd : nat → Z.
Hypothesis rnd_nonneg : ∀ n, 0 ≤ rnd n.
Variable d : positive.
Variable H0 : gmap positive block.

Lemma init_loop_tally (c a f s0 start count : nat) :
  (start + count ≤ Z.to_nat ARRAY_SIZE)%nat →
  total (λ w, bench_state d H0 0 0 (s0 + start) w ∧ tally c a f w)
        (for_loop start count (λ i, v ← rand rnd; write_elem original (Z.of_nat i) v))
        (λ _ w, bench_state d H0 0 0 (s0 + (start + count)) w ∧ tally c a f w).
Proof.
  intros Hbound. apply (total_quiet is_write); [apply is_write_quiet | |].
  - apply emits_for_loop. intros i. apply emits_bind; [apply emits_rand|].
    intros v. apply emits_write_elem.
  - by apply init_loop_total.
Qed.

Lemma copy_loop_tally (c a f s start count : nat) :
  Z.of_nat (start + count) < INT_MAX →
  total (λ w, bench_state d H0 start 0 s w ∧ tally c a f w)
        (for_loop start count
           (λ i, o ← get_var original; c ← cow_copy o; set_var (copies i) c))
        (λ _ w, bench_state d H0 (start + count) 0 s w ∧ tally c a f w).
Proof.
  intros Hbound. apply (total_quiet is_write); [apply is_write_quiet | |].
  - apply emits_for_loop. intros i. apply emits_bind; [apply emits_get_var|].
    intros o. apply emits_bind; [apply emits_cow_copy|]. intros h. apply emits_set_var.
  - by apply copy_loop_total.
Qed.

(** The inner loop on copy [i] runs memcpy once and malloc twice. *)
Lemma modify_loop_tally (c a f N i s count : nat) :
  (i < N)%nat → Z.of_nat N < INT_MAX →
  total (λ w, bench_state d H0 N i s w ∧ tally c a f w)
        (modify_loop rnd (copies i) (S count) false)
        (λ _ w, bench_state d H0 N (S i) (s + S count) w ∧ tally (S c) (a + 2) f w).
Proof.
  intros Hi HN w [Hst (Hc & Ha & Hf)]. simpl modify_loop.
  rewrite bind_unfold. unfold rand at 1.
  apply bench_state_rand in Hst. set (w1 := World _ _ _ _ _ _) in *.
  destruct (bench_state_fork d H0 N i s w1 Hst Hi HN) as [Hfork Hst'].
  rewrite (bind_done _ _ _ _ _ Hfork).
  set (index := Z.rem (rnd (rand_calls w)) ARRAY_SIZE).
  assert (0 ≤ index < ARRAY_SIZE) as Hindex.
  { split; [apply Z.rem_nonneg; [unfold ARRAY_SIZE; lia | apply rnd_nonneg]|].
    apply Z.rem_bound_pos; [apply rnd_nonneg | unfold ARRAY_SIZE; lia]. }
  refine (total_quiet is_write _ _ _ (S c) (a + 2) f is_write_quiet _
            (modify_tail_total rnd rnd_nonneg d H0 N i s count index Hindex) _ _).
  - apply emits_bind; [apply emits_rand|]. intros v.
    apply emits_bind; [apply emits_write_elem|]. intros _.
    apply emits_modify_loop_unique.
  - split; [exact Hst'|]. unfold tally. rewrite forked_events.
    rewrite !copies_made_cons, !allocations_cons, !frees_cons. simpl.
    change (events w1) with (events w). rewrite Hc, Ha, Hf. lia.
Qed.

Lemma modify_copies_tally (c a f N m s start count : nat) :
  (start + count ≤ N)%nat → Z.of_nat N < INT_MAX →
  total (λ w, bench_state d H0 N start (s + start * S m) w ∧
              tally (c + start) (a + 2 * start) f w)
        (for_loop start count (λ i, modify_loop rnd (copies i) (S m) false))
        (λ _ w, bench_state d H0 N (start + count) (s + (start + count) * S m) w ∧
                tally (c + (start + count)) (a + 2 * (start + count)) f w).
Proof.
  intros Hle HN.
  apply (total_for_loop (λ i w, bench_state d H0 N i (s + i * S m) w ∧
                                tally (c + i) (a + 2 * i) f w)).
  intros i Hi. eapply total_conseq;
    [apply (modify_loop_tally (c + i) (a + 2 * i) f N i (s + i * S m) m); lia|..].
  - done.
  - intros [] w [Hst Ht]. split.
    + replace (s + S i * S m)%nat with (s + i * S m + S m)%nat by lia. done.
    + replace (c + S i)%nat with (S (c + i)) by lia.
      replace (a + 2 * S i)%nat with (a + 2 * i + 2)%nat by lia. done.
Qed.

(** Releasing the original frees its two blocks. *)
Lemma free_original_tally (c a f N s : nat) :
  total (λ w, bench_state d H0 N N s w ∧ tally c a f w)
        (cow_free original)
        (λ _ w, freeing d H0 N 0 s w ∧ tally c a (f + 2) w).
Proof.
  intros w [Hst Ht].
  destruct (free_original_total d H0 N s w Hst) as ([] & w' & Hrun & Hfr).
  exists tt, w'. split; [done|]. split; [done|].
  destruct Hst as (Hwf & Ho & Hn & Hc & Hp & Hx & Hsh & Hown & Hold & Hs).
  replace (1 + Z.of_nat N - Z.of_nat N) with 1 in Hc by lia.
  destruct Hp as (d0 & bd & [= <-] & Hbd & Hsize).
  assert (sole_owner original d (Pos.succ d) w) as Hsole.
  { split; [done|]. split; [lia|]. split; [done | eauto]. }
  rewrite (cow_free_sole _ _ _ _ Hsole) in Hrun. injection Hrun as <-.
  by apply tally_released.
Qed.

(** Releasing the copies frees the two blocks of each. *)
Lemma free_copies_tally (c a f N s start count : nat) :
  (start + count ≤ N)%nat →
  total (λ w, freeing d H0 N start s w ∧ tally c a (f + 2 * start) w)
        (for_loop start count (λ i, cow_free (copies i)))
        (λ _ w, freeing d H0 N (start + count) s w ∧ tally c a (f + 2 * (start + count)) w).
Proof.
  intros Hle.
  apply (total_for_loop (λ i w, freeing d H0 N i s w ∧ tally c a (f + 2 * i) w)).
  intros i Hi w [Hfr Ht].
  destruct (free_copies_total d H0 N s i 1 ltac:(lia) w Hfr) as ([] & w' & Hrun & Hfr').
  destruct Hfr as (_ & Hown & _).
  pose proof (cow_free_sole _ _ _ _ (Hown i ltac:(lia))) as Hfree.
  simpl for_loop in Hrun. rewrite (bind_done _ _ _ _ _ Hfree) in Hrun.
  rewrite ret_unfold in Hrun. injection Hrun as <-.
  eexists tt, _. split; [exact Hfree|]. split.
  - by rewrite Nat.add_1_r in Hfr'.
  - replace (f + 2 * S i)%nat with (f + 2 * i + 2)%nat by lia. by apply tally_released.
Qed.
End CowTally.

(** With every allocation succeeding and rand not negative, benchmark_cow
    runs memcpy once per copy, allocates two blocks for the original and
    two for every copy, and frees each of them. *)
Lemma benchmark_cow_tally (rnd : nat → Z) (w : world) :
  wf w → oracle w = [] → (∀ n, 0 ≤ rnd n) →
  let N := Z.to_nat NUM_COPIES in
  ∃ w', benchmark_cow rnd w = Done tt w' ∧
        tally (copies_made (events w) + N) (allocations (events w) + (2 + 2 * N))
              (frees (events w) + (2 + 2 * N)) w'.
Proof.
  intros Hwf Ho Hrnd N.
  set (d := next_block w). set (s0 := stores_made (events w)).
  set (c0 := copies_made (events w)). set (a0 := allocations (events w)).
  set (f0 := frees (events w)).
  assert (allocs_ok 2 w = true) as Hok by (unfold allocs_ok; by rewrite Ho).
  unfold benchmark_cow. fold N.
  rewrite (bind_done _ _ _ _ _ (cow_create_ok ARRAY_SIZE w Hok)).
  rewrite (bind_done _ _ _ _ _ (set_var_unfold _ _ _)).
  rewrite bool_decide_eq_false_2 by done. rewrite bind_unfold, ret_unfold. cbv iota.
  set (w1 := set_vars _ _).
  assert (bench_state d (heap w) 0 0 (s0 + 0) w1) as Hst.
  { split; [by apply wf_set_vars, wf_poke, wf_alloc, wf_alloc|].
    split; [unfold w1; simpl; by rewrite Ho|].
    split; [unfold w1, copy_data; simpl; fold d; lia|].
    split.
    { unfold w1. apply cell_poke_written with (Block sizeof_int ∅); [|done].
      simpl. apply lookup_insert_eq. }
    split.
    { exists d, (Block (size_t_mul (to_size_t ARRAY_SIZE) sizeof_int) ∅).
      split; [done|]. split; [|done].
      unfold w1. simpl. rewrite poke_lookup_ne by lia.
      rewrite lookup_insert_ne by (simpl; lia). apply lookup_insert_eq. }
    split; [apply lookup_insert_eq|].
    split; [intros j Hj; lia|]. split; [intros j Hj; lia|].
    split.
    { intros b Hb. unfold w1. simpl. rewrite poke_lookup_ne by (fold d; lia).
      rewrite lookup_insert_ne by (simpl; fold d; lia).
      by rewrite lookup_insert_ne by (fold d; lia). }
    unfold w1. simpl. rewrite !stores_made_cons. simpl. unfold s0. lia. }
  assert (tally (c0 + 0) (a0 + 2 + 2 * 0) (f0 + 2 * 0) w1) as Ht.
  { unfold tally, w1. simpl events.
    rewrite !copies_made_cons, !allocations_cons, !frees_cons. simpl.
    unfold c0, a0, f0. lia. }
  set (M := Z.to_nat (NUM_MODIFICATIONS - 1)).
  assert (Z.to_nat NUM_MODIFICATIONS = S M) as HM by (unfold M, NUM_MODIFICATIONS; lia).
  rewrite HM.
  set (prog := (_ ≫= _)).
  assert (total (λ w', bench_state d (heap w) 0 0 (s0 + 0) w' ∧
                       tally (c0 + 0) (a0 + 2 + 2 * 0) (f0 + 2 * 0) w')
                prog
                (λ _ w', freeing d (heap w) N (0 + N)
                           (s0 + (0 + Z.to_nat ARRAY_SIZE) + (0 + N) * S M) w' ∧
                         tally (c0 + (0 + N)) (a0 + 2 + 2 * (0 + N))
                               (f0 + 2 + 2 * (0 + N)) w')) as Hrun.
  { unfold prog.
    eapply total_bind;
      [apply (init_loop_tally rnd d (heap w) (c0 + 0) (a0 + 2 + 2 * 0) (f0 + 2 * 0) s0 0
                (Z.to_nat ARRAY_SIZE)); lia|].
    intros [].
    eapply total_bind.
    { apply (copy_loop_tally d (heap w) (c0 + 0) (a0 + 2 + 2 * 0) (f0 + 2 * 0)
               (s0 + (0 + Z.to_nat ARRAY_SIZE)) 0 N).
      unfold N, NUM_COPIES, INT_MAX. lia. }
    intros [].
    eapply total_bind.
    { eapply total_conseq;
        [apply (modify_copies_tally rnd Hrnd d (heap w) c0 (a0 + 2) (f0 + 2 * 0) (0 + N)
                  M (s0 + (0 + Z.to_nat ARRAY_SIZE)) 0 N)|..].
      - lia.
      - unfold N, NUM_COPIES, INT_MAX. lia.
      - intros w' [Hw' Ht']. split; [by rewrite Nat.mul_0_l, Nat.add_0_r|exact Ht'].
      - intros a w' Hw'. exact Hw'. }
    intros [].
    eapply total_bind; [apply free_original_tally|]. intros [].
    eapply total_conseq;
      [apply (free_copies_tally d (heap w) (c0 + (0 + N)) (a0 + 2 + 2 * (0 + N)) (f0 + 2)
                (0 + N) (s0 + (0 + Z.to_nat ARRAY_SIZE) + (0 + N) * S M) 0 N); lia|..].
    - intros w' [Hw' Ht']. split; [exact Hw'|].
      replace (f0 + 2 + 2 * 0)%nat with (f0 + 2 * 0 + 2)%nat by lia. exact Ht'.
    - intros a w' Hw'. exact Hw'. }
  destruct (Hrun w1 (conj Hst Ht)) as ([] & w' & Hdone & _ & Ht').
  exists w'. split; [exact Hdone|].
  replace (a0 + (2 + 2 * N))%nat with (a0 + 2 + 2 * (0 + N))%nat by lia.
  replace (f0 + (2 + 2 * N))%nat with (f0 + 2 + 2 * (0 + N))%nat by lia. exact Ht'.
Qed.

(** ** The storage calculation on the containers main creates *)

Lemma fold_layers_uniform (from L : Z) (cs : list Container) (t : Z) :
  Forall (λ c, ∀ t, add_layers from c (t mod SIZE_MODULUS) = Some ((t + L) mod SIZE_MODULUS)) cs →
  foldl (λ acc c, t ← acc; add_layers from c t) (Some (t mod SIZE_MODULUS)) cs =
  Some ((t + Z.of_nat (length cs) * L) mod SIZE_MODULUS).
Proof.
  intros Hcs. revert t. induction Hcs as [|c cs Hc _ IH]; intros t.
  - simpl. do 2 f_equal. lia.
  - simpl foldl. rewrite (Hc t). rewrite IH. do 2 f_equal. rewrite length_cons. lia.
Qed.

Lemma create_containers_no_cow_base (count : Z) :
  Forall (λ c, ∀ t, add_layers 0 c (t mod SIZE_MODULUS) = Some ((t + 120) mod SIZE_MODULUS))
         (create_containers_no_cow count) ∧
  Forall (λ c, ∀ t, add_layers 1 c (t mod SIZE_MODULUS) = Some ((t + 0) mod SIZE_MODULUS))
         (create_containers_no_cow count) ∧
  length (create_containers_no_cow count) = Z.to_nat count.
Proof.
  unfold create_containers_no_cow. split; [|split].
  - apply Forall_fmap, Forall_forall. intros i _ t. unfold add_layers. simpl.
    by rewrite size_t_add_mod.
  - apply Forall_fmap, Forall_forall. intros i _ t. unfold add_layers. simpl.
    by rewrite Z.add_0_r.
  - by rewrite length_fmap, length_seqZ.
Qed.

Lemma add_containers_all (from : Z) (cs : list Container) (count total : Z) :
  length cs = Z.to_nat count →
  add_containers from cs count total =
  foldl (λ acc c, t ← acc; add_layers from c t) (Some total) cs.
Proof.
  intros Hlen. destruct (decide (count ≤ 0)) as [Hneg|Hpos].
  - unfold add_containers. rewrite seqZ_nil by done.
    destruct cs; [done | simpl in Hlen; lia].
  - rewrite <- (Z2Nat.id count) at 1 by lia.
    rewrite add_containers_take by lia. by rewrite <- Hlen, firstn_all.
Qed.

Lemma storage_by_count (count : Z) :
  count ≤ INT_MAX →
  calculate_storage_no_cow (create_containers_no_cow count) count =
    Some (120 * Z.max 0 count) ∧
  calculate_storage_cow (create_containers_cow count create_ubuntu_layer) count
    create_ubuntu_layer = Some (120 + 3 * Z.max 0 count).
Proof.
  intros Hcount. unfold calculate_storage_no_cow, calculate_storage_cow.
  destruct (create_containers_no_cow_base count) as (Hall & _ & Hlen).
  destruct (create_containers_cow_layered count create_ubuntu_layer) as [Hcow Hlen'].
  rewrite !add_containers_all by done.
  assert (Z.of_nat (Z.to_nat count) = Z.max 0 count) as Hmax by lia.
  split.
  - change (Some 0) with (Some (0 mod SIZE_MODULUS)).
    rewrite (fold_layers_uniform 0 120 _ 0 Hall). rewrite Hlen, Hmax. f_equal.
    rewrite Z.mod_small; [lia|]. unfold SIZE_MODULUS, INT_MAX in *. lia.
  - change (size_mb create_ubuntu_layer) with (120 mod SIZE_MODULUS).
    rewrite (fold_layers_own create_ubuntu_layer 3 _ 120 Hcow). rewrite Hlen', Hmax. f_equal.
    rewrite Z.mod_small; [lia|]. unfold SIZE_MODULUS, INT_MAX in *. lia.
Qed.

(** ** Reads of the storage calculation *)

Lemma foldl_option_none {A : Type} (g : A → Z → option Z) (l : list A) :
  foldl (λ acc a, t ← acc; g a t) None l = None.
Proof. by induction l. Qed.

Lemma foldl_option_is_Some {A : Type} (g : A → Z → option Z) (ok : A → Prop)
    (l : list A) (t : Z) :
  (∀ a t, is_Some (g a t) ↔ ok a) →
  is_Some (foldl (λ acc a, t ← acc; g a t) (Some t) l) ↔ Forall ok l.
Proof.
  intros Hg. revert t. induction l as [|a l IH]; intros t.
  - split; [by constructor | by eexists].
  - simpl. rewrite Forall_cons. destruct (g a t) as [t'|] eqn:Hga.
    + rewrite IH. split; [|by intros [_ ?]].
      intros Hl. split; [|done]. apply (Hg a t). by rewrite Hga.
    + rewrite foldl_option_none. split.
      * by intros [? ?].
      * intros [Hok _]. apply (Hg a t) in Hok. rewrite Hga in Hok. by destruct Hok.
Qed.

Lemma add_layers_is_Some (from : Z) (c : Container) (t : Z) :
  is_Some (add_layers from c t) ↔
  ∀ j, from ≤ j < layer_count c → is_Some (layers c !! Z.to_nat j).
Proof.
  unfold add_layers.
  rewrite (foldl_option_is_Some
             (λ j t, l ← layers c !! Z.to_nat j; Some (size_t_add t (size_mb l)))
             (λ j, is_Some (layers c !! Z.to_nat j))).
  - rewrite Forall_seqZ. split; intros H j Hj; apply H; lia.
  - intros j t'. destruct (layers c !! Z.to_nat j) as [l|]; simpl.
    + split; intros _; by eexists.
    + split; intros [? ?]; discriminate.
Qed.

Lemma add_containers_is_Some (from : Z) (cs : list Container) (count t : Z) :
  is_Some (add_containers from cs count t) ↔
  ∀ i, 0 ≤ i < count →
    ∃ c, cs !! Z.to_nat i = Some c ∧
         ∀ j, from ≤ j < layer_count c → is_Some (layers c !! Z.to_nat j).
Proof.
  unfold add_containers.
  rewrite (foldl_option_is_Some
             (λ i t, c ← cs !! Z.to_nat i; add_layers from c t)
             (λ i, ∃ c, cs !! Z.to_nat i = Some c ∧
                        ∀ j, from ≤ j < layer_count c → is_Some (layers c !! Z.to_nat j))).
  - rewrite Forall_seqZ. split; intros H i Hi; apply H; lia.
  - intros i t'. destruct (cs !! Z.to_nat i) as [c|]; simpl.
    + rewrite add_layers_is_Some. split; [by exists c|]. by intros (c' & [= <-] & H).
    + split; [by intros [? ?] | by intros (c' & ? & _)].
Qed.

(** ** The identifiers sprintf writes *)

Lemma length_append (s1 s2 : string) :
  String.length (s1 +:+ s2) = (String.length s1 + String.length s2)%nat.
Proof. induction s1 as [|a s1 IH]; [done|]. simpl. by rewrite IH. Qed.

Lemma append_inj_l (s1 s2 t : string) : s1 +:+ t = s2 +:+ t → s1 = s2.
Proof.
  intros Heq. assert (String.length s1 = String.length s2) as Hlen.
  { apply (f_equal String.length) in Heq. rewrite !length_append in Heq. lia. }
  revert s2 Heq Hlen. induction s1 as [|a s1 IH]; intros [|b s2] Heq Hlen; try done.
  simpl in Heq, Hlen. injection Heq as -> Heq. f_equal. apply IH; [done | lia].
Qed.

Lemma pretty_N_go_length (k : nat) (x : N) (s : string) :
  (x < 10 ^ N.of_nat k)%N →
  (String.length (pretty_N_go x s) ≤ String.length s + k)%nat.
Proof.
  revert x s. induction k as [|k IH]; intros x s Hx.
  - assert (x = 0%N) as -> by (simpl in Hx; lia). rewrite pretty_N_go_0. lia.
  - destruct (decide (x = 0%N)) as [->|Hne]; [rewrite pretty_N_go_0; lia|].
    rewrite pretty_N_go_step by lia.
    etrans; [apply IH|simpl; lia].
    apply N.Div0.div_lt_upper_bound.
    rewrite Nat2N.inj_succ, N.pow_succ_r' in Hx. lia.
Qed.

(** An [int] printed with %d takes at most 11 characters. *)
Lemma pretty_int_length (z : Z) :
  INT_MIN ≤ z ≤ INT_MAX → (String.length (pretty z) ≤ 11)%nat.
Proof.
  intros Hz.
  assert (∀ p, (Z.pos p ≤ 2147483648) → (String.length (pretty (N.pos p)) ≤ 10)%nat) as Hpos.
  { intros p Hp. unfold pretty, pretty_N. rewrite decide_False by done.
    apply (pretty_N_go_length 10 (N.pos p) ""). simpl. lia. }
  destruct z as [|p|p].
  - simpl. lia.
  - change (pretty (Z.pos p)) with (pretty (N.pos p)).
    etrans; [apply Hpos; unfold INT_MAX in Hz; lia | lia].
  - change (pretty (Z.neg p)) with ("-" +:+ pretty (N.pos p)).
    rewrite length_append. simpl String.length.
    assert (String.length (pretty (N.pos p)) ≤ 10)%nat; [|lia].
    apply Hpos. unfold INT_MIN in Hz. lia.
Qed.

Lemma create_container_layer_fits (container_id : Z) :
  INT_MIN ≤ container_id ≤ INT_MAX →
  (String.length (id (create_container_layer container_id)) < 64)%nat ∧
  (String.length (content_hash (create_container_layer container_id)) < 64)%nat.
Proof.
  intros Hid. pose proof (pretty_int_length container_id Hid) as Hlen.
  unfold create_container_layer. simpl id. simpl content_hash.
  rewrite !length_append. simpl String.length. lia.
Qed.

Lemma container_ids_fit (count : Z) (f : Z → Container) :
  count ≤ INT_MAX →
  (∀ i, container_id (f i) = "container-" +:+ pretty (i + 1)) →
  Forall (λ c, (String.length (container_id c) < 64)%nat) (f <$> seqZ 0 count).
Proof.
  intros Hcount Hf. apply Forall_fmap, Forall_seqZ. intros i Hi. simpl. rewrite Hf.
  rewrite length_append. simpl String.length.
  pose proof (pretty_int_length (i + 1) ltac:(unfold INT_MIN, INT_MAX in *; lia)). lia.
Qed.

Lemma container_id_inj (i j : Z) :
  "container-" +:+ pretty (i + 1) = "container-" +:+ pretty (j + 1) → i = j.
Proof.
  intros Heq. apply (inj (String.append "container-")) in Heq.
  apply (inj pretty) in Heq. lia.
Qed.

Lemma create_container_layer_inj (i j : Z) :
  id (create_container_layer i) = id (create_container_layer j) ∨
  content_hash (create_container_layer i) = content_hash (create_container_layer j) →
  i = j.
Proof.
  unfold create_container_layer. simpl. intros [Heq|Heq].
  - apply (inj (String.append "container-")) in Heq.
    apply append_inj_l in Heq. by apply (inj pretty) in Heq.
  - apply (inj (String.append "sha256:container-")) in Heq.
    apply append_inj_l in Heq. by apply (inj pretty) in Heq.
Qed.

Lemma container_ids_distinct (count : Z) (f : Z → Container) :
  (∀ i, container_id (f i) = "container-" +:+ pretty (i + 1)) →
  NoDup (container_id <$> (f <$> seqZ 0 count)).
Proof.
  intros Hf. rewrite <- list_fmap_compose.
  apply NoDup_fmap_2_strong; [|apply NoDup_seqZ].
  intros i j _ _ Heq. simpl in Heq. rewrite !Hf in Heq. by apply container_id_inj.
Qed.

(** ** What the operations and the benchmarks ask of the allocator *)

(** X6: what each operation may do to the heap's bookkeeping, however it
    ends (return, undefined behaviour or exit).  cow_copy adds no event: it
    never allocates, copies or frees.  cow_free only calls free.
    cow_ensure_unique only calls malloc and memcpy, so it frees nothing.
    cow_create only calls malloc.  A store through a handle logs that
    store and nothing else. *)
Theorem operations_footprint (src : cow_array) (x : nat) (sz index v : Z) :
  emits no_event (cow_copy src) ∧
  emits is_free (cow_free x) ∧
  emits (λ e, is_request e || is_memcpy e) (cow_ensure_unique x) ∧
  emits is_request (cow_create sz) ∧
  emits is_write (write_elem x index v).
Proof.
  split; [apply emits_cow_copy|]. split; [apply emits_cow_free|].
  split; [apply emits_cow_ensure_unique|]. split; [apply emits_cow_create|].
  apply emits_write_elem.
Qed.

(** X7: benchmark_cow copies every payload in full.  When every allocation
    succeeds and rand is not negative, it returns after NUM_COPIES calls of
    memcpy, one per copy, since each copy is modified; it has allocated
    2 + 2 * NUM_COPIES blocks, a payload and a counter for the original
    and for every copy, and passed as many blocks to free. *)
Theorem benchmark_cow_copies_every_payload (rnd : nat → Z) (w : world) :
  wf w → oracle w = [] → (∀ n, 0 ≤ rnd n) →
  ∃ w', benchmark_cow rnd w = Done tt w' ∧
        copies_made (events w') = (copies_made (events w) + Z.to_nat NUM_COPIES)%nat ∧
        allocations (events w') =
          (allocations (events w) + (2 + 2 * Z.to_nat NUM_COPIES))%nat ∧
        frees (events w') = (frees (events w) + (2 + 2 * Z.to_nat NUM_COPIES))%nat.
Proof.
  intros Hwf Ho Hrnd.
  destruct (benchmark_cow_tally rnd w Hwf Ho Hrnd) as (w' & Hrun & Hc & Ha & Hf).
  exists w'. split; [exact Hrun|]. split; [exact Hc|]. split; [exact Ha | exact Hf].
Qed.

Lemma benchmark_cow_copies_every_payload_witness :
  wf (init_world []) ∧
  ∃ w', benchmark_cow (λ _, 0) (init_world []) = Done tt w' ∧
        copies_made (events w') = 50%nat ∧ allocations (events w') = 102%nat ∧
        frees (events w') = 102%nat.
Proof.
  split; [apply wf_init|].
  destruct (benchmark_cow_copies_every_payload (λ _, 0) (init_world []) (wf_init [])
              eq_refl (λ _, Z.le_refl 0)) as (w' & Hrun & Hc & Ha & Hf).
  exists w'. split; [exact Hrun|]. split; [exact Hc|]. split; [exact Ha | exact Hf].
Defined.

(** X8: benchmark_traditional has no undefined behaviour and leaks nothing,
    whichever of its allocations fail.  For every rand sequence that is
    not negative it returns or calls exit, exit only with code 1, and
    either way the heap is the one it started with and it has passed to
    free as many blocks as it allocated: on a failed allocation it frees
    the original and the copies made so far before it exits. *)
Theorem benchmark_traditional_never_undefined (rnd : nat → Z) (w : world) :
  wf w → (∀ n, 0 ≤ rnd n) →
  (∀ w', benchmark_traditional rnd w ≠ Fault w') ∧
  (∀ c w', benchmark_traditional rnd w = Exit c w' → c = 1) ∧
  heap (final_world (benchmark_traditional rnd w)) = heap w ∧
  (allocations (events (final_world (benchmark_traditional rnd w))) + frees (events w) =
   allocations (events w) + frees (events (final_world (benchmark_traditional rnd w))))%nat.
Proof.
  intros Hwf Hrnd. pose proof (benchmark_traditional_outcome rnd w Hwf Hrnd) as H.
  cbv zeta in H. destruct (benchmark_traditional rnd w) as [[] w'|w'|c w'].
  - destruct H as (_ & Hheap & _ & Ha & Hf). split; [done|]. split; [done|].
    split; [exact Hheap|]. simpl. rewrite Ha, Hf. lia.
  - done.
  - destruct H as (-> & Hheap & _ & Hbal). split; [done|].
    split; [by intros c w'' [= <- _]|]. split; [exact Hheap | exact Hbal].
Qed.

Lemma benchmark_traditional_never_undefined_witness :
  wf (init_world [true; true; false]) ∧
  (∀ w', benchmark_traditional (λ _, 0) (init_world [true; true; false]) ≠ Fault w') ∧
  heap (final_world (benchmark_traditional (λ _, 0) (init_world [true; true; false]))) = ∅.
Proof.
  split; [apply wf_init|].
  destruct (benchmark_traditional_never_undefined (λ _, 0) (init_world [true; true; false])
              (wf_init _) (λ _, Z.le_refl 0)) as (Hsafe & _ & Hheap & _).
  split; [exact Hsafe | exact Hheap].
Defined.

(** X9: benchmark_traditional returns exactly when its NUM_COPIES + 1
    allocations succeed, and then it has run memcpy NUM_COPIES times and
    allocated and freed NUM_COPIES + 1 blocks; when one of them fails it
    calls exit(1). *)
Theorem benchmark_traditional_outcome_by_allocations (rnd : nat → Z) (w : world) :
  wf w → (∀ n, 0 ≤ rnd n) →
  (allocs_ok (S (Z.to_nat NUM_COPIES)) w = true →
     ∃ w', benchmark_traditional rnd w = Done tt w' ∧
           copies_made (events w') = (copies_made (events w) + Z.to_nat NUM_COPIES)%nat ∧
           allocations (events w') = (allocations (events w) + S (Z.to_nat NUM_COPIES))%nat ∧
           frees (events w') = (frees (events w) + S (Z.to_nat NUM_COPIES))%nat) ∧
  (allocs_ok (S (Z.to_nat NUM_COPIES)) w = false →
     ∃ w', benchmark_traditional rnd w = Exit 1 w').
Proof.
  intros Hwf Hrnd. pose proof (benchmark_traditional_outcome rnd w Hwf Hrnd) as H.
  cbv zeta in H. destruct (benchmark_traditional rnd w) as [[] w'|w'|c w']; [| done |].
  - destruct H as (Hok & _ & Hc & Ha & Hf). split; [|by rewrite Hok].
    intros _. exists w'. split; [done|]. split; [exact Hc|]. split; [exact Ha | exact Hf].
  - destruct H as (-> & _ & Hok & _). split; [by rewrite Hok|].
    intros _. by exists w'.
Qed.

Lemma benchmark_traditional_outcome_by_allocations_witness :
  wf (init_world []) ∧
  (∃ w', benchmark_traditional (λ _, 0) (init_world []) = Done tt w' ∧
         copies_made (events w') = 50%nat ∧ allocations (events w') = 51%nat) ∧
  (∃ w', benchmark_traditional (λ _, 0) (init_world [true; true; false]) = Exit 1 w').
Proof.
  split; [apply wf_init|]. split.
  - destruct (benchmark_traditional_outcome_by_allocations (λ _, 0) (init_world [])
                (wf_init _) (λ _, Z.le_refl 0)) as [Hok _].
    destruct (Hok eq_refl) as (w' & Hrun & Hc & Ha & _).
    exists w'. split; [exact Hrun|]. split; [exact Hc | exact Ha].
  - destruct (benchmark_traditional_outcome_by_allocations (λ _, 0)
                (init_world [true; true; false]) (wf_init _) (λ _, Z.le_refl 0)) as [_ Hfail].
    exact (Hfail eq_refl).
Defined.

(** ** The containers main creates *)

(** X10: the totals of the two calculations on the containers the two
    create functions build, for every count an [int] can hold:
    calculate_storage_no_cow returns 120 for each container, and
    calculate_storage_cow returns 120 once and 3 for each container; for a
    count that is not positive the loops do not run and the results are 0
    and 120.  So the total with sharing is the smaller one exactly from two
    containers on. *)
Theorem storage_of_created_containers (count : Z) :
  count ≤ INT_MAX →
  calculate_storage_no_cow (create_containers_no_cow count) count =
    Some (120 * Z.max 0 count) ∧
  calculate_storage_cow (create_containers_cow count create_ubuntu_layer) count
    create_ubuntu_layer = Some (120 + 3 * Z.max 0 count) ∧
  (∀ a b,
     calculate_storage_no_cow (create_containers_no_cow count) count = Some a →
     calculate_storage_cow (create_containers_cow count create_ubuntu_layer) count
       create_ubuntu_layer = Some b →
     (b < a ↔ 2 ≤ count)).
Proof.
  intros Hcount. destruct (storage_by_count count Hcount) as [Hno Hcow].
  split; [exact Hno|]. split; [exact Hcow|].
  intros a b Ha Hb. rewrite Hno in Ha. rewrite Hcow in Hb.
  injection Ha as <-. injection Hb as <-. lia.
Qed.

Lemma storage_of_created_containers_witness :
  10 ≤ INT_MAX ∧
  calculate_storage_no_cow (create_containers_no_cow 10) 10 = Some 1200 ∧
  calculate_storage_cow (create_containers_cow 10 create_ubuntu_layer) 10
    create_ubuntu_layer = Some 150.
Proof.
  assert (10 ≤ INT_MAX) as H by (unfold INT_MAX; lia).
  split; [exact H|].
  destruct (storage_of_created_containers 10 H) as (Hno & Hcow & _).
  split; [exact Hno | exact Hcow].
Defined.

(** X11: which reads the two calculations make.  calculate_storage_no_cow
    stays inside its arrays, and returns a total, exactly when the array
    of containers has an entry for every index below count and every such
    container has a layer for every index below its layer_count;
    calculate_storage_cow needs the same of the layers from index 1 on and
    never reads layer 0.  Otherwise the loop reads past an array. *)
Theorem storage_calculation_reads (cs : list Container) (count : Z) (shared : Layer) :
  (is_Some (calculate_storage_no_cow cs count) ↔
   ∀ i, 0 ≤ i < count →
     ∃ c, cs !! Z.to_nat i = Some c ∧
          ∀ j, 0 ≤ j < layer_count c → is_Some (layers c !! Z.to_nat j)) ∧
  (is_Some (calculate_storage_cow cs count shared) ↔
   ∀ i, 0 ≤ i < count →
     ∃ c, cs !! Z.to_nat i = Some c ∧
          ∀ j, 1 ≤ j < layer_count c → is_Some (layers c !! Z.to_nat j)).
Proof.
  split; [apply (add_containers_is_Some 0) | apply (add_containers_is_Some 1)].
Qed.

(** X12: the identifiers fit their buffers.  For every container number an
    [int] can hold, the id and the content hash create_container_layer
    prints are shorter than the 64 bytes of their fields, and so are the
    ids of the containers the two create functions build, for every count
    an [int] can hold; sprintf does not write past a field. *)
Theorem identifiers_fit_their_buffers (count : Z) (shared : Layer) :
  count ≤ INT_MAX →
  (∀ i, INT_MIN ≤ i ≤ INT_MAX →
     (String.length (id (create_container_layer i)) < 64)%nat ∧
     (String.length (content_hash (create_container_layer i)) < 64)%nat) ∧
  Forall (λ c, (String.length (container_id c) < 64)%nat) (create_containers_no_cow count) ∧
  Forall (λ c, (String.length (container_id c) < 64)%nat)
         (create_containers_cow count shared) ∧
  (String.length (id create_ubuntu_layer) < 64)%nat ∧
  (String.length (content_hash create_ubuntu_layer) < 64)%nat.
Proof.
  intros Hcount. split; [intros i Hi; by apply create_container_layer_fits|].
  split; [by apply container_ids_fit|]. split; [by apply container_ids_fit|].
  split; simpl; lia.
Qed.

Lemma identifiers_fit_their_buffers_witness :
  10 ≤ INT_MAX ∧
  Forall (λ c, (String.length (container_id c) < 64)%nat)
         (create_containers_cow 10 create_ubuntu_layer) ∧
  (String.length (id (create_container_layer INT_MIN)) < 64)%nat.
Proof.
  assert (10 ≤ INT_MAX) as H by (unfold INT_MAX; lia).
  split; [exact H|].
  destruct (identifiers_fit_their_buffers 10 create_ubuntu_layer H) as (Hlayer & _ & Hcow & _).
  split; [exact Hcow|]. apply Hlayer. unfold INT_MIN, INT_MAX. lia.
Defined.

(** X13: identifiers are unique.  The containers either create function
    builds have pairwise different ids, whatever the count, and
    create_container_layer gives different container numbers different
    ids and different content hashes. *)
Theorem identifiers_are_distinct (count : Z) (shared : Layer) :
  NoDup (container_id <$> create_containers_no_cow count) ∧
  NoDup (container_id <$> create_containers_cow count shared) ∧
  ∀ i j, i ≠ j →
    id (create_container_layer i) ≠ id (create_container_layer j) ∧
    content_hash (create_container_layer i) ≠ content_hash (create_container_layer j).
Proof.
  split; [by apply container_ids_distinct|]. split; [by apply container_ids_distinct|].
  intros i j Hne. split; intros Heq; apply Hne, create_container_layer_inj; auto.
Qed.

(** ** The store of containerStorage.c *)

Lemma st_bind_unfold {A B : Type} (m : Mem.St A) (k : A → Mem.St B) (s : Mem.store) :
  (m ≫= k) s = match m s with Some (a, s') => k a s' | None => None end.
Proof. reflexivity. Qed.

Lemma st_bind_some {A B : Type} (m : Mem.St A) (k : A → Mem.St B) (s s' : Mem.store) (a : A) :
  m s = Some (a, s') → (m ≫= k) s = k a s'.
Proof. intros Hm. by rewrite st_bind_unfold, Hm. Qed.

Lemma st_bind_none {A B : Type} (m : Mem.St A) (k : A → Mem.St B) (s : Mem.store) :
  m s = None → (m ≫= k) s = None.
Proof. intros Hm. by rewrite st_bind_unfold, Hm. Qed.

Lemma st_ret_unfold {A : Type} (a : A) (s : Mem.store) : mret (M := Mem.St) a s = Some (a, s).
Proof. reflexivity. Qed.

Lemma mem_malloc_ok (o : Mem.object) (s : Mem.store) :
  Mem.plan s = [] →
  Mem.malloc o s =
  Some (Addr (Mem.next_object s),
        Mem.Store (<[Mem.next_object s := o]> (Mem.objects s))
                  (Pos.succ (Mem.next_object s)) []).
Proof. intros Hp. unfold Mem.malloc. by rewrite Hp. Qed.

Lemma mem_load_ok (b : positive) (o : Mem.object) (s : Mem.store) :
  Mem.objects s !! b = Some o → Mem.load (Addr b) s = Some (o, s).
Proof. intros Hb. unfold Mem.load. by rewrite Hb. Qed.

Lemma mem_store_ok (b : positive) (o o' : Mem.object) (s : Mem.store) :
  Mem.objects s !! b = Some o →
  Mem.store_obj (Addr b) o' s =
  Some (tt, Mem.Store (<[b := o']> (Mem.objects s)) (Mem.next_object s) (Mem.plan s)).
Proof. intros Hb. unfold Mem.store_obj. by rewrite Hb. Qed.

Lemma mem_free_ok (b : positive) (o : Mem.object) (s : Mem.store) :
  Mem.objects s !! b = Some o →
  Mem.free (Addr b) s =
  Some (tt, Mem.Store (delete b (Mem.objects s)) (Mem.next_object s) (Mem.plan s)).
Proof. intros Hb. unfold Mem.free. by rewrite Hb. Qed.

Lemma mem_free_gone (b : positive) (s : Mem.store) :
  Mem.objects s !! b = None → Mem.free (Addr b) s = None.
Proof. intros Hb. unfold Mem.free. by rewrite Hb. Qed.

Lemma mem_entry_ok (a : positive) (l : list (option ptr)) (i : nat) (p : ptr) (s : Mem.store) :
  Mem.objects s !! a = Some (Mem.OPtrs l) → l !! i = Some (Some p) →
  Mem.entry (Addr a) (Z.of_nat i) s = Some (p, s).
Proof.
  intros Ha Hi. unfold Mem.entry. rewrite (st_bind_some _ _ _ _ _ (mem_load_ok _ _ _ Ha)).
  rewrite (proj2 (Z.leb_le 0 (Z.of_nat i))) by lia. by rewrite Nat2Z.id, Hi.
Qed.

Lemma mem_set_entry_ok (a : positive) (l : list (option ptr)) (i : nat) (p : ptr)
    (s : Mem.store) :
  Mem.objects s !! a = Some (Mem.OPtrs l) → (i < length l)%nat →
  Mem.set_entry (Addr a) (Z.of_nat i) p s =
  Some (tt, Mem.Store (<[a := Mem.OPtrs (<[i := Some p]> l)]> (Mem.objects s))
                      (Mem.next_object s) (Mem.plan s)).
Proof.
  intros Ha Hi. unfold Mem.set_entry.
  rewrite (st_bind_some _ _ _ _ _ (mem_load_ok _ _ _ Ha)).
  rewrite (proj2 (Z.leb_le 0 (Z.of_nat i))) by lia. rewrite Nat2Z.id.
  rewrite bool_decide_eq_true_2 by done. simpl. by apply mem_store_ok with (Mem.OPtrs l).
Qed.

Lemma mem_get_container_ok (c : positive) (co : Mem.container_obj) (s : Mem.store) :
  Mem.objects s !! c = Some (Mem.OContainer co) →
  Mem.get_container (Addr c) s = Some (co, s).
Proof.
  intros Hc. unfold Mem.get_container.
  by rewrite (st_bind_some _ _ _ _ _ (mem_load_ok _ _ _ Hc)).
Qed.

Lemma mem_get_layer_count_ok (c : positive) (co : Mem.container_obj) (n : Z) (s : Mem.store) :
  Mem.objects s !! c = Some (Mem.OContainer co) → Mem.co_layer_count co = Some n →
  Mem.get_layer_count (Addr c) s = Some (n, s).
Proof.
  intros Hc Hn. unfold Mem.get_layer_count.
  rewrite (st_bind_some _ _ _ _ _ (mem_get_container_ok _ _ _ Hc)). by rewrite Hn.
Qed.

Lemma mem_get_layers_ok (c : positive) (co : Mem.container_obj) (a : ptr) (s : Mem.store) :
  Mem.objects s !! c = Some (Mem.OContainer co) → Mem.co_layers co = Some a →
  Mem.get_layers (Addr c) s = Some (a, s).
Proof.
  intros Hc Ha. unfold Mem.get_layers.
  rewrite (st_bind_some _ _ _ _ _ (mem_get_container_ok _ _ _ Hc)). by rewrite Ha.
Qed.

Lemma mem_set_id_ok (c : positive) (co : Mem.container_obj) (x : string) (s : Mem.store) :
  Mem.objects s !! c = Some (Mem.OContainer co) →
  Mem.set_id (Addr c) x s =
  Some (tt, Mem.Store (<[c := Mem.OContainer (Mem.ContainerObj (Some x) (Mem.co_layers co)
                                                (Mem.co_layer_count co))]> (Mem.objects s))
                      (Mem.next_object s) (Mem.plan s)).
Proof.
  intros Hc. unfold Mem.set_id.
  rewrite (st_bind_some _ _ _ _ _ (mem_get_container_ok _ _ _ Hc)).
  by apply mem_store_ok with (Mem.OContainer co).
Qed.

Lemma mem_set_layer_count_ok (c : positive) (co : Mem.container_obj) (n : Z) (s : Mem.store) :
  Mem.objects s !! c = Some (Mem.OContainer co) →
  Mem.set_layer_count (Addr c) n s =
  Some (tt, Mem.Store (<[c := Mem.OContainer (Mem.ContainerObj (Mem.co_id co) (Mem.co_layers co)
                                                (Some n))]> (Mem.objects s))
                      (Mem.next_object s) (Mem.plan s)).
Proof.
  intros Hc. unfold Mem.set_layer_count.
  rewrite (st_bind_some _ _ _ _ _ (mem_get_container_ok _ _ _ Hc)).
  by apply mem_store_ok with (Mem.OContainer co).
Qed.

Lemma mem_set_layers_ok (c : positive) (co : Mem.container_obj) (a : ptr) (s : Mem.store) :
  Mem.objects s !! c = Some (Mem.OContainer co) →
  Mem.set_layers (Addr c) a s =
  Some (tt, Mem.Store (<[c := Mem.OContainer (Mem.ContainerObj (Mem.co_id co) (Some a)
                                                (Mem.co_layer_count co))]> (Mem.objects s))
                      (Mem.next_object s) (Mem.plan s)).
Proof.
  intros Hc. unfold Mem.set_layers.
  rewrite (st_bind_some _ _ _ _ _ (mem_get_container_ok _ _ _ Hc)).
  by apply mem_store_ok with (Mem.OContainer co).
Qed.

Lemma mem_get_size_mb_ok (b : positive) (ly : Layer) (s : Mem.store) :
  Mem.objects s !! b = Some (Mem.OLayer (Some ly)) →
  Mem.get_size_mb (Addr b) s = Some (size_mb ly, s).
Proof.
  intros Hb. unfold Mem.get_size_mb.
  by rewrite (st_bind_some _ _ _ _ _ (mem_load_ok _ _ _ Hb)).
Qed.

Lemma mem_create_layer_ok (ly : Layer) (s : Mem.store) :
  Mem.plan s = [] →
  (layer ← Mem.malloc (Mem.OLayer None);
   Mem.store_obj layer (Mem.OLayer (Some ly));; mret layer) s =
  Some (Addr (Mem.next_object s),
        Mem.Store (<[Mem.next_object s := Mem.OLayer (Some ly)]> (Mem.objects s))
                  (Pos.succ (Mem.next_object s)) []).
Proof.
  intros Hp. rewrite (st_bind_some _ _ _ _ _ (mem_malloc_ok _ s Hp)).
  erewrite st_bind_some; [|apply mem_store_ok with (Mem.OLayer None); apply lookup_insert_eq].
  simpl. by rewrite insert_insert_eq.
Qed.

Lemma st_total_bind {A B : Type} (P : Mem.store → Prop) (m : Mem.St A)
    (Q : A → Mem.store → Prop) (k : A → Mem.St B) (R : B → Mem.store → Prop) :
  st_total P m Q → (∀ a, st_total (Q a) (k a) R) → st_total P (m ≫= k) R.
Proof.
  intros Hm Hk s HP. destruct (Hm s HP) as (a & s1 & Hrun & HQ).
  destruct (Hk a s1 HQ) as (b & s2 & Hrun2 & HR).
  exists b, s2. split; [|done]. by rewrite (st_bind_some _ _ _ _ _ Hrun).
Qed.

Lemma st_total_ret {A : Type} (P : Mem.store → Prop) (a : A) :
  st_total P (mret a) (λ _, P).
Proof. intros s HP. by exists a, s. Qed.

Lemma st_total_for_loop (Inv : nat → Mem.store → Prop) (start count : nat)
    (body : nat → Mem.St unit) :
  (∀ i, (start ≤ i < start + count)%nat → st_total (Inv i) (body i) (λ _, Inv (S i))) →
  st_total (Inv start) (Mem.for_loop start count body) (λ _, Inv (start + count)%nat).
Proof.
  revert start. induction count as [|k IH]; intros start Hbody.
  - rewrite Nat.add_0_r. apply st_total_ret.
  - simpl Mem.for_loop. eapply st_total_bind; [apply Hbody; lia|]. intros [].
    rewrite <- Nat.add_succ_comm. apply IH. intros i Hi. apply Hbody. lia.
Qed.

Lemma slot_next (b0 : positive) (i : nat) :
  Pos.succ (slot b0 i 0) = slot b0 i 1 ∧ Pos.succ (slot b0 i 1) = slot b0 i 2 ∧
  Pos.succ (slot b0 i 2) = slot b0 (S i) 0 ∧ slot b0 0 0 = b0.
Proof. unfold slot. lia. Qed.

Lemma slot_inj (b0 : positive) (i k i' k' : nat) :
  (k < 3)%nat → (k' < 3)%nat → slot b0 i k = slot b0 i' k' → i = i' ∧ k = k'.
Proof. unfold slot. lia. Qed.

Section Created.
Variable arr b0 : positive.
Variable l0 : list (option ptr).
Variable O : gmap positive Mem.object.
Variable n : nat.
Hypothesis arr_old : (arr < b0)%positive.
Hypothesis arr_len : (n ≤ length l0)%nat.

(** The state of a loop that creates containers, before iteration [k]. *)
Local Abbreviation creating shared own k := (λ s : Mem.store,
  store_ok s ∧ Mem.next_object s = slot b0 k 0 ∧
  (∀ b, (b < b0)%positive → b ≠ arr → Mem.objects s !! b = O !! b) ∧
  ∃ l, length l = length l0 ∧ containers_at arr b0 l shared own n 0 k s).

Lemma create_no_cow_body (k : nat) :
  (k < n)%nat →
  st_total (creating [] (λ _, create_ubuntu_layer) k)
    (let i := Z.of_nat k in
     c ← Mem.malloc (Mem.OContainer (Mem.ContainerObj None None None));
     Mem.set_entry (Addr arr) i c;;
     c ← Mem.entry (Addr arr) i;
     Mem.set_id c ("container-" +:+ pretty (i + 1));;
     c ← Mem.entry (Addr arr) i;
     Mem.set_layer_count c 1;;
     c ← Mem.entry (Addr arr) i;
     n ← Mem.get_layer_count c;
     a ← Mem.malloc (Mem.pointers n);
     c ← Mem.entry (Addr arr) i;
     Mem.set_layers c a;;
     l ← Mem.create_ubuntu_layer;
     c ← Mem.entry (Addr arr) i;
     a ← Mem.get_layers c;
     Mem.set_entry a 0 l)
    (λ _, creating [] (λ _, create_ubuntu_layer) (S k)).
Proof.
  intros Hk s ([Hwf Hplan] & Hnext & Hframe & l & Hlen & Harr & Hhave & Honly).
  cbv zeta. set (b := Mem.next_object s) in *.
  assert (arr ≠ b ∧ (arr < b)%positive) as [Hab Hab'] by (rewrite Hnext; unfold slot; lia).
  assert (b0 ≤ b)%positive as Hb0 by (rewrite Hnext; unfold slot; lia).
  rewrite (st_bind_some _ _ _ _ _ (mem_malloc_ok _ s Hplan)). fold b.
  erewrite st_bind_some; [|eapply mem_set_entry_ok; [lk | lia]].
  erewrite st_bind_some;
    [|eapply mem_entry_ok; [lk | first [apply list_lookup_insert_eq; lia | reflexivity]]].
  erewrite st_bind_some; [|eapply mem_set_id_ok; lk].
  erewrite st_bind_some;
    [|eapply mem_entry_ok; [lk | first [apply list_lookup_insert_eq; lia | reflexivity]]].
  erewrite st_bind_some; [|eapply mem_set_layer_count_ok; lk].
  erewrite st_bind_some;
    [|eapply mem_entry_ok; [lk | first [apply list_lookup_insert_eq; lia | reflexivity]]].
  erewrite st_bind_some; [|eapply mem_get_layer_count_ok; [lk | reflexivity]].
  erewrite st_bind_some; [|by apply mem_malloc_ok].
  erewrite st_bind_some;
    [|eapply mem_entry_ok; [lk | first [apply list_lookup_insert_eq; lia | reflexivity]]].
  erewrite st_bind_some; [|eapply mem_set_layers_ok; lk].
  erewrite st_bind_some; [|by apply mem_create_layer_ok].
  erewrite st_bind_some;
    [|eapply mem_entry_ok; [lk | first [apply list_lookup_insert_eq; lia | reflexivity]]].
  erewrite st_bind_some; [|eapply mem_get_layers_ok; [lk | reflexivity]].
  simpl Mem.next_object. simpl Mem.co_id. simpl Mem.co_layers. simpl Mem.co_layer_count.
  eexists tt, _. split.
  { apply (mem_set_entry_ok _ [None] 0); [lk | simpl; lia]. }
  destruct (slot_next b0 k) as (Hs1 & Hs2 & Hs3 & _). rewrite <- Hnext in Hs1.
  rewrite <- Hs1 in Hs2. rewrite <- Hs2 in Hs3.
  split; [|split; [|split]].
  - split; [|done]. intros x Hx. simpl in *.
    repeat (rewrite lookup_insert_is_Some in Hx; destruct Hx as [<-|[_ Hx]]; [lia|]).
    specialize (Hwf x Hx). lia.
  - simpl. by rewrite <- Hs3.
  - intros x Hx Hxa. simpl. rewrite !lookup_insert_ne by lia. by apply Hframe.
  - exists (<[k := Some (Addr b)]> l). split; [by rewrite length_insert|].
    split; [lk|]. split.
    + intros i Hi. destruct (decide (i = k)) as [->|Hne].
      * rewrite <- Hs2, <- Hs1, <- Hnext. fold b.
        split; [apply list_lookup_insert_eq; lia|]. split; [lk|]. split; lk.
      * destruct (Hhave i ltac:(lia)) as (H1 & H2 & H3 & H4).
        assert (slot b0 i 0 ≠ arr ∧ slot b0 i 1 ≠ arr ∧ slot b0 i 2 ≠ arr) as (? & ? & ?)
          by (unfold slot; lia).
        assert ((slot b0 i 2 < b)%positive) by (rewrite Hnext; unfold slot; lia).
        assert ((slot b0 i 1 < b)%positive) by (rewrite Hnext; unfold slot; lia).
        assert ((slot b0 i 0 < b)%positive) by (rewrite Hnext; unfold slot; lia).
        split; [by rewrite list_lookup_insert_ne|].
        simpl Mem.objects. rewrite !lookup_insert_ne by lia. done.
    + intros x Hx1 Hx2 Hx. simpl in Hx.
      assert (x = arr ∨ x = b ∨ x = Pos.succ b ∨ x = Pos.succ (Pos.succ b) ∨
              is_Some (Mem.objects s !! x)) as Hcases.
      { repeat (rewrite lookup_insert_is_Some in Hx; destruct Hx as [<-|[_ Hx]]; [tauto|]).
        tauto. }
      destruct Hcases as [->|[->|[->|[->|Hold]]]]; [lia| | | |].
      * exists k, 0%nat. split; [lia|]. split; [lia|]. done.
      * exists k, 1%nat. split; [lia|]. split; [lia|]. by rewrite <- Hs1.
      * exists k, 2%nat. split; [lia|]. split; [lia|]. by rewrite <- Hs2.
      * destruct (Honly x Hx1 Hx2 Hold) as (i & j & Hi & Hj & ->). exists i, j.
        split; [lia | done].
Qed.

Lemma create_cow_body (shared_ubuntu : ptr) (k : nat) :
  (k < n)%nat →
  st_total (creating [Some shared_ubuntu] own_layer k)
    (let i := Z.of_nat k in
     c ← Mem.malloc (Mem.OContainer (Mem.ContainerObj None None None));
     Mem.set_entry (Addr arr) i c;;
     c ← Mem.entry (Addr arr) i;
     Mem.set_id c ("container-" +:+ pretty (i + 1));;
     c ← Mem.entry (Addr arr) i;
     Mem.set_layer_count c 2;;
     c ← Mem.entry (Addr arr) i;
     n ← Mem.get_layer_count c;
     a ← Mem.malloc (Mem.pointers n);
     c ← Mem.entry (Addr arr) i;
     Mem.set_layers c a;;
     c ← Mem.entry (Addr arr) i;
     a ← Mem.get_layers c;
     Mem.set_entry a 0 shared_ubuntu;;
     l ← Mem.create_container_layer (i + 1);
     c ← Mem.entry (Addr arr) i;
     a ← Mem.get_layers c;
     Mem.set_entry a 1 l)
    (λ _, creating [Some shared_ubuntu] own_layer (S k)).
Proof.
  intros Hk s ([Hwf Hplan] & Hnext & Hframe & l & Hlen & Harr & Hhave & Honly).
  cbv zeta. set (b := Mem.next_object s) in *.
  assert (arr ≠ b ∧ (arr < b)%positive) as [Hab Hab'] by (rewrite Hnext; unfold slot; lia).
  assert (b0 ≤ b)%positive as Hb0 by (rewrite Hnext; unfold slot; lia).
  rewrite (st_bind_some _ _ _ _ _ (mem_malloc_ok _ s Hplan)). fold b.
  erewrite st_bind_some; [|eapply mem_set_entry_ok; [lk | lia]].
  erewrite st_bind_some;
    [|eapply mem_entry_ok; [lk | first [apply list_lookup_insert_eq; lia | reflexivity]]].
  erewrite st_bind_some; [|eapply mem_set_id_ok; lk].
  erewrite st_bind_some;
    [|eapply mem_entry_ok; [lk | first [apply list_lookup_insert_eq; lia | reflexivity]]].
  erewrite st_bind_some; [|eapply mem_set_layer_count_ok; lk].
  erewrite st_bind_some;
    [|eapply mem_entry_ok; [lk | first [apply list_lookup_insert_eq; lia | reflexivity]]].
  erewrite st_bind_some; [|eapply mem_get_layer_count_ok; [lk | reflexivity]].
  erewrite st_bind_some; [|by apply mem_malloc_ok].
  erewrite st_bind_some;
    [|eapply mem_entry_ok; [lk | first [apply list_lookup_insert_eq; lia | reflexivity]]].
  erewrite st_bind_some; [|eapply mem_set_layers_ok; lk].
  erewrite st_bind_some;
    [|eapply mem_entry_ok; [lk | first [apply list_lookup_insert_eq; lia | reflexivity]]].
  erewrite st_bind_some; [|eapply mem_get_layers_ok; [lk | reflexivity]].
  erewrite st_bind_some;
    [|apply (mem_set_entry_ok _ [None; None] 0); [lk | simpl; lia]].
  erewrite st_bind_some; [|by apply mem_create_layer_ok].
  erewrite st_bind_some;
    [|eapply mem_entry_ok; [lk | first [apply list_lookup_insert_eq; lia | reflexivity]]].
  erewrite st_bind_some; [|eapply mem_get_layers_ok; [lk | reflexivity]].
  simpl Mem.next_object. simpl Mem.co_id. simpl Mem.co_layers. simpl Mem.co_layer_count.
  eexists tt, _. split.
  { apply (mem_set_entry_ok _ [Some shared_ubuntu; None] 1); [lk | simpl; lia]. }
  destruct (slot_next b0 k) as (Hs1 & Hs2 & Hs3 & _). rewrite <- Hnext in Hs1.
  rewrite <- Hs1 in Hs2. rewrite <- Hs2 in Hs3.
  split; [|split; [|split]].
  - split; [|done]. intros x Hx. simpl in *.
    repeat (rewrite lookup_insert_is_Some in Hx; destruct Hx as [<-|[_ Hx]]; [lia|]).
    specialize (Hwf x Hx). lia.
  - simpl. by rewrite <- Hs3.
  - intros x Hx Hxa. simpl. rewrite !lookup_insert_ne by lia. by apply Hframe.
  - exists (<[k := Some (Addr b)]> l). split; [by rewrite length_insert|].
    split; [lk|]. split.
    + intros i Hi. destruct (decide (i = k)) as [->|Hne].
      * rewrite <- Hs2, <- Hs1, <- Hnext. fold b.
        split; [apply list_lookup_insert_eq; lia|]. split; [lk|]. split; lk.
      * destruct (Hhave i ltac:(lia)) as (H1 & H2 & H3 & H4).
        assert (slot b0 i 0 ≠ arr ∧ slot b0 i 1 ≠ arr ∧ slot b0 i 2 ≠ arr) as (? & ? & ?)
          by (unfold slot; lia).
        assert ((slot b0 i 2 < b)%positive) by (rewrite Hnext; unfold slot; lia).
        assert ((slot b0 i 1 < b)%positive) by (rewrite Hnext; unfold slot; lia).
        assert ((slot b0 i 0 < b)%positive) by (rewrite Hnext; unfold slot; lia).
        split; [by rewrite list_lookup_insert_ne|].
        simpl Mem.objects. rewrite !lookup_insert_ne by lia. done.
    + intros x Hx1 Hx2 Hx. simpl in Hx.
      assert (x = arr ∨ x = b ∨ x = Pos.succ b ∨ x = Pos.succ (Pos.succ b) ∨
              is_Some (Mem.objects s !! x)) as Hcases.
      { repeat (rewrite lookup_insert_is_Some in Hx; destruct Hx as [<-|[_ Hx]]; [tauto|]).
        tauto. }
      destruct Hcases as [->|[->|[->|[->|Hold]]]]; [lia| | | |].
      * exists k, 0%nat. split; [lia|]. split; [lia|]. done.
      * exists k, 1%nat. split; [lia|]. split; [lia|]. by rewrite <- Hs1.
      * exists k, 2%nat. split; [lia|]. split; [lia|]. by rewrite <- Hs2.
      * destruct (Honly x Hx1 Hx2 Hold) as (i & j & Hi & Hj & ->). exists i, j.
        split; [lia | done].
Qed.

Lemma creating_start (shared : list (option ptr)) (own : nat → Layer) (s : Mem.store) :
  store_ok s → Mem.next_object s = b0 → Mem.objects s = O →
  Mem.objects s !! arr = Some (Mem.OPtrs l0) →
  creating shared own 0 s.
Proof.
  intros Hok Hnext HO Harr. split; [done|].
  split; [rewrite Hnext; by destruct (slot_next b0 0) as (_ & _ & _ & ->)|].
  split; [intros b _ _; by rewrite HO|].
  exists l0. split; [done|]. split; [done|]. split; [intros i Hi; lia|].
  intros b Hb1 _ Hb. destruct Hok as [Hwf _]. specialize (Hwf b Hb). lia.
Qed.

Lemma create_containers_no_cow_total :
  st_total (creating [] (λ _, create_ubuntu_layer) 0)
           (Mem.create_containers_no_cow (Addr arr) (Z.of_nat n))
           (λ _, creating [] (λ _, create_ubuntu_layer) n).
Proof.
  unfold Mem.create_containers_no_cow. rewrite Nat2Z.id.
  apply (st_total_for_loop (λ k, creating [] (λ _, create_ubuntu_layer) k) 0 n).
  intros k Hk. apply create_no_cow_body. lia.
Qed.

Lemma create_containers_cow_total (shared_ubuntu : ptr) :
  st_total (creating [Some shared_ubuntu] own_layer 0)
           (Mem.create_containers_cow (Addr arr) (Z.of_nat n) shared_ubuntu)
           (λ _, creating [Some shared_ubuntu] own_layer n).
Proof.
  unfold Mem.create_containers_cow. rewrite Nat2Z.id.
  apply (st_total_for_loop (λ k, creating [Some shared_ubuntu] own_layer k) 0 n).
  intros k Hk. apply create_cow_body. lia.
Qed.
End Created.

Lemma slot_region (b0 : positive) (n i k : nat) :
  (i < n)%nat → (k < 3)%nat → (b0 ≤ slot b0 i k)%positive ∧ (slot b0 i k < slot b0 n 0)%positive.
Proof. unfold slot. lia. Qed.

Section Cleanup.
Variable arr b0 : positive.
Variable l : list (option ptr).
Variable shared : list (option ptr).
Variable own : nat → Layer.
Variable n : nat.
Variable Oc : gmap positive Mem.object.
Variable nx : positive.
Variable pl : list bool.
Hypothesis arr_old : (arr < b0)%positive.

(** The state of a cleanup loop before iteration [k]: the containers from
    [k] on are left, and every block outside theirs is as in [Oc]. *)
Local Abbreviation cleaning k := (λ s : Mem.store,
  containers_at arr b0 l shared own n k n s ∧
  (∀ b, (b < b0)%positive ∨ (slot b0 n 0 ≤ b)%positive → Mem.objects s !! b = Oc !! b) ∧
  Mem.next_object s = nx ∧ Mem.plan s = pl).

(** One iteration of the cleanup loop that starts at the layer behind the
    shared ones: it frees the layer the container allocated, its array of
    layers and the container. *)
Lemma cleanup_body (k : nat) :
  (k < n)%nat →
  st_total (cleaning k)
    (let i := Z.of_nat k in
     c ← Mem.entry (Addr arr) i;
     m ← Mem.get_layer_count c;
     Mem.for_loop (length shared) (Z.to_nat (m - Z.of_nat (length shared))) (λ j,
       c ← Mem.entry (Addr arr) i;
       a ← Mem.get_layers c;
       ly ← Mem.entry a (Z.of_nat j);
       Mem.free ly);;
     c ← Mem.entry (Addr arr) i;
     a ← Mem.get_layers c;
     Mem.free a;;
     c ← Mem.entry (Addr arr) i;
     Mem.free c)
    (λ _, cleaning (S k)).
Proof.
  intros Hk s ((Harr & Hhave & Honly) & Hframe & Hnx & Hpl). cbv zeta.
  destruct (Hhave k ltac:(lia)) as (Hlk & Hc & Ha & Hly).
  assert (slot b0 k 0 ≠ arr ∧ slot b0 k 1 ≠ arr ∧ slot b0 k 2 ≠ arr ∧
          slot b0 k 0 ≠ slot b0 k 1 ∧ slot b0 k 0 ≠ slot b0 k 2 ∧
          slot b0 k 1 ≠ slot b0 k 2) as (? & ? & ? & ? & ? & ?) by (unfold slot; lia).
  erewrite st_bind_some; [|eapply mem_entry_ok; [lkd | exact Hlk]].
  erewrite st_bind_some; [|eapply mem_get_layer_count_ok; [lkd | reflexivity]].
  replace (Z.to_nat (Z.of_nat (S (length shared)) - Z.of_nat (length shared))) with 1%nat
    by lia.
  simpl Mem.for_loop.
  erewrite st_bind_some.
  2:{ erewrite st_bind_some.
      2:{ erewrite st_bind_some; [|eapply mem_entry_ok; [lkd | exact Hlk]].
          erewrite st_bind_some; [|eapply mem_get_layers_ok; [lkd | reflexivity]].
          erewrite st_bind_some.
          2:{ eapply mem_entry_ok; [lkd|]. simpl Mem.co_layers.
              rewrite lookup_app_r by lia. by rewrite Nat.sub_diag. }
          eapply mem_free_ok. lkd. }
      apply st_ret_unfold. }
  erewrite st_bind_some; [|eapply mem_entry_ok; [lkd | exact Hlk]].
  erewrite st_bind_some; [|eapply mem_get_layers_ok; [lkd | reflexivity]].
  erewrite st_bind_some; [|eapply mem_free_ok; lkd].
  erewrite st_bind_some; [|eapply mem_entry_ok; [lkd | exact Hlk]].
  eexists tt, _. split; [eapply mem_free_ok; lkd|].
  split; [split; [lkd|split]|split; [|done]].
  - intros i Hi. destruct (Hhave i ltac:(lia)) as (Hi1 & Hi2 & Hi3 & Hi4).
    split; [done|]. simpl Mem.objects.
    rewrite !lookup_delete_ne by (unfold slot; lia). done.
  - intros b Hb1 Hb2 Hb. simpl in Hb.
    rewrite !lookup_delete_is_Some in Hb. destruct Hb as (Hn0 & Hn1 & Hn2 & Hb).
    destruct (Honly b Hb1 Hb2 Hb) as (i & j & Hi & Hj & ->). exists i, j.
    split; [|done]. destruct (decide (i = k)) as [->|]; [|lia].
    assert (j = 0 ∨ j = 1 ∨ j = 2)%nat as [->|[->| ->]] by lia; done.
  - intros b Hb. simpl.
    destruct (slot_region b0 n k 0 Hk ltac:(lia)).
    destruct (slot_region b0 n k 1 Hk ltac:(lia)).
    destruct (slot_region b0 n k 2 Hk ltac:(lia)).
    rewrite !lookup_delete_ne by lia. by apply Hframe.
Qed.

Lemma cleanup_containers_total :
  st_total (cleaning 0)
           (Mem.cleanup_containers (length shared) (Addr arr) (Z.of_nat n))
           (λ _, cleaning n).
Proof.
  unfold Mem.cleanup_containers. rewrite Nat2Z.id.
  apply (st_total_for_loop (λ k, cleaning k) 0 n).
  intros k Hk. apply cleanup_body. lia.
Qed.

(** After the loop nothing is left of the containers. *)
Lemma cleaning_done (s : Mem.store) (b : positive) :
  cleaning n s →
  Mem.objects s !! b =
  if decide (b0 ≤ b < slot b0 n 0)%positive then None else Oc !! b.
Proof.
  intros ((Harr & Hhave & Honly) & Hframe & _). destruct (decide _) as [[Hb1 Hb2]|Hout].
  - destruct (Mem.objects s !! b) eqn:Hb; [|done].
    destruct (Honly b Hb1 Hb2 (mk_is_Some _ _ Hb)) as (i & j & Hi & _). lia.
  - apply Hframe. lia.
Qed.
End Cleanup.

(** A store that agrees with [s] on the array and on the blocks of the
    containers holds the same containers. *)
Lemma containers_at_agree (arr b0 : positive) (l shared : list (option ptr))
    (own : nat → Layer) (n lo hi : nat) (s s' : Mem.store) :
  containers_at arr b0 l shared own n lo hi s → (hi ≤ n)%nat →
  (∀ b, b = arr ∨ (b0 ≤ b)%positive ∧ (b < slot b0 n 0)%positive →
        Mem.objects s' !! b = Mem.objects s !! b) →
  containers_at arr b0 l shared own n lo hi s'.
Proof.
  intros (Harr & Hhave & Honly) Hhi Hagree. split; [rewrite Hagree; [done | by left]|].
  split.
  - intros i Hi. destruct (Hhave i Hi) as (H1 & H2 & H3 & H4).
    split; [done|].
    rewrite !Hagree by (right; apply slot_region; lia). done.
  - intros b Hb1 Hb2 Hb. rewrite Hagree in Hb by (right; done). by apply Honly.
Qed.

(** The storage calculation on containers that exist: it adds the size of
    the layer each container allocated, and leaves the store alone. *)
Lemma sum_containers_created (arr b0 : positive) (l shared : list (option ptr))
    (own : nat → Layer) (n : nat) (L : Z) (s : Mem.store) :
  containers_at arr b0 l shared own n 0 n s → (∀ i, size_mb (own i) = L) →
  ∀ count i t, (i + count ≤ n)%nat →
    Mem.sum_containers (length shared) (Addr arr) i count (t mod SIZE_MODULUS) s =
    Some ((t + Z.of_nat count * L) mod SIZE_MODULUS, s).
Proof.
  intros (Harr & Hhave & _) Hown. induction count as [|k IH]; intros i t Hi.
  - simpl. rewrite st_ret_unfold. do 3 f_equal. lia.
  - simpl Mem.sum_containers.
    destruct (Hhave i ltac:(lia)) as (Hlk & Hc & Ha & Hly).
    erewrite st_bind_some; [|eapply mem_entry_ok; [exact Harr | exact Hlk]].
    erewrite st_bind_some; [|eapply mem_get_layer_count_ok; [exact Hc | reflexivity]].
    replace (Z.to_nat (Z.of_nat (S (length shared)) - Z.of_nat (length shared))) with 1%nat
      by lia.
    simpl Mem.sum_layers.
    erewrite st_bind_some.
    2:{ erewrite st_bind_some; [|eapply mem_entry_ok; [exact Harr | exact Hlk]].
        erewrite st_bind_some; [|eapply mem_get_layers_ok; [exact Hc | reflexivity]].
        erewrite st_bind_some.
        2:{ eapply mem_entry_ok; [exact Ha|]. rewrite lookup_app_r by lia.
            by rewrite Nat.sub_diag. }
        erewrite st_bind_some; [|eapply mem_get_size_mb_ok; exact Hly].
        apply st_ret_unfold. }
    rewrite Hown, size_t_add_mod, IH by lia. do 3 f_equal. lia.
Qed.

(** ** main of containerStorage.c *)

Lemma store_ok_fresh (s : Mem.store) (b : positive) :
  store_ok s → (Mem.next_object s ≤ b)%positive → Mem.objects s !! b = None.
Proof.
  intros [Hwf _] Hb. destruct (Mem.objects s !! b) eqn:Hlk; [|done].
  specialize (Hwf b (mk_is_Some _ _ Hlk)). lia.
Qed.

Lemma store_ok_malloc (o : Mem.object) (s : Mem.store) :
  store_ok s →
  store_ok (Mem.Store (<[Mem.next_object s := o]> (Mem.objects s))
                      (Pos.succ (Mem.next_object s)) []).
Proof.
  intros [Hwf Hplan]. split; [|done]. intros b Hb. simpl in *.
  rewrite lookup_insert_is_Some in Hb. destruct Hb as [<-|[_ Hb]]; [lia|].
  specialize (Hwf b Hb). lia.
Qed.

(** main, for any number of containers: it returns the two totals, and
    when it returns every object it allocated is freed again. *)
Lemma main_for_total (n : nat) (s0 : Mem.store) :
  store_ok s0 → (1 ≤ n)%nat → Z.of_nat n ≤ INT_MAX →
  ∃ s', Mem.main_for (Z.of_nat n) s0 =
          Some ((120 * Z.of_nat n, 120 + 3 * Z.of_nat n), s') ∧
        Mem.objects s' = Mem.objects s0.
Proof.
  intros Hok0 Hpos Hn. pose proof Hok0 as [Hwf0 Hplan0].
  unfold Mem.main_for, Mem.pointers. rewrite Nat2Z.id.
  set (a1 := Mem.next_object s0). set (b1 := Pos.succ a1).
  rewrite (st_bind_some _ _ _ _ _ (mem_malloc_ok _ s0 Hplan0)). fold a1 b1.
  set (s1 := Mem.Store _ b1 []).
  assert (store_ok s1) as Hok1 by apply (store_ok_malloc _ s0 Hok0).
  (* the containers without sharing *)
  destruct (create_containers_no_cow_total a1 b1 (replicate n None) (Mem.objects s1) n
              ltac:(unfold b1; lia) ltac:(by rewrite length_replicate) s1)
    as ([] & s2 & Hrun2 & Hok2 & Hnext2 & Hframe2 & l1 & Hlen1 & Hat2).
  { apply creating_start; try done. - by rewrite length_replicate.
    - apply lookup_insert_eq. }
  rewrite (st_bind_some _ _ _ _ _ Hrun2).
  assert (Mem.calculate_storage_no_cow (Addr a1) (Z.of_nat n) s2 =
          Some (120 * Z.of_nat n, s2)) as Hcalc1.
  { unfold Mem.calculate_storage_no_cow. rewrite Nat2Z.id.
    change (Mem.sum_containers 0 (Addr a1) 0 n 0 s2)
      with (Mem.sum_containers (length (@nil (option ptr))) (Addr a1) 0 n
              (0 mod SIZE_MODULUS) s2).
    rewrite (sum_containers_created a1 b1 l1 [] _ n 120 s2 Hat2 (λ _, eq_refl) n 0 0
               ltac:(lia)).
    do 2 f_equal. rewrite Z.mod_small; [lia|]. unfold SIZE_MODULUS, INT_MAX in *. lia. }
  rewrite (st_bind_some _ _ _ _ _ Hcalc1).
  (* the shared layer and the containers that share it *)
  set (sh := Mem.next_object s2). set (a2 := Pos.succ sh). set (b2 := Pos.succ a2).
  pose proof Hok2 as [Hwf2 Hplan2].
  unfold Mem.create_ubuntu_layer.
  rewrite (st_bind_some _ _ _ _ _ (mem_create_layer_ok _ s2 Hplan2)). fold sh a2.
  set (s3 := Mem.Store _ a2 []).
  assert (store_ok s3) as Hok3 by apply (store_ok_malloc _ s2 Hok2).
  rewrite (st_bind_some _ _ _ _ _ (mem_malloc_ok _ s3 (proj2 Hok3))).
  change (Mem.next_object s3) with a2. fold b2.
  set (s4 := Mem.Store _ b2 []).
  assert (store_ok s4) as Hok4 by apply (store_ok_malloc _ s3 Hok3).
  destruct (create_containers_cow_total a2 b2 (replicate n None) (Mem.objects s4) n
              ltac:(unfold b2; lia) ltac:(by rewrite length_replicate) (Addr sh) s4)
    as ([] & s5 & Hrun5 & Hok5 & Hnext5 & Hframe5 & l2 & Hlen2 & Hat5).
  { apply creating_start; try done. - by rewrite length_replicate.
    - apply lookup_insert_eq. }
  rewrite (st_bind_some _ _ _ _ _ Hrun5).
  assert ((a1 < b1)%positive ∧ (b1 ≤ sh)%positive ∧ sh = slot b1 n 0 ∧
          (sh < a2)%positive ∧ (a2 < b2)%positive ∧ (b2 ≤ slot b2 n 0)%positive)
    as (Ho1 & Ho2 & Hsh & Ho3 & Ho4 & Ho5).
  { unfold b2, a2, sh. rewrite Hnext2. unfold b1, slot. lia. }
  (* what the second creation left of the first *)
  assert (∀ b, (b < b2)%positive → b ≠ a2 → b ≠ sh →
               Mem.objects s5 !! b = Mem.objects s2 !! b) as Hkeep5.
  { intros b Hb Hba Hbs. rewrite Hframe5 by done. simpl.
    rewrite lookup_insert_ne by done. by rewrite lookup_insert_ne. }
  assert (Mem.objects s5 !! sh = Some (Mem.OLayer (Some create_ubuntu_layer))) as Hsh5.
  { rewrite Hframe5 by lia. simpl. rewrite lookup_insert_ne by lia. apply lookup_insert_eq. }
  assert (Mem.calculate_storage_cow (Addr a2) (Z.of_nat n) (Addr sh) s5 =
          Some (120 + 3 * Z.of_nat n, s5)) as Hcalc2.
  { unfold Mem.calculate_storage_cow. rewrite Nat2Z.id.
    rewrite (st_bind_some _ _ _ _ _ (mem_get_size_mb_ok _ _ _ Hsh5)).
    change (Mem.sum_containers 1 (Addr a2) 0 n (size_mb create_ubuntu_layer) s5)
      with (Mem.sum_containers (length [Some (Addr sh)]) (Addr a2) 0 n
              (120 mod SIZE_MODULUS) s5).
    rewrite (sum_containers_created a2 b2 l2 [Some (Addr sh)] _ n 3 s5 Hat5 (λ _, eq_refl)
               n 0 120 ltac:(lia)).
    do 2 f_equal. rewrite Z.mod_small; [lia|]. unfold SIZE_MODULUS, INT_MAX in *. lia. }
  rewrite (st_bind_some _ _ _ _ _ Hcalc2).
  (* the quotient that is printed *)
  erewrite st_bind_some.
  2:{ unfold Mem.size_t_div, to_size_t.
      rewrite Z.mod_small by (unfold SIZE_MODULUS, INT_MAX in *; lia).
      rewrite (proj2 (Z.eqb_neq _ _)) by lia. apply st_ret_unfold. }
  (* cleanup of the containers without sharing *)
  assert (containers_at a1 b1 l1 [] (λ _, create_ubuntu_layer) n 0 n s5) as Hat5'.
  { apply (containers_at_agree _ _ _ _ _ _ _ _ s2); [done | lia|].
    intros b Hb. apply Hkeep5; lia. }
  destruct (cleanup_containers_total a1 b1 l1 [] (λ _, create_ubuntu_layer) n (Mem.objects s5)
              (Mem.next_object s5) [] Ho1 s5) as ([] & s6 & Hrun6 & Hcl6).
  { split; [exact Hat5'|]. split; [done|]. split; [done | by destruct Hok5]. }
  unfold Mem.cleanup_containers_no_cow.
  change 0%nat with (length (@nil (option ptr))) at 1.
  rewrite (st_bind_some _ _ _ _ _ Hrun6).
  pose proof (λ b, cleaning_done _ _ _ _ _ _ _ _ _ s6 b Hcl6) as Hdone6.
  (* cleanup of the containers that share *)
  destruct (cleanup_containers_total a2 b2 l2 [Some (Addr sh)] own_layer n (Mem.objects s6)
              (Mem.next_object s6) (Mem.plan s6) Ho4 s6) as ([] & s7 & Hrun7 & Hcl7).
  { split; [|done]. apply (containers_at_agree _ _ _ _ _ _ _ _ s5); [done | lia|].
    intros b Hb. rewrite Hdone6. rewrite decide_False; [done|]. rewrite <- Hsh. lia. }
  unfold Mem.cleanup_containers_cow.
  change 1%nat with (length [Some (Addr sh)]) at 1.
  rewrite (st_bind_some _ _ _ _ _ Hrun7).
  pose proof (λ b, cleaning_done _ _ _ _ _ _ _ _ _ s7 b Hcl7) as Hdone7.
  assert (∀ b, Mem.objects s7 !! b =
               if decide (b1 ≤ b < sh ∨ b2 ≤ b < slot b2 n 0)%positive then None
               else Mem.objects s5 !! b) as Hleft.
  { intros b. rewrite Hdone7, Hdone6, <- Hsh.
    destruct (decide (b2 ≤ b < slot b2 n 0)%positive) as [Hr2|Hr2].
    - by rewrite decide_True by (by right).
    - destruct (decide (b1 ≤ b < sh)%positive) as [Hr1|Hr1].
      + by rewrite decide_True by (by left).
      + rewrite decide_False; [done|]. tauto. }
  (* the three calls of free in main *)
  erewrite st_bind_some.
  2:{ eapply mem_free_ok. rewrite Hleft. rewrite decide_False by lia. exact Hsh5. }
  destruct Hat2 as (Harr2 & _).
  erewrite st_bind_some.
  2:{ eapply mem_free_ok. simpl. rewrite lookup_delete_ne by lia. rewrite Hleft.
      rewrite decide_False by lia. rewrite Hkeep5 by lia. exact Harr2. }
  destruct Hat5 as (Harr5 & _).
  erewrite st_bind_some.
  2:{ eapply mem_free_ok. simpl. rewrite !lookup_delete_ne by lia. rewrite Hleft.
      rewrite decide_False by lia. exact Harr5. }
  eexists. split; [reflexivity|]. simpl. apply map_eq. intros b.
  destruct (decide (b < a1)%positive) as [Hold|Hnew].
  - rewrite !lookup_delete_ne by lia. rewrite Hleft. rewrite decide_False by lia.
    rewrite Hkeep5 by lia. rewrite Hframe2 by lia. simpl. by rewrite lookup_insert_ne by lia.
  - rewrite (store_ok_fresh s0 b Hok0) by (fold a1; lia).
    destruct (decide (b = a2)) as [->|Ha2]; [apply lookup_delete_eq|].
    rewrite lookup_delete_ne by done.
    destruct (decide (b = a1)) as [->|Ha1]; [apply lookup_delete_eq|].
    rewrite lookup_delete_ne by done.
    destruct (decide (b = sh)) as [->|Hbs]; [apply lookup_delete_eq|].
    rewrite lookup_delete_ne by done. rewrite Hleft.
    destruct (decide _) as [|Hout]; [done|].
    apply (store_ok_fresh s5 b Hok5). rewrite Hnext5. lia.
Qed.

(** With no container main divides by zero when it prints the storage
    per container. *)
Lemma main_for_no_container (s0 : Mem.store) :
  store_ok s0 → Mem.main_for 0 s0 = None.
Proof.
  intros [_ Hplan]. unfold Mem.main_for, Mem.pointers, Mem.create_ubuntu_layer.
  rewrite (st_bind_some _ _ _ _ _ (mem_malloc_ok _ s0 Hplan)).
  unfold Mem.create_containers_no_cow, Mem.calculate_storage_no_cow.
  change (Z.to_nat 0) with 0%nat. cbn [Mem.for_loop Mem.sum_containers].
  rewrite (st_bind_some _ _ _ _ _ (st_ret_unfold _ _)).
  rewrite (st_bind_some _ _ _ _ _ (st_ret_unfold _ _)).
  erewrite st_bind_some; [|by apply mem_create_layer_ok].
  erewrite st_bind_some; [|by apply mem_malloc_ok].
  unfold Mem.create_containers_cow. change (Z.to_nat 0) with 0%nat. cbn [Mem.for_loop].
  rewrite (st_bind_some _ _ _ _ _ (st_ret_unfold _ _)).
  erewrite st_bind_some.
  2:{ unfold Mem.calculate_storage_cow. change (Z.to_nat 0) with 0%nat.
      cbn [Mem.sum_containers].
      erewrite st_bind_some; [apply st_ret_unfold|].
      eapply mem_get_size_mb_ok. simpl.
      rewrite lookup_insert_ne by lia. apply lookup_insert_eq. }
  apply st_bind_none. reflexivity.
Qed.

(** ** Sharing and copying of the base layer *)

(** containers[i]->layers[0] in a store that holds container [i]. *)
Lemma first_layer_at (arr b0 : positive) (l shared : list (option ptr)) (own : nat → Layer)
    (n i : nat) (p : ptr) (s : Mem.store) :
  containers_at arr b0 l shared own n 0 n s → (i < n)%nat →
  (shared ++ [Some (Addr (slot b0 i 2))]) !! 0%nat = Some (Some p) →
  (c ← Mem.entry (Addr arr) (Z.of_nat i); a ← Mem.get_layers c; Mem.entry a 0) s =
  Some (p, s).
Proof.
  intros (Harr & Hhave & _) Hi Hp. destruct (Hhave i ltac:(lia)) as (Hlk & Hc & Ha & _).
  erewrite st_bind_some; [|eapply mem_entry_ok; [exact Harr | exact Hlk]].
  erewrite st_bind_some; [|eapply mem_get_layers_ok; [exact Hc | reflexivity]].
  by apply (mem_entry_ok _ _ 0 p s Ha).
Qed.

Lemma created_by_cow (arr sh : positive) (l0 : list (option ptr)) (n : nat) (s : Mem.store) :
  store_ok s → Mem.objects s !! arr = Some (Mem.OPtrs l0) → (n ≤ length l0)%nat →
  ∃ s' l,
    Mem.create_containers_cow (Addr arr) (Z.of_nat n) (Addr sh) s = Some (tt, s') ∧
    store_ok s' ∧ Mem.next_object s' = slot (Mem.next_object s) n 0 ∧
    (∀ b, (b < Mem.next_object s)%positive → b ≠ arr →
          Mem.objects s' !! b = Mem.objects s !! b) ∧
    containers_at arr (Mem.next_object s) l [Some (Addr sh)] own_layer n 0 n s'.
Proof.
  intros Hok Harr Hlen.
  assert (arr < Mem.next_object s)%positive as Holder by (apply Hok; eauto).
  destruct (create_containers_cow_total arr (Mem.next_object s) l0 (Mem.objects s) n
              Holder Hlen (Addr sh) s) as ([] & s' & Hrun & Hok' & Hnext & Hframe & l & _ & Hat).
  { by apply creating_start. }
  by exists s', l.
Qed.

Lemma created_by_no_cow (arr : positive) (l0 : list (option ptr)) (n : nat) (s : Mem.store) :
  store_ok s → Mem.objects s !! arr = Some (Mem.OPtrs l0) → (n ≤ length l0)%nat →
  ∃ s' l,
    Mem.create_containers_no_cow (Addr arr) (Z.of_nat n) s = Some (tt, s') ∧
    store_ok s' ∧ Mem.next_object s' = slot (Mem.next_object s) n 0 ∧
    (∀ b, (b < Mem.next_object s)%positive → b ≠ arr →
          Mem.objects s' !! b = Mem.objects s !! b) ∧
    containers_at arr (Mem.next_object s) l [] (λ _, create_ubuntu_layer) n 0 n s'.
Proof.
  intros Hok Harr Hlen.
  assert (arr < Mem.next_object s)%positive as Holder by (apply Hok; eauto).
  destruct (create_containers_no_cow_total arr (Mem.next_object s) l0 (Mem.objects s) n
              Holder Hlen s) as ([] & s' & Hrun & Hok' & Hnext & Hframe & l & _ & Hat).
  { by apply creating_start. }
  by exists s', l.
Qed.

(** ** The wrong cleanup *)

(** One iteration of cleanup_containers_no_cow on a container whose layer
    0 is the shared one: it frees the shared layer as well, and is
    undefined when that layer is gone already. *)
Lemma cleanup_all_layers_body (arr c a ly sh : positive) (l : list (option ptr)) (k : nat)
    (cid : option string) (o : Mem.object) (s : Mem.store) :
  Mem.objects s !! arr = Some (Mem.OPtrs l) → l !! k = Some (Some (Addr c)) →
  Mem.objects s !! c = Some (Mem.OContainer (Mem.ContainerObj cid (Some (Addr a)) (Some 2))) →
  Mem.objects s !! a = Some (Mem.OPtrs [Some (Addr sh); Some (Addr ly)]) →
  Mem.objects s !! ly = Some o →
  arr ≠ sh → arr ≠ ly → arr ≠ a → c ≠ sh → c ≠ ly → c ≠ a → a ≠ sh → a ≠ ly → ly ≠ sh →
  (let i := Z.of_nat k in
   c ← Mem.entry (Addr arr) i;
   m ← Mem.get_layer_count c;
   Mem.for_loop 0 (Z.to_nat (m - Z.of_nat 0)) (λ j,
     c ← Mem.entry (Addr arr) i;
     a ← Mem.get_layers c;
     ly ← Mem.entry a (Z.of_nat j);
     Mem.free ly);;
   c ← Mem.entry (Addr arr) i;
   a ← Mem.get_layers c;
   Mem.free a;;
   c ← Mem.entry (Addr arr) i;
   Mem.free c) s =
  match Mem.objects s !! sh with
  | Some _ =>
      Some (tt, Mem.Store (delete c (delete a (delete ly (delete sh (Mem.objects s)))))
                          (Mem.next_object s) (Mem.plan s))
  | None => None
  end.
Proof.
  intros Harr Hlk Hc Ha Hly ? ? ? ? ? ? ? ? ?. cbv zeta.
  erewrite st_bind_some; [|eapply mem_entry_ok; [exact Harr | exact Hlk]].
  erewrite st_bind_some; [|eapply mem_get_layer_count_ok; [exact Hc | reflexivity]].
  change (Z.to_nat (2 - Z.of_nat 0)) with 2%nat. simpl Mem.for_loop.
  destruct (Mem.objects s !! sh) as [osh|] eqn:Hsh.
  - erewrite st_bind_some.
    2:{ erewrite st_bind_some.
        2:{ erewrite st_bind_some; [|eapply mem_entry_ok; [exact Harr | exact Hlk]].
            erewrite st_bind_some; [|eapply mem_get_layers_ok; [exact Hc | reflexivity]].
            erewrite st_bind_some; [|apply (mem_entry_ok _ _ 0 _ _ Ha); reflexivity].
            eapply mem_free_ok. exact Hsh. }
        erewrite st_bind_some.
        2:{ erewrite st_bind_some; [|eapply mem_entry_ok; [lkd | exact Hlk]].
            erewrite st_bind_some; [|eapply mem_get_layers_ok; [lkd | reflexivity]].
            erewrite st_bind_some; [|eapply (mem_entry_ok _ _ 1 (Addr ly)); [lkd | reflexivity]].
            eapply mem_free_ok. lkd. }
        apply st_ret_unfold. }
    erewrite st_bind_some; [|eapply mem_entry_ok; [lkd | exact Hlk]].
    erewrite st_bind_some; [|eapply mem_get_layers_ok; [lkd | reflexivity]].
    erewrite st_bind_some; [|eapply mem_free_ok; lkd].
    erewrite st_bind_some; [|eapply mem_entry_ok; [lkd | exact Hlk]].
    erewrite mem_free_ok; [reflexivity | lkd].
  - apply st_bind_none. apply st_bind_none.
    erewrite st_bind_some; [|eapply mem_entry_ok; [exact Harr | exact Hlk]].
    erewrite st_bind_some; [|eapply mem_get_layers_ok; [exact Hc | reflexivity]].
    erewrite st_bind_some; [|apply (mem_entry_ok _ _ 0 _ _ Ha); reflexivity].
    by apply mem_free_gone.
Qed.

(** ** The objects of containerStorage.c *)

Lemma empty_store_ok : store_ok (Mem.Store ∅ 1 []).
Proof. split; [|done]. intros b [o Hb]. simpl in Hb. by rewrite lookup_empty in Hb. Qed.

Lemma shared_store_ok : store_ok shared_store.
Proof.
  split; [|done]. intros b [o Hb]. unfold shared_store in *. simpl in *.
  apply lookup_insert_Some in Hb as [[<- _]|[_ Hb]]; [lia|].
  apply lookup_singleton_Some in Hb as [<- _]. lia.
Qed.

(** X14: main of containerStorage.c frees what it allocates.  For every
    number of containers from 1 to INT_MAX, and with every allocation
    succeeding, main returns; the two totals it prints are 120 for each
    container without sharing and 120 + 3 for each container with it; and
    when it returns the store holds the objects it held before: every
    Container, every array of layers, every Layer, the shared layer and
    the two arrays of containers were freed, each once. *)
Theorem main_frees_every_object (count : Z) (s : Mem.store) :
  store_ok s → 1 ≤ count ≤ INT_MAX →
  ∃ s', Mem.main_for count s = Some ((120 * count, 120 + 3 * count), s') ∧
        Mem.objects s' = Mem.objects s.
Proof.
  intros Hok Hcount. rewrite <- (Z2Nat.id count) by lia.
  apply main_for_total; [done | lia | lia].
Qed.

Lemma main_frees_every_object_witness :
  store_ok (Mem.Store ∅ 1 []) ∧ 1 ≤ CONTAINER_COUNT ≤ INT_MAX ∧
  ∃ s', Mem.main (Mem.Store ∅ 1 []) = Some ((1200, 150), s') ∧ Mem.objects s' = ∅.
Proof.
  assert (1 ≤ CONTAINER_COUNT ≤ INT_MAX) as H by (unfold CONTAINER_COUNT, INT_MAX; lia).
  split; [exact empty_store_ok|]. split; [exact H|].
  destruct (main_frees_every_object CONTAINER_COUNT (Mem.Store ∅ 1 []) empty_store_ok H)
    as (s' & Hrun & Hobjs).
  exists s'. split; [exact Hrun | exact Hobjs].
Defined.

(** X15: the base layer is shared by create_containers_cow and copied by
    create_containers_no_cow.  After create_containers_cow, layers[0] of
    every container is the pointer shared_ubuntu that was passed in, one
    Layer object for all of them, and that object is unchanged.  After
    create_containers_no_cow, layers[0] of every container points at a
    Layer of its own that did not exist before and holds the Ubuntu
    layer, and no two containers point at the same one. *)
Theorem base_layer_shared_or_copied (arr sh : positive) (l0 : list (option ptr)) (ly : Layer)
    (n : nat) (s : Mem.store) :
  store_ok s → Mem.objects s !! arr = Some (Mem.OPtrs l0) → (n ≤ length l0)%nat →
  Mem.objects s !! sh = Some (Mem.OLayer (Some ly)) →
  let first_layer (i : nat) : Mem.St ptr :=
    c ← Mem.entry (Addr arr) (Z.of_nat i); a ← Mem.get_layers c; Mem.entry a 0 in
  (∃ s', Mem.create_containers_cow (Addr arr) (Z.of_nat n) (Addr sh) s = Some (tt, s') ∧
         Mem.objects s' !! sh = Some (Mem.OLayer (Some ly)) ∧
         ∀ i, (i < n)%nat → first_layer i s' = Some (Addr sh, s')) ∧
  (∃ s' (own : nat → positive),
     Mem.create_containers_no_cow (Addr arr) (Z.of_nat n) s = Some (tt, s') ∧
     (∀ i, (i < n)%nat →
        first_layer i s' = Some (Addr (own i), s') ∧
        Mem.objects s !! own i = None ∧
        Mem.objects s' !! own i = Some (Mem.OLayer (Some create_ubuntu_layer))) ∧
     (∀ i j, (i < n)%nat → (j < n)%nat → i ≠ j → own i ≠ own j)).
Proof.
  intros Hok Harr Hlen Hsh first_layer.
  assert (arr ≠ sh) as Has by (intros ->; congruence).
  assert (sh < Mem.next_object s)%positive as Hsh_old by (apply Hok; eauto).
  split.
  - destruct (created_by_cow arr sh l0 n s Hok Harr Hlen)
      as (s' & l & Hrun & _ & _ & Hframe & Hat).
    exists s'. split; [exact Hrun|]. split; [rewrite Hframe by done; exact Hsh|].
    intros i Hi.
    by apply (first_layer_at arr (Mem.next_object s) l [Some (Addr sh)] own_layer n i).
  - destruct (created_by_no_cow arr l0 n s Hok Harr Hlen)
      as (s' & l & Hrun & _ & _ & _ & Hat).
    exists s', (λ i, slot (Mem.next_object s) i 2). split; [exact Hrun|]. split.
    + intros i Hi. split.
      { by apply (first_layer_at arr (Mem.next_object s) l [] (λ _, create_ubuntu_layer) n i). }
      split; [apply store_ok_fresh; [done | unfold slot; lia]|].
      destruct Hat as (_ & Hhave & _). by destruct (Hhave i ltac:(lia)) as (_ & _ & _ & Hly).
    + intros i j _ _ Hij Heq. apply slot_inj in Heq; lia.
Qed.

Lemma base_layer_shared_or_copied_witness :
  store_ok shared_store ∧
  ∃ s', Mem.create_containers_cow (Addr 1) 3 (Addr 2) shared_store = Some (tt, s') ∧
        ∀ i, (i < 3)%nat →
          (c ← Mem.entry (Addr 1) (Z.of_nat i); a ← Mem.get_layers c; Mem.entry a 0) s'
          = Some (Addr 2, s').
Proof.
  split; [exact shared_store_ok|].
  destruct (base_layer_shared_or_copied 1 2 (replicate 3 None) create_ubuntu_layer 3
              shared_store shared_store_ok) as [(s' & Hrun & _ & Hfirst) _].
  - reflexivity.
  - simpl. lia.
  - reflexivity.
  - exists s'. split; [exact Hrun | exact Hfirst].
Defined.

(** X16: cleanup_containers_no_cow must not be used on containers that
    share their base layer.  It frees layers[0] of every container, so on
    the containers create_containers_cow built it frees the shared layer
    with the first container: for one container it returns with the
    shared layer gone, so the free(shared_ubuntu) of main is then
    undefined, and for two or more it frees the shared layer a second
    time, which is undefined behaviour. *)
Theorem wrong_cleanup_frees_shared_layer (arr sh : positive) (l0 : list (option ptr))
    (ly : Layer) (n : nat) (s : Mem.store) :
  store_ok s → Mem.objects s !! arr = Some (Mem.OPtrs l0) → (n ≤ length l0)%nat →
  Mem.objects s !! sh = Some (Mem.OLayer (Some ly)) →
  (n = 1%nat →
     ∃ s', (Mem.create_containers_cow (Addr arr) (Z.of_nat n) (Addr sh);;
            Mem.cleanup_containers_no_cow (Addr arr) (Z.of_nat n)) s = Some (tt, s') ∧
           Mem.objects s' !! sh = None ∧ Mem.free (Addr sh) s' = None) ∧
  ((2 ≤ n)%nat →
     (Mem.create_containers_cow (Addr arr) (Z.of_nat n) (Addr sh);;
      Mem.cleanup_containers_no_cow (Addr arr) (Z.of_nat n)) s = None).
Proof.
  intros Hok Harr Hlen Hsh.
  assert (arr ≠ sh) as Has by (intros ->; congruence).
  assert (arr < Mem.next_object s ∧ sh < Mem.next_object s)%positive as [Harr_old Hsh_old].
  { split; apply Hok; eauto. }
  destruct (created_by_cow arr sh l0 n s Hok Harr Hlen)
    as (s' & l & Hrun & Hok' & Hnext & Hframe & Harr' & Hhave & _).
  set (b0 := Mem.next_object s) in *.
  assert (Mem.objects s' !! sh = Some (Mem.OLayer (Some ly))) as Hsh'
    by (rewrite Hframe by done; exact Hsh).
  assert (∀ i k, (b0 ≤ slot b0 i k)%positive) as Hslot by (intros; unfold slot; lia).
  assert (∀ i k, slot b0 i k ≠ arr ∧ slot b0 i k ≠ sh) as Hne.
  { intros i k. specialize (Hslot i k). lia. }
  rewrite (st_bind_some _ _ _ _ _ Hrun).
  unfold Mem.cleanup_containers_no_cow, Mem.cleanup_containers. rewrite Nat2Z.id.
  assert (∀ i, (i < n)%nat →
            slot b0 i 0 ≠ slot b0 i 1 ∧ slot b0 i 0 ≠ slot b0 i 2 ∧
            slot b0 i 1 ≠ slot b0 i 2) as Hdiff by (intros; unfold slot; lia).
  assert (∀ i, (i < n)%nat → ∀ s1,
            (∀ k, (k < 3)%nat → Mem.objects s1 !! slot b0 i k = Mem.objects s' !! slot b0 i k) →
            Mem.objects s1 !! arr = Mem.objects s' !! arr →
            (let j := Z.of_nat i in
             c ← Mem.entry (Addr arr) j;
             m ← Mem.get_layer_count c;
             Mem.for_loop 0 (Z.to_nat (m - Z.of_nat 0)) (λ q,
               c ← Mem.entry (Addr arr) j;
               a ← Mem.get_layers c;
               ly ← Mem.entry a (Z.of_nat q);
               Mem.free ly);;
             c ← Mem.entry (Addr arr) j;
             a ← Mem.get_layers c;
             Mem.free a;;
             c ← Mem.entry (Addr arr) j;
             Mem.free c) s1 =
            match Mem.objects s1 !! sh with
            | Some _ =>
                Some (tt, Mem.Store (delete (slot b0 i 0) (delete (slot b0 i 1)
                                       (delete (slot b0 i 2) (delete sh (Mem.objects s1)))))
                                    (Mem.next_object s1) (Mem.plan s1))
            | None => None
            end) as Hbody.
  { intros i Hi s1 Hsame Hsame_arr.
    destruct (Hhave i ltac:(lia)) as (Hlk & Hc & Ha & Hly).
    destruct (Hdiff i Hi) as (? & ? & ?).
    destruct (Hne i 0%nat), (Hne i 1%nat), (Hne i 2%nat).
    eapply (cleanup_all_layers_body arr (slot b0 i 0) (slot b0 i 1) (slot b0 i 2) sh l i);
      [by rewrite Hsame_arr | exact Hlk | rewrite Hsame by lia; exact Hc
      | rewrite Hsame by lia; exact Ha | rewrite Hsame by lia; exact Hly
      | congruence..]. }
  split.
  - intros ->. cbn [Mem.for_loop].
    erewrite st_bind_some.
    2:{ etrans; [apply (Hbody 0%nat ltac:(lia) s'); done|]. by rewrite Hsh'. }
    rewrite st_ret_unfold. eexists. split; [reflexivity|].
    assert (delete (slot b0 0 0) (delete (slot b0 0 1) (delete (slot b0 0 2)
              (delete sh (Mem.objects s')))) !! sh = None) as Hgone.
    { rewrite !lookup_delete_ne by apply Hne. apply lookup_delete_eq. }
    split; [exact Hgone | by apply mem_free_gone].
  - intros Hn. destruct n as [|[|m]]; [lia | lia |]. cbn [Mem.for_loop].
    erewrite st_bind_some.
    2:{ etrans; [apply (Hbody 0%nat ltac:(lia) s'); done|]. by rewrite Hsh'. }
    apply st_bind_none.
    etrans; [apply (Hbody 1%nat ltac:(lia))|].
    + intros k Hk. simpl Mem.objects.
      rewrite !lookup_delete_ne
        by first [apply Hne | apply not_eq_sym; apply Hne | unfold slot; lia]. done.
    + simpl Mem.objects.
      rewrite !lookup_delete_ne
        by first [apply Hne | apply not_eq_sym; apply Hne | congruence]. done.
    + simpl Mem.objects. rewrite !lookup_delete_ne by apply Hne. by rewrite lookup_delete_eq.
Qed.

Lemma wrong_cleanup_frees_shared_layer_witness :
  store_ok shared_store ∧
  (Mem.create_containers_cow (Addr 1) 3 (Addr 2);;
   Mem.cleanup_containers_no_cow (Addr 1) 3) shared_store = None.
Proof.
  split; [exact shared_store_ok|].
  destruct (wrong_cleanup_frees_shared_layer 1 2 (replicate 3 None) create_ubuntu_layer 3
              shared_store shared_store_ok) as [_ Hdouble].
  - reflexivity.
  - simpl. lia.
  - reflexivity.
  - apply Hdouble. lia.
Defined.

(** X17: containerStorage.c checks no result of malloc.  When the next
    allocation fails, create_ubuntu_layer and create_container_layer write
    the fields of a Layer through NULL, and both create functions, asked
    for at least one container, write the id of a Container through NULL:
    each of them is undefined behaviour. *)
Theorem failed_allocation_is_dereferenced (arr sh : ptr) (n : nat) (i : Z) (s : Mem.store)
    (o : list bool) :
  Mem.plan s = false :: o →
  Mem.create_ubuntu_layer s = None ∧ Mem.create_container_layer i s = None ∧
  Mem.create_containers_no_cow arr (Z.of_nat (S n)) s = None ∧
  Mem.create_containers_cow arr (Z.of_nat (S n)) sh s = None.
Proof.
  intros Hplan.
  assert (∀ ob, Mem.malloc ob s = Some (NULL, Mem.Store (Mem.objects s) (Mem.next_object s) o))
    as Hmalloc by (intros ob; unfold Mem.malloc; by rewrite Hplan).
  assert (∀ (k : ptr → Mem.St unit) s1,
            (∀ s2, k NULL s2 = None) →
            (Mem.set_entry arr (Z.of_nat 0) NULL;; c ← Mem.entry arr (Z.of_nat 0); k c) s1 = None)
    as Hentry.
  { intros k s1 Hk. destruct arr as [|a]; [reflexivity|].
    destruct (Mem.objects s1 !! a) as [ob|] eqn:Ha.
    - destruct ob as [ly|co|l].
      + apply st_bind_none. unfold Mem.set_entry.
        by rewrite (st_bind_some _ _ _ _ _ (mem_load_ok _ _ _ Ha)).
      + apply st_bind_none. unfold Mem.set_entry.
        by rewrite (st_bind_some _ _ _ _ _ (mem_load_ok _ _ _ Ha)).
      + destruct (decide (0 < length l)%nat) as [Hl|Hl].
        * rewrite (st_bind_some _ _ _ _ _ (mem_set_entry_ok a l 0 NULL s1 Ha Hl)).
          erewrite st_bind_some; [apply Hk|].
          apply (mem_entry_ok a (<[0%nat := Some NULL]> l) 0 NULL); [apply lookup_insert_eq|].
          by apply list_lookup_insert_eq.
        * apply st_bind_none. unfold Mem.set_entry.
          rewrite (st_bind_some _ _ _ _ _ (mem_load_ok _ _ _ Ha)). simpl.
          by rewrite bool_decide_eq_false_2.
    - apply st_bind_none. unfold Mem.set_entry. apply st_bind_none.
      unfold Mem.load. by rewrite Ha. }
  split; [|split; [|split]].
  - unfold Mem.create_ubuntu_layer. by rewrite (st_bind_some _ _ _ _ _ (Hmalloc _)).
  - unfold Mem.create_container_layer. by rewrite (st_bind_some _ _ _ _ _ (Hmalloc _)).
  - unfold Mem.create_containers_no_cow. rewrite Nat2Z.id. cbn [Mem.for_loop].
    apply st_bind_none. cbv zeta. rewrite (st_bind_some _ _ _ _ _ (Hmalloc _)).
    apply (Hentry (λ c, Mem.set_id c _;; _)). intros s2. by apply st_bind_none.
  - unfold Mem.create_containers_cow. rewrite Nat2Z.id. cbn [Mem.for_loop].
    apply st_bind_none. cbv zeta. rewrite (st_bind_some _ _ _ _ _ (Hmalloc _)).
    apply (Hentry (λ c, Mem.set_id c _;; _)). intros s2. by apply st_bind_none.
Qed.

Lemma failed_allocation_is_dereferenced_witness :
  Mem.create_ubuntu_layer (Mem.Store ∅ 1 [false]) = None ∧
  Mem.create_containers_cow (Addr 1) 10 (Addr 2)
    (Mem.Store (Mem.objects shared_store) 3 [false]) = None.
Proof.
  destruct (failed_allocation_is_dereferenced (Addr 1) (Addr 2) 9 0
              (Mem.Store ∅ 1 [false]) [] eq_refl) as (Hlayer & _).
  destruct (failed_allocation_is_dereferenced (Addr 1) (Addr 2) 9 0
              (Mem.Store (Mem.objects shared_store) 3 [false]) [] eq_refl)
    as (_ & _ & _ & Hcow).
  split; [exact Hlayer | exact Hcow].
Defined.

(** ** The payloads benchmark_cow holds at once *)

Lemma bind_assoc {A B C : Type} (m : M A) (f : A → M B) (g : B → M C) (w : world) :
  ((m ≫= f) ≫= g) w = (m ≫= λ a, f a ≫= g) w.
Proof. rewrite !bind_unfold. by destruct (m w). Qed.

Lemma benchmark_cow_split (rnd : nat → Z) (w : world) :
  benchmark_cow rnd w = (benchmark_cow_work rnd;; benchmark_cow_cleanup) w.
Proof.
  unfold benchmark_cow, benchmark_cow_work, benchmark_cow_cleanup.
  rewrite bind_assoc. rewrite !(bind_unfold (cow_create ARRAY_SIZE)).
  destruct (cow_create ARRAY_SIZE w) as [o w1|w1|c w1]; [|done..].
  rewrite bind_assoc. rewrite !(bind_unfold (set_var original o)).
  destruct (set_var original o w1) as [[] w2|w2|c w2]; [|done..].
  rewrite bind_assoc. rewrite !(bind_unfold (if bool_decide (data o = NULL) then _ else _)).
  destruct ((if bool_decide (data o = NULL) then exit 1 else mret ()) w2)
    as [[] w3|w3|c w3]; [|done..].
  rewrite bind_assoc. rewrite !(bind_unfold (for_loop 0 (Z.to_nat ARRAY_SIZE) _)).
  destruct (for_loop 0 (Z.to_nat ARRAY_SIZE) _ w3) as [[] w4|w4|c w4]; [|done..].
  rewrite bind_assoc. rewrite !(bind_unfold (for_loop 0 (Z.to_nat NUM_COPIES) _)).
  destruct (for_loop 0 (Z.to_nat NUM_COPIES) _ w4) as [[] w5|w5|c w5]; [|done..].
  reflexivity.
Qed.

(** benchmark_cow_work leaves the original and every copy with a payload
    of its own. *)
Lemma benchmark_cow_work_total (rnd : nat → Z) (w : world) :
  wf w → oracle w = [] → (∀ n, 0 ≤ rnd n) →
  ∃ s w', benchmark_cow_work rnd w = Done tt w' ∧
          bench_state (next_block w) (heap w) (Z.to_nat NUM_COPIES) (Z.to_nat NUM_COPIES) s w'.
Proof.
  intros Hwf Ho Hrnd.
  set (d := next_block w). set (s0 := stores_made (events w)).
  set (N := Z.to_nat NUM_COPIES).
  assert (allocs_ok 2 w = true) as Hok by (unfold allocs_ok; by rewrite Ho).
  unfold benchmark_cow_work. fold N.
  rewrite (bind_done _ _ _ _ _ (cow_create_ok ARRAY_SIZE w Hok)).
  rewrite (bind_done _ _ _ _ _ (set_var_unfold _ _ _)).
  rewrite bool_decide_eq_false_2 by done. rewrite bind_unfold, ret_unfold. cbv iota.
  set (w1 := set_vars _ _).
  assert (bench_state d (heap w) 0 0 (s0 + 0) w1) as Hst.
  { split; [by apply wf_set_vars, wf_poke, wf_alloc, wf_alloc|].
    split; [unfold w1; simpl; by rewrite Ho|].
    split; [unfold w1, copy_data; simpl; fold d; lia|].
    split.
    { unfold w1. apply cell_poke_written with (Block sizeof_int ∅); [|done].
      simpl. apply lookup_insert_eq. }
    split.
    { exists d, (Block (size_t_mul (to_size_t ARRAY_SIZE) sizeof_int) ∅).
      split; [done|]. split; [|done].
      unfold w1. simpl. rewrite poke_lookup_ne by lia.
      rewrite lookup_insert_ne by (simpl; lia). apply lookup_insert_eq. }
    split; [apply lookup_insert_eq|].
    split; [intros j Hj; lia|]. split; [intros j Hj; lia|].
    split.
    { intros b Hb. unfold w1. simpl. rewrite poke_lookup_ne by (fold d; lia).
      rewrite lookup_insert_ne by (simpl; fold d; lia).
      by rewrite lookup_insert_ne by (fold d; lia). }
    unfold w1. simpl. rewrite !stores_made_cons. simpl. unfold s0. lia. }
  set (M := Z.to_nat (NUM_MODIFICATIONS - 1)).
  assert (Z.to_nat NUM_MODIFICATIONS = S M) as HM by (unfold M, NUM_MODIFICATIONS; lia).
  rewrite HM.
  set (prog := (_ ≫= _)).
  assert (total (bench_state d (heap w) 0 0 (s0 + 0)) prog
                (λ _, bench_state d (heap w) (0 + N) (0 + N)
                        (s0 + (0 + Z.to_nat ARRAY_SIZE) + (0 + N) * S M))) as Hrun.
  { unfold prog.
    eapply total_bind;
      [apply (init_loop_total rnd d (heap w) s0 0 (Z.to_nat ARRAY_SIZE)); lia|].
    intros [].
    eapply total_bind.
    { apply (copy_loop_total d (heap w) (s0 + (0 + Z.to_nat ARRAY_SIZE)) 0 N).
      unfold N, NUM_COPIES, INT_MAX. lia. }
    intros [].
    eapply total_conseq;
      [apply (modify_copies_total rnd Hrnd d (heap w) (0 + N) M
                (s0 + (0 + Z.to_nat ARRAY_SIZE)) 0 N)|..].
    - lia.
    - unfold N, NUM_COPIES, INT_MAX. lia.
    - intros w' Hw'. by rewrite Nat.mul_0_l, Nat.add_0_r.
    - intros a w' Hw'. exact Hw'. }
  destruct (Hrun w1 Hst) as ([] & w' & Hdone & Hst').
  eexists _, w'. split; [exact Hdone | exact Hst'].
Qed.

(** X18: benchmark_cow holds NUM_COPIES + 1 payloads at once.  When every
    allocation succeeds and rand is not negative, the part of
    benchmark_cow before the handles are released returns, and at that
    point the original and each of the NUM_COPIES copies has a payload
    block of its own of at least ARRAY_SIZE ints that was allocated by
    this run: as many full arrays as benchmark_traditional holds.  The
    rest of benchmark_cow is the release of these handles. *)
Theorem benchmark_cow_holds_every_payload (rnd : nat → Z) (w : world) :
  wf w → oracle w = [] → (∀ n, 0 ≤ rnd n) →
  ∃ w' (payload : nat → positive),
    benchmark_cow_work rnd w = Done tt w' ∧
    benchmark_cow rnd w = benchmark_cow_cleanup w' ∧
    (∃ d blk, vars w' !! original = Some (CowArray (Addr d) (Addr (Pos.succ d))) ∧
              heap w !! d = None ∧ heap w' !! d = Some blk ∧
              sizeof_int * ARRAY_SIZE ≤ blk_bytes blk ∧
              ∀ j, payload j ≠ d) ∧
    (∀ j, (j < Z.to_nat NUM_COPIES)%nat →
       ∃ r blk, vars w' !! copies j = Some (CowArray (Addr (payload j)) (Addr r)) ∧
                heap w !! payload j = None ∧ heap w' !! payload j = Some blk ∧
                sizeof_int * ARRAY_SIZE ≤ blk_bytes blk) ∧
    (∀ i j, i ≠ j → payload i ≠ payload j).
Proof.
  intros Hwf Ho Hrnd.
  destruct (benchmark_cow_work_total rnd w Hwf Ho Hrnd) as (s & w' & Hrun & Hst).
  exists w', (copy_data (next_block w)). split; [exact Hrun|].
  split; [by rewrite benchmark_cow_split, (bind_done _ _ _ _ _ Hrun)|].
  destruct Hst as (_ & _ & _ & _ & Hp & Hx & _ & Hown & _).
  split; [|split].
  - destruct Hp as (d0 & blk & [= <-] & Hblk & Hsize).
    exists (next_block w), blk. split; [exact Hx|]. split; [by apply wf_fresh|].
    split; [exact Hblk|]. split; [exact Hsize|]. intros j. unfold copy_data. lia.
  - intros j Hj. destruct (Hown j Hj) as [(Hxj & _) (dj & blk & [= <-] & Hblk & Hsize)].
    exists (Pos.succ (copy_data (next_block w) j)), blk. split; [exact Hxj|].
    split; [apply wf_unallocated; [done | unfold copy_data; lia]|].
    split; [exact Hblk | exact Hsize].
  - intros i j Hij. unfold copy_data. lia.
Qed.

Lemma benchmark_cow_holds_every_payload_witness :
  wf (init_world []) ∧
  ∃ w' (payload : nat → positive),
    benchmark_cow_work (λ _, 0) (init_world []) = Done tt w' ∧
    (∀ j, (j < 50)%nat →
       ∃ r blk, vars w' !! copies j = Some (CowArray (Addr (payload j)) (Addr r)) ∧
                heap w' !! payload j = Some blk ∧ 480000000 ≤ blk_bytes blk) ∧
    (∀ i j, i ≠ j → payload i ≠ payload j).
Proof.
  split; [apply wf_init|].
  destruct (benchmark_cow_holds_every_payload (λ _, 0) (init_world []) (wf_init [])
              eq_refl (λ _, Z.le_refl 0)) as (w' & payload & Hrun & _ & _ & Hcopies & Hinj).
  exists w', payload. split; [exact Hrun|]. split; [|exact Hinj].
  intros j Hj. destruct (Hcopies j Hj) as (r & blk & Hx & _ & Hblk & Hsize).
  exists r, blk. split; [exact Hx|]. split; [exact Hblk | exact Hsize].
Defined.

(** ** The other wrong cleanup *)

(** One iteration of cleanup_containers_cow on a container with a single
    layer: the inner loop does not run, so the layer stays allocated while
    the array that points at it and the container are freed. *)
Lemma cleanup_skips_first_layer (arr c a : positive) (l la : list (option ptr)) (k : nat)
    (cid : option string) (s : Mem.store) :
  Mem.objects s !! arr = Some (Mem.OPtrs l) → l !! k = Some (Some (Addr c)) →
  Mem.objects s !! c = Some (Mem.OContainer (Mem.ContainerObj cid (Some (Addr a)) (Some 1))) →
  Mem.objects s !! a = Some (Mem.OPtrs la) →
  arr ≠ a → arr ≠ c → c ≠ a →
  (let i := Z.of_nat k in
   c ← Mem.entry (Addr arr) i;
   m ← Mem.get_layer_count c;
   Mem.for_loop 1 (Z.to_nat (m - Z.of_nat 1)) (λ j,
     c ← Mem.entry (Addr arr) i;
     a ← Mem.get_layers c;
     ly ← Mem.entry a (Z.of_nat j);
     Mem.free ly);;
   c ← Mem.entry (Addr arr) i;
   a ← Mem.get_layers c;
   Mem.free a;;
   c ← Mem.entry (Addr arr) i;
   Mem.free c) s =
  Some (tt, Mem.Store (delete c (delete a (Mem.objects s))) (Mem.next_object s) (Mem.plan s)).
Proof.
  intros Harr Hlk Hc Ha ? ? ?. cbv zeta.
  erewrite st_bind_some; [|eapply mem_entry_ok; [exact Harr | exact Hlk]].
  erewrite st_bind_some; [|eapply mem_get_layer_count_ok; [exact Hc | reflexivity]].
  change (Z.to_nat (1 - Z.of_nat 1)) with 0%nat. cbn [Mem.for_loop].
  erewrite st_bind_some; [|apply st_ret_unfold].
  erewrite st_bind_some; [|eapply mem_entry_ok; [exact Harr | exact Hlk]].
  erewrite st_bind_some; [|eapply mem_get_layers_ok; [exact Hc | reflexivity]].
  erewrite st_bind_some; [|eapply mem_free_ok; exact Ha].
  erewrite st_bind_some; [|eapply mem_entry_ok; [lkd | exact Hlk]].
  erewrite mem_free_ok; [reflexivity | lkd].
Qed.

(** X19: cleanup_containers_cow leaks the base layers of containers built
    by create_containers_no_cow.  In a store where every allocation
    succeeds, creating [n] containers without sharing and releasing them
    with cleanup_containers_cow returns; the container and the array of
    layers of each are freed, but the Layer each container allocated is
    still in the store, and nothing older than the containers is freed. *)
Theorem cow_cleanup_leaks_base_layers (arr : positive) (l0 : list (option ptr)) (n : nat)
    (s : Mem.store) :
  store_ok s → Mem.objects s !! arr = Some (Mem.OPtrs l0) → (n ≤ length l0)%nat →
  ∃ s', (Mem.create_containers_no_cow (Addr arr) (Z.of_nat n);;
         Mem.cleanup_containers_cow (Addr arr) (Z.of_nat n)) s = Some (tt, s') ∧
        (∀ i, (i < n)%nat →
           Mem.objects s !! slot (Mem.next_object s) i 2 = None ∧
           Mem.objects s' !! slot (Mem.next_object s) i 2
             = Some (Mem.OLayer (Some create_ubuntu_layer)) ∧
           Mem.objects s' !! slot (Mem.next_object s) i 0 = None ∧
           Mem.objects s' !! slot (Mem.next_object s) i 1 = None) ∧
        (∀ b, (b < Mem.next_object s)%positive → b ≠ arr →
              Mem.objects s' !! b = Mem.objects s !! b).
Proof.
  intros Hok Harr Hlen.
  assert (arr < Mem.next_object s)%positive as Harr_old by (apply Hok; eauto).
  destruct (created_by_no_cow arr l0 n s Hok Harr Hlen)
    as (s1 & l & Hrun & Hok1 & Hnext & Hframe & Harr1 & Hhave & _).
  set (b0 := Mem.next_object s) in *.
  rewrite (st_bind_some _ _ _ _ _ Hrun).
  unfold Mem.cleanup_containers_cow, Mem.cleanup_containers. rewrite Nat2Z.id.
  set (Inv := λ (k : nat) (t : Mem.store),
         Mem.objects t !! arr = Some (Mem.OPtrs l) ∧
         (∀ i, (k ≤ i < n)%nat → ∀ j, (j < 2)%nat →
            Mem.objects t !! slot b0 i j = Mem.objects s1 !! slot b0 i j) ∧
         (∀ i, (i < n)%nat → Mem.objects t !! slot b0 i 2 = Mem.objects s1 !! slot b0 i 2) ∧
         (∀ i, (i < k)%nat → Mem.objects t !! slot b0 i 0 = None ∧
                             Mem.objects t !! slot b0 i 1 = None) ∧
         (∀ b, (b < b0)%positive → Mem.objects t !! b = Mem.objects s1 !! b)).
  assert (Inv 0%nat s1) as Hstart.
  { split; [exact Harr1|]. split; [done|]. split; [done|]. split; [|done]. intros i Hi. lia. }
  destruct (st_total_for_loop Inv 0 n
              (λ k, let i := Z.of_nat k in
                 c ← Mem.entry (Addr arr) i;
                 m ← Mem.get_layer_count c;
                 Mem.for_loop 1 (Z.to_nat (m - Z.of_nat 1)) (λ j,
                   c ← Mem.entry (Addr arr) i;
                   a ← Mem.get_layers c;
                   ly ← Mem.entry a (Z.of_nat j);
                   Mem.free ly);;
                 c ← Mem.entry (Addr arr) i;
                 a ← Mem.get_layers c;
                 Mem.free a;;
                 c ← Mem.entry (Addr arr) i;
                 Mem.free c)) with (s := s1) as ([] & s' & Hclean & Hend); [|exact Hstart|].
  { intros k Hk t (Ht_arr & Ht_left & Ht_layer & Ht_gone & Ht_frame).
    destruct (Hhave k ltac:(lia)) as (Hlk & Hc & Ha & _).
    eexists tt, _. split.
    - eapply (cleanup_skips_first_layer arr (slot b0 k 0) (slot b0 k 1) l);
        [exact Ht_arr | exact Hlk | rewrite Ht_left by lia; exact Hc
        | rewrite Ht_left by lia; exact Ha | unfold slot; lia..].
    - split; [simpl; rewrite !lookup_delete_ne by (unfold slot; lia); exact Ht_arr|].
      split.
      { intros i Hi j Hj. simpl. rewrite !lookup_delete_ne by (unfold slot; lia).
        apply Ht_left; lia. }
      split.
      { intros i Hi. simpl. rewrite !lookup_delete_ne by (unfold slot; lia).
        by apply Ht_layer. }
      split.
      { intros i Hi. simpl. destruct (decide (i = k)) as [->|Hne].
        - split; [apply lookup_delete_eq|].
          rewrite lookup_delete_ne by (unfold slot; lia). apply lookup_delete_eq.
        - rewrite !lookup_delete_ne by (unfold slot; lia). apply Ht_gone. lia. }
      intros b Hb. simpl. rewrite !lookup_delete_ne by (unfold slot; lia).
      by apply Ht_frame. }
  exists s'. split; [exact Hclean|].
  destruct Hend as (_ & _ & Hlayer & Hgone & Hold). split.
  - intros i Hi. destruct (Hhave i ltac:(lia)) as (_ & _ & _ & Hly).
    split; [apply eq_None_not_Some; intros Hsome; apply Hok in Hsome; unfold slot in Hsome; lia|].
    split; [rewrite Hlayer by done; exact Hly|]. apply Hgone. lia.
  - intros b Hb Hne. rewrite Hold by done. by apply Hframe.
Qed.

Lemma cow_cleanup_leaks_base_layers_witness :
  store_ok shared_store ∧
  ∃ s', (Mem.create_containers_no_cow (Addr 1) 3;;
         Mem.cleanup_containers_cow (Addr 1) 3) shared_store = Some (tt, s') ∧
        ∀ i, (i < 3)%nat →
          Mem.objects s' !! slot 3 i 2 = Some (Mem.OLayer (Some create_ubuntu_layer)).
Proof.
  split; [exact shared_store_ok|].
  destruct (cow_cleanup_leaks_base_layers 1 (replicate 3 None) 3 shared_store shared_store_ok)
    as (s' & Hrun & Hleak & _).
  - reflexivity.
  - simpl. lia.
  - exists s'. split; [exact Hrun|]. intros i Hi. exact (proj1 (proj2 (Hleak i Hi))).
Defined.

(** ** The benchmarks, one after the other *)

Global Instance ready_stable : Stable ready.
Proof.
  split; unfold ready.
  - intros f w [Hwf Ho]. split; [by apply stable_vars | done].
  - intros b i v w [Hwf Ho]. split; [by apply stable_poke | done].
  - intros n w [Hwf Ho]. split; [by apply stable_alloc | simpl; by rewrite Ho].
  - intros n w [Hwf Ho]. split; [by apply stable_alloc_fail | simpl; by rewrite Ho].
  - intros d s n w [Hwf Ho]. split; [by apply stable_blit | done].
  - intros b w Hb [Hwf Ho]. split; [by apply stable_free | done].
  - intros w [Hwf Ho]. split; [by apply (stable_rand (P := wf)) | done].
Qed.

Lemma keeps_ready_write_elem (x : nat) (index v : Z) : keeps ready (write_elem x index v).
Proof.
  unfold write_elem. apply keeps_bind; [apply (keeps_get_var ready)|]. intros h.
  apply keeps_bind; [|intros _; apply (keeps_store_int ready)].
  intros w [Hwf Ho]. split; [by apply wf_log_write | done].
Qed.

Lemma keeps_ready_modify_loop (rnd : nat → Z) (x count : nat) (made_unique : bool) :
  keeps ready (modify_loop rnd x count made_unique).
Proof.
  revert made_unique. induction count as [|k IH]; intros made_unique; [apply keeps_ret|].
  simpl. apply keeps_bind; [apply (keeps_rand ready)|]. intros r.
  apply keeps_bind.
  { destruct made_unique; [apply keeps_ret | apply (keeps_cow_ensure_unique ready)]. }
  intros _. apply keeps_bind; [apply (keeps_rand ready)|]. intros v.
  apply keeps_bind; [apply keeps_ready_write_elem|]. intros _. apply IH.
Qed.

Lemma keeps_ready_benchmark_cow (rnd : nat → Z) : keeps ready (benchmark_cow rnd).
Proof.
  unfold benchmark_cow.
  apply keeps_bind; [apply (keeps_cow_create ready)|]. intros o.
  apply keeps_bind; [apply (keeps_set_var ready)|]. intros _.
  apply keeps_bind; [destruct (bool_decide _); [apply keeps_exit | apply keeps_ret]|].
  intros _. apply keeps_bind.
  { apply (keeps_for_loop ready). intros i. apply keeps_bind; [apply (keeps_rand ready)|].
    intros v. apply keeps_ready_write_elem. }
  intros _. apply keeps_bind.
  { apply (keeps_for_loop ready). intros i. apply keeps_bind; [apply (keeps_get_var ready)|].
    intros h. apply keeps_bind; [apply (keeps_cow_copy ready)|]. intros c.
    apply (keeps_set_var ready). }
  intros _. apply keeps_bind.
  { apply (keeps_for_loop ready). intros i. apply keeps_ready_modify_loop. }
  intros _. apply keeps_bind; [apply (keeps_cow_free ready)|]. intros _.
  apply (keeps_for_loop ready). intros i. apply (keeps_cow_free ready).
Qed.

Lemma keeps_array_get (P : world → Prop) (a : ptr_array) (i : nat) : keeps P (array_get a i).
Proof. intros w HP. unfold array_get. by destruct (a !! i) as [[p|]|]. Qed.

Lemma keeps_make_copies (P : world → Prop) `{!Stable P} (original : ptr) (i count : nat)
    (copies : ptr_array) :
  keeps P (make_copies original i count copies).
Proof.
  revert i copies. induction count as [|k IH]; intros i copies; [apply keeps_ret|].
  simpl. apply keeps_bind; [apply (keeps_malloc P)|]. intros p.
  apply keeps_bind; [destruct (bool_decide _); [apply keeps_ret | by intros w HP]|].
  intros _. destruct (bool_decide (p = NULL)).
  - apply keeps_bind; [apply (keeps_free P)|]. intros _.
    apply keeps_bind; [|intros _; apply keeps_exit].
    apply (keeps_for_loop P). intros j.
    apply keeps_bind; [apply keeps_array_get|]. intros q. apply (keeps_free P).
  - apply keeps_bind; [apply (keeps_memcpy P)|]. intros _. apply IH.
Qed.

Lemma keeps_benchmark_traditional (P : world → Prop) `{!Stable P} (rnd : nat → Z) :
  keeps P (benchmark_traditional rnd).
Proof.
  unfold benchmark_traditional.
  apply keeps_bind; [apply (keeps_malloc P)|]. intros original.
  apply keeps_bind; [destruct (bool_decide _); [apply keeps_exit | apply keeps_ret]|].
  intros _. apply keeps_bind.
  { apply (keeps_for_loop P). intros i. apply keeps_bind; [apply (keeps_rand P)|].
    intros v. apply (keeps_store_int P). }
  intros _. apply keeps_bind; [apply (keeps_make_copies P)|]. intros copies.
  apply keeps_bind.
  { apply (keeps_for_loop P). intros i. apply (keeps_for_loop P). intros j.
    apply keeps_bind; [apply (keeps_rand P)|]. intros r.
    apply keeps_bind; [apply (keeps_rand P)|]. intros v.
    apply keeps_bind; [apply keeps_array_get|]. intros p. apply (keeps_store_int P). }
  intros _. apply keeps_bind; [apply (keeps_free P)|]. intros _.
  apply (keeps_for_loop P). intros i.
  apply keeps_bind; [apply keeps_array_get|]. intros p. apply (keeps_free P).
Qed.

(** One iteration of the loop of main. *)
Lemma benchmark_round_total (rnd : nat → Z) (H0 : gmap positive block) (c a f : nat) :
  (∀ n, 0 ≤ rnd n) →
  let N := Z.to_nat NUM_COPIES in
  total (λ w, ready w ∧ heap w = H0 ∧ tally c a f w)
        (benchmark_cow rnd;; benchmark_traditional rnd)
        (λ _ w, ready w ∧ heap w = H0 ∧
                tally (c + 2 * N) (a + (3 + 3 * N)) (f + (3 + 3 * N)) w).
Proof.
  intros Hrnd N w ([Hwf Ho] & Hheap & Hc & Ha & Hf).
  destruct (benchmark_cow_total rnd w Hwf Ho Hrnd) as (w1 & Hrun1 & Hheap1 & _).
  destruct (benchmark_cow_tally rnd w Hwf Ho Hrnd) as (w1' & Hrun1' & Hc1 & Ha1 & Hf1).
  rewrite Hrun1 in Hrun1'. injection Hrun1' as <-.
  pose proof (keeps_ready_benchmark_cow rnd w (conj Hwf Ho)) as Hready1.
  rewrite Hrun1 in Hready1. simpl in Hready1. destruct Hready1 as [Hwf1 Ho1].
  rewrite (bind_done _ _ _ _ _ Hrun1).
  pose proof (benchmark_traditional_outcome rnd w1 Hwf1 Hrnd) as Hout.
  pose proof (keeps_benchmark_traditional ready rnd w1 (conj Hwf1 Ho1)) as Hready2.
  cbv zeta in Hout.
  destruct (benchmark_traditional rnd w1) as [[] w2|w2|e w2]; [|done|].
  - destruct Hout as (_ & Hheap2 & Hc2 & Ha2 & Hf2).
    exists tt, w2. split; [done|]. split; [exact Hready2|].
    split; [congruence|]. fold N in Hc1, Ha1, Hf1, Hc2, Ha2, Hf2.
    split; [|split]; lia.
  - destruct Hout as (_ & _ & Hfail & _). unfold allocs_ok in Hfail.
    by rewrite Ho1 in Hfail.
Qed.

(** X20: the loop of main leaves no block behind.  When every allocation
    succeeds and rand never returns a negative number, the NUM_ITERATIONS
    rounds of benchmark_cow followed by benchmark_traditional all return,
    and the heap after the last round is the heap before the first.  The
    rounds together have called memcpy NUM_ITERATIONS * 2 * NUM_COPIES
    times, and have allocated and freed
    NUM_ITERATIONS * (3 * NUM_COPIES + 3) blocks. *)
Theorem benchmark_rounds_restore_heap (rnd : nat → Z) (w : world) :
  wf w → oracle w = [] → (∀ n, 0 ≤ rnd n) →
  let R := Z.to_nat NUM_ITERATIONS in
  let N := Z.to_nat NUM_COPIES in
  ∃ w', benchmark_rounds rnd w = Done tt w' ∧
        heap w' = heap w ∧ wf w' ∧
        copies_made (events w') = (copies_made (events w) + R * (2 * N))%nat ∧
        allocations (events w') = (allocations (events w) + R * (3 + 3 * N))%nat ∧
        frees (events w') = (frees (events w) + R * (3 + 3 * N))%nat.
Proof.
  intros Hwf Ho Hrnd R N.
  set (c := copies_made (events w)). set (a := allocations (events w)).
  set (f := frees (events w)).
  set (Inv := λ (k : nat) (v : world),
         ready v ∧ heap v = heap w ∧
         tally (c + k * (2 * N)) (a + k * (3 + 3 * N)) (f + k * (3 + 3 * N)) v).
  destruct (total_for_loop Inv 0 R (λ _, benchmark_cow rnd;; benchmark_traditional rnd))
    with (w := w) as ([] & w' & Hrun & [Hwf' _] & Hheap & Hc & Ha & Hf).
  - intros k _ v Hv.
    destruct (benchmark_round_total rnd (heap w) _ _ _ Hrnd v Hv)
      as ([] & v' & Hround & Hready & Hheap & Hc & Ha & Hf).
    exists tt, v'. split; [exact Hround|]. split; [exact Hready|]. split; [exact Hheap|].
    fold N in Hc, Ha, Hf. split; [|split]; lia.
  - split; [by split|]. split; [done|]. unfold tally, c, a, f. lia.
  - exists w'. split; [exact Hrun|]. split; [exact Hheap|]. split; [exact Hwf'|].
    simpl in Hc, Ha, Hf. by rewrite Hc, Ha, Hf.
Qed.

Lemma benchmark_rounds_restore_heap_witness :
  wf (init_world []) ∧
  ∃ w', benchmark_rounds (λ _, 0) (init_world []) = Done tt w' ∧
        heap w' = ∅ ∧ copies_made (events w') = 1000%nat ∧
        allocations (events w') = 1530%nat ∧ frees (events w') = 1530%nat.
Proof.
  split; [apply wf_init|].
  destruct (benchmark_rounds_restore_heap (λ _, 0) (init_world []) (wf_init []) eq_refl
              (λ _, Z.le_refl 0)) as (w' & Hrun & Hheap & _ & Hc & Ha & Hf).
  exists w'. split; [exact Hrun|]. split; [exact Hheap|].
  split; [exact Hc|]. split; [exact Ha | exact Hf].
Defined.
